(** * Extraction and ingestion pipeline: a shallow embedding

    The development follows the layout of the repository.

    The program:
    - [Py]         the fragment of the Python runtime the sources rely on
                   (text predicates, [int], [str.strip], [str.split], dicts
                   that keep insertion order, JSON-shaped values);
    - [Shake]      SHAKE-128 (FIPS 202), the function behind
                   [hashlib.shake_128];
    - [Re]         the backtracking matcher behind [re.search] and
                   [re.findall], for the constructs that occur in the three
                   patterns of [database/models.py];
    - [Config]     [helpers/config.py];
    - [Models]     [database/models.py];
    - [GitLab]     [extract/gitlab.py];
    - [CloudWatch] [extract/cloudwatch.py];
    - [Jira]       [extract/jira.py];
    - [Database]   [database/database.py].

    The statements:
    - [Text], [Rows], [Writer], [Pages], [Rounds]: their vocabulary;
    - [Fixtures], [Remote], [Service]: concrete inputs;
    - the modules whose names end in [Facts]: lemmas;
    - the theorems marked C1 to C10: the properties of the specification,
      each followed by its instance on a concrete input.

    Text is a [string] whose characters are read as the code points 0..255;
    Python text outside that range is not covered by the model.  The remote
    services are parameters: the version-control server answers a request
    by its address, the log service is a pair of functions over a state of
    its own. *)

From Stdlib Require Import String Ascii ZArith NArith Lia Bool DecimalString.
From stdpp Require Import gmap strings list fin_maps.

#[local] Set Warnings "-register-all".
#[local] Arguments String.append _ _ : simpl nomatch.
Local Open Scope string_scope.
Local Open Scope list_scope.

(* ===================================================================== *)
(** * The Python runtime fragment *)
(* ===================================================================== *)

Module Py.

Definition code (c : ascii) : N := N_of_ascii c.

(** [str.isdigit] / [\d] on code points below 256: only [0-9]. *)
Definition is_digit (c : ascii) : bool :=
  (48 <=? code c)%N && (code c <=? 57)%N.

(** Unicode white space below 256 ([str.isspace], [\s], [str.strip]). *)
Definition is_space (c : ascii) : bool :=
  ((9 <=? code c)%N && (code c <=? 13)%N)
  || ((28 <=? code c)%N && (code c <=? 32)%N)
  || (code c =? 133)%N || (code c =? 160)%N.

Definition is_upper (c : ascii) : bool :=
  (65 <=? code c)%N && (code c <=? 90)%N.

Definition is_lower (c : ascii) : bool :=
  (97 <=? code c)%N && (code c <=? 122)%N.

(** An ASCII letter. *)
Definition is_letter (c : ascii) : bool := is_upper c || is_lower c.

(** ASCII case folding, as [re.IGNORECASE] does it for ASCII letters. *)
Definition fold_case (c : ascii) : ascii :=
  if is_upper c then ascii_of_N (code c + 32) else c.

Definition digit_val (c : ascii) : Z := Z.of_N (code c) - 48.

Fixpoint all_chars (p : ascii -> bool) (s : string) : bool :=
  match s with
  | EmptyString => true
  | String c s' => p c && all_chars p s'
  end.

Fixpoint any_char (p : ascii -> bool) (s : string) : bool :=
  match s with
  | EmptyString => false
  | String c s' => p c || any_char p s'
  end.

(** Value of a run of decimal digits, most significant first. *)
Fixpoint digits_val (acc : Z) (s : string) : Z :=
  match s with
  | EmptyString => acc
  | String c s' => digits_val (10 * acc + digit_val c) s'
  end.

(** Dropping the characters of a class from the left, from the right and
    from both ends. *)
Fixpoint lstrip (p : ascii -> bool) (s : string) : string :=
  match s with
  | String c s' => if p c then lstrip p s' else s
  | EmptyString => EmptyString
  end.

Definition rev_string (s : string) : string :=
  string_of_list_ascii (rev (list_ascii_of_string s)).

Definition rstrip (p : ascii -> bool) (s : string) : string :=
  rev_string (lstrip p (rev_string s)).

Definition strip_of (p : ascii -> bool) (s : string) : string :=
  rstrip p (lstrip p s).

(** [str.strip()] with no argument. *)
Definition strip (s : string) : string := strip_of is_space s.

(** The white space that [int] drops around a literal: that of
    [str.isspace] without the four separators 28..31. *)
Definition is_int_space (c : ascii) : bool :=
  ((9 <=? code c)%N && (code c <=? 13)%N)
  || (code c =? 32)%N || (code c =? 133)%N || (code c =? 160)%N.

(** The digit part of an integer literal accepted by [int]: decimal
    digits, single underscores allowed between two digits. *)
Fixpoint int_digits (prev_digit : bool) (acc : Z) (s : string) : option Z :=
  match s with
  | EmptyString => if prev_digit then Some acc else None
  | String c s' =>
      if is_digit c then int_digits true (10 * acc + digit_val c) s'
      else if (code c =? 95)%N then
        if prev_digit then
          match s' with
          | String d _ => if is_digit d then int_digits false acc s' else None
          | EmptyString => None
          end
        else None
      else None
  end.

(** [sys.int_info.default_max_str_digits]: as the interpreter is set up
    by default, [int] refuses a decimal literal of more digits. *)
Definition max_str_digits : N := 4300.

Fixpoint count_digits (s : string) : N :=
  match s with
  | EmptyString => 0
  | String c s' => (if is_digit c then 1 else 0) + count_digits s'
  end.

(** [int(s)] for a [str] argument, base 10: surrounding white space is
    dropped, one sign is allowed, the digits are counted against the
    limit; [None] stands for [ValueError]. *)
Definition int (s : string) : option Z :=
  let literal := strip_of is_int_space s in
  if (count_digits literal <=? max_str_digits)%N then
    match literal with
    | String c t =>
        if Ascii.eqb c "+" then int_digits false 0 t
        else if Ascii.eqb c "-" then option_map Z.opp (int_digits false 0 t)
        else int_digits false 0 (String c t)
    | EmptyString => None
    end
  else None.

(** [s.split(sep)] for a one-character separator. *)
Fixpoint split_on (sep : ascii) (cur : string) (s : string) : list string :=
  match s with
  | EmptyString => [cur]
  | String c s' =>
      if Ascii.eqb c sep then cur :: split_on sep EmptyString s'
      else split_on sep (cur +:+ String c EmptyString) s'
  end.

Definition split (sep : ascii) (s : string) : list string :=
  split_on sep EmptyString s.

(** Exceptions that the modelled code can raise. *)
Inductive exn :=
| KeyError (key : string)
| IndexError
| ValueError (what : string)
| TypeError (what : string)
| AttributeError (what : string)
| GitLabError (url : string)
| ClientError (code : string)
| CloudWatchError (status : string).

(** Result of a call that either returns or raises.  The loops that
    have no bound of their own (pagination, polling) take a step budget
    and return an [option]: [None] when the budget ran out. *)
Inductive res (A : Type) :=
| Ret (a : A)
| Raise (e : exn).
Arguments Ret {A} a.
Arguments Raise {A} e.

Definition bind {A B} (m : res A) (f : A -> res B) : res B :=
  match m with
  | Ret a => f a
  | Raise e => Raise e
  end.

Definition of_option {A} (e : exn) (o : option A) : res A :=
  match o with
  | Some a => Ret a
  | None => Raise e
  end.

(** JSON-shaped Python values: what [response.json()] returns and what is
    put on the queue. *)
Inductive value :=
| VNone
| VInt (z : Z)
| VStr (s : string)
| VList (l : list value)
| VDict (d : list (string * value)).

(** A Python [dict] with string keys: insertion ordered, keys unique. *)
Definition dict (V : Type) := list (string * V).

Fixpoint get {V} (k : string) (d : dict V) : option V :=
  match d with
  | [] => None
  | (k', v) :: d' => if String.eqb k k' then Some v else get k d'
  end.

(** [d[k] = v]: an existing key keeps its position, a new key goes last. *)
Fixpoint set {V} (k : string) (v : V) (d : dict V) : dict V :=
  match d with
  | [] => [(k, v)]
  | (k', v') :: d' =>
      if String.eqb k k' then (k, v) :: d' else (k', v') :: set k v d'
  end.

(** [d] without the key [k], the effect of [del d[k]] and of [d.pop(k)]
    on a dictionary that has the key. *)
Fixpoint remove {V} (k : string) (d : dict V) : dict V :=
  match d with
  | [] => []
  | (k', v') :: d' =>
      if String.eqb k k' then d' else (k', v') :: remove k d'
  end.

Definition keys {V} (d : dict V) : list string := map fst d.

(** [d[k]], raising [KeyError]. *)
Definition item {V} (k : string) (d : dict V) : res V :=
  of_option (KeyError k) (get k d).

(** [d.pop(k)] with no default: the dictionary without [k], or
    [KeyError] when [k] is not a key. *)
Definition pop {V} (k : string) (d : dict V) : res (dict V) :=
  match get k d with
  | Some _ => Ret (remove k d)
  | None => Raise (KeyError k)
  end.

(** [d[k]] on a JSON object. *)
Definition vitem (k : string) (v : value) : res value :=
  match v with
  | VDict d => item k d
  | _ => Raise (TypeError "not subscriptable by a key")
  end.

Definition as_str (v : value) : res string :=
  match v with
  | VStr s => Ret s
  | _ => Raise (TypeError "str expected")
  end.

Definition as_int (v : value) : res Z :=
  match v with
  | VInt z => Ret z
  | _ => Raise (TypeError "int expected")
  end.

Fixpoint as_str_list (l : list value) : res (list string) :=
  match l with
  | [] => Ret []
  | v :: l' =>
      match as_str v, as_str_list l' with
      | Ret s, Ret ss => Ret (s :: ss)
      | Raise e, _ => Raise e
      | _, Raise e => Raise e
      end
  end.

(** [str(n)] for an integer. *)
Definition str_of_Z (z : Z) : string := NilZero.string_of_int (Z.to_int z).

Definition hex_upper (n : N) : ascii :=
  if (n <? 10)%N then ascii_of_N (48 + n) else ascii_of_N (55 + n).

Definition percent (b : N) : string :=
  String "%" (String (hex_upper (b / 16)) (String (hex_upper (b mod 16)) EmptyString)).

(** [urllib.parse.quote_plus]: letters, digits and [_.-~] stay, a space
    becomes [+], every other character is percent-encoded byte by byte. *)
Fixpoint quote_plus (s : string) : string :=
  match s with
  | EmptyString => EmptyString
  | String c s' =>
      let n := code c in
      (if is_letter c || is_digit c || (n =? 95)%N || (n =? 46)%N
          || (n =? 45)%N || (n =? 126)%N
       then String c EmptyString
       else if (n =? 32)%N then "+"
       else if (n <? 128)%N then percent n
       else percent (192 + n / 64) +:+ percent (128 + n mod 64))
      +:+ quote_plus s'
  end.

(** Python's [==] on JSON values: lists are equal item by item, objects
    when they have the same keys with equal values, in whatever order. *)
Fixpoint value_eqb (a b : value) {struct a} : bool :=
  match a, b with
  | VNone, VNone => true
  | VInt x, VInt y => Z.eqb x y
  | VStr x, VStr y => String.eqb x y
  | VList l, VList m =>
      (fix items (l m : list value) {struct l} : bool :=
         match l, m with
         | [], [] => true
         | x :: l', y :: m' => value_eqb x y && items l' m'
         | _, _ => false
         end) l m
  | VDict d, VDict d' =>
      Nat.eqb (length d) (length d')
      && (fix entries (d : list (string * value)) : bool :=
            match d with
            | [] => true
            | (k, x) :: rest =>
                match get k d' with
                | Some y => value_eqb x y && entries rest
                | None => false
                end
            end) d
  | _, _ => false
  end.

(** Lists and objects have no hash: they cannot be the key of a memo
    table. *)
Definition hashable (v : value) : bool :=
  match v with
  | VList _ | VDict _ => false
  | _ => true
  end.

(** The receiver of [.encode(...)]: a text; nothing else has the
    method. *)
Definition encodable (v : value) : res string :=
  match v with
  | VStr s => Ret s
  | _ => Raise (AttributeError "encode")
  end.

Definition hex_lower (n : N) : ascii :=
  if (n <? 10)%N then ascii_of_N (48 + n) else ascii_of_N (87 + n).

Definition backslash : ascii := ascii_of_N 92.
Definition quote1 : ascii := ascii_of_N 39.
Definition quote2 : ascii := ascii_of_N 34.

(** The characters below 256 that [repr] shows as they are. *)
Definition printable (c : ascii) : bool :=
  ((32 <=? code c)%N && (code c <? 127)%N)
  || ((161 <=? code c)%N && negb (code c =? 173)%N).

Definition repr_char (quote c : ascii) : string :=
  if Ascii.eqb c quote || Ascii.eqb c backslash
  then String backslash (String c EmptyString)
  else if (code c =? 9)%N then String backslash "t"
  else if (code c =? 10)%N then String backslash "n"
  else if (code c =? 13)%N then String backslash "r"
  else if printable c then String c EmptyString
  else String backslash
         (String "x" (String (hex_lower (code c / 16))
                             (String (hex_lower (code c mod 16)) EmptyString))).

Fixpoint repr_chars (quote : ascii) (s : string) : string :=
  match s with
  | EmptyString => EmptyString
  | String c s' => repr_char quote c +:+ repr_chars quote s'
  end.

(** [repr] of a text: in single quotes, unless it has a single quote and
    no double quote. *)
Definition repr_str (s : string) : string :=
  let quote :=
    if any_char (Ascii.eqb quote1) s && negb (any_char (Ascii.eqb quote2) s)
    then quote2 else quote1 in
  String quote (repr_chars quote s +:+ String quote EmptyString).

Fixpoint repr (v : value) : string :=
  match v with
  | VNone => "None"
  | VInt z => str_of_Z z
  | VStr s => repr_str s
  | VList l =>
      "[" +:+ (fix items (l : list value) : string :=
                 match l with
                 | [] => EmptyString
                 | x :: l' =>
                     match l' with
                     | [] => repr x
                     | _ => repr x +:+ ", " +:+ items l'
                     end
                 end) l +:+ "]"
  | VDict d =>
      "{" +:+ (fix entries (d : list (string * value)) : string :=
                 match d with
                 | [] => EmptyString
                 | (k, x) :: d' =>
                     match d' with
                     | [] => repr_str k +:+ ": " +:+ repr x
                     | _ => repr_str k +:+ ": " +:+ repr x +:+ ", "
                            +:+ entries d'
                     end
                 end) d +:+ "}"
  end.

(** [str(v)], what an f-string puts in the place of [{v}]. *)
Definition str_of (v : value) : string :=
  match v with
  | VStr s => s
  | _ => repr v
  end.

(** A message on the shared queue: [(label, document)], either of which
    can be [None]. *)
Definition message : Type := option string * option (dict value).

(** Python truthiness of a string. *)
Definition truthy_str (s : string) : bool :=
  match s with EmptyString => false | _ => true end.

End Py.

Notation "'let*' x ':=' m 'in' k" := (Py.bind m (fun x => k))
  (at level 10, x name, m at level 100, k at level 200).

(* ===================================================================== *)
(** * SHAKE-128 *)
(* ===================================================================== *)

(** [hashlib.shake_128(data).hexdigest(n)]: the Keccak-f[1600] sponge with
    rate 168 bytes and domain suffix 0x1F (FIPS 202).  Lanes are 64-bit
    words held in [N]; the state is the list of its 25 lanes, lane (x, y) at
    index [x + 5 * y]. *)
Module Shake.

Local Open Scope N_scope.

Definition mask64 : N := 18446744073709551615.

Definition rotl (w : N) (n : N) : N :=
  N.land (N.lor (N.shiftl w n) (N.shiftr w (64 - n))) mask64.

Definition lane (st : list N) (i : nat) : N := nth i st 0.

Definition xy (x y : nat) : nat := (x mod 5 + 5 * (y mod 5))%nat.

Definition idx25 : list nat := seq 0 25.

Definition theta (st : list N) : list N :=
  let c := map (fun x =>
    N.lxor (lane st x) (N.lxor (lane st (x + 5)) (N.lxor (lane st (x + 10))
      (N.lxor (lane st (x + 15)) (lane st (x + 20)))))) (seq 0 5) in
  let d := map (fun x =>
    N.lxor (nth ((x + 4) mod 5) c 0) (rotl (nth ((x + 1) mod 5) c 0) 1))
    (seq 0 5) in
  map (fun i => N.lxor (lane st i) (nth (i mod 5) d 0)) idx25.

(** Rotation offsets, indexed like the state. *)
Definition rho_offsets : list N :=
  [ 0;  1; 62; 28; 27;
   36; 44;  6; 55; 20;
    3; 10; 43; 25; 39;
   41; 45; 15; 21;  8;
   18;  2; 61; 56; 14].

(** rho and pi together: [B[y, 2x+3y] = rotl A[x, y] r[x, y]]; here the
    lane written at (X, Y) is read from x = (X + 3Y) mod 5, y = X. *)
Definition rho_pi (st : list N) : list N :=
  map (fun i =>
    let X := (i mod 5)%nat in
    let Y := (i / 5)%nat in
    let src := xy (X + 3 * Y) X in
    rotl (lane st src) (nth src rho_offsets 0)) idx25.

Definition chi (st : list N) : list N :=
  map (fun i =>
    let x := (i mod 5)%nat in
    let y := (i / 5)%nat in
    N.lxor (lane st i)
      (N.land (N.lxor (lane st (xy (x + 1) y)) mask64) (lane st (xy (x + 2) y))))
    idx25.

Definition iota (rc : N) (st : list N) : list N :=
  match st with
  | a :: st' => N.lxor a rc :: st'
  | [] => []
  end.

Definition round_constants : list N :=
  [0x0000000000000001; 0x0000000000008082; 0x800000000000808A;
   0x8000000080008000; 0x000000000000808B; 0x0000000080000001;
   0x8000000080008081; 0x8000000000008009; 0x000000000000008A;
   0x0000000000000088; 0x0000000080008009; 0x000000008000000A;
   0x000000008000808B; 0x800000000000008B; 0x8000000000008089;
   0x8000000000008003; 0x8000000000008002; 0x8000000000000080;
   0x000000000000800A; 0x800000008000000A; 0x8000000080008081;
   0x8000000000008080; 0x0000000080000001; 0x8000000080008008].

Definition round (st : list N) (rc : N) : list N :=
  iota rc (chi (rho_pi (theta st))).

Definition keccak_f (st : list N) : list N :=
  fold_left round round_constants st.

Definition rate : nat := 168.

(** Little-endian lane of up to eight bytes. *)
Fixpoint lane_of_bytes (bs : list N) : N :=
  match bs with
  | [] => 0
  | b :: bs' => b + 256 * lane_of_bytes bs'
  end.

Fixpoint lanes_of_bytes (n : nat) (bs : list N) : list N :=
  match n with
  | O => []
  | S n' => lane_of_bytes (firstn 8 bs) :: lanes_of_bytes n' (skipn 8 bs)
  end.

Fixpoint xor_lanes (st blk : list N) : list N :=
  match st, blk with
  | a :: st', b :: blk' => N.lxor a b :: xor_lanes st' blk'
  | _, [] => st
  | [], _ => []
  end.

(** pad10*1 with the SHAKE suffix: 0x1F after the message, 0x80 xor-ed
    into the last byte of the block.  [tail] is shorter than [rate]. *)
Definition pad (tail : list N) : list N :=
  let body := tail ++ [0x1F] in
  let body := body ++ repeat 0 (rate - length body) in
  firstn (rate - 1) body ++ [N.lxor (nth (rate - 1) body 0) 0x80].

(** Absorb [msg]; [fuel] bounds the number of full blocks. *)
Fixpoint absorb (fuel : nat) (st : list N) (msg : list N) : list N :=
  match fuel with
  | O => st
  | S fuel' =>
      if (length msg <? rate)%nat then
        keccak_f (xor_lanes st (lanes_of_bytes 21 (pad msg)))
      else
        absorb fuel'
          (keccak_f (xor_lanes st (lanes_of_bytes 21 (firstn rate msg))))
          (skipn rate msg)
  end.

Fixpoint bytes_of_lane (n : nat) (w : N) : list N :=
  match n with
  | O => []
  | S n' => N.land w 255 :: bytes_of_lane n' (N.shiftr w 8)
  end.

(** The first [n] output bytes, for [n] up to the rate (one squeeze). *)
Definition shake_128 (msg : list N) (n : nat) : list N :=
  let st := absorb (S (length msg)) (repeat 0 25) msg in
  firstn n (flat_map (bytes_of_lane 8) (firstn 21 st)).

Definition hex_digit (n : N) : ascii :=
  if n <? 10 then ascii_of_N (48 + n) else ascii_of_N (87 + n).

Definition hex_byte (b : N) : string :=
  String (hex_digit (b / 16)) (String (hex_digit (b mod 16)) EmptyString).

Definition hexdigest (msg : list N) (n : nat) : string :=
  fold_right (fun b acc => hex_byte b +:+ acc) EmptyString
    (shake_128 msg n).

(** [s.encode("UTF-8")] for code points below 256. *)
Definition utf8_char (c : ascii) : list N :=
  let n := N_of_ascii c in
  if n <? 128 then [n] else [192 + n / 64; 128 + n mod 64].

Fixpoint encode_utf8 (s : string) : list N :=
  match s with
  | EmptyString => []
  | String c s' => utf8_char c ++ encode_utf8 s'
  end.

End Shake.

(* ===================================================================== *)
(** * The regular-expression matcher *)
(* ===================================================================== *)

(** Python's [re] is a backtracking matcher: a greedy repetition first takes
    as many characters as it can and gives them back one at a time while the
    rest of the pattern fails; an alternation tries its branches from left
    to right; [search] tries the start positions from left to right.  The
    model covers the constructs of the patterns in [database/models.py]:
    literal text, one character of a class, greedy repetition of a class
    with a lower bound, [$], concatenation, alternation and groups. *)
Module Re.

Inductive regex :=
| Str (t : string)
| One (p : ascii -> bool)
| Many (p : ascii -> bool) (lo : nat)
| Eos
| Cat (a b : regex)
| Alt (a b : regex)
| Grp (i : nat) (a : regex).

(** Text captured by the groups, most recent first. *)
Definition captures := list (nat * string).

Fixpoint group (i : nat) (caps : captures) : string :=
  match caps with
  | [] => EmptyString
  | (j, t) :: caps' => if Nat.eqb i j then t else group i caps'
  end.

Fixpoint strip_prefix (t s : string) : option string :=
  match t, s with
  | EmptyString, _ => Some s
  | String a t', String b s' =>
      if Ascii.eqb a b then strip_prefix t' s' else None
  | String _ _, EmptyString => None
  end.

(** What was consumed between the subject [s] and its suffix [rest]. *)
Definition consumed (s rest : string) : string :=
  substring 0 (String.length s - String.length rest) s.

Definition newline : ascii := ascii_of_N 10.

(** [$] without [re.MULTILINE]: the end of the text, or just before a
    newline that ends the text. *)
Definition at_end (s : string) : bool :=
  match s with
  | EmptyString => true
  | String c EmptyString => Ascii.eqb c newline
  | _ => false
  end.

(** Greedy [p{lo,}] followed by the continuation [k]. *)
Fixpoint many {A} (p : ascii -> bool) (lo : nat) (s : string)
    (k : string -> option A) : option A :=
  match s with
  | String c s' =>
      if p c then
        match many p (pred lo) s' k with
        | Some r => Some r
        | None => match lo with O => k s | S _ => None end
        end
      else match lo with O => k s | S _ => None end
  | EmptyString => match lo with O => k s | S _ => None end
  end.

Fixpoint run {A} (r : regex) (s : string) (caps : captures)
    (k : string -> captures -> option A) : option A :=
  match r with
  | Str t =>
      match strip_prefix t s with
      | Some rest => k rest caps
      | None => None
      end
  | One p =>
      match s with
      | String c s' => if p c then k s' caps else None
      | EmptyString => None
      end
  | Many p lo => many p lo s (fun rest => k rest caps)
  | Eos => if at_end s then k s caps else None
  | Cat a b => run a s caps (fun s1 c1 => run b s1 c1 k)
  | Alt a b =>
      match run a s caps k with
      | Some x => Some x
      | None => run b s caps k
      end
  | Grp i a => run a s caps (fun rest c1 => k rest ((i, consumed s rest) :: c1))
  end.

(** A match anchored at the start of [s]: the groups, the whole matched
    text (group 0) and the unmatched rest. *)
Definition match_at (r : regex) (s : string) : option (captures * string) :=
  run r s [] (fun rest caps => Some ((0, consumed s rest) :: caps, rest)).

(** [re.search]: the leftmost start position that matches. *)
Fixpoint search (r : regex) (s : string) : option (captures * string) :=
  match match_at r s with
  | Some m => Some m
  | None =>
      match s with
      | EmptyString => None
      | String _ s' => search r s'
      end
  end.

(** [re.findall] for a pattern that matches non-empty text only: the
    successive non-overlapping matches, left to right. *)
Fixpoint findall_fuel (fuel : nat) (r : regex) (s : string) : list captures :=
  match fuel with
  | O => []
  | S fuel' =>
      match search r s with
      | None => []
      | Some (caps, rest) =>
          caps :: match rest with
                  | EmptyString => []
                  | _ => findall_fuel fuel' r rest
                  end
      end
  end.

Definition findall (r : regex) (s : string) : list captures :=
  findall_fuel (S (String.length s)) r s.

End Re.

(* ===================================================================== *)
(** * helpers/config.py *)
(* ===================================================================== *)

Module Config.

Record Configuration := {
  start_time : string;
  limit_time : string;
  start_timestamp : Z;
  limit_timestamp : Z;
  project_acronym : string;
  parent_group : Z;
  log_groups : list string;
  log_group_mappings : Py.dict Z;
  user_alias : Py.dict string
}.

(** [get_project_for_log_group]: a memoized lookup in a table that never
    changes, hence the lookup itself. *)
Definition get_project_for_log_group (c : Configuration) (loggroup : string)
    : Py.res Z :=
  Py.item loggroup (log_group_mappings c).

Definition get_user_id (c : Configuration) (mail : string) : Py.res string :=
  Py.item mail (user_alias c).

Definition get_log_group_mappings (c : Configuration) : list (string * Z) :=
  log_group_mappings c.

End Config.

(** What [datetime] computes depends on the time zone of the host; the
    three conversions the sources use are taken as given. *)
Record Clock := {
(** [int(datetime.strptime(t, "%Y-%m-%d %H:%M:%S.%f").timestamp())] *)
strptime_epoch : string -> option Z;
(** [int(datetime.fromisoformat(t).timestamp())] *)
fromisoformat_epoch : string -> option Z;
(** [datetime.fromtimestamp(t).replace(microsecond=0).isoformat()] *)
fromtimestamp_iso : Z -> string
}.

(* ===================================================================== *)
(** * database/models.py *)
(* ===================================================================== *)

Module Models.

Import Py.

Definition nbsp : ascii := ascii_of_N 160.

(** [.] : anything but a newline. *)
Definition not_newline (c : ascii) : bool := negb (Ascii.eqb c Re.newline).

(** [[A-Za-z0-9_/.]] *)
Definition path_char (c : ascii) : bool :=
  is_letter c || is_digit c
  || (code c =? 95)%N || (code c =? 47)%N || (code c =? 46)%N.

Definition is_nbsp (c : ascii) : bool := Ascii.eqb c nbsp.

(** Group 1: the text /var/task/; group 2: one or more path characters;
    group 3: the rest of the line, a newline and four no-break spaces;
    group 4: one or more characters up to the end of the line; group 5: a
    newline and two no-break spaces, or the end of the text. *)
Definition ERRORMSG_RE : Re.regex :=
  Re.Cat (Re.Grp 1 (Re.Str "/var/task/"))
 (Re.Cat (Re.Grp 2 (Re.Many path_char 1))
 (Re.Cat (Re.Grp 3 (Re.Cat (Re.Many not_newline 0)
                   (Re.Cat (Re.One (Ascii.eqb Re.newline))
                   (Re.Cat (Re.One is_nbsp) (Re.Cat (Re.One is_nbsp)
                   (Re.Cat (Re.One is_nbsp) (Re.One is_nbsp)))))))
 (Re.Cat (Re.Grp 4 (Re.Many not_newline 1))
         (Re.Grp 5 (Re.Alt (Re.Cat (Re.One (Ascii.eqb Re.newline))
                           (Re.Cat (Re.One is_nbsp) (Re.One is_nbsp)))
                           Re.Eos))))).

(** [\d+] *)
Definition SPRINT_RE : Re.regex := Re.Many is_digit 1.

(** A [@dataclass]: its fields in the order of their declaration, each
    with its default value if it has one. *)
Record dataclass := { fields : list (string * option value) }.

(** An instance of a dataclass: its attributes ([__dict__]), in the order
    of the fields. *)
Definition instance := dict value.

Definition ACCOUNT : dataclass :=
  {| fields := [("name", None); ("region", None); ("id", Some VNone)] |}.

Definition LOGGROUP : dataclass :=
  {| fields := [("name", None); ("project_id", None); ("account", None)] |}.

Definition ERRORLOG : dataclass :=
  {| fields := [("loggroup", None); ("account", None); ("timestamp", None);
                ("message", Some VNone); ("author_id", Some VNone)] |}.

Definition USER : dataclass := {| fields := [("id", None)] |}.

Definition COMMIT : dataclass :=
  {| fields := [("id", None); ("short_id", None); ("timestamp", None);
                ("changed_loc", None); ("project_id", None);
                ("author_id", None)] |}.

Definition MERGE : dataclass :=
  {| fields := [("id", None); ("internal_id", None); ("project_id", None);
                ("author_id", None); ("timestamp", None);
                ("contributor_ids", Some (VList []));
                ("story_id", Some VNone)] |}.

Definition PROJECT : dataclass :=
  {| fields := [("id", None); ("default_branch", None); ("log_groups", None);
                ("platforms", None); ("technologies", None);
                ("group_id", Some VNone)] |}.

Definition GROUP : dataclass :=
  {| fields := [("id", None); ("parent_id", Some VNone)] |}.

Definition STORY : dataclass :=
  {| fields := [("id", None); ("sprints", Some (VList []))] |}.

(** The first key of [kwargs] that is not a field of the class. *)
Definition unexpected (cls : dataclass) (kwargs : dict value)
    : option string :=
  find (fun k => negb (existsb (String.eqb k) (map fst (fields cls))))
    (keys kwargs).

Fixpoint bind_fields (fs : list (string * option value))
    (kwargs : dict value) : res instance :=
  match fs with
  | [] => Ret []
  | (name, default) :: rest =>
      match get name kwargs, default with
      | Some v, _ =>
          let* more := bind_fields rest kwargs in Ret ((name, v) :: more)
      | None, Some v =>
          let* more := bind_fields rest kwargs in Ret ((name, v) :: more)
      | None, None => Raise (TypeError "missing required argument")
      end
  end.

(** The call of a class with the entries of [kwargs] as its keyword
    arguments, that is, of the generated [__init__].  A keyword that is not
    a field is refused, and so is a call that leaves a field without
    default unset. *)
Definition construct (cls : dataclass) (kwargs : dict value) : res instance :=
  match unexpected cls kwargs with
  | Some _ => Raise (TypeError "unexpected keyword argument")
  | None => bind_fields (fields cls) kwargs
  end.

(** [int(datetime.fromisoformat(t).timestamp())] for a JSON value [t]:
    only a text is taken. *)
Definition isoformat_epoch (clk : Clock) (t : value) : res Z :=
  match t with
  | VStr s => of_option (ValueError "fromisoformat") (fromisoformat_epoch clk s)
  | _ => Raise (TypeError "fromisoformat: argument must be str")
  end.

Module LogGroup.

Definition LABEL : string := "loggroup".

Definition hash_name (name : string) : string :=
  Shake.hexdigest (Shake.encode_utf8 name) 8.

Definition transform_mapping (name : string) (project_id : Z)
    (account : string) : dict value :=
  [("name", VStr (hash_name name)); ("project_id", VInt project_id);
   ("account", VStr account)].

End LogGroup.

Module Account.
Definition LABEL : string := "account".
End Account.

Module ErrorLog.

Definition LABEL : string := "errorlog".

(** One row of a query result: a list of [{"field": _, "value": _}]. *)
Definition row := list (dict string).

Definition field_value (data : row) (i : nat) : res string :=
  let* cell := of_option IndexError (nth_error data i) in
  item "value" cell.

Definition log_timestamp_to_epoch (clk : Clock) (timestamp : string) : res Z :=
  of_option (ValueError "time data does not match format")
    (strptime_epoch clk timestamp).

Definition query_result_extract_group (data : row) : res string :=
  let* log := field_value data 0 in
  of_option IndexError (nth_error (split ":" log) 1).

Definition query_result_transform_timestamp (clk : Clock) (data : row)
    : res Z :=
  let* t := field_value data 1 in
  log_timestamp_to_epoch clk t.

Definition transform_query_result (clk : Clock) (data : row)
    (account : string) : res (dict value) :=
  let* loggroup := query_result_extract_group data in
  let* timestamp := query_result_transform_timestamp clk data in
  let* message := field_value data 2 in
  Ret [("loggroup", VStr (LogGroup.hash_name loggroup));
       ("account", VStr account);
       ("timestamp", VInt timestamp);
       ("message", VStr message)].

Definition timestamp_to_zulustr (clk : Clock) (timestamp : Z) : string :=
  fromtimestamp_iso clk timestamp +:+ "Z".

(** Every match is put in front of the list: the candidates come out in
    the reverse of their order in the message. *)
Definition get_error_info (message : string) : list (string * string) :=
  fold_left
    (fun potential_errors caps =>
       (Re.group 2 caps, Re.group 4 caps) :: potential_errors)
    (Re.findall ERRORMSG_RE message) [].

End ErrorLog.

Module User.

Definition LABEL : string := "user".

Definition hash_id (id : string) : string :=
  Shake.hexdigest (Shake.encode_utf8 id) 4.

Definition transform_user_id (user_id : string) : dict value :=
  [("id", VStr (hash_id user_id))].

(** [data] is one participant as the API lists it. *)
Definition transform_merge_participants_input (data : value)
    : res (dict value) :=
  let* username := vitem "username" data in
  let* username := encodable username in
  Ret [("id", VStr (hash_id username))].

End User.

Module Commit.

Definition LABEL : string := "commit".

(** [data] is one commit as the API lists it; [project_id] and
    [author_id] go into the record as they are. *)
Definition transform_input (clk : Clock) (data : value)
    (project_id author_id : value) : res (dict value) :=
  let* id := vitem "id" data in
  let* short_id := vitem "short_id" data in
  let* authored_date := vitem "authored_date" data in
  let* timestamp := isoformat_epoch clk authored_date in
  let* stats := vitem "stats" data in
  let* total := vitem "total" stats in
  Ret [("id", id);
       ("short_id", short_id);
       ("timestamp", VInt timestamp);
       ("author_id", author_id);
       ("changed_loc", total);
       ("project_id", project_id)].

End Commit.

Module Merge.

Definition LABEL : string := "merge".

(** The fields of a merge request that [transform_input] reads.  GitLab
    sends [null] for a missing description. *)
Record payload := {
  mr_id : Z;
  mr_iid : Z;
  mr_project_id : Z;
  mr_title : string;
  mr_description : option string;
  mr_author_username : string;
  mr_merged_at : string
}.

(** [[\s_-]] *)
Definition is_sep (c : ascii) : bool :=
  is_space c || (code c =? 95)%N || (code c =? 45)%N.

(** [[{project_acronym}]] under [re.I], for an acronym made of ASCII
    letters: one character that is, up to case, one of its letters. *)
Definition in_acronym (project_acronym : string) (c : ascii) : bool :=
  any_char (fun a => Ascii.eqb (fold_case a) (fold_case c)) project_acronym.

(** Group 1: five or more characters of the acronym class, then any
    number of separators; group 2: one or more digits. *)
Definition story_re (project_acronym : string) : Re.regex :=
  Re.Cat (Re.Grp 1 (Re.Cat (Re.Many (in_acronym project_acronym) 5)
                           (Re.Many is_sep 0)))
         (Re.Grp 2 (Re.Many is_digit 1)).

(** [story_id if story_id and story_id < 1000 else None] *)
Definition accept_story_id (story_id : option Z) : value :=
  match story_id with
  | Some v => if negb (v =? 0)%Z && (v <? 1000)%Z then VInt v else VNone
  | None => VNone
  end.

Definition transform_input (clk : Clock) (data : payload)
    (project_acronym : string) : res (dict value) :=
  let* description :=
    of_option (TypeError "can only concatenate str to str")
      (mr_description data) in
  let story_result :=
    Re.search (story_re project_acronym) (mr_title data +:+ description) in
  let* story_id :=
    match story_result with
    | Some (caps, _) =>
        let* v := of_option (ValueError "int") (int (Re.group 2 caps)) in
        Ret (Some v)
    | None => Ret None
    end in
  let* timestamp :=
    of_option (ValueError "fromisoformat")
      (fromisoformat_epoch clk (mr_merged_at data)) in
  Ret [("id", VInt (mr_id data));
       ("internal_id", VInt (mr_iid data));
       ("project_id", VInt (mr_project_id data));
       ("author_id", VStr (User.hash_id (mr_author_username data)));
       ("timestamp", VInt timestamp);
       ("story_id", accept_story_id story_id)].

(** [transform_input] on a merge request as the API lists it, a JSON
    value: every field is read where the source reads it, and goes into
    the record as it is unless the source converts it.  The title and the
    description are added and searched, which takes two texts. *)
Definition transform_dataset (clk : Clock) (data : value)
    (project_acronym : string) : res (dict value) :=
  let* title := vitem "title" data in
  let* description := vitem "description" data in
  let* text :=
    match title, description with
    | VStr t, VStr d => Ret (t +:+ d)
    | _, _ => Raise (TypeError "can only concatenate str to str")
    end in
  let* story_id :=
    match Re.search (story_re project_acronym) text with
    | Some (caps, _) =>
        let* v := of_option (ValueError "int") (int (Re.group 2 caps)) in
        Ret (Some v)
    | None => Ret None
    end in
  let* id := vitem "id" data in
  let* iid := vitem "iid" data in
  let* project_id := vitem "project_id" data in
  let* author := vitem "author" data in
  let* username := vitem "username" author in
  let* username := encodable username in
  let* merged_at := vitem "merged_at" data in
  let* timestamp := isoformat_epoch clk merged_at in
  Ret [("id", id);
       ("internal_id", iid);
       ("project_id", project_id);
       ("author_id", VStr (User.hash_id username));
       ("timestamp", VInt timestamp);
       ("story_id", accept_story_id story_id)].

(** [from_input]: the class called with the entries of the record. *)
Definition from_input (clk : Clock) (data : value) (project_acronym : string)
    : res instance :=
  let* kwargs := transform_dataset clk data project_acronym in
  construct MERGE kwargs.

End Merge.

Module Story.

Definition LABEL : string := "story".

(** [int(SPRINT_RE.search(sprint).group())]: [search] returns [None]
    on a text without digits and [None.group] raises. *)
Definition sprint_number (sprint : string) : res Z :=
  match Re.search SPRINT_RE sprint with
  | None => Raise (AttributeError "'NoneType' object has no attribute 'group'")
  | Some (caps, _) => of_option (ValueError "int") (int (Re.group 0 caps))
  end.

Fixpoint sprint_numbers (sprints : list string) : res (list Z) :=
  match sprints with
  | [] => Ret []
  | sprint :: rest =>
      if truthy_str sprint then
        let* n := sprint_number sprint in
        let* ns := sprint_numbers rest in
        Ret (n :: ns)
      else sprint_numbers rest
  end.

Definition transform_input (data : list string) : res (dict value) :=
  let sprints := skipn 1 data in
  let* first := of_option IndexError (nth_error data 0) in
  let* id := of_option (ValueError "int") (int first) in
  let* numbers := sprint_numbers sprints in
  Ret [("id", VInt id); ("sprints", VList (map VInt numbers))].

End Story.

(** The keys of [TYPE_MAP]: the labels that have a table. *)
Definition TYPE_LABELS : list string :=
  [Account.LABEL; LogGroup.LABEL; ErrorLog.LABEL; User.LABEL; "commit";
   Merge.LABEL; "project"; "group"; Story.LABEL].

Definition TYPE_MAP : dict dataclass :=
  [(Account.LABEL, ACCOUNT); (LogGroup.LABEL, LOGGROUP);
   (ErrorLog.LABEL, ERRORLOG); (User.LABEL, USER); ("commit", COMMIT);
   (Merge.LABEL, MERGE); ("project", PROJECT); ("group", GROUP);
   (Story.LABEL, STORY)].

(** [SOURCE_MAP]: the labels of each source.  They are sets in the
    source; nothing below depends on the order in which they are listed. *)
Definition SOURCE_MAP : dict (list string) :=
  [("cloudwatch", [Account.LABEL; LogGroup.LABEL; ErrorLog.LABEL]);
   ("gitlab", [User.LABEL; "commit"; Merge.LABEL; "project"; "group"]);
   ("jira", [Story.LABEL])].

End Models.

(* ===================================================================== *)
(** * extract/gitlab.py *)
(* ===================================================================== *)

Module GitLab.

Import Py.

(** The address [__fetch] builds: host, [/api/v4], the resource and the
    query parameters in the order of the dictionary. *)
Record url := { uri : string; params : dict string }.

Record response := {
  ok : bool;
  json : list value;
  x_next_page : option string
}.

(** The remote side answers a request by its address alone.  [__get]
    memoizes the successful answers per address; against such a remote a
    memoized answer is the answer, so [get] below is the request itself. *)
Definition remote := url -> response.

Record env := {
  config : Config.Configuration;
  clock : Clock;
  server : remote
}.

Definition get (e : env) (u : url) : res response :=
  let r := server e u in
  if ok r then Ret r else Raise (GitLabError (uri u)).

Definition fetch (e : env) (uri : string) (additional_params : dict string)
    : res response :=
  get e {| uri := uri; params := additional_params |}.

Definition fetch_single (e : env) (uri : string)
    (additional_params : dict string) : res (list value) :=
  let* r := fetch e uri additional_params in
  Ret (json r).

(** The generator object that a call of [__fetch_all] returns.  It runs
    only when it is asked for the next item.
    - [GFetch]: at the top of the loop, about to request [uri] with
      [params];
    - [GItems]: inside the [for] over the items of the response at hand,
      [pending] not yet produced, [cursor] the [X-Next-Page] header;
    - [GDone]: finished, or ended by an exception.
    [params] is the dictionary the caller passed; the generator is its
    only user in the calls modelled here. *)
Inductive generator :=
| GFetch (uri : string) (params : dict string)
| GItems (uri : string) (params : dict string) (pending : list value)
         (cursor : option string)
| GDone.

Definition fetch_all (uri : string) (additional_params : dict string)
    : generator :=
  GFetch uri additional_params.

(** What one step of the generator does. *)
Inductive event :=
| Requested (u : url)
| Yielded (item : value)
| Stopped
| Failed (ex : exn).

(** [response.headers.get("X-Next-Page", None)] as the condition of an
    [if]: an absent and an empty header both end the walk. *)
Definition next_page (cursor : option string) : option string :=
  match cursor with
  | Some c => if truthy_str c then Some c else None
  | None => None
  end.

Definition step (e : env) (g : generator) : event * generator :=
  match g with
  | GFetch uri params =>
      match fetch e uri params with
      | Ret r => (Requested {| uri := uri; params := params |},
                  GItems uri params (json r) (x_next_page r))
      | Raise ex => (Failed ex, GDone)
      end
  | GItems uri params (item :: pending) cursor =>
      (Yielded item, GItems uri params pending cursor)
  | GItems uri params [] cursor =>
      match next_page cursor with
      | Some page =>
          match fetch e uri (set "page" page params) with
          | Ret r => (Requested {| uri := uri; params := set "page" page params |},
                      GItems uri (set "page" page params) (json r) (x_next_page r))
          | Raise ex => (Failed ex, GDone)
          end
      | None => (Stopped, GDone)
      end
  | GDone => (Stopped, GDone)
  end.

(** Iterating a generator to its end, [list(gen)]: every step in order,
    up to the one that stops or fails. *)
Fixpoint drain (fuel : nat) (e : env) (g : generator)
    : option (list event * generator) :=
  match fuel with
  | O => None
  | S fuel' =>
      match step e g with
      | (Stopped, g') => Some ([Stopped], g')
      | (Failed ex, g') => Some ([Failed ex], g')
      | (ev, g') =>
          match drain fuel' e g' with
          | Some (evs, g'') => Some (ev :: evs, g'')
          | None => None
          end
      end
  end.

Fixpoint yielded (evs : list event) : list value :=
  match evs with
  | Yielded item :: evs' => item :: yielded evs'
  | _ :: evs' => yielded evs'
  | [] => []
  end.

Fixpoint requested (evs : list event) : list url :=
  match evs with
  | Requested u :: evs' => u :: requested evs'
  | _ :: evs' => requested evs'
  | [] => []
  end.

Definition commits_uri (project_id : Z) : string :=
  "/projects/" +:+ str_of_Z project_id +:+ "/repository/commits".

Definition blame_uri (project_id : Z) (file : string) : string :=
  "/projects/" +:+ str_of_Z project_id +:+ "/repository/files/"
    +:+ quote_plus file +:+ "/blame".

Definition fetch_most_recent_commit (e : env) (project_id : Z)
    (time : string) : res string :=
  let* commits :=
    fetch_single e (commits_uri project_id)
      [("with_stats", "true"); ("until", time)] in
  let* first := of_option IndexError (nth_error commits 0) in
  let* id := vitem "id" first in
  as_str id.

(** The memo table of [__fetch_blame].  What is stored under a key is the
    generator object itself: every later call with the same key hands out
    that same object, in whatever state its earlier users left it. *)
Abbreviation blame_cache := (gmap (Z * string * string) generator).

(** The memo table of an extractor that has just been started. *)
Definition fresh : blame_cache := empty.

(** [__fetch_blame]: the result is the (key of the) generator object. *)
Definition fetch_blame (e : env) (cache : blame_cache) (project_id : Z)
    (file time : string) : res (Z * string * string) * blame_cache :=
  let key := (project_id, file, time) in
  match cache !! key with
  | Some _ => (Ret key, cache)
  | None =>
      match fetch_most_recent_commit e project_id time with
      | Ret last_commit =>
          (Ret key,
           <[key := fetch_all (blame_uri project_id file)
                      [("ref", last_commit)]]> cache)
      | Raise ex => (Raise ex, cache)
      end
  end.

(** [__get_user_identifiers]; its memo table holds plain strings obtained
    from a remote and a configuration that do not change. *)
Definition get_user_identifiers (e : env) (mail : string) : res string :=
  match fetch_single e "/search" [("scope", "users"); ("search", mail)] with
  | Raise ex => Raise ex
  | Ret found =>
      match nth_error found 0 with
      | Some data => let* username := vitem "username" data in as_str username
      | None => Config.get_user_id (config e) mail
      end
  end.

(** [statement in [line.strip() for line in item["lines"]]] *)
Definition blamed (statement : string) (item : value) : res bool :=
  let* lines := vitem "lines" item in
  let* lines :=
    match lines with
    | VList l => as_str_list l
    | _ => Raise (TypeError "not iterable")
    end in
  Ret (existsb (String.eqb statement) (map strip lines)).

Definition committer (e : env) (item : value) : res string :=
  let* commit := vitem "commit" item in
  let* mail := vitem "author_email" commit in
  let* mail := as_str mail in
  let* userid := get_user_identifiers e mail in
  Ret (Models.User.hash_id userid).

(** How the inner [for item in ...] of [blame] ends. *)
Inductive scan_result :=
| Found (author : string)
| Exhausted
| Raised (ex : exn).

(** The inner loop: it advances the generator stored under [key]. *)
Fixpoint scan (fuel : nat) (e : env) (cache : blame_cache)
    (key : Z * string * string) (statement : string)
    : option (scan_result * blame_cache) :=
  match fuel with
  | O => None
  | S fuel' =>
      match cache !! key with
      | None => Some (Exhausted, cache)
      | Some g =>
          let '(ev, g') := step e g in
          let cache' := <[key := g']> cache in
          match ev with
          | Requested _ => scan fuel' e cache' key statement
          | Stopped => Some (Exhausted, cache')
          | Failed ex => Some (Raised ex, cache')
          | Yielded item =>
              match blamed statement item with
              | Raise ex => Some (Raised ex, cache')
              | Ret false => scan fuel' e cache' key statement
              | Ret true =>
                  match committer e item with
                  | Ret author => Some (Found author, cache')
                  | Raise ex => Some (Raised ex, cache')
                  end
              end
          end
      end
  end.

(** The body of the [try] for one candidate. *)
Definition try_candidate (fuel : nat) (e : env) (cache : blame_cache)
    (loggroup file time statement : string)
    : option (scan_result * blame_cache) :=
  match Config.get_project_for_log_group (config e) loggroup with
  | Raise ex => Some (Raised ex, cache)
  | Ret project_id =>
      match fetch_blame e cache project_id file time with
      | (Raise ex, cache') => Some (Raised ex, cache')
      | (Ret key, cache') => scan fuel e cache' key statement
      end
  end.

Fixpoint blame_candidates (fuel : nat) (e : env) (cache : blame_cache)
    (loggroup time : string) (candidates : list (string * string))
    : option (res (option string) * blame_cache) :=
  match candidates with
  | [] => Some (Ret None, cache)
  | (file, statement) :: rest =>
      match try_candidate fuel e cache loggroup file time statement with
      | None => None
      | Some (Found author, cache') => Some (Ret (Some author), cache')
      | Some (Exhausted, cache') =>
          blame_candidates fuel e cache' loggroup time rest
      | Some (Raised (GitLabError _), cache') =>
          blame_candidates fuel e cache' loggroup time rest
      | Some (Raised ex, cache') => Some (Raise ex, cache')
      end
  end.

(** [blame(log, loggroup)]; [fuel] bounds the steps spent on one
    candidate. *)
Definition blame (fuel : nat) (e : env) (cache : blame_cache)
    (log : dict value) (loggroup : string)
    : option (res (option string) * blame_cache) :=
  match (let* t := item "timestamp" log in as_int t) with
  | Raise ex => Some (Raise ex, cache)
  | Ret timestamp =>
      let time := Models.ErrorLog.timestamp_to_zulustr (clock e) timestamp in
      match (let* m := item "message" log in as_str m) with
      | Raise ex => Some (Raise ex, cache)
      | Ret message =>
          blame_candidates fuel e cache loggroup time
            (Models.ErrorLog.get_error_info message)
      end
  end.

(** ** The extraction *)

(** What the extractor has done so far: [queue] has the messages it has
    put on the queue, oldest first, and [added_users] the keys of the memo
    table of [__add_user], oldest first. *)
Record extractor := {
  queue : list message;
  added_users : list value
}.

(** An extractor that has just been started. *)
Definition started : extractor := {| queue := []; added_users := [] |}.

(** [self.queue.put((label, document))] *)
Definition put (label : string) (document : dict value) (st : extractor)
    : extractor :=
  {| queue := queue st ++ [(Some label, Some document)];
     added_users := added_users st |}.

(** [__add_user], memoized on [user["id"]]: the body runs, and puts the
    user on the queue, only when no call before had an equal id. *)
Definition add_user (user : dict value) (st : extractor) : res extractor :=
  let* id := item "id" user in
  if hashable id then
    if existsb (value_eqb id) (added_users st) then Ret st
    else Ret {| queue := queue st ++ [(Some Models.User.LABEL, Some user)];
                added_users := added_users st ++ [id] |}
  else Raise (TypeError "unhashable type").

(** The query of the search for [mail], as [requests] writes it: a number
    as its digits, [None] not at all. *)
Definition search_params (mail : value) : dict string :=
  match mail with
  | VStr s => [("scope", "users"); ("search", s)]
  | VInt n => [("scope", "users"); ("search", str_of_Z n)]
  | _ => [("scope", "users")]
  end.

(** [__get_user_identifiers] for the value found under [author_email],
    whatever it is; the result is the value under [username] as it is.
    The memo table takes the mail as its key; the keys of [user_alias] are
    texts. *)
Definition find_user_identifiers (e : env) (mail : value) : res value :=
  if hashable mail then
    match fetch_single e "/search" (search_params mail) with
    | Raise ex => Raise ex
    | Ret found =>
        match nth_error found 0 with
        | Some data => vitem "username" data
        | None =>
            match mail with
            | VStr s =>
                let* userid := Config.get_user_id (config e) s in
                Ret (VStr userid)
            | _ => Raise (KeyError (repr mail))
            end
        end
    end
  else Raise (TypeError "unhashable type").

Definition commits_params (c : Config.Configuration) : dict string :=
  [("with_stats", "true");
   ("since", Config.start_time c);
   ("until", Config.limit_time c)].

(** The body of the loop of [__fetch_commits_and_authors] for one
    commit. *)
Definition handle_commit (e : env) (project_id : Z) (commit : value)
    (st : extractor) : res unit * extractor :=
  match (let* mail := vitem "author_email" commit in
         let* userid := find_user_identifiers e mail in
         let* userid := encodable userid in
         Ret (Models.User.transform_user_id userid)) with
  | Raise ex => (Raise ex, st)
  | Ret user =>
      match add_user user st with
      | Raise ex => (Raise ex, st)
      | Ret st1 =>
          match (let* author_id := item "id" user in
                 Models.Commit.transform_input (clock e) commit
                   (VInt project_id) author_id) with
          | Raise ex => (Raise ex, st1)
          | Ret document => (Ret tt, put Models.Commit.LABEL document st1)
          end
      end
  end.

(** A [for] over a generator of [__fetch_all]: [body] runs on every item
    as it is yielded; an exception of the body or of a request ends the
    loop. *)
Fixpoint for_each (fuel : nat) (e : env)
    (body : value -> extractor -> res unit * extractor)
    (g : generator) (st : extractor) : option (res unit * extractor) :=
  match fuel with
  | O => None
  | S fuel' =>
      match step e g with
      | (Requested _, g') => for_each fuel' e body g' st
      | (Stopped, _) => Some (Ret tt, st)
      | (Failed ex, _) => Some (Raise ex, st)
      | (Yielded dataset, g') =>
          match body dataset st with
          | (Ret _, st') => for_each fuel' e body g' st'
          | (Raise ex, st') => Some (Raise ex, st')
          end
      end
  end.

(** [__fetch_commits_and_authors] *)
Definition fetch_commits_and_authors (fuel : nat) (e : env) (project_id : Z)
    (st : extractor) : option (res unit * extractor) :=
  for_each fuel e (handle_commit e project_id)
    (fetch_all (commits_uri project_id) (commits_params (config e))) st.

Definition merges_uri (project_id : Z) : string :=
  "/projects/" +:+ str_of_Z project_id +:+ "/merge_requests".

Definition merges_params (c : Config.Configuration) : dict string :=
  [("state", "merged");
   ("created_after", Config.start_time c);
   ("updated_before", Config.limit_time c)].

Definition participants_uri (project_id : Z) (internal_id : value) : string :=
  "/projects/" +:+ str_of_Z project_id +:+ "/merge_requests/"
    +:+ str_of internal_id +:+ "/participants".

(** [obj.name] *)
Definition attribute (name : string) (obj : Models.instance) : res value :=
  of_option (AttributeError name) (Py.get name obj).

(** [merge.contributor_ids.append(id)]: the list is changed in place. *)
Definition append_contributor (id : value) (merge : Models.instance)
    : res Models.instance :=
  let* ids := attribute "contributor_ids" merge in
  match ids with
  | VList l => Ret (set "contributor_ids" (VList (l ++ [id])) merge)
  | _ => Raise (AttributeError "append")
  end.

(** The body of the inner loop for one participant. *)
Definition handle_contributor (merge : Models.instance) (contributor : value)
    (st : extractor) : res Models.instance * extractor :=
  match Models.User.transform_merge_participants_input contributor with
  | Raise ex => (Raise ex, st)
  | Ret user =>
      match add_user user st with
      | Raise ex => (Raise ex, st)
      | Ret st1 =>
          (let* id := item "id" user in
           let* author_id := attribute "author_id" merge in
           if value_eqb id author_id then Ret merge
           else append_contributor id merge,
           st1)
      end
  end.

Fixpoint handle_contributors (merge : Models.instance)
    (participants : list value) (st : extractor)
    : res Models.instance * extractor :=
  match participants with
  | [] => (Ret merge, st)
  | contributor :: rest =>
      match handle_contributor merge contributor st with
      | (Ret merge', st') => handle_contributors merge' rest st'
      | (Raise ex, st') => (Raise ex, st')
      end
  end.

(** The body of the loop of [__fetch_merges_and_contributors] for one
    merge request. *)
Definition handle_merge (e : env) (project_id : Z) (dataset : value)
    (st : extractor) : res unit * extractor :=
  match (let* merge :=
           Models.Merge.from_input (clock e) dataset
             (Config.project_acronym (config e)) in
         let* internal_id := attribute "internal_id" merge in
         let* participants :=
           fetch_single e (participants_uri project_id internal_id) [] in
         Ret (merge, participants)) with
  | Raise ex => (Raise ex, st)
  | Ret (merge, participants) =>
      match handle_contributors merge participants st with
      | (Raise ex, st') => (Raise ex, st')
      | (Ret merge', st') => (Ret tt, put Models.Merge.LABEL merge' st')
      end
  end.

(** [__fetch_merges_and_contributors] *)
Definition fetch_merges_and_contributors (fuel : nat) (e : env)
    (project_id : Z) (st : extractor) : option (res unit * extractor) :=
  for_each fuel e (handle_merge e project_id)
    (fetch_all (merges_uri project_id) (merges_params (config e))) st.

End GitLab.

(* ===================================================================== *)
(** * extract/cloudwatch.py *)
(* ===================================================================== *)

Module CloudWatch.

Import Py.

Definition QUERY_LIMIT : Z := 10000.

(** Answers of the log service ([boto3] client): a value, or a
    [ClientError] with its error code. *)
Inductive start_response :=
| StartOk (query_id : string)
| StartFailed (code : string).

Inductive results_response :=
| ResultsOk (status : string) (results : list Models.ErrorLog.row)
| ResultsFailed (code : string).

(** The log service of one account.  [W] is whatever the service keeps
    between two calls; what it answers is not constrained. *)
Record service (W : Type) := {
  start_query : W -> string -> Z -> Z -> start_response * W;
  get_query_results : W -> string -> results_response * W
}.
Arguments start_query {W} _ _ _ _ _.
Arguments get_query_results {W} _ _ _.

(** What [__start_error_query] returns: a query id or one of the
    [QueryStatus] numbers. *)
Inductive started :=
| QueryId (id : string)
| LIMIT_REACHED
| NOT_FOUND.

(** What [__get_query_results] returns. *)
Inductive polled :=
| Results (rows : list Models.ErrorLog.row)
| IN_PROGRESS
| THROTTLED.

(** The state of one extractor: the two dictionaries of [__query_logs],
    what it has put on the queue (oldest first), the memo table of its
    GitLab client and the state of the service. *)
Record state (W : Type) := {
  log_groups : dict (Z * Z);
  queries : dict string;
  queue : list message;
  gitlab : GitLab.blame_cache;
  world : W
}.
Arguments log_groups {W} _.
Arguments queries {W} _.
Arguments queue {W} _.
Arguments gitlab {W} _.
Arguments world {W} _.
Arguments Build_state {W} _ _ _ _ _.

Section Extractor.

Context {W : Type}.
Variable aws : service W.
Variable env : GitLab.env.
(** [self.account.name] and [self.account.region] *)
Variable account_name : string.
Variable account_region : string.

Definition with_world (st : state W) (w : W) : state W :=
  Build_state (log_groups st) (queries st) (queue st) (gitlab st) w.

Definition with_gitlab (st : state W) (c : GitLab.blame_cache) : state W :=
  Build_state (log_groups st) (queries st) (queue st) c (world st).

Definition put (st : state W) (m : message) : state W :=
  Build_state (log_groups st) (queries st) (queue st ++ [m]) (gitlab st)
    (world st).

Definition with_log_groups (st : state W) (d : dict (Z * Z)) : state W :=
  Build_state d (queries st) (queue st) (gitlab st) (world st).

Definition with_queries (st : state W) (d : dict string) : state W :=
  Build_state (log_groups st) d (queue st) (gitlab st) (world st).

Definition start_error_query (w : W) (log_group : string) (start limit : Z)
    : res started * W :=
  match start_query aws w log_group start limit with
  | (StartOk query_id, w') => (Ret (QueryId query_id), w')
  | (StartFailed code, w') =>
      if String.eqb code "LimitExceededException" then (Ret LIMIT_REACHED, w')
      else if String.eqb code "ResourceNotFoundException" then (Ret NOT_FOUND, w')
      else (Raise (ClientError code), w')
  end.

Definition get_results (w : W) (query_id : string) : res polled * W :=
  match get_query_results aws w query_id with
  | (ResultsFailed code, w') =>
      if String.eqb code "ThrottlingException" then (Ret THROTTLED, w')
      else (Raise (ClientError code), w')
  | (ResultsOk status results, w') =>
      if String.eqb status "Complete" then (Ret (Results results), w')
      else if String.eqb status "Scheduled" || String.eqb status "Running"
      then (Ret IN_PROGRESS, w')
      else (Raise (CloudWatchError status), w')
  end.

Definition author_value (author : option string) : value :=
  match author with
  | Some a => VStr a
  | None => VNone
  end.

(** [{k: log[k] for k in log.keys() if k != "message"}] *)
Definition without_message (log : dict value) : dict value :=
  List.filter (fun kv => negb (String.eqb (fst kv) "message")) log.

Fixpoint handle_query_results (budget : nat)
    (results : list Models.ErrorLog.row) (log_group : string)
    (st : state W) : option (res unit * state W) :=
  match results with
  | [] => Some (Ret tt, st)
  | result :: rest =>
      match Models.ErrorLog.transform_query_result (GitLab.clock env)
              result account_name with
      | Raise ex => Some (Raise ex, st)
      | Ret log =>
          match GitLab.blame budget env (gitlab st) log log_group with
          | None => None
          | Some (Raise ex, cache) => Some (Raise ex, with_gitlab st cache)
          | Some (Ret author, cache) =>
              let log := set "author_id" (author_value author) log in
              handle_query_results budget rest log_group
                (put (with_gitlab st cache)
                   (Some Models.ErrorLog.LABEL, Some (without_message log)))
          end
      end
  end.

(** The submission loop, [while log_groups: ...].  The entry taken is
    the first one, so [log_groups.pop(log_group)] leaves the tail. *)
Fixpoint submit (pending : dict (Z * Z)) (running : dict string) (w : W)
    : res unit * (dict (Z * Z) * dict string * W) :=
  match pending with
  | [] => (Ret tt, ([], running, w))
  | (log_group, (start, limit)) :: rest =>
      match start_error_query w log_group start limit with
      | (Raise ex, w') => (Raise ex, (pending, running, w'))
      | (Ret LIMIT_REACHED, w') => (Ret tt, (pending, running, w'))
      | (Ret NOT_FOUND, w') => submit rest running w'
      | (Ret (QueryId query), w') =>
          submit rest (set log_group query running) w'
      end
  end.

Definition submit_all (st : state W) : res unit * state W :=
  let '(r, (pending, running, w)) :=
    submit (log_groups st) (queries st) (world st) in
  (r, Build_state pending running (queue st) (gitlab st) w).

(** [results[-1]] *)
Definition last_row (results : list Models.ErrorLog.row)
    : res Models.ErrorLog.row :=
  of_option IndexError (nth_error results (length results - 1)).

(** [queries.pop(log_group)] *)
Definition pop_query (log_group : string) (st : state W)
    : option (res unit * state W) :=
  match pop log_group (queries st) with
  | Ret running => Some (Ret tt, with_queries st running)
  | Raise ex => Some (Raise ex, st)
  end.

(** The body of the polling loop for the entry [(log_group, query)]. *)
Definition poll_query (budget : nat) (log_group query : string)
    (st : state W) : option (res unit * state W) :=
  match get_results (world st) query with
  | (Raise ex, w') => Some (Raise ex, with_world st w')
  | (Ret IN_PROGRESS, w') => Some (Ret tt, with_world st w')
  | (Ret THROTTLED, w') => Some (Ret tt, with_world st w')
  | (Ret (Results results), w') =>
      match handle_query_results budget results log_group
              (with_world st w') with
      | None => None
      | Some (Raise ex, st1) => Some (Raise ex, st1)
      | Some (Ret _, st1) =>
          if (QUERY_LIMIT <=? Z.of_nat (length results))%Z then
            match
              (let* row := last_row results in
               Models.ErrorLog.query_result_transform_timestamp
                 (GitLab.clock env) row)
            with
            | Raise ex => Some (Raise ex, st1)
            | Ret last_timestamp =>
                pop_query log_group
                  (with_log_groups st1
                     (set log_group
                        (last_timestamp,
                         Config.limit_timestamp (GitLab.config env))
                        (log_groups st1)))
            end
          else pop_query log_group st1
      end
  end.

(** [for i in range(len(queries)-1, -1, -1)]: [n] is the number of
    indices still to visit, the next one being [n - 1]. *)
Fixpoint poll (budget : nat) (n : nat) (st : state W)
    : option (res unit * state W) :=
  match n with
  | O => Some (Ret tt, st)
  | S i =>
      match nth_error (queries st) i with
      | None => Some (Raise IndexError, st)
      | Some (log_group, query) =>
          match poll_query budget log_group query st with
          | Some (Ret _, st') => poll budget i st'
          | other => other
          end
      end
  end.

(** One round of the outer [while True]: submit, then poll. *)
Definition cycle (budget : nat) (st : state W)
    : option (res unit * state W) :=
  match submit_all st with
  | (Raise ex, st1) => Some (Raise ex, st1)
  | (Ret _, st1) => poll budget (length (queries st1)) st1
  end.

(** [if not log_groups and not queries: break] *)
Definition finished (st : state W) : bool :=
  match log_groups st, queries st with
  | [], [] => true
  | _, _ => false
  end.

(** The outer loop; [rounds] bounds the number of its rounds, [budget]
    the steps of one blame lookup. *)
Fixpoint query_loop (rounds budget : nat) (st : state W)
    : option (res unit * state W) :=
  match rounds with
  | O => None
  | S rounds' =>
      match cycle budget st with
      | None => None
      | Some (Raise ex, st1) => Some (Raise ex, st1)
      | Some (Ret _, st1) =>
          if finished st1 then Some (Ret tt, st1)
          else query_loop rounds' budget st1
      end
  end.

(** [{log_group: (start, limit) for log_group in log_groups}] *)
Definition initial_log_groups (names : list string) : dict (Z * Z) :=
  fold_left
    (fun d log_group =>
       set log_group
         (Config.start_timestamp (GitLab.config env),
          Config.limit_timestamp (GitLab.config env)) d)
    names [].

Definition query_logs (rounds budget : nat) (names : list string)
    (st : state W) : option (res unit * state W) :=
  query_loop rounds budget
    (with_queries (with_log_groups st (initial_log_groups names)) []).

Definition add_account (st : state W) : state W :=
  put st (Some Models.Account.LABEL,
          Some [("name", VStr account_name); ("region", VStr account_region)]).

Definition add_loggroups (st : state W) : state W :=
  fold_left
    (fun st mapping =>
       put st (Some Models.LogGroup.LABEL,
               Some (Models.LogGroup.transform_mapping
                       (fst mapping) (snd mapping) account_name)))
    (Config.get_log_group_mappings (GitLab.config env)) st.

Definition extract (rounds budget : nat) (st : state W)
    : option (res unit * state W) :=
  query_logs rounds budget (Config.log_groups (GitLab.config env))
    (add_loggroups (add_account st)).

End Extractor.

End CloudWatch.

(* ===================================================================== *)
(** * extract/jira.py *)
(* ===================================================================== *)

Module Jira.

Import Py.

(** [for index, row in enumerate(issue_reader)]: the rows of the file as
    the [csv] reader delivers them; the queue grows at its end. *)
Fixpoint extract_from (index : nat) (rows : list (list string))
    (queue : list message) : res unit * list message :=
  match rows with
  | [] => (Ret tt, queue)
  | row :: rest =>
      if Nat.eqb index 0 then extract_from (S index) rest queue
      else
        match Models.Story.transform_input row with
        | Raise ex => (Raise ex, queue)
        | Ret story =>
            extract_from (S index) rest
              (queue ++ [(Some Models.Story.LABEL, Some story)])
        end
  end.

Definition extract (rows : list (list string)) (queue : list message)
    : res unit * list message :=
  extract_from 0 rows queue.

End Jira.

(* ===================================================================== *)
(** * database/database.py *)
(* ===================================================================== *)

Module Database.

Import Py.

Abbreviation document := (dict value).

(** The content of the store: the documents of every table, in the order
    of their insertion. *)
Abbreviation content := (gmap string (list document)).

(** TinyDB behind [JSONStorage], or behind [CachingMiddleware(JSONStorage)]
    when [cached]: the middleware answers reads from [cache], keeps every
    write there and passes it on to the file on the thousandth write, on
    [flush] and on [close]. *)
Record t := {
  cached : bool;
  file : content;
  cache : option content;
  cache_modified_count : nat;
  closed : bool
}.

Definition WRITE_CACHE_SIZE : nat := 1000.

(** A store without documents. *)
Definition blank : content := empty.

Definition open (cached : bool) (file : content) : t :=
  {| cached := cached; file := file; cache := None;
     cache_modified_count := 0; closed := false |}.

(** What a read through the storage layer sees. *)
Definition read (db : t) : content :=
  match cache db with
  | Some c => c
  | None => file db
  end.

Definition flush (db : t) : t :=
  match cache db with
  | Some c =>
      if Nat.ltb 0 (cache_modified_count db) then
        {| cached := cached db; file := c; cache := cache db;
           cache_modified_count := 0; closed := closed db |}
      else db
  | None => db
  end.

Definition write (db : t) (data : content) : t :=
  if cached db then
    let db' := {| cached := true; file := file db; cache := Some data;
                  cache_modified_count := S (cache_modified_count db);
                  closed := closed db |} in
    if Nat.leb WRITE_CACHE_SIZE (cache_modified_count db') then flush db'
    else db'
  else
    {| cached := false; file := data; cache := cache db;
       cache_modified_count := cache_modified_count db; closed := closed db |}.

(** Leaving [with self.db:]: the middleware flushes, the file is closed. *)
Definition close (db : t) : t :=
  let db' := flush db in
  {| cached := cached db'; file := file db'; cache := cache db';
     cache_modified_count := cache_modified_count db'; closed := true |}.

Definition table (data : content) (label : string) : list document :=
  default [] (data !! label).

(** [insert]: [self.tables] has the labels of [TYPE_MAP] only; TinyDB
    refuses what is not a mapping.  The result is the document id. *)
Definition insert (db : t) (label : string) (doc : option document)
    : res nat * t :=
  if existsb (String.eqb label) Models.TYPE_LABELS then
    match doc with
    | None => (Raise (ValueError "Document is not a Mapping"), db)
    | Some d =>
        let data := read db in
        let rows := table data label ++ [d] in
        (Ret (length rows), write db (<[label := rows]> data))
    end
  else (Raise (KeyError label), db).

(** How the writer loop ends on a finite run of messages: it returns
    (with the messages it left on the queue), it raises, or it used up
    the messages and waits in [queue.get()]. *)
Inductive outcome :=
| Returned (db : t) (rest : list message)
| Crashed (ex : exn) (db : t) (rest : list message)
| Waiting (db : t).

Fixpoint listen_loop (db : t) (queue : list message) : outcome :=
  match queue with
  | [] => Waiting db
  | (label, doc) :: rest =>
      match label with
      | Some label =>
          match insert db label doc with
          | (Ret _, db') => listen_loop db' rest
          | (Raise ex, db') => Crashed ex db' rest
          end
      | None => Returned db rest
      end
  end.

(** [__listen]: the loop inside [with self.db:]. *)
Definition listen (db : t) (queue : list message) : outcome :=
  match listen_loop db queue with
  | Returned db' rest => Returned (close db') rest
  | Crashed ex db' rest => Crashed ex (close db') rest
  | Waiting db' => Waiting db'
  end.

(** [initiate_process] *)
Definition initiate_process (file : content) (queue : list message)
    (cached : bool) : outcome :=
  listen (open cached file) queue.

(** [Table.truncate]: the table is written back without documents. *)
Definition truncate (db : t) (label : string) : t :=
  write db (<[label := []]> (read db)).

(** [clear]: the tables of the source are truncated one after the
    other; a source that [SOURCE_MAP] does not have is a [KeyError]. *)
Definition clear (db : t) (source : string) : res unit * t :=
  match get source Models.SOURCE_MAP with
  | Some labels => (Ret tt, fold_left truncate labels db)
  | None => (Raise (KeyError source), db)
  end.

(** The list comprehension of [all] and [query]: every result becomes
    an instance of the class, in the order of the results. *)
Fixpoint instances (cls : Models.dataclass) (results : list document)
    : res (list Models.instance) :=
  match results with
  | [] => Ret []
  | result :: rest =>
      let* first := Models.construct cls result in
      let* more := instances cls rest in
      Ret (first :: more)
  end.

(** [self.tables[label]]: the tables are those of [TYPE_MAP]; the class
    under the same label is the one [all] and [query] instantiate. *)
Definition table_class (label : string) : res Models.dataclass :=
  item label Models.TYPE_MAP.

(** [all] *)
Definition all (db : t) (label : string) : res (list Models.instance) :=
  let* cls := table_class label in
  instances cls (table (read db) label).

(** [query]: a TinyDB query is a test on documents; [search] keeps the
    documents that pass it, in the order of the table. *)
Definition query (db : t) (label : string) (test : document -> bool)
    : res (list Models.instance) :=
  let* cls := table_class label in
  instances cls (List.filter test (table (read db) label)).

End Database.

(* ===================================================================== *)
(** * analyze/shared/calculation.py *)
(* ===================================================================== *)

Module Calculation.

Import Py.

(** The fields of a [Commit] that the calculation reads: the hashed name
    of the author and the number of changed lines. *)
Record commit := { author_id : string; changed_loc : Z }.

(** The exceptions of the calculation. *)
Inductive failure :=
| ZeroDivisionError
| OverflowError
| KeyError (key : string)
| ValueError.

Inductive outcome (A : Type) :=
| Returned (a : A)
| Failed (f : failure).
Arguments Returned {A} a.
Arguments Failed {A} f.

(** The arithmetic of [float], taken as given: [quotient a b] is [a / b]
    for two integers of which [b] is not zero ([None] when the quotient is
    too large for a [float]), [add x y] is [x + y], [halve x] is [x / 2],
    [one] is [1.0] and [largest x xs] is [max] of the list [x :: xs]. *)
Record arithmetic (F : Type) := {
  quotient : Z -> Z -> option F;
  add : F -> F -> F;
  halve : F -> F;
  one : F;
  largest : F -> list F -> F
}.
Arguments quotient {F} _ _ _.
Arguments add {F} _ _ _.
Arguments halve {F} _ _.
Arguments one {F} _.
Arguments largest {F} _ _ _.

Section Calculation.

Context {F : Type}.
Variable ar : arithmetic F.

(** [a / b] for two integers. *)
Definition truediv (a b : Z) : outcome F :=
  if (b =? 0)%Z then Failed ZeroDivisionError
  else match quotient ar a b with
       | Some x => Returned x
       | None => Failed OverflowError
       end.

(** [ownership] *)
Definition ownership (commits locc total_commits total_locc : Z)
    : outcome F :=
  match truediv commits total_commits with
  | Returned x =>
      match truediv locc total_locc with
      | Returned y => Returned (halve ar (add ar x y))
      | Failed f => Failed f
      end
  | Failed f => Failed f
  end.

(** [sum] of a list of integers. *)
Definition sum (values : list Z) : Z := fold_left Z.add values 0%Z.

(** The body of the loop over the commits; an entry of [contributors]
    is the pair of its ["commits"] and its ["locc"]. *)
Definition tally (contributors : dict (Z * Z)) (c : commit) : dict (Z * Z) :=
  let contributors :=
    match get (author_id c) contributors with
    | None => set (author_id c) (0, 0)%Z contributors
    | Some _ => contributors
    end in
  let '(commits, locc) :=
    default (0, 0)%Z (get (author_id c) contributors) in
  set (author_id c) (commits + 1, locc + changed_loc c)%Z contributors.

(** The list of the shares, one contributor after the other. *)
Fixpoint ownership_shares (contributors : dict (Z * Z))
    (total_commits total_locc : Z) : outcome (list F) :=
  match contributors with
  | [] => Returned []
  | (_, (commits, locc)) :: rest =>
      match ownership commits locc total_commits total_locc with
      | Returned x =>
          match ownership_shares rest total_commits total_locc with
          | Returned xs => Returned (x :: xs)
          | Failed f => Failed f
          end
      | Failed f => Failed f
      end
  end.

(** [if author:] for an argument that is a text or [None]. *)
Definition given (author : option string) : option string :=
  match author with
  | Some a => if truthy_str a then Some a else None
  | None => None
  end.

(** [calculate_ownership] *)
Definition calculate_ownership (commits : list commit)
    (author : option string) : outcome F :=
  let total_commits := Z.of_nat (length commits) in
  let total_locc := sum (map changed_loc commits) in
  match commits with
  | [] => Returned (one ar)
  | _ :: _ =>
      let contributors := fold_left tally commits [] in
      match given author with
      | Some a =>
          match get a contributors with
          | Some (n, l) => ownership n l total_commits total_locc
          | None => Failed (KeyError a)
          end
      | None =>
          match ownership_shares contributors total_commits total_locc with
          | Returned (x :: xs) => Returned (largest ar x xs)
          | Returned [] => Failed ValueError
          | Failed f => Failed f
          end
      end
  end.

End Calculation.

End Calculation.

(* ===================================================================== *)
(** * Vocabulary of the statements *)
(* ===================================================================== *)

(** The definitions from here to the concrete inputs are not part of the
    program: they name what the statements below talk about. *)

Module Text.

(** The longest prefix of [s] whose characters satisfy [p], and what
    follows it. *)
Fixpoint take_while (p : ascii -> bool) (s : string) : string :=
  match s with
  | String c s' => if p c then String c (take_while p s') else EmptyString
  | EmptyString => EmptyString
  end.

Fixpoint drop_while (p : ascii -> bool) (s : string) : string :=
  match s with
  | String c s' => if p c then drop_while p s' else s
  | EmptyString => EmptyString
  end.

Definition not_digit (c : ascii) : bool := negb (Py.is_digit c).

(** The first run of digits of [s] (empty when [s] has no digit). *)
Definition first_digits (s : string) : string :=
  take_while Py.is_digit (drop_while not_digit s).

(** The number written by the first run of digits of [s]. *)
Definition first_number (s : string) : Z := Py.digits_val 0 (first_digits s).

Definition starts_with (p : ascii -> bool) (s : string) : bool :=
  match s with
  | String c _ => p c
  | EmptyString => false
  end.

(** A run of digits is convertible when [int] takes it: when it has no
    more digits than the limit. *)
Definition convertible (d : string) : bool :=
  (N.of_nat (String.length d) <=? Py.max_str_digits)%N.

(** A digit of a lower-case hexadecimal number. *)
Definition is_hex (c : ascii) : bool :=
  Py.is_digit c || ((97 <=? Py.code c)%N && (Py.code c <=? 102)%N).

End Text.

(** Patterns. *)
Module Patterns.

(** A pattern without a group in it. *)
Fixpoint groupless (r : Re.regex) : bool :=
  match r with
  | Re.Grp _ _ => false
  | Re.Cat a b => groupless a && groupless b
  | Re.Alt a b => groupless a && groupless b
  | _ => true
  end.

End Patterns.

(** The sprint columns of a row. *)
Module Rows.

Import Py.

(** A sprint column is usable when it is empty (then it is skipped) or
    holds a digit, its first run of digits being convertible. *)
Definition usable (col : string) : Prop :=
  col = EmptyString
  \/ (any_char is_digit col = true
      /\ Text.convertible (Text.first_digits col) = true).

Definition usableb (col : string) : bool :=
  negb (truthy_str col)
  || (any_char is_digit col && Text.convertible (Text.first_digits col)).

(** What [None.group()] raises. *)
Definition no_group : exn :=
  AttributeError "'NoneType' object has no attribute 'group'".

End Rows.

(** The messages of the writer and the states of its storage layer. *)
Module Writer.

Import Py Database.

(** The documents that the messages [msgs] carry for the table [label],
    in the order of the messages. *)
Fixpoint documents_for (label : string) (msgs : list message)
    : list document :=
  match msgs with
  | [] => []
  | (Some l, Some d) :: msgs' =>
      if String.eqb l label then d :: documents_for label msgs'
      else documents_for label msgs'
  | _ :: msgs' => documents_for label msgs'
  end.

(** A message a producer sends: a label that has a table, and a
    document. *)
Definition record_message (m : message) : Prop :=
  exists label doc,
    m = (Some label, Some doc) /\ In label Models.TYPE_LABELS.

(** The states the storage layer can be in: there is a cache only behind
    the middleware, writes are pending only in a cache, and a cache
    without pending writes is the file. *)
Definition consistent (db : t) : Prop :=
  match cache db with
  | None => cache_modified_count db = 0
  | Some c => cached db = true /\ (cache_modified_count db = 0 -> file db = c)
  end.

End Writer.

(** The pages of a paginated resource. *)
Module Pages.

Import Py GitLab.

(** The pages that a walk from [params] goes through: each is the answer
    to the request built from the cursor of the page before, and the last
    one is the first that has no cursor. *)
Inductive page_chain (e : env) (uri : string)
    : dict string -> list response -> Prop :=
| chain_last params r :
    fetch e uri params = Ret r ->
    next_page (x_next_page r) = None ->
    page_chain e uri params [r]
| chain_next params r page rs :
    fetch e uri params = Ret r ->
    next_page (x_next_page r) = Some page ->
    page_chain e uri (set "page" page params) rs ->
    page_chain e uri params (r :: rs).

(** What the walk does, step by step: a request, the items of the
    answer, and so on; it stops after the items of the last page. *)
Fixpoint walk (uri : string) (params : dict string)
    (pages : list response) : list event :=
  match pages with
  | [] => [Stopped]
  | r :: rs =>
      Requested {| uri := uri; params := params |}
      :: map Yielded (json r)
      ++ match next_page (x_next_page r) with
         | Some page => walk uri (set "page" page params) rs
         | None => [Stopped]
         end
  end.

(** The addresses of the requests of the walk. *)
Fixpoint addresses (uri : string) (params : dict string)
    (pages : list response) : list url :=
  match pages with
  | [] => []
  | r :: rs =>
      {| uri := uri; params := params |}
      :: match next_page (x_next_page r) with
         | Some page => addresses uri (set "page" page params) rs
         | None => []
         end
  end.

(** The pages that the remote serves before a request of the walk fails
    with [ex]: each has a cursor, and the request built from the cursor of
    the last one (from [params], if there is none) is the one that
    fails. *)
Inductive broken_chain (e : env) (uri : string) (ex : exn)
    : dict string -> list response -> Prop :=
| broken_here params :
    fetch e uri params = Raise ex ->
    broken_chain e uri ex params []
| broken_next params r page rs :
    fetch e uri params = Ret r ->
    next_page (x_next_page r) = Some page ->
    broken_chain e uri ex (set "page" page params) rs ->
    broken_chain e uri ex params (r :: rs).

(** What such a walk does: a request and the items of its answer for
    every page served, then the failure. *)
Fixpoint broken_walk (uri : string) (params : dict string)
    (pages : list response) (ex : exn) : list event :=
  match pages with
  | [] => [Failed ex]
  | r :: rs =>
      Requested {| uri := uri; params := params |}
      :: map Yielded (json r)
      ++ match next_page (x_next_page r) with
         | Some page => broken_walk uri (set "page" page params) rs ex
         | None => [Stopped]
         end
  end.

(** The walk from [params] yields the items [before], in this order, and
    then [item]. *)
Inductive reaches (e : env) (uri : string) (item : value)
    : dict string -> list value -> Prop :=
| reaches_here params r before after :
    fetch e uri params = Ret r ->
    json r = before ++ item :: after ->
    reaches e uri item params before
| reaches_later params r page before :
    fetch e uri params = Ret r ->
    next_page (x_next_page r) = Some page ->
    reaches e uri item (set "page" page params) before ->
    reaches e uri item params (json r ++ before).

End Pages.

(** What a walk through the blame of a file comes to. *)
Module Blames.

Import Py GitLab.

(** The walk from [params] comes to [item] as the first item that has
    the statement among its lines: the items before it, on its page and on
    the pages before, do not have it. *)
Inductive first_match (e : env) (uri statement : string) (item : value)
    : dict string -> Prop :=
| match_here params r before after :
    fetch e uri params = Ret r ->
    json r = before ++ item :: after ->
    Forall (fun i => blamed statement i = Ret false) before ->
    blamed statement item = Ret true ->
    first_match e uri statement item params
| match_later params r page :
    fetch e uri params = Ret r ->
    Forall (fun i => blamed statement i = Ret false) (json r) ->
    next_page (x_next_page r) = Some page ->
    first_match e uri statement item (set "page" page params) ->
    first_match e uri statement item params.

(** The walk from [params] comes to its end without an item that has the
    statement among its lines. *)
Inductive no_match (e : env) (uri statement : string)
    : dict string -> Prop :=
| none_last params r :
    fetch e uri params = Ret r ->
    Forall (fun i => blamed statement i = Ret false) (json r) ->
    next_page (x_next_page r) = None ->
    no_match e uri statement params
| none_next params r page :
    fetch e uri params = Ret r ->
    Forall (fun i => blamed statement i = Ret false) (json r) ->
    next_page (x_next_page r) = Some page ->
    no_match e uri statement (set "page" page params) ->
    no_match e uri statement params.

End Blames.

(** What the GitLab extractor puts on the queue. *)
Module Extraction.

Import Py.

(** The ids of the users on the queue, in the order of their messages. *)
Definition user_ids (msgs : list message) : list (option value) :=
  map (get "id") (Writer.documents_for Models.User.LABEL msgs).

(** The memo table of [__add_user] has the ids of the users on the queue,
    in their order, and none of them twice. *)
Definition registered (st : GitLab.extractor) : Prop :=
  map Some (GitLab.added_users st) = user_ids (GitLab.queue st)
  /\ List.NoDup (GitLab.added_users st).

(** The body of a loop on one item after the other, up to the first on
    which it raises. *)
Fixpoint in_turn
    (body : value -> GitLab.extractor -> res unit * GitLab.extractor)
    (items : list value) (st : GitLab.extractor)
    : res unit * GitLab.extractor :=
  match items with
  | [] => (Ret tt, st)
  | item :: rest =>
      match body item st with
      | (Ret _, st') => in_turn body rest st'
      | (Raise ex, st') => (Raise ex, st')
      end
  end.

(** [document] is the record of [commit] for the user that the search
    for the mail of its author finds. *)
Definition commit_record (e : GitLab.env) (project_id : Z) (commit : value)
    (document : dict value) : Prop :=
  exists mail userid,
    vitem "author_email" commit = Ret mail
    /\ GitLab.find_user_identifiers e mail = Ret (VStr userid)
    /\ Models.Commit.transform_input (GitLab.clock e) commit
         (VInt project_id) (VStr (Models.User.hash_id userid))
       = Ret document.

(** A merge request with its author and its contributors. *)
Definition merge_of (id internal_id project_id : value) (author : string)
    (timestamp : Z) (contributors : list value) (story_id : value)
    : Models.instance :=
  [("id", id); ("internal_id", internal_id); ("project_id", project_id);
   ("author_id", VStr author); ("timestamp", VInt timestamp);
   ("contributor_ids", VList contributors); ("story_id", story_id)].

(** [document] is the record of the merge request [dataset] with the
    participants that the API lists for it: the contributors are the
    hashed names of the participants, in their order, without the
    author. *)
Definition merge_record (e : GitLab.env) (project_id : Z) (dataset : value)
    (document : dict value) : Prop :=
  exists id internal_id project author timestamp story_id participants
         usernames,
    Models.Merge.from_input (GitLab.clock e) dataset
      (Config.project_acronym (GitLab.config e))
    = Ret (merge_of id internal_id project author timestamp [] story_id)
    /\ GitLab.fetch_single e (GitLab.participants_uri project_id internal_id)
         []
       = Ret participants
    /\ Forall2 (fun participant username =>
                  vitem "username" participant = Ret (VStr username))
         participants usernames
    /\ document
       = merge_of id internal_id project author timestamp
           (map VStr
              (List.filter (fun id => negb (String.eqb id author))
                 (map Models.User.hash_id usernames)))
           story_id.

(** A merge request whose fields have the types that the API documents,
    as the API lists it. *)
Definition dataset_of (data : Models.Merge.payload) : value :=
  VDict [("id", VInt (Models.Merge.mr_id data));
         ("iid", VInt (Models.Merge.mr_iid data));
         ("project_id", VInt (Models.Merge.mr_project_id data));
         ("title", VStr (Models.Merge.mr_title data));
         ("description",
          match Models.Merge.mr_description data with
          | Some description => VStr description
          | None => VNone
          end);
         ("author",
          VDict [("username", VStr (Models.Merge.mr_author_username data))]);
         ("merged_at", VStr (Models.Merge.mr_merged_at data))].

(** The contributors after one more participant. *)
Definition joined (author : string) (ids : list value) (id : string)
    : list value :=
  if String.eqb id author then ids else ids ++ [VStr id].

(** The author of a merge request is not among its contributors. *)
Definition author_apart (merge : dict value) : Prop :=
  exists author ids,
    get "author_id" merge = Some author
    /\ get "contributor_ids" merge = Some (VList ids)
    /\ ~ In author ids.

(** From [st] to [st'] the extractor has put messages at the end of the
    queue, each of them a [P]. *)
Definition sends (P : message -> Prop) (st st' : GitLab.extractor) : Prop :=
  exists sent, GitLab.queue st' = GitLab.queue st ++ sent /\ Forall P sent.

(** From [st] to [st'] the memo table has stayed in line with the queue
    and has lost no key. *)
Definition keeps (st st' : GitLab.extractor) : Prop :=
  (registered st -> registered st')
  /\ incl (GitLab.added_users st) (GitLab.added_users st').

End Extraction.

(** The rounds of the polling loop. *)
Module Rounds.

Import Py CloudWatch.

Section Rounds.

Context {W : Type}.
Variable aws : service W.
Variable env : GitLab.env.
Variable account_name : string.

(** What the handler puts on the queue for the row [result]: the
    transformed record without its message, with the author that the
    blame correlation returned for it. *)
Definition queued_for (budget : nat) (log_group : string)
    (result : Models.ErrorLog.row) (m : message) : Prop :=
  exists loggroup timestamp message author cache cache',
    Models.ErrorLog.transform_query_result (GitLab.clock env) result
      account_name
    = Ret [("loggroup", VStr loggroup); ("account", VStr account_name);
           ("timestamp", VInt timestamp); ("message", VStr message)]
    /\ GitLab.blame budget env cache
         [("loggroup", VStr loggroup); ("account", VStr account_name);
          ("timestamp", VInt timestamp); ("message", VStr message)]
         log_group
       = Some (Ret author, cache')
    /\ m = (Some Models.ErrorLog.LABEL,
            Some [("loggroup", VStr loggroup);
                  ("account", VStr account_name);
                  ("timestamp", VInt timestamp);
                  ("author_id", author_value author)]).

(** The log group is the first of the pending ones. *)
Definition first_pending (log_group : string) (st : state W) : Prop :=
  exists range rest, log_groups st = (log_group, range) :: rest.

(** The log group is in neither dictionary. *)
Definition dropped (log_group : string) (st : state W) : Prop :=
  ~ In log_group (keys (log_groups st))
  /\ ~ In log_group (keys (queries st)).

(** [later budget st st']: the loop gets from [st] to [st'] in some
    number of rounds. *)
Inductive later (budget : nat) : state W -> state W -> Prop :=
| later_now st : later budget st st
| later_round st u st1 st' :
    cycle aws env account_name budget st = Some (Ret u, st1) ->
    later budget st1 st' ->
    later budget st st'.

(** A log group is pending or in flight, not both, and is so once. *)
Definition well_formed (st : state W) : Prop :=
  List.NoDup (keys (log_groups st))
  /\ List.NoDup (keys (queries st))
  /\ forall k, In k (keys (log_groups st)) -> ~ In k (keys (queries st)).

End Rounds.

End Rounds.

(** The messages of one account's extractor. *)
Module Records.

Import Py.

(** An error log on the queue: the four keys, no message. *)
Definition error_log (m : message) : Prop :=
  exists loggroup account timestamp author,
    m = (Some Models.ErrorLog.LABEL,
         Some [("loggroup", VStr loggroup); ("account", VStr account);
               ("timestamp", VInt timestamp); ("author_id", author)]).

(** The first occurrences of the elements of a list, in their order. *)
Fixpoint first_occurrences (seen names : list string) : list string :=
  match names with
  | [] => []
  | name :: names' =>
      if existsb (String.eqb name) seen then first_occurrences seen names'
      else name :: first_occurrences (seen ++ [name]) names'
  end.

End Records.

(** The shares of the authors of a list of commits. *)
Module Shares.

Import Py Calculation.

(** The commits of [author], their number and the lines they changed. *)
Definition by_author (author : string) (commits : list commit)
    : list commit :=
  List.filter (fun c => String.eqb (author_id c) author) commits.

Definition count (author : string) (commits : list commit) : Z :=
  Z.of_nat (length (by_author author commits)).

Definition locc (author : string) (commits : list commit) : Z :=
  fold_right Z.add 0%Z (map changed_loc (by_author author commits)).

(** The lines that all the commits changed. *)
Definition total (commits : list commit) : Z :=
  fold_right Z.add 0%Z (map changed_loc commits).

(** The authors, each once, in the order of their first commit. *)
Definition authors (commits : list commit) : list string :=
  Records.first_occurrences [] (map author_id commits).

(** The share of [author] in [commits]. *)
Definition share {F} (ar : arithmetic F) (commits : list commit)
    (author : string) : outcome F :=
  ownership ar (count author commits) (locc author commits)
    (Z.of_nat (length commits)) (total commits).

(** The shares of a list of authors, up to the first that fails. *)
Fixpoint shares {F} (ar : arithmetic F) (commits : list commit)
    (names : list string) : outcome (list F) :=
  match names with
  | [] => Returned []
  | name :: rest =>
      match share ar commits name with
      | Returned x =>
          match shares ar commits rest with
          | Returned xs => Returned (x :: xs)
          | Failed f => Failed f
          end
      | Failed f => Failed f
      end
  end.

(** An arithmetic in which a quotient between zero and one is not too
    large, as in that of [float]. *)
Definition fractions {F} (ar : arithmetic F) : Prop :=
  forall a b, (0 <= a <= b)%Z -> b <> 0%Z -> quotient ar a b <> None.

End Shares.

(** What the polling loop stays within. *)
Module Bounds.

Import Py CloudWatch.

(** Every log group that is pending or in flight is one of [names], and
    every pending window ends at [limit]. *)
Definition within {W} (names : list string) (limit : Z) (st : state W)
    : Prop :=
  (forall k, In k (keys (log_groups st)) \/ In k (keys (queries st)) ->
             In k names)
  /\ (forall k range, In (k, range) (log_groups st) -> snd range = limit).

End Bounds.

(* ===================================================================== *)
(** * Concrete inputs *)
(* ===================================================================== *)

(** Concrete inputs for the examples. *)
Module Fixtures.

(** A clock that knows one instant, 2023-03-28 10:40:00, and reads
    every other time stamp as the instant 0. *)
Definition clock : Clock :=
  {| strptime_epoch := fun t =>
       if String.eqb t "2023-03-28 10:40:00.000" then Some 1680000000%Z
       else Some 0%Z;
     fromisoformat_epoch := fun _ => Some 0%Z;
     fromtimestamp_iso := fun t =>
       if (t =? 1680000000)%Z then "2023-03-28T10:40:00"
       else "1970-01-01T00:00:00" |}.

Definition merge_request (title : string) : Models.Merge.payload :=
  {| Models.Merge.mr_id := 1; Models.Merge.mr_iid := 1;
     Models.Merge.mr_project_id := 7;
     Models.Merge.mr_title := title;
     Models.Merge.mr_description := Some EmptyString;
     Models.Merge.mr_author_username := "alice";
     Models.Merge.mr_merged_at := "2023-01-01T00:00:00" |}.

End Fixtures.

(** A project with one source file, blamed on two pages. *)
Module Remote.

Import Py.

Definition configuration : Config.Configuration :=
  {| Config.start_time := "2023-01-01T00:00:00Z";
     Config.limit_time := "2023-12-31T00:00:00Z";
     Config.start_timestamp := 1672531200;
     Config.limit_timestamp := 1703980800;
     Config.project_acronym := "PROJ";
     Config.parent_group := 1;
     Config.log_groups := ["/aws/lambda/orders"];
     Config.log_group_mappings := [("/aws/lambda/orders", 7%Z)];
     Config.user_alias := [] |}.

Definition blame_item (mail : string) (lines : list string) : value :=
  VDict [("commit", VDict [("author_email", VStr mail)]);
         ("lines", VList (map VStr lines))].

Definition alice_lines : value :=
  blame_item "alice@example.org"
    ["def handle(event):"; "    return load(event)"].

Definition bob_lines : value :=
  blame_item "bob@example.org"
    ["def load(event):"; "    return table.get(event)"].

Definition answer (items : list value) (cursor : option string)
    : GitLab.response :=
  {| GitLab.ok := true; GitLab.json := items; GitLab.x_next_page := cursor |}.

Definition not_found : GitLab.response :=
  {| GitLab.ok := false; GitLab.json := []; GitLab.x_next_page := None |}.

Definition server : GitLab.remote := fun u =>
  if String.eqb (GitLab.uri u) (GitLab.commits_uri 7) then
    answer [VDict [("id", VStr "c0ffee")]] None
  else if String.eqb (GitLab.uri u) (GitLab.blame_uri 7 "app/handler.py") then
    match get "page" (GitLab.params u) with
    | None => answer [alice_lines] (Some "2")
    | Some page =>
        if String.eqb page "2" then answer [bob_lines] (Some EmptyString)
        else not_found
    end
  else if String.eqb (GitLab.uri u) "/search" then
    match get "search" (GitLab.params u) with
    | Some mail =>
        if String.eqb mail "alice@example.org"
        then answer [VDict [("username", VStr "alice")]] None
        else if String.eqb mail "bob@example.org"
        then answer [VDict [("username", VStr "bob")]] None
        else answer [] None
    | None => answer [] None
    end
  else not_found.

Definition env : GitLab.env :=
  {| GitLab.config := configuration;
     GitLab.clock := Fixtures.clock;
     GitLab.server := server |}.

Definition nl : string := String Re.newline EmptyString.
Definition nbsp2 : string :=
  String Models.nbsp (String Models.nbsp EmptyString).
Definition nbsp4 : string := nbsp2 +:+ nbsp2.

(** A traceback with the frame of [handle]. *)
Definition outer_frame : string :=
  "[ERROR] KeyError: 'id'" +:+ nl
  +:+ "Traceback (most recent call last):" +:+ nl
  +:+ nbsp2 +:+ "File /var/task/app/handler.py, line 2, in handle" +:+ nl
  +:+ nbsp4 +:+ "return load(event)" +:+ nl.

(** The same traceback with the frame of [load] below it; the line it
    shows is no longer in the file. *)
Definition both_frames : string :=
  outer_frame
  +:+ nbsp2 +:+ "File /var/task/app/handler.py, line 4, in load" +:+ nl
  +:+ nbsp4 +:+ "return table[event]" +:+ nl.

(** A traceback whose inner frame is in a file that the remote does not
    have. *)
Definition two_files : string :=
  outer_frame
  +:+ nbsp2 +:+ "File /var/task/lib/cache.py, line 9, in lookup" +:+ nl
  +:+ nbsp4 +:+ "return store[key]" +:+ nl.

Definition error_log (message : string) : dict value :=
  [("loggroup", VStr (Models.LogGroup.hash_name "/aws/lambda/orders"));
   ("account", VStr "production");
   ("timestamp", VInt 1680000000);
   ("message", VStr message)].

(** The same remote for a configuration that maps the log group to
    project 9, of which the remote knows nothing. *)
Definition stale : GitLab.env :=
  {| GitLab.config :=
       {| Config.start_time := "2023-01-01T00:00:00Z";
          Config.limit_time := "2023-12-31T00:00:00Z";
          Config.start_timestamp := 1672531200;
          Config.limit_timestamp := 1703980800;
          Config.project_acronym := "PROJ";
          Config.parent_group := 1;
          Config.log_groups := ["/aws/lambda/orders"];
          Config.log_group_mappings := [("/aws/lambda/orders", 9%Z)];
          Config.user_alias := [] |};
     GitLab.clock := Fixtures.clock;
     GitLab.server := server |}.

(** A remote on which project 7 has no commit up to the time asked
    for. *)
Definition young : GitLab.env :=
  {| GitLab.config := configuration;
     GitLab.clock := Fixtures.clock;
     GitLab.server := fun u =>
       if String.eqb (GitLab.uri u) (GitLab.commits_uri 7)
       then answer [] None else server u |}.

(** A remote whose list of groups breaks off: the first page of
    [/groups] points to a second page that it does not serve. *)
Definition truncated : GitLab.env :=
  {| GitLab.config := configuration;
     GitLab.clock := Fixtures.clock;
     GitLab.server := fun u =>
       if String.eqb (GitLab.uri u) "/groups" then
         match get "page" (GitLab.params u) with
         | None => answer [VDict [("id", VInt 1)]; VDict [("id", VInt 2)]]
                     (Some "2")
         | Some _ => not_found
         end
       else server u |}.

Definition commit_of (id mail : string) (total : Z) : value :=
  VDict [("id", VStr id); ("short_id", VStr id);
         ("authored_date", VStr "2023-03-28T10:40:00");
         ("author_email", VStr mail);
         ("stats", VDict [("total", VInt total)])].

Definition merge_request (iid : Z) (title username : string) : value :=
  VDict [("id", VInt (100 + iid)); ("iid", VInt iid); ("project_id", VInt 7);
         ("title", VStr title); ("description", VStr "no description");
         ("author", VDict [("username", VStr username)]);
         ("merged_at", VStr "2023-03-28T10:40:00")].

Definition participant (username : string) : value :=
  VDict [("username", VStr username)].

(** The record of a commit, for the clock of the examples. *)
Definition commit_document (project_id : Z) (id userid : string) (total : Z)
    : dict value :=
  [("id", VStr id); ("short_id", VStr id); ("timestamp", VInt 0);
   ("author_id", VStr (Models.User.hash_id userid));
   ("changed_loc", VInt total); ("project_id", VInt project_id)].

(** The two pages of the commits of project 7. *)
Definition commit_pages : list GitLab.response :=
  [answer [commit_of "c1" "alice@example.org" 10;
           commit_of "c2" "bob@example.org" 5] (Some "2");
   answer [commit_of "c3" "alice@example.org" 1] None].

Definition commit_documents : list (dict value) :=
  [commit_document 7 "c1" "alice" 10; commit_document 7 "c2" "bob" 5;
   commit_document 7 "c3" "alice" 1].

(** A remote with the history of project 7 since the start time: three
    commits on two pages, and one merge request, of alice, in which bob
    and carol took part.  The search does not know the mail address of
    dave, the author of the one commit of project 8; the merge request of
    project 8 has participants that the remote does not list. *)
Definition history : GitLab.env :=
  {| GitLab.config := configuration;
     GitLab.clock := Fixtures.clock;
     GitLab.server := fun u =>
       if String.eqb (GitLab.uri u) (GitLab.commits_uri 7) then
         match get "since" (GitLab.params u), get "page" (GitLab.params u) with
         | Some _, None =>
             answer [commit_of "c1" "alice@example.org" 10;
                     commit_of "c2" "bob@example.org" 5] (Some "2")
         | Some _, Some _ =>
             answer [commit_of "c3" "alice@example.org" 1] None
         | None, _ => server u
         end
       else if String.eqb (GitLab.uri u) (GitLab.merges_uri 7) then
         answer [merge_request 3 "PROJP-12 fix the handler" "alice"] None
       else if String.eqb (GitLab.uri u)
                 (GitLab.participants_uri 7 (VInt 3)) then
         answer [participant "alice"; participant "bob"; participant "carol"]
           None
       else if String.eqb (GitLab.uri u) (GitLab.commits_uri 8) then
         answer [commit_of "d1" "bob@example.org" 2;
                 commit_of "d2" "dave@example.org" 3;
                 commit_of "d3" "alice@example.org" 4] None
       else if String.eqb (GitLab.uri u) (GitLab.merges_uri 8) then
         answer [merge_request 4 "no story" "bob"] None
       else server u |}.

(** What an extractor that has just been started has done after the
    commits of project 7, and after its merge requests as well. *)
Definition after_commits : GitLab.extractor :=
  {| GitLab.queue :=
       [(Some "user", Some (Models.User.transform_user_id "alice"));
        (Some "commit", Some (commit_document 7 "c1" "alice" 10));
        (Some "user", Some (Models.User.transform_user_id "bob"));
        (Some "commit", Some (commit_document 7 "c2" "bob" 5));
        (Some "commit", Some (commit_document 7 "c3" "alice" 1))];
     GitLab.added_users :=
       [VStr (Models.User.hash_id "alice"); VStr (Models.User.hash_id "bob")]
  |}.

(** The record of the merge request of project 7. *)
Definition merge_document : dict value :=
  Extraction.merge_of (VInt 103) (VInt 3) (VInt 7)
    (Models.User.hash_id "alice") 0
    [VStr (Models.User.hash_id "bob"); VStr (Models.User.hash_id "carol")]
    (VInt 12).

(** What the extractor has done when the commits of project 8 stop at
    the commit of dave. *)
Definition before_dave : GitLab.extractor :=
  {| GitLab.queue :=
       [(Some "user", Some (Models.User.transform_user_id "bob"));
        (Some "commit", Some (commit_document 8 "d1" "bob" 2))];
     GitLab.added_users := [VStr (Models.User.hash_id "bob")] |}.

Definition after_merges : GitLab.extractor :=
  {| GitLab.queue :=
       GitLab.queue after_commits
       ++ [(Some "user", Some (Models.User.transform_user_id "carol"));
           (Some "merge", Some merge_document)];
     GitLab.added_users :=
       GitLab.added_users after_commits
       ++ [VStr (Models.User.hash_id "carol")] |}.

End Remote.

(** A log service that answers by the name of the log group and of the
    query, and counts its calls. *)
Module Service.

Import Py CloudWatch.

Definition result_row (log timestamp message : string)
    : Models.ErrorLog.row :=
  [[("field", "@log"); ("value", log)];
   [("field", "@timestamp"); ("value", timestamp)];
   [("field", "@message"); ("value", message)]].

Definition timeout_row : Models.ErrorLog.row :=
  result_row "123456789012:/aws/lambda/orders" "2023-03-28 10:40:00.000"
    "[ERROR] Task timed out after 3.00 seconds".

Definition crash_row : Models.ErrorLog.row :=
  result_row "123456789012:/aws/lambda/orders" "2023-03-28 10:40:00.000"
    Remote.outer_frame.

Definition aws : service nat :=
  {| start_query := fun calls log_group _ _ =>
       (if String.eqb log_group "/aws/lambda/limited"
        then StartFailed "LimitExceededException"
        else if String.eqb log_group "/aws/lambda/missing"
        then StartFailed "ResourceNotFoundException"
        else if String.eqb log_group "/aws/lambda/denied"
        then StartFailed "AccessDeniedException"
        else StartOk ("query of " +:+ log_group),
        S calls);
     get_query_results := fun calls query =>
       (if String.eqb query "full"
        then ResultsOk "Complete" (repeat timeout_row (Z.to_nat QUERY_LIMIT))
        else if String.eqb query "short"
        then ResultsOk "Complete" [crash_row]
        else ResultsOk "Running" [],
        S calls) |}.

Definition state_of (pending : dict (Z * Z)) (running : dict string)
    : state nat :=
  Build_state pending running [] GitLab.fresh 0.

Definition window : Z * Z := (1672531200, 1703980800)%Z.

(** A log service that accepts every query, reports it as running on the
    first two calls and as complete, with one row, from then on. *)
Definition steady : service nat :=
  {| start_query := fun calls log_group _ _ =>
       (StartOk ("query of " +:+ log_group), S calls);
     get_query_results := fun calls _ =>
       (if Nat.ltb calls 2 then ResultsOk "Running" []
        else ResultsOk "Complete" [crash_row],
        S calls) |}.

(** A log service whose queries end badly: by the name of the query it
    is cancelled, throttled or denied; any other query keeps running. *)
Definition flaky : service nat :=
  {| start_query := fun calls log_group _ _ =>
       (StartOk ("query of " +:+ log_group), S calls);
     get_query_results := fun calls query =>
       (if String.eqb query "cancelled" then ResultsOk "Cancelled" []
        else if String.eqb query "throttled"
        then ResultsFailed "ThrottlingException"
        else if String.eqb query "denied"
        then ResultsFailed "AccessDeniedException"
        else ResultsOk "Running" [],
        S calls) |}.

(** A log service that has no error on record: every query is accepted
    and is complete without a row. *)
Definition quiet : service nat :=
  {| start_query := fun calls log_group _ _ =>
       (StartOk ("query of " +:+ log_group), S calls);
     get_query_results := fun calls _ => (ResultsOk "Complete" [], S calls) |}.

End Service.

(** Numbers as the terms that compute them, and commits to calculate
    with. *)
Module Ledger.

Import Calculation.

Inductive term :=
| Quotient (a b : Z)
| Sum (x y : term)
| Half (x : term)
| One
| Largest (x : term) (xs : list term).

Definition terms : arithmetic term :=
  {| quotient := fun a b => Some (Quotient a b);
     add := Sum; halve := Half; one := One; largest := Largest |}.

(** Three commits of one author and one of another. *)
Definition history : list commit :=
  [{| author_id := "1cb2cf62"; changed_loc := 10 |};
   {| author_id := "bf5ba0ab"; changed_loc := 5 |};
   {| author_id := "1cb2cf62"; changed_loc := 1 |};
   {| author_id := "1cb2cf62"; changed_loc := 4 |}].

(** Two commits that changed no line. *)
Definition idle : list commit :=
  [{| author_id := "1cb2cf62"; changed_loc := 0 |};
   {| author_id := "bf5ba0ab"; changed_loc := 0 |}].

End Ledger.

(* ===================================================================== *)
(** * Facts about the runtime fragment *)
(* ===================================================================== *)

Module PyFacts.

Import Py.

Lemma append_nil_r (s : string) : s +:+ EmptyString = s.
Proof. induction s as [|c s IH]; simpl; [reflexivity | now f_equal]. Qed.

Lemma append_assoc (a b c : string) : (a +:+ b) +:+ c = a +:+ (b +:+ c).
Proof. induction a as [|x a IH]; simpl; [reflexivity | now f_equal]. Qed.

Lemma length_append (a b : string) :
  String.length (a +:+ b) = String.length a + String.length b.
Proof. induction a as [|x a IH]; simpl; [reflexivity | now f_equal]. Qed.

Lemma all_chars_app p a b :
  all_chars p (a +:+ b) = all_chars p a && all_chars p b.
Proof.
  induction a as [|x a IH]; simpl; [reflexivity|].
  rewrite IH. now rewrite andb_assoc.
Qed.

Lemma any_char_app p a b :
  any_char p (a +:+ b) = any_char p a || any_char p b.
Proof.
  induction a as [|x a IH]; simpl; [reflexivity|].
  rewrite IH. now rewrite orb_assoc.
Qed.

(** A predicate on characters that is decided by evaluation holds for
    all 256 of them once it holds for each. *)
Ltac by_cases_on_char c :=
  destruct c as [[] [] [] [] [] [] [] []]; vm_compute; try reflexivity;
  try discriminate; try tauto.

Lemma sep_not_digit c : Models.Merge.is_sep c = true -> is_digit c = false.
Proof. by_cases_on_char c. Qed.

Lemma digit_not_space c : is_digit c = true -> is_int_space c = false.
Proof. by_cases_on_char c. Qed.

Lemma digit_not_sign c :
  is_digit c = true -> c <> "+"%char /\ c <> "-"%char.
Proof. by_cases_on_char c; intros _; split; discriminate. Qed.

Lemma letter_not_digit c : is_letter c = true -> is_digit c = false.
Proof. by_cases_on_char c. Qed.

Lemma sep_not_letter c : Models.Merge.is_sep c = true -> is_letter c = false.
Proof. by_cases_on_char c. Qed.

Lemma all_chars_impl (p q : ascii -> bool) s :
  (forall c, p c = true -> q c = true) ->
  all_chars p s = true -> all_chars q s = true.
Proof.
  intros Hpq. induction s as [|c s IH]; simpl; [reflexivity|].
  intros H. apply andb_prop in H as [Hc Hs].
  now rewrite (Hpq _ Hc), IH.
Qed.

Lemma all_chars_head p s :
  all_chars p s = true -> s <> EmptyString -> Text.starts_with p s = true.
Proof.
  destruct s as [|c s]; simpl; [congruence|].
  intros H _. now apply andb_prop in H as [Hc _].
Qed.

Lemma fold_case_letter c : is_letter c = true -> is_lower (fold_case c) = true.
Proof. by_cases_on_char c. Qed.

Lemma fold_case_lower_inv c : is_lower (fold_case c) = true -> is_letter c = true.
Proof. by_cases_on_char c. Qed.

(** Under [re.I], a class made of ASCII letters accepts ASCII letters
    only. *)
Lemma in_acronym_letter acr c :
  all_chars is_letter acr = true ->
  Models.Merge.in_acronym acr c = true -> is_letter c = true.
Proof.
  unfold Models.Merge.in_acronym.
  induction acr as [|a acr IH]; simpl; [discriminate|].
  intros Hall Hin.
  apply andb_prop in Hall as [Ha Hacr].
  apply orb_prop in Hin as [Heq | Hin]; [|now apply IH].
  apply Ascii.eqb_eq in Heq.
  apply fold_case_lower_inv. rewrite <- Heq. now apply fold_case_letter.
Qed.

Lemma in_acronym_not_digit acr c :
  all_chars is_letter acr = true ->
  Models.Merge.in_acronym acr c = true -> is_digit c = false.
Proof.
  intros Hacr Hin. apply letter_not_digit. eapply in_acronym_letter; eauto.
Qed.

End PyFacts.

(* ===================================================================== *)
(** * Facts about the matcher *)
(* ===================================================================== *)

Module ReFacts.

Import Py Text PyFacts.

Lemma take_drop p s : take_while p s +:+ drop_while p s = s.
Proof.
  induction s as [|c s IH]; simpl; [reflexivity|].
  destruct (p c); simpl; [now f_equal | reflexivity].
Qed.

Lemma take_while_all p s : all_chars p (take_while p s) = true.
Proof.
  induction s as [|c s IH]; simpl; [reflexivity|].
  destruct (p c) eqn:E; simpl; [now rewrite E | reflexivity].
Qed.

Lemma drop_while_stops p s : starts_with p (drop_while p s) = false.
Proof.
  induction s as [|c s IH]; simpl; [reflexivity|].
  destruct (p c) eqn:E; simpl; [assumption | exact E].
Qed.

Lemma take_while_app p a b :
  all_chars p a = true -> starts_with p b = false ->
  take_while p (a +:+ b) = a.
Proof.
  induction a as [|c a IH]; simpl; intros Ha Hb.
  - destruct b as [|d b]; simpl in *; [reflexivity | now rewrite Hb].
  - apply andb_prop in Ha as [Hc Ha]. rewrite Hc. f_equal. now apply IH.
Qed.

Lemma drop_while_app p a b :
  all_chars p a = true -> starts_with p b = false ->
  drop_while p (a +:+ b) = b.
Proof.
  induction a as [|c a IH]; simpl; intros Ha Hb.
  - destruct b as [|d b]; simpl in *; [reflexivity | now rewrite Hb].
  - apply andb_prop in Ha as [Hc Ha]. rewrite Hc. now apply IH.
Qed.

Lemma drop_while_app_all p a b :
  all_chars p a = true -> drop_while p (a +:+ b) = drop_while p b.
Proof.
  induction a as [|c a IH]; simpl; intros Ha; [reflexivity|].
  apply andb_prop in Ha as [Hc Ha]. rewrite Hc. now apply IH.
Qed.

Lemma substring_prefix a b : substring 0 (String.length a) (a +:+ b) = a.
Proof.
  induction a as [|c a IH]; simpl.
  - destruct b; reflexivity.
  - now f_equal.
Qed.

Lemma consumed_app a b : Re.consumed (a +:+ b) b = a.
Proof.
  unfold Re.consumed. rewrite length_append.
  replace (String.length a + String.length b - String.length b)
    with (String.length a) by lia.
  apply substring_prefix.
Qed.

Lemma consumed_drop p s : Re.consumed s (drop_while p s) = take_while p s.
Proof.
  rewrite <- (take_drop p s) at 1. apply consumed_app.
Qed.

(** A greedy repetition whose continuation cannot fail takes the whole
    run. *)
Lemma many_total {A} p lo s (f : string -> A) :
  Re.many p lo s (fun r => Some (f r))
  = if Nat.leb lo (String.length (take_while p s))
    then Some (f (drop_while p s)) else None.
Proof.
  revert lo. induction s as [|c s IH]; intros lo; simpl.
  - destruct lo; reflexivity.
  - destruct (p c) eqn:E; simpl.
    + rewrite IH.
      destruct lo as [|lo]; simpl; [reflexivity|].
      destruct (Nat.leb lo (String.length (take_while p s))); reflexivity.
    + destruct lo; reflexivity.
Qed.

(** Whatever a greedy repetition returns, it returns after a run of the
    class that is long enough. *)
Lemma many_sound {A} p lo s (k : string -> option A) r :
  Re.many p lo s k = Some r ->
  exists a b, s = a +:+ b /\ all_chars p a = true
              /\ lo <= String.length a /\ k b = Some r.
Proof.
  revert lo. induction s as [|c s IH]; intros lo; simpl.
  - destruct lo; [|discriminate]. intros H.
    exists EmptyString, EmptyString. simpl. auto.
  - destruct (p c) eqn:E.
    + destruct (Re.many p (Nat.pred lo) s k) eqn:M.
      * intros H. injection H as ->.
        destruct (IH _ M) as (a & b & -> & Ha & Hlo & Hk).
        exists (String c a), b. simpl. rewrite E, Ha.
        repeat split; auto. lia.
      * destruct lo; [|discriminate]. intros H.
        exists EmptyString, (String c s). simpl. auto.
    + destruct lo; [|discriminate]. intros H.
      exists EmptyString, (String c s). simpl. auto.
Qed.

(** The first thing a greedy repetition tries is the whole run. *)
Lemma many_greedy {A} p lo s (k : string -> option A) r :
  k (drop_while p s) = Some r ->
  lo <= String.length (take_while p s) ->
  Re.many p lo s k = Some r.
Proof.
  revert lo. induction s as [|c s IH]; intros lo; simpl.
  - intros Hk Hlo. destruct lo; [assumption | simpl in Hlo; lia].
  - destruct (p c) eqn:E; simpl.
    + intros Hk Hlo. rewrite (IH (Nat.pred lo) Hk); [reflexivity | lia].
    + intros Hk Hlo. destruct lo; [assumption | lia].
Qed.

Lemma search_inv r s caps rest :
  Re.search r s = Some (caps, rest) ->
  exists pre u, s = pre +:+ u /\ Re.match_at r u = Some (caps, rest).
Proof.
  induction s as [|c s IH]; simpl.
  - destruct (Re.match_at r EmptyString) eqn:M; [|discriminate].
    intros H. injection H as ->. exists EmptyString, EmptyString. auto.
  - destruct (Re.match_at r (String c s)) eqn:M.
    + intros H. injection H as ->. exists EmptyString, (String c s). auto.
    + intros H. destruct (IH H) as (pre & u & -> & Hu).
      exists (String c pre), u. auto.
Qed.

Lemma search_here r s m : Re.match_at r s = Some m -> Re.search r s = Some m.
Proof. intros H. destruct s; simpl; now rewrite H. Qed.

Lemma search_skip r c s :
  Re.match_at r (String c s) = None ->
  Re.search r (String c s) = Re.search r s.
Proof. intros H. simpl. now rewrite H. Qed.

(** ** The digits pattern of the sprint columns *)

Lemma sprint_match_at s :
  Re.match_at Models.SPRINT_RE s
  = if Nat.leb 1 (String.length (take_while is_digit s))
    then Some ([(0, take_while is_digit s)], drop_while is_digit s)
    else None.
Proof.
  unfold Re.match_at, Models.SPRINT_RE. simpl.
  rewrite (many_total is_digit 1 s
             (fun rest => ([(0, Re.consumed s rest)], rest))).
  now rewrite consumed_drop.
Qed.

Lemma first_digits_cons_digit c s :
  is_digit c = true -> first_digits (String c s) = take_while is_digit (String c s).
Proof.
  intros H. unfold first_digits, not_digit. simpl. rewrite H. simpl.
  rewrite ?H. reflexivity.
Qed.

Lemma first_digits_cons_other c s :
  is_digit c = false -> first_digits (String c s) = first_digits s.
Proof.
  intros H. unfold first_digits, not_digit. simpl. rewrite H. simpl.
  rewrite ?H. reflexivity.
Qed.

Lemma first_digits_empty s :
  any_char is_digit s = false -> first_digits s = EmptyString.
Proof.
  induction s as [|c s IH]; simpl; [reflexivity|].
  intros H. apply orb_false_elim in H as [Hc Hs].
  rewrite first_digits_cons_other by assumption. now apply IH.
Qed.

Lemma first_digits_nonempty s :
  any_char is_digit s = true -> first_digits s <> EmptyString.
Proof.
  induction s as [|c s IH]; simpl; [discriminate|].
  destruct (is_digit c) eqn:E; simpl.
  - intros _. rewrite first_digits_cons_digit by assumption.
    simpl. now rewrite E.
  - intros H. rewrite first_digits_cons_other by assumption. now apply IH.
Qed.

Lemma first_digits_all s : all_chars is_digit (first_digits s) = true.
Proof. apply take_while_all. Qed.

(** [SPRINT_RE.search] finds the first run of digits, and fails exactly
    on a text without a digit. *)
Lemma sprint_search s :
  Re.search Models.SPRINT_RE s
  = if any_char is_digit s
    then Some ([(0, first_digits s)],
               drop_while is_digit (drop_while not_digit s))
    else None.
Proof.
  induction s as [|c s IH].
  - reflexivity.
  - destruct (is_digit c) eqn:E.
    + rewrite (search_here _ _ ([(0, take_while is_digit (String c s))],
                                drop_while is_digit (String c s))).
      * rewrite first_digits_cons_digit by assumption.
        simpl. unfold not_digit. rewrite E. simpl. rewrite E. reflexivity.
      * rewrite sprint_match_at. simpl. now rewrite E.
    + rewrite search_skip.
      * rewrite IH. rewrite first_digits_cons_other by assumption.
        simpl. unfold not_digit at 2. rewrite E. reflexivity.
      * rewrite sprint_match_at. simpl. now rewrite E.
Qed.

(** ** The issue-key pattern of the merge requests *)

Section IssueKey.

Variable acr : string.
Hypothesis acr_letters : all_chars is_letter acr = true.

Let letter_class := Models.Merge.in_acronym acr.

Lemma story_match_at s :
  Re.match_at (Models.Merge.story_re acr) s
  = Re.many letter_class 5 s (fun s1 =>
      Re.many Models.Merge.is_sep 0 s1 (fun s2 =>
        Re.many is_digit 1 s2 (fun rest =>
          Some ([(0, Re.consumed s rest); (2, Re.consumed s2 rest);
                 (1, Re.consumed s s2)], rest)))).
Proof. reflexivity. Qed.

Lemma class_not_digit c : letter_class c = true -> not_digit c = true.
Proof.
  intros H. unfold not_digit.
  now rewrite (in_acronym_not_digit acr c acr_letters H).
Qed.

Lemma sep_is_not_digit c : Models.Merge.is_sep c = true -> not_digit c = true.
Proof. intros H. unfold not_digit. now rewrite (sep_not_digit c H). Qed.

(** Whatever the pattern matches at the start of [s], its second group
    is the first run of digits of [s]. *)
Lemma story_match_sound s caps rest :
  Re.match_at (Models.Merge.story_re acr) s = Some (caps, rest) ->
  Re.group 2 caps = first_digits s /\ first_digits s <> EmptyString.
Proof.
  rewrite story_match_at. intros M.
  apply many_sound in M as (l & s1 & -> & Hl & _ & M).
  apply many_sound in M as (sp & s2 & -> & Hsp & _ & M).
  rewrite (many_total is_digit 1 s2
             (fun rest => ([(0, Re.consumed (l +:+ sp +:+ s2) rest);
                            (2, Re.consumed s2 rest);
                            (1, Re.consumed (l +:+ sp +:+ s2) s2)], rest)))
    in M.
  destruct (Nat.leb 1 (String.length (take_while is_digit s2))) eqn:Hd;
    [|discriminate].
  injection M as <- <-. simpl.
  rewrite consumed_drop.
  assert (Hfirst : first_digits (l +:+ sp +:+ s2) = take_while is_digit s2).
  { unfold first_digits.
    rewrite (drop_while_app_all not_digit l)
      by (eapply all_chars_impl; [apply class_not_digit | exact Hl]).
    rewrite (drop_while_app_all not_digit sp)
      by (eapply all_chars_impl; [apply sep_is_not_digit | exact Hsp]).
    destruct s2 as [|d s2]; [reflexivity|].
    simpl in Hd |- *. unfold not_digit.
    destruct (is_digit d) eqn:Ed; simpl; [now rewrite Ed | discriminate]. }
  rewrite Hfirst. split; [reflexivity|].
  destruct (take_while is_digit s2); [discriminate | congruence].
Qed.

(** The pattern matches a key that is written out in full. *)
Lemma story_match_complete l sp d rest :
  all_chars letter_class l = true -> 5 <= String.length l ->
  all_chars Models.Merge.is_sep sp = true ->
  all_chars is_digit d = true -> d <> EmptyString ->
  starts_with is_digit rest = false ->
  exists caps,
    Re.match_at (Models.Merge.story_re acr) (l +:+ sp +:+ d +:+ rest)
    = Some (caps, rest).
Proof.
  intros Hl Hlen Hsp Hd Hne Hrest.
  assert (Hd1 : starts_with is_digit (d +:+ rest) = true).
  { destruct d as [|c d]; [congruence|]. simpl in *.
    now apply andb_prop in Hd as [Hc _]. }
  assert (Hs1 : starts_with Models.Merge.is_sep (d +:+ rest) = false).
  { destruct (d +:+ rest) as [|c t]; [reflexivity|]. simpl in *.
    destruct (Models.Merge.is_sep c) eqn:E; [|reflexivity].
    apply sep_not_digit in E. congruence. }
  assert (Hl1 : starts_with letter_class (sp +:+ d +:+ rest) = false).
  { destruct sp as [|c sp]; simpl.
    - destruct (d +:+ rest) as [|c t]; [reflexivity|]. simpl in *.
      destruct (letter_class c) eqn:E; [|reflexivity].
      apply class_not_digit in E. unfold not_digit in E.
      rewrite Hd1 in E. discriminate.
    - simpl in Hsp. apply andb_prop in Hsp as [Hc _].
      destruct (letter_class c) eqn:E; [|reflexivity].
      apply (in_acronym_letter acr c acr_letters) in E.
      apply sep_not_letter in Hc. congruence. }
  assert (Hd2 : Nat.leb 1 (String.length d) = true).
  { destruct d; [congruence | reflexivity]. }
  eexists. rewrite story_match_at.
  eapply many_greedy; [| rewrite take_while_app by assumption; exact Hlen].
  rewrite drop_while_app by assumption.
  eapply many_greedy; [| lia].
  rewrite drop_while_app by assumption.
  rewrite many_total. rewrite take_while_app by assumption.
  rewrite drop_while_app by assumption.
  rewrite Hd2. reflexivity.
Qed.

(** In front of a key, text without digits does not change what
    [re.search] reports as the second group. *)
Lemma story_search_first_digits pre m caps0 rest0 :
  any_char is_digit pre = false ->
  Re.match_at (Models.Merge.story_re acr) m = Some (caps0, rest0) ->
  exists caps rest,
    Re.search (Models.Merge.story_re acr) (pre +:+ m) = Some (caps, rest)
    /\ Re.group 2 caps = first_digits m.
Proof.
  intros Hpre Hm. induction pre as [|c pre IH].
  - exists caps0, rest0. split; [now apply search_here|].
    now apply story_match_sound in Hm as [? _].
  - simpl in Hpre. apply orb_false_elim in Hpre as [Hc Hpre].
    change (String c pre +:+ m) with (String c (pre +:+ m)).
    destruct (Re.match_at (Models.Merge.story_re acr)
                (String c (pre +:+ m))) as [[caps rest]|] eqn:M.
    + exists caps, rest. split; [now apply search_here|].
      apply story_match_sound in M as [-> _].
      rewrite first_digits_cons_other by assumption.
      clear IH. induction pre as [|x pre IHp]; [reflexivity|].
      simpl in Hpre. apply orb_false_elim in Hpre as [Hx Hpre].
      simpl. rewrite first_digits_cons_other by assumption. now apply IHp.
    + rewrite search_skip by assumption. now apply IH.
Qed.

(** What [re.search] reports as the second group is never empty and
    made of digits. *)
Lemma story_search_digits s caps rest :
  Re.search (Models.Merge.story_re acr) s = Some (caps, rest) ->
  all_chars is_digit (Re.group 2 caps) = true /\ Re.group 2 caps <> EmptyString.
Proof.
  intros H. apply search_inv in H as (pre & u & _ & M).
  apply story_match_sound in M as [-> Hne].
  split; [apply first_digits_all | assumption].
Qed.

End IssueKey.

End ReFacts.

(* ===================================================================== *)
(** * Facts about [int] *)
(* ===================================================================== *)

Module IntFacts.

Import Py Text PyFacts.

Lemma all_chars_forallb p s :
  all_chars p s = forallb p (list_ascii_of_string s).
Proof. induction s as [|c s IH]; simpl; [reflexivity | now rewrite IH]. Qed.

Lemma forallb_rev {A} (p : A -> bool) l : forallb p (rev l) = forallb p l.
Proof.
  induction l as [|x l IH]; simpl; [reflexivity|].
  rewrite forallb_app, IH. simpl. rewrite andb_true_r. apply andb_comm.
Qed.

Lemma all_chars_rev p s : all_chars p (rev_string s) = all_chars p s.
Proof.
  unfold rev_string. rewrite !all_chars_forallb.
  rewrite list_ascii_of_string_of_list_ascii. apply forallb_rev.
Qed.

Lemma rev_string_involutive s : rev_string (rev_string s) = s.
Proof.
  unfold rev_string. rewrite list_ascii_of_string_of_list_ascii.
  rewrite rev_involutive. apply string_of_list_ascii_of_string.
Qed.

Lemma lstrip_digits d :
  all_chars is_digit d = true -> lstrip is_int_space d = d.
Proof.
  destruct d as [|c d]; simpl; [reflexivity|].
  intros H. apply andb_prop in H as [Hc _].
  now rewrite (digit_not_space c Hc).
Qed.

Lemma strip_digits d :
  all_chars is_digit d = true -> strip_of is_int_space d = d.
Proof.
  intros H. unfold strip_of, rstrip. rewrite (lstrip_digits d H).
  rewrite lstrip_digits by now rewrite all_chars_rev.
  apply rev_string_involutive.
Qed.

Lemma int_digits_all prev acc d :
  all_chars is_digit d = true -> prev = true \/ d <> EmptyString ->
  int_digits prev acc d = Some (digits_val acc d).
Proof.
  revert prev acc. induction d as [|c d IH]; intros prev acc Hd Hne; simpl.
  - destruct Hne as [-> | Hne]; [reflexivity | congruence].
  - simpl in Hd. apply andb_prop in Hd as [Hc Hd]. rewrite Hc.
    apply IH; auto.
Qed.

Lemma count_digits_all d :
  all_chars is_digit d = true -> count_digits d = N.of_nat (String.length d).
Proof.
  induction d as [|c d IH]; [reflexivity|].
  intros H. apply andb_prop in H as [Hc Hd].
  change (count_digits (String c d))
    with ((if is_digit c then 1 else 0) + count_digits d)%N.
  rewrite Hc, (IH Hd). simpl String.length. lia.
Qed.

(** [int] of a non-empty run of digits is the number it writes, unless
    the run is longer than the limit. *)
Lemma int_of_digits d :
  all_chars is_digit d = true -> d <> EmptyString ->
  int d = if Text.convertible d then Some (digits_val 0 d) else None.
Proof.
  intros Hd Hne. unfold int, Text.convertible.
  rewrite (strip_digits d Hd), (count_digits_all d Hd).
  destruct (N.of_nat (String.length d) <=? max_str_digits)%N; [|reflexivity].
  destruct d as [|c d]; [congruence|].
  pose proof Hd as Hc. simpl in Hc. apply andb_prop in Hc as [Hc _].
  destruct (digit_not_sign c Hc) as [Hp Hm].
  apply Ascii.eqb_neq in Hp, Hm. rewrite Hp, Hm.
  apply int_digits_all; auto.
Qed.

Lemma digits_val_mono acc d :
  all_chars is_digit d = true -> (0 <= acc -> 0 <= digits_val acc d)%Z.
Proof.
  revert acc. induction d as [|c d IH]; intros acc Hd Hacc; simpl; [assumption|].
  simpl in Hd. apply andb_prop in Hd as [Hc Hd]. apply IH; [assumption|].
  unfold is_digit in Hc. apply andb_prop in Hc as [H1 H2].
  apply N.leb_le in H1, H2. unfold digit_val. lia.
Qed.

End IntFacts.


(* ===================================================================== *)
(** * Merge requests: the story id *)
(* ===================================================================== *)

(** What [transform_input] returns is decided by the search alone. *)
Lemma merge_transform_input_found clk data acr description ts caps rest :
  Py.all_chars Py.is_letter acr = true ->
  Models.Merge.mr_description data = Some description ->
  fromisoformat_epoch clk (Models.Merge.mr_merged_at data) = Some ts ->
  Re.search (Models.Merge.story_re acr)
    (Models.Merge.mr_title data +:+ description) = Some (caps, rest) ->
  (Text.convertible (Re.group 2 caps) = true ->
   exists doc,
     Models.Merge.transform_input clk data acr = Py.Ret doc
     /\ Py.get "story_id" doc
        = Some (Models.Merge.accept_story_id
                  (Some (Py.digits_val 0 (Re.group 2 caps)))))
  /\ (Text.convertible (Re.group 2 caps) = false ->
      Models.Merge.transform_input clk data acr
      = Py.Raise (Py.ValueError "int")).
Proof.
  intros Hacr Hdesc Hts Hs.
  destruct (ReFacts.story_search_digits acr Hacr _ _ _ Hs) as [Hd Hne].
  unfold Models.Merge.transform_input.
  rewrite Hdesc. simpl. rewrite Hs.
  rewrite (IntFacts.int_of_digits _ Hd Hne).
  split; intros Hc; rewrite Hc; simpl; [|reflexivity].
  rewrite Hts. simpl. eexists. split; reflexivity.
Qed.

Lemma merge_transform_input_not_found clk data acr description ts :
  Models.Merge.mr_description data = Some description ->
  fromisoformat_epoch clk (Models.Merge.mr_merged_at data) = Some ts ->
  Re.search (Models.Merge.story_re acr)
    (Models.Merge.mr_title data +:+ description) = None ->
  exists doc,
    Models.Merge.transform_input clk data acr = Py.Ret doc
    /\ Py.get "story_id" doc = Some Py.VNone.
Proof.
  intros Hdesc Hts Hs. unfold Models.Merge.transform_input.
  rewrite Hdesc. simpl. rewrite Hs. simpl. rewrite Hts. simpl.
  eexists. split; reflexivity.
Qed.

(** What [re.search] finds in front of a key that is written out in full:
    after a prefix without digits, five or more characters of the acronym
    class, any number of separators and a run of digits that the rest does
    not continue, the second group is that run of digits. *)
Lemma story_search_key acr pre l sp d rest :
  Py.all_chars Py.is_letter acr = true ->
  Py.any_char Py.is_digit pre = false ->
  Py.all_chars (Models.Merge.in_acronym acr) l = true ->
  5 <= String.length l ->
  Py.all_chars Models.Merge.is_sep sp = true ->
  Py.all_chars Py.is_digit d = true ->
  d <> EmptyString ->
  Text.starts_with Py.is_digit rest = false ->
  exists caps rest',
    Re.search (Models.Merge.story_re acr) (pre +:+ l +:+ sp +:+ d +:+ rest)
    = Some (caps, rest')
    /\ Re.group 2 caps = d.
Proof.
  intros Hacr Hpre Hl Hlen Hsp Hd Hne Hrest.
  destruct (ReFacts.story_match_complete acr Hacr l sp d rest)
    as [caps0 Hm]; try assumption.
  destruct (ReFacts.story_search_first_digits acr Hacr pre _ _ _ Hpre Hm)
    as (caps & rest' & Hs & Hg).
  exists caps, rest'. split; [exact Hs|]. rewrite Hg.
  unfold Text.first_digits.
  rewrite (ReFacts.drop_while_app_all Text.not_digit l)
    by (eapply PyFacts.all_chars_impl;
        [apply (ReFacts.class_not_digit acr Hacr) | exact Hl]).
  rewrite (ReFacts.drop_while_app_all Text.not_digit sp)
    by (eapply PyFacts.all_chars_impl;
        [apply ReFacts.sep_is_not_digit | exact Hsp]).
  assert (Hdrop : Text.drop_while Text.not_digit (d +:+ rest) = d +:+ rest).
  { destruct d as [|c d']; [congruence|].
    pose proof Hd as Hc. simpl in Hc. apply andb_prop in Hc as [Hc _].
    simpl. unfold Text.not_digit. now rewrite Hc. }
  rewrite Hdrop. now apply ReFacts.take_while_app.
Qed.

(** C1, as amended.  The acronym is made of letters and the description is
    present; title and description are read as one text.
    - Whenever the issue-key pattern matches (five or more characters that
      each are, up to case, a letter of the acronym, then any number of
      separators, then digits) and the digits of the leftmost match are
      convertible, [transform_input] returns, and with [v] the number
      written by these digits the story id is [v] if [v] is between 1 and
      999 and none if [v] is 0 or is 1000 or more.  Digits beyond the limit
      of [int] make [transform_input] raise.
    - When the pattern does not match, the story id is none.
    - The pattern matches, with the digits [d], every text made of a prefix
      without digits, five or more characters of the acronym class, any
      number of separators (white space, underscore, hyphen) and a run of
      digits [d] that the rest does not continue. *)
Theorem story_id_extraction :
  forall (clk : Clock) (data : Models.Merge.payload)
         (acr description : string) (ts : Z),
    Py.all_chars Py.is_letter acr = true ->
    Models.Merge.mr_description data = Some description ->
    fromisoformat_epoch clk (Models.Merge.mr_merged_at data) = Some ts ->
    (forall caps rest,
        Re.search (Models.Merge.story_re acr)
          (Models.Merge.mr_title data +:+ description) = Some (caps, rest) ->
        (Text.convertible (Re.group 2 caps) = true ->
         exists doc,
           Models.Merge.transform_input clk data acr = Py.Ret doc
           /\ ((0 < Py.digits_val 0 (Re.group 2 caps) < 1000)%Z ->
               Py.get "story_id" doc
               = Some (Py.VInt (Py.digits_val 0 (Re.group 2 caps))))
           /\ ((Py.digits_val 0 (Re.group 2 caps) = 0
                \/ 1000 <= Py.digits_val 0 (Re.group 2 caps))%Z ->
               Py.get "story_id" doc = Some Py.VNone))
        /\ (Text.convertible (Re.group 2 caps) = false ->
            Models.Merge.transform_input clk data acr
            = Py.Raise (Py.ValueError "int")))
    /\ (Re.search (Models.Merge.story_re acr)
          (Models.Merge.mr_title data +:+ description) = None ->
        exists doc,
          Models.Merge.transform_input clk data acr = Py.Ret doc
          /\ Py.get "story_id" doc = Some Py.VNone)
    /\ (forall pre l sp d rest,
          Models.Merge.mr_title data +:+ description
          = pre +:+ l +:+ sp +:+ d +:+ rest ->
          Py.any_char Py.is_digit pre = false ->
          Py.all_chars (Models.Merge.in_acronym acr) l = true ->
          5 <= String.length l ->
          Py.all_chars Models.Merge.is_sep sp = true ->
          Py.all_chars Py.is_digit d = true ->
          d <> EmptyString ->
          Text.starts_with Py.is_digit rest = false ->
          exists caps rest',
            Re.search (Models.Merge.story_re acr)
              (Models.Merge.mr_title data +:+ description) = Some (caps, rest')
            /\ Re.group 2 caps = d).
Proof.
  intros clk data acr description ts Hacr Hdesc Hts.
  split; [|split].
  - intros caps rest Hs.
    destruct (merge_transform_input_found clk data acr description ts caps rest
                Hacr Hdesc Hts Hs) as [Hok Hlong].
    split; [|exact Hlong].
    intros Hc. destruct (Hok Hc) as (doc & Hdoc & Hstory).
    exists doc. split; [assumption|].
    split; intros Hv; rewrite Hstory; simpl.
    + replace (Py.digits_val 0 (Re.group 2 caps) =? 0)%Z with false
        by (symmetry; apply Z.eqb_neq; lia).
      replace (Py.digits_val 0 (Re.group 2 caps) <? 1000)%Z with true
        by (symmetry; apply Z.ltb_lt; lia).
      reflexivity.
    + destruct Hv as [-> | Hv]; [reflexivity|].
      replace (Py.digits_val 0 (Re.group 2 caps) <? 1000)%Z with false
        by (symmetry; apply Z.ltb_ge; lia).
      now rewrite andb_false_r.
  - now apply merge_transform_input_not_found with (ts := ts).
  - intros pre l sp d rest Htext Hpre Hl Hlen Hsp Hd Hne Hrest.
    rewrite Htext. now apply story_search_key.
Qed.

(** The theorem at the title ["PROJJ-42 fix bug"] and the acronym
    ["PROJ"]: the story id is 42. *)
Lemma story_id_extraction_witness :
  exists doc,
    Models.Merge.transform_input Fixtures.clock
      (Fixtures.merge_request "PROJJ-42 fix bug") "PROJ" = Py.Ret doc
    /\ Py.get "story_id" doc = Some (Py.VInt 42).
Proof.
  destruct (story_id_extraction Fixtures.clock
              (Fixtures.merge_request "PROJJ-42 fix bug") "PROJ" EmptyString
              0%Z eq_refl eq_refl eq_refl) as (Hfound & _ & Hkey).
  destruct (Hkey EmptyString "PROJJ" "-" "42" " fix bug")
    as (caps & rest & Hs & Hg);
    try reflexivity; try (simpl; lia); try discriminate.
  destruct (Hfound caps rest Hs) as [Hok _].
  rewrite Hg in Hok.
  destruct (Hok eq_refl) as (doc & Hdoc & Hlow & _).
  exists doc. split; [exact Hdoc|].
  apply Hlow. vm_compute. split; reflexivity.
Defined.

(** C1 as stated fails on its own example: with the acronym ["PROJ"] the
    text ["PROJ-42 fix bug"] has only four letters in front of the hyphen,
    the pattern asks for five, and the story id is none. *)
Lemma story_id_proj_42_is_none :
  exists doc,
    Models.Merge.transform_input Fixtures.clock
      (Fixtures.merge_request "PROJ-42 fix bug") "PROJ" = Py.Ret doc
    /\ Py.get "story_id" doc = Some Py.VNone
    /\ Py.get "story_id" doc <> Some (Py.VInt 42).
Proof.
  eexists. split; [vm_compute; reflexivity|].
  split; [reflexivity | discriminate].
Qed.

(* ===================================================================== *)
(** * Issue-tracker rows *)
(* ===================================================================== *)

Module StoryFacts.

Import Py Text Rows.


Lemma usableb_spec col : usableb col = true <-> usable col.
Proof.
  unfold usableb, usable. destruct col as [|c col].
  - simpl. split; auto.
  - change (truthy_str (String c col)) with true.
    simpl negb. rewrite orb_false_l, andb_true_iff.
    split; [intros H; now right | intros [H | H]; [discriminate | exact H]].
Qed.

Lemma sprint_number_eq col :
  Models.Story.sprint_number col
  = if any_char is_digit col
    then if convertible (first_digits col)
         then Ret (first_number col) else Raise (ValueError "int")
    else Raise no_group.
Proof.
  unfold Models.Story.sprint_number. rewrite ReFacts.sprint_search.
  destruct (any_char is_digit col) eqn:E; [|reflexivity].
  simpl. rewrite IntFacts.int_of_digits.
  - destruct (convertible (first_digits col)); reflexivity.
  - apply ReFacts.first_digits_all.
  - now apply ReFacts.first_digits_nonempty.
Qed.

Lemma sprint_numbers_ret cols :
  forallb usableb cols = true ->
  Models.Story.sprint_numbers cols
  = Ret (map first_number (List.filter truthy_str cols)).
Proof.
  induction cols as [|col cols IH]; [reflexivity|].
  simpl. unfold usableb at 1. intros H. apply andb_prop in H as [Hcol Hcols].
  destruct (truthy_str col) eqn:T; simpl in *.
  - apply andb_prop in Hcol as [Hd Hc].
    rewrite sprint_number_eq, Hd, Hc. simpl. now rewrite (IH Hcols).
  - exact (IH Hcols).
Qed.

Lemma sprint_numbers_raise cols :
  forallb usableb cols = false ->
  exists ex, Models.Story.sprint_numbers cols = Raise ex.
Proof.
  induction cols as [|col cols IH]; [discriminate|].
  simpl. unfold usableb at 1.
  destruct (truthy_str col) eqn:T; simpl; [|exact IH].
  rewrite sprint_number_eq.
  destruct (any_char is_digit col); simpl; [|eauto].
  destruct (convertible (first_digits col)); simpl; [|eauto].
  intros H. destruct (IH H) as [ex ->]. eauto.
Qed.

(** [Story.transform_input] on a row that has a first column. *)
Lemma transform_input_eq first rest :
  Models.Story.transform_input (first :: rest)
  = match int first with
    | None => Raise (ValueError "int")
    | Some id =>
        let* numbers := Models.Story.sprint_numbers rest in
        Ret [("id", VInt id); ("sprints", VList (map VInt numbers))]
    end.
Proof.
  unfold Models.Story.transform_input.
  change (skipn 1 (first :: rest)) with rest. simpl.
  destruct (int first); reflexivity.
Qed.

Lemma forallb_usable rest : forallb usableb rest = true <-> Forall usable rest.
Proof.
  rewrite forallb_forall, Forall_forall.
  split; intros H x Hx.
  - apply usableb_spec, H. now apply list_elem_of_In.
  - apply usableb_spec, H. now apply list_elem_of_In.
Qed.

(** The rows in front of a failing row are queued, the failing row and
    what follows it are not. *)
Lemma extract_from_aborts n before docs bad after ex queue :
  Forall2 (fun row doc => Models.Story.transform_input row = Ret doc)
    before docs ->
  Models.Story.transform_input bad = Raise ex ->
  Jira.extract_from (S n) (before ++ bad :: after) queue
  = (Raise ex,
     queue ++ map (fun doc => (Some Models.Story.LABEL, Some doc)) docs).
Proof.
  intros Hbefore Hbad. revert n queue.
  induction Hbefore as [|row doc before docs Hrow _ IH]; intros n queue; simpl.
  - rewrite Hbad. now rewrite app_nil_r.
  - rewrite Hrow. rewrite IH. now rewrite <- app_assoc.
Qed.

End StoryFacts.

(** C10.  [Story.transform_input] returns exactly on the rows that have a
    first column which [int] accepts and whose later columns are each empty
    or hold a digit (the first run of digits being one that [int] converts);
    what it returns then is the id and the first number of every non-empty
    later column.  A row with a non-empty later column without a digit
    makes it raise, and the Jira extractor stops there: the rows before it
    are on the queue, that row and the rows after it are not. *)
Theorem story_row_parsing :
  forall data : list string,
    (forall doc,
        Models.Story.transform_input data = Py.Ret doc <->
        exists first rest id,
          data = first :: rest /\ Py.int first = Some id
          /\ Forall Rows.usable rest
          /\ doc = [("id", Py.VInt id);
                    ("sprints",
                     Py.VList (map Py.VInt
                                 (map Text.first_number
                                    (List.filter Py.truthy_str rest))))])
    /\ (Exists (fun col => col <> EmptyString /\ Py.any_char Py.is_digit col = false)
          (skipn 1 data) ->
        exists ex,
          Models.Story.transform_input data = Py.Raise ex
          /\ forall header before docs after queue,
               Forall2 (fun row doc =>
                          Models.Story.transform_input row = Py.Ret doc)
                 before docs ->
               Jira.extract (header :: before ++ data :: after) queue
               = (Py.Raise ex,
                  queue ++ map (fun doc => (Some Models.Story.LABEL, Some doc))
                             docs)).
Proof.
  intros data. split.
  - intros doc. split.
    + destruct data as [|first rest]; [discriminate|].
      rewrite StoryFacts.transform_input_eq.
      destruct (Py.int first) as [id|] eqn:Hid; [|discriminate].
      destruct (forallb Rows.usableb rest) eqn:Hok.
      * rewrite (StoryFacts.sprint_numbers_ret rest Hok). simpl.
        intros H. injection H as <-.
        exists first, rest, id. repeat split; auto.
        now apply StoryFacts.forallb_usable.
      * destruct (StoryFacts.sprint_numbers_raise rest Hok) as [ex ->].
        discriminate.
    + intros (first & rest & id & -> & Hid & Hok & ->).
      rewrite StoryFacts.transform_input_eq, Hid.
      apply StoryFacts.forallb_usable in Hok.
      now rewrite (StoryFacts.sprint_numbers_ret rest Hok).
  - intros Hbad.
    assert (Hraise : exists ex, Models.Story.transform_input data = Py.Raise ex).
    { destruct data as [|first rest]; [unfold Models.Story.transform_input; simpl; eauto|].
      rewrite StoryFacts.transform_input_eq.
      destruct (Py.int first); [|eauto].
      destruct (forallb Rows.usableb rest) eqn:Hok.
      - exfalso. apply StoryFacts.forallb_usable in Hok.
        simpl in Hbad. rewrite Forall_forall in Hok.
        apply Exists_exists in Hbad as (col & Hin & Hne & Hnd).
        destruct (Hok col Hin) as [-> | [Hd _]]; congruence.
      - destruct (StoryFacts.sprint_numbers_raise rest Hok) as [ex ->].
        simpl. eauto. }
    destruct Hraise as [ex Hex]. exists ex. split; [exact Hex|].
    intros header before docs after queue Hbefore.
    unfold Jira.extract. simpl.
    now apply StoryFacts.extract_from_aborts.
Qed.

(** The theorem at the two rows of a small export: the row ["12"],
    ["Sprint 3"], an empty column, ["S 45 x 6"] becomes story 12 with sprints 3 and
    45; the row ["13"], ["Backlog"] stops the extractor. *)
Lemma story_row_parsing_witness :
  Models.Story.transform_input ["12"; "Sprint 3"; EmptyString; "S 45 x 6"]
  = Py.Ret [("id", Py.VInt 12);
            ("sprints", Py.VList [Py.VInt 3; Py.VInt 45])]
  /\ exists ex,
       Jira.extract
         [["Key"; "Sprint"]; ["12"; "Sprint 3"; EmptyString; "S 45 x 6"];
          ["13"; "Backlog"]; ["14"; "Sprint 4"]] []
       = (Py.Raise ex,
          [(Some "story",
            Some [("id", Py.VInt 12);
                  ("sprints", Py.VList [Py.VInt 3; Py.VInt 45])])]).
Proof.
  split.
  - apply (proj1 (story_row_parsing ["12"; "Sprint 3"; EmptyString; "S 45 x 6"])).
    exists "12", ["Sprint 3"; EmptyString; "S 45 x 6"], 12%Z.
    repeat split.
    repeat constructor;
      try (right; split; reflexivity); left; reflexivity.
  - destruct (proj2 (story_row_parsing ["13"; "Backlog"])) as (ex & _ & Hq).
    + constructor. split; [discriminate | reflexivity].
    + exists ex.
      apply (Hq ["Key"; "Sprint"] [["12"; "Sprint 3"; EmptyString; "S 45 x 6"]]
               [[("id", Py.VInt 12);
                 ("sprints", Py.VList [Py.VInt 3; Py.VInt 45])]]
               [["14"; "Sprint 4"]] []).
      repeat constructor.
Defined.

(* ===================================================================== *)
(** * Identity hashing *)
(* ===================================================================== *)

Module ShakeFacts.

Lemma length_round st rc : length (Shake.round st rc) = 25.
Proof. reflexivity. Qed.

Lemma length_permutation rcs st :
  rcs <> [] -> length (fold_left Shake.round rcs st) = 25.
Proof.
  destruct rcs as [|rc rcs _] using rev_ind; [congruence|].
  intros _. rewrite fold_left_app.
  exact (length_round (fold_left Shake.round rcs st) rc).
Qed.

Lemma length_keccak_f st : length (Shake.keccak_f st) = 25.
Proof. apply length_permutation. discriminate. Qed.

Lemma length_absorb fuel st msg :
  length st = 25 -> length (Shake.absorb fuel st msg) = 25.
Proof.
  revert st msg. induction fuel as [|fuel IH]; intros st msg Hst; simpl.
  - exact Hst.
  - destruct (Nat.ltb (List.length msg) Shake.rate).
    + apply length_keccak_f.
    + apply IH, length_keccak_f.
Qed.

Lemma length_bytes_of_lane n w : length (Shake.bytes_of_lane n w) = n.
Proof. revert w. induction n as [|n IH]; intros w; simpl; [|rewrite IH]; reflexivity. Qed.

Lemma length_squeeze ws :
  length (flat_map (Shake.bytes_of_lane 8) ws) = 8 * length ws.
Proof.
  induction ws as [|w ws IH]; [reflexivity|].
  change (flat_map (Shake.bytes_of_lane 8) (w :: ws))
    with (Shake.bytes_of_lane 8 w ++ flat_map (Shake.bytes_of_lane 8) ws).
  rewrite length_app, length_bytes_of_lane, IH. simpl. lia.
Qed.

(** A digest of up to 168 bytes has the length that was asked for. *)
Lemma length_shake_128 msg n :
  n <= 168 -> length (Shake.shake_128 msg n) = n.
Proof.
  intros Hn. unfold Shake.shake_128.
  rewrite length_take, length_squeeze, length_take.
  rewrite length_absorb by reflexivity. lia.
Qed.

Lemma length_hex bs :
  String.length
    (fold_right (fun b acc => Shake.hex_byte b +:+ acc) EmptyString bs)
  = 2 * length bs.
Proof.
  induction bs as [|b bs IH]; [reflexivity|].
  change (fold_right (fun b acc => Shake.hex_byte b +:+ acc) EmptyString (b :: bs))
    with (Shake.hex_byte b
          +:+ fold_right (fun b acc => Shake.hex_byte b +:+ acc) EmptyString bs).
  rewrite PyFacts.length_append, IH. simpl. lia.
Qed.

Lemma length_hexdigest msg n :
  n <= 168 -> String.length (Shake.hexdigest msg n) = 2 * n.
Proof.
  intros Hn. unfold Shake.hexdigest.
  now rewrite length_hex, length_shake_128.
Qed.

End ShakeFacts.

Example search_issue_key :
  option_map (fun m => (Re.group 1 (fst m), Re.group 2 (fst m)))
    (Re.search (Models.Merge.story_re "PROJ") "see oproj _ 0421x")
  = Some ("oproj _ ", "0421").
Proof. vm_compute. reflexivity. Qed.

Example search_issue_key_backtracks :
  option_map (fun m => (Re.group 1 (fst m), Re.group 2 (fst m)))
    (Re.search (Models.Merge.story_re "PROJ") "projo x PPPPP9")
  = Some ("PPPPP", "9").
Proof. vm_compute. reflexivity. Qed.

Example shake_128_of_empty_text :
  Shake.hexdigest (Shake.encode_utf8 EmptyString) 8 = "7f9c2ba4e88f827d".
Proof. vm_compute. reflexivity. Qed.

Example hash_id_of_alice : Models.User.hash_id "alice" = "1cb2cf62".
Proof. vm_compute. reflexivity. Qed.

Example hash_id_of_bob : Models.User.hash_id "bob" = "bf5ba0ab".
Proof. vm_compute. reflexivity. Qed.

(** C8, as amended.  [User.hash_id] is a function of its argument: equal
    inputs have equal hashes, wherever and whenever they are hashed.  A hash
    is eight hexadecimal digits (four bytes of SHAKE-128), and the two
    identities "alice" and "bob" have different hashes; that every pair of
    distinct inputs does is not claimed. *)
Theorem hash_id_deterministic :
  forall a b : string,
    a = b ->
    Models.User.hash_id a = Models.User.hash_id b
    /\ String.length (Models.User.hash_id a) = 8
    /\ Models.User.hash_id "alice" <> Models.User.hash_id "bob".
Proof.
  intros a b ->. split; [reflexivity|]. split.
  - unfold Models.User.hash_id. now rewrite ShakeFacts.length_hexdigest by lia.
  - rewrite hash_id_of_alice, hash_id_of_bob. discriminate.
Qed.

Lemma hash_id_deterministic_witness :
  Models.User.hash_id "alice" = Models.User.hash_id "alice"
  /\ String.length (Models.User.hash_id "alice") = 8
  /\ Models.User.hash_id "alice" <> Models.User.hash_id "bob".
Proof. apply (hash_id_deterministic "alice" "alice"). reflexivity. Defined.

(** C8 as stated fails: the hashing step is not injective.  The user names
    "user37721" and "user48907" are different and have the same hash. *)
Lemma hash_id_collision :
  "user37721" <> "user48907"
  /\ Models.User.hash_id "user37721" = Models.User.hash_id "user48907".
Proof. split; [discriminate | vm_compute; reflexivity]. Qed.

(* ===================================================================== *)
(** * The writer *)
(* ===================================================================== *)

Module DatabaseFacts.

Import Py Database Writer.

#[local] Arguments Nat.leb : simpl never.
#[local] Arguments Database.insert : simpl never.

Lemma consistent_open cached file : consistent (open cached file).
Proof. reflexivity. Qed.

Lemma read_write db data : consistent db -> read (write db data) = data.
Proof.
  unfold consistent, write, read, flush.
  destruct (cached db) eqn:C; simpl.
  - destruct (Nat.leb WRITE_CACHE_SIZE (S (cache_modified_count db)));
      simpl; reflexivity.
  - destruct (cache db) as [c|]; [intros [? _]; discriminate | reflexivity].
Qed.

Lemma consistent_write db data : consistent db -> consistent (write db data).
Proof.
  unfold consistent, write, flush.
  destruct (cached db) eqn:C; simpl.
  - destruct (Nat.leb WRITE_CACHE_SIZE (S (cache_modified_count db)));
      simpl; intros _; split; auto; discriminate.
  - destruct (cache db) as [c|]; [intros [? _]; discriminate | auto].
Qed.

(** After [close] nothing is left in the buffer: the file holds what a
    read saw before. *)
Lemma close_flushes db :
  consistent db ->
  file (close db) = read db /\ closed (close db) = true
  /\ cache_modified_count (close db) = 0.
Proof.
  unfold consistent, close, flush, read.
  destruct (cache db) as [c|] eqn:C; simpl.
  - intros [_ H]. destruct (cache_modified_count db) as [|n] eqn:N; simpl.
    + rewrite N. auto.
    + auto.
  - intros H. auto.
Qed.

Lemma table_insert data label rows label' :
  table (<[label := rows]> data) label'
  = if String.eqb label label' then rows else table data label'.
Proof.
  unfold table. destruct (String.eqb label label') eqn:E.
  - apply String.eqb_eq in E as ->. now rewrite lookup_insert_eq.
  - apply String.eqb_neq in E. now rewrite lookup_insert_ne.
Qed.

Lemma known_label label :
  In label Models.TYPE_LABELS ->
  existsb (String.eqb label) Models.TYPE_LABELS = true.
Proof.
  intros H. apply existsb_exists. exists label.
  split; [assumption | apply String.eqb_refl].
Qed.

(** One insertion: the document goes to the end of its table, the other
    tables stay. *)
Lemma insert_known db label doc :
  consistent db -> In label Models.TYPE_LABELS ->
  exists id db',
    insert db label (Some doc) = (Ret id, db')
    /\ consistent db'
    /\ forall label',
         table (read db') label'
         = table (read db) label'
           ++ (if String.eqb label label' then [doc] else []).
Proof.
  intros Hc Hl. unfold insert. rewrite (known_label label Hl).
  eexists _, _. split; [reflexivity|]. split.
  - now apply consistent_write.
  - intros label'. rewrite read_write by assumption.
    rewrite table_insert.
    destruct (String.eqb label label') eqn:E.
    + apply String.eqb_eq in E as ->. reflexivity.
    + now rewrite app_nil_r.
Qed.

(** The loop on a run of record messages followed by a message without
    a label. *)
Lemma listen_loop_records db pre doc rest :
  consistent db -> Forall record_message pre ->
  exists db',
    listen_loop db (pre ++ (None, doc) :: rest) = Returned db' rest
    /\ consistent db'
    /\ forall label,
         table (read db') label
         = table (read db) label ++ documents_for label pre.
Proof.
  intros Hc Hpre. revert db Hc.
  induction Hpre as [|m pre Hm _ IH]; intros db Hc.
  - exists db. simpl. split; [reflexivity|]. split; [assumption|].
    intros label. now rewrite app_nil_r.
  - destruct Hm as (label & d & -> & Hl).
    destruct (insert_known db label d Hc Hl) as (id & db1 & Hi & Hc1 & Ht).
    destruct (IH db1 Hc1) as (db' & Hrun & Hc' & Ht').
    exists db'. simpl. rewrite Hi. split; [exact Hrun|].
    split; [assumption|].
    intros label'. rewrite Ht', Ht, <- app_assoc.
    destruct (String.eqb label label'); reflexivity.
Qed.

End DatabaseFacts.

(** C2.  The writer is started on a store and receives a run of record
    messages (a label that has a table, and a document), then the sentinel
    [(None, None)], then possibly more.  It returns at the sentinel and
    leaves what follows it on the queue; by then every table holds, after
    what it held before, the documents sent under its label in the order
    they were received, and the storage layer is closed with no write left
    in its buffer.  On the record messages alone it does not return: it
    waits for the next message. *)
Theorem writer_loop_contract :
  forall (cached : bool) (file : Database.content)
         (pre rest : list Py.message),
    Forall Writer.record_message pre ->
    (exists db',
        Database.initiate_process file (pre ++ (None, None) :: rest) cached
        = Database.Returned db' rest
        /\ (forall label,
               Database.table (Database.file db') label
               = Database.table file label
                 ++ Writer.documents_for label pre)
        /\ Database.closed db' = true
        /\ Database.cache_modified_count db' = 0)
    /\ (exists db', Database.initiate_process file pre cached
                    = Database.Waiting db').
Proof.
  intros cached file pre rest Hpre. split.
  - destruct (DatabaseFacts.listen_loop_records
                (Database.open cached file) pre None rest
                (DatabaseFacts.consistent_open cached file) Hpre)
      as (db1 & Hrun & Hc & Ht).
    destruct (DatabaseFacts.close_flushes db1 Hc) as (Hfile & Hclosed & Hcount).
    exists (Database.close db1).
    unfold Database.initiate_process, Database.listen. rewrite Hrun.
    split; [reflexivity|]. split; [|split; assumption].
    intros label. rewrite Hfile. apply Ht.
  - unfold Database.initiate_process, Database.listen.
    generalize (DatabaseFacts.consistent_open cached file).
    generalize (Database.open cached file).
    induction Hpre as [|m pre Hm _ IH]; intros db Hc.
    + exists db. reflexivity.
    + destruct Hm as (label & d & -> & Hl).
      destruct (DatabaseFacts.insert_known db label d Hc Hl)
        as (id & db1 & Hi & Hc1 & _).
      destruct (IH db1 Hc1) as [db' Hrun].
      exists db'. simpl. rewrite Hi. exact Hrun.
Qed.

(** The theorem on a queue with a user, a story, a second user, the
    sentinel and a late message, written through the caching middleware
    into an empty store. *)
Lemma writer_loop_contract_witness :
  exists db',
    Database.initiate_process Database.blank
      ([(Some "user", Some [("id", Py.VStr "1cb2cf62")]);
        (Some "story", Some [("id", Py.VInt 12); ("sprints", Py.VList [])]);
        (Some "user", Some [("id", Py.VStr "bf5ba0ab")])]
       ++ (None, None) :: [(Some "user", Some [("id", Py.VStr "late")])])
      true
    = Database.Returned db' [(Some "user", Some [("id", Py.VStr "late")])]
    /\ Database.table (Database.file db') "user"
       = [[("id", Py.VStr "1cb2cf62")]; [("id", Py.VStr "bf5ba0ab")]]
    /\ Database.closed db' = true.
Proof.
  destruct (writer_loop_contract true Database.blank
              [(Some "user", Some [("id", Py.VStr "1cb2cf62")]);
               (Some "story", Some [("id", Py.VInt 12); ("sprints", Py.VList [])]);
               (Some "user", Some [("id", Py.VStr "bf5ba0ab")])]
              [(Some "user", Some [("id", Py.VStr "late")])])
    as [(db' & Hrun & Ht & Hclosed & _) _].
  - repeat constructor; eexists _, _; (split; [reflexivity|]); simpl; tauto.
  - exists db'. split; [exact Hrun|]. split; [|exact Hclosed].
    rewrite (Ht "user"). reflexivity.
Defined.

(* ===================================================================== *)
(** * Pagination *)
(* ===================================================================== *)

Module GitLabFacts.

Import Py GitLab Pages.

Lemma yielded_app evs evs' : yielded (evs ++ evs') = yielded evs ++ yielded evs'.
Proof.
  induction evs as [|ev evs IH]; [reflexivity|].
  destruct ev; simpl; now rewrite IH.
Qed.

Lemma requested_app evs evs' :
  requested (evs ++ evs') = requested evs ++ requested evs'.
Proof.
  induction evs as [|ev evs IH]; [reflexivity|].
  destruct ev; simpl; now rewrite IH.
Qed.

Lemma yielded_items items : yielded (map Yielded items) = items.
Proof. induction items as [|i items IH]; simpl; [reflexivity | now rewrite IH]. Qed.

Lemma requested_items items : requested (map Yielded items) = [].
Proof. induction items as [|i items IH]; simpl; [reflexivity | exact IH]. Qed.

(** The items of the page at hand come out first, one per step. *)
Lemma drain_items e uri params items cursor fuel tr g :
  drain fuel e (GItems uri params [] cursor) = Some (tr, g) ->
  drain (length items + fuel) e (GItems uri params items cursor)
  = Some (map Yielded items ++ tr, g).
Proof.
  intros H. induction items as [|i items IH]; [exact H|].
  simpl. now rewrite IH.
Qed.

Lemma drain_more e fuel g tr g' :
  drain fuel e g = Some (tr, g') ->
  forall fuel', fuel <= fuel' -> drain fuel' e g = Some (tr, g').
Proof.
  revert g tr g'. induction fuel as [|fuel IH]; intros g tr g'; [discriminate|].
  intros H fuel' Hle. destruct fuel' as [|fuel']; [lia|].
  simpl in *. destruct (step e g) as [ev g1].
  destruct ev; try exact H.
  - destruct (drain fuel e g1) as [[evs g2]|] eqn:D; [|discriminate].
    rewrite (IH _ _ _ D fuel') by lia. exact H.
  - destruct (drain fuel e g1) as [[evs g2]|] eqn:D; [|discriminate].
    rewrite (IH _ _ _ D fuel') by lia. exact H.
Qed.

Lemma walk_length_pos uri params pages : 1 <= length (walk uri params pages).
Proof. destruct pages; simpl; lia. Qed.

(** Draining the generator of a chain of pages performs the walk. *)
Lemma drain_chain e uri params pages :
  page_chain e uri params pages ->
  drain (length (walk uri params pages)) e (fetch_all uri params)
  = Some (walk uri params pages, GDone).
Proof.
  unfold fetch_all. induction 1 as [params r Hr Hn | params r page rs Hr Hn _ IH].
  - simpl. rewrite Hr, Hn. rewrite length_app, length_map.
    change (length [Stopped]) with 1.
    rewrite (drain_items e uri params (json r) (x_next_page r) 1 [Stopped] GDone);
      [reflexivity|].
    simpl. now rewrite Hn.
  - simpl. rewrite Hr, Hn. rewrite length_app, length_map.
    rewrite (drain_items e uri params (json r) (x_next_page r) _
               (walk uri (set "page" page params) rs) GDone);
      [reflexivity|].
    destruct (length (walk uri (set "page" page params) rs)) as [|n] eqn:L;
      [pose proof (walk_length_pos uri (set "page" page params) rs); lia|].
    simpl in IH |- *. rewrite Hn. exact IH.
Qed.

Lemma yielded_walk e uri params pages :
  page_chain e uri params pages ->
  yielded (walk uri params pages) = concat (map json pages).
Proof.
  induction 1 as [params r Hr Hn | params r page rs Hr Hn _ IH]; simpl.
  - rewrite Hn, yielded_app, yielded_items. reflexivity.
  - rewrite Hn, yielded_app, yielded_items, IH. reflexivity.
Qed.

Lemma requested_walk uri params pages :
  pages <> [] ->
  requested (walk uri params pages) = addresses uri params pages.
Proof.
  revert params. induction pages as [|r rs IH]; intros params Hne; [congruence|].
  simpl. rewrite requested_app, requested_items. simpl. f_equal.
  destruct (next_page (x_next_page r)) as [page|]; [|reflexivity].
  destruct rs as [|r' rs]; [reflexivity|]. now apply IH.
Qed.

Lemma length_addresses e uri params pages :
  page_chain e uri params pages ->
  length (addresses uri params pages) = length pages.
Proof.
  induction 1 as [params r Hr Hn | params r page rs Hr Hn _ IH]; simpl.
  - now rewrite Hn.
  - now rewrite Hn, IH.
Qed.

End GitLabFacts.

(** C5.  Whatever chain of pages the remote serves from the parameters of
    the call (each page the answer to the request that carries the cursor
    of the page before it, the last page the first one without a cursor),
    iterating [__fetch_all] to its end terminates, and what it does is the
    walk of that chain: one request per page, made before the items of that
    page and after the items of the page before; the items it produces are
    the items of the pages, page after page; it stops after the items of
    the page without a cursor. *)
Theorem fetch_all_pagination :
  forall (e : GitLab.env) (uri : string) (params : Py.dict string)
         (pages : list GitLab.response),
    Pages.page_chain e uri params pages ->
    exists trace,
      (exists fuel0, forall fuel, fuel0 <= fuel ->
          GitLab.drain fuel e (GitLab.fetch_all uri params)
          = Some (trace, GitLab.GDone))
      /\ trace = Pages.walk uri params pages
      /\ GitLab.yielded trace = concat (map GitLab.json pages)
      /\ GitLab.requested trace = Pages.addresses uri params pages
      /\ length (GitLab.requested trace) = length pages.
Proof.
  intros e uri params pages Hchain.
  exists (Pages.walk uri params pages).
  assert (Hne : pages <> []) by (destruct Hchain; discriminate).
  split; [|split; [reflexivity|split; [|split]]].
  - exists (length (Pages.walk uri params pages)). intros fuel Hle.
    eapply GitLabFacts.drain_more; [|exact Hle].
    now apply GitLabFacts.drain_chain.
  - now apply (GitLabFacts.yielded_walk e).
  - now apply GitLabFacts.requested_walk.
  - rewrite GitLabFacts.requested_walk by assumption.
    now apply (GitLabFacts.length_addresses e).
Qed.


(** The theorem at the blame of [app/handler.py]: two pages, the second
    reached through the cursor of the first. *)
Lemma fetch_all_pagination_witness :
  exists trace,
    (exists fuel0, forall fuel, fuel0 <= fuel ->
        GitLab.drain fuel Remote.env
          (GitLab.fetch_all (GitLab.blame_uri 7 "app/handler.py")
             [("ref", "c0ffee")])
        = Some (trace, GitLab.GDone))
    /\ GitLab.yielded trace = [Remote.alice_lines; Remote.bob_lines]
    /\ GitLab.requested trace
       = [{| GitLab.uri := GitLab.blame_uri 7 "app/handler.py";
             GitLab.params := [("ref", "c0ffee")] |};
          {| GitLab.uri := GitLab.blame_uri 7 "app/handler.py";
             GitLab.params := [("ref", "c0ffee"); ("page", "2")] |}].
Proof.
  destruct (fetch_all_pagination Remote.env
              (GitLab.blame_uri 7 "app/handler.py") [("ref", "c0ffee")]
              [Remote.answer [Remote.alice_lines] (Some "2");
               Remote.answer [Remote.bob_lines] (Some EmptyString)])
    as (trace & Hdrain & _ & Hy & Hr & _).
  - eapply Pages.chain_next; [reflexivity | reflexivity |].
    apply Pages.chain_last; reflexivity.
  - exists trace. split; [exact Hdrain|]. split; [exact Hy | exact Hr].
Defined.

(* ===================================================================== *)
(** * Blame correlation *)
(* ===================================================================== *)

Example candidates_of_both_frames :
  Models.ErrorLog.get_error_info Remote.both_frames
  = [("app/handler.py", "return table[event]");
     ("app/handler.py", "return load(event)")].
Proof. vm_compute. reflexivity. Qed.

(** C7 on a traceback with two frames in one file.  The candidates are the
    line of [load], which is no longer in the file, and the line of
    [handle], which the blame attributes to alice.  Looked up alone, the
    line of [handle] resolves to the hash of alice.  Looked up after the
    line of [load], it does not: both candidates have the same project,
    file and time, [__fetch_blame] hands out the generator it memoized for
    the first, which the first has used up, and [blame] returns no
    author. *)
Theorem blame_second_candidate_same_file :
  option_map fst
    (GitLab.blame 8 Remote.env GitLab.fresh (Remote.error_log Remote.outer_frame)
       "/aws/lambda/orders")
  = Some (Py.Ret (Some (Models.User.hash_id "alice")))
  /\ option_map fst
       (GitLab.blame 8 Remote.env GitLab.fresh (Remote.error_log Remote.both_frames)
          "/aws/lambda/orders")
     = Some (Py.Ret None)
  /\ match GitLab.blame 8 Remote.env GitLab.fresh (Remote.error_log Remote.both_frames)
            "/aws/lambda/orders"
     with
     | Some (_, cache) =>
         cache !! (7%Z, "app/handler.py", "2023-03-28T10:40:00Z")
     | None => None
     end = Some GitLab.GDone.
Proof. repeat split; vm_compute; reflexivity. Qed.

(** A failure of the blame of one candidate does not end the lookup: the
    file of the inner frame cannot be fetched, the candidate of the outer
    frame, in another file, is examined and resolves to alice. *)
Example blame_skips_failed_candidate :
  Models.ErrorLog.get_error_info Remote.two_files
  = [("lib/cache.py", "return store[key]");
     ("app/handler.py", "return load(event)")]
  /\ option_map fst
       (GitLab.blame 8 Remote.env GitLab.fresh (Remote.error_log Remote.two_files)
          "/aws/lambda/orders")
     = Some (Py.Ret (Some (Models.User.hash_id "alice"))).
Proof. split; vm_compute; reflexivity. Qed.

(** The same on two error logs of the same second: the second lookup
    resumes the generator where the first left it, behind the item that
    holds the line, and finds no author. *)
Example blame_same_log_twice :
  match GitLab.blame 8 Remote.env GitLab.fresh (Remote.error_log Remote.outer_frame)
          "/aws/lambda/orders"
  with
  | Some (first, cache) =>
      Some (first,
            option_map fst
              (GitLab.blame 8 Remote.env cache
                 (Remote.error_log Remote.outer_frame) "/aws/lambda/orders"))
  | None => None
  end
  = Some (Py.Ret (Some (Models.User.hash_id "alice")), Some (Py.Ret None)).
Proof. vm_compute. reflexivity. Qed.

(* ===================================================================== *)
(** * The log extractor *)
(* ===================================================================== *)

Module DictFacts.

Import Py.

Lemma pop_first {V} k (v : V) d : remove k ((k, v) :: d) = d.
Proof. simpl. now rewrite String.eqb_refl. Qed.

Lemma keys_set {V} k (v : V) d x :
  In x (keys (set k v d)) -> x = k \/ In x (keys d).
Proof.
  induction d as [|[k' v'] d IH]; simpl.
  - intros [H | []]. now left.
  - destruct (String.eqb k k') eqn:E; simpl.
    + intros [H | H]; auto.
    + intros [H | H]; auto. destruct (IH H); auto.
Qed.

Lemma keys_remove {V} k (d : dict V) x :
  In x (keys (remove k d)) -> In x (keys d).
Proof.
  induction d as [|[k' v'] d IH]; simpl; [auto|].
  destruct (String.eqb k k'); simpl; intuition.
Qed.

Lemma get_set {V} k (v : V) d : get k (set k v d) = Some v.
Proof.
  induction d as [|[k' v'] d IH]; simpl.
  - now rewrite String.eqb_refl.
  - destruct (String.eqb k k') eqn:E; simpl.
    + now rewrite String.eqb_refl.
    + now rewrite E.
Qed.

(** Writing to a dictionary that has entries leaves the key of its
    first entry in front. *)
Lemma set_keeps_first_key {V} k (v : V) k0 v0 d :
  exists v1 d1, set k v ((k0, v0) :: d) = (k0, v1) :: d1.
Proof.
  simpl. destruct (String.eqb k k0) eqn:E.
  - apply String.eqb_eq in E as ->. eauto.
  - eauto.
Qed.

Lemma keys_set_old {V} k (v : V) d :
  In k (keys d) -> keys (set k v d) = keys d.
Proof.
  induction d as [|[k' v'] d IH]; simpl; [tauto|].
  destruct (String.eqb k k') eqn:E; simpl.
  - apply String.eqb_eq in E as ->. reflexivity.
  - apply String.eqb_neq in E. intros [H | H]; [congruence|].
    now rewrite (IH H).
Qed.

Lemma keys_set_new {V} k (v : V) d :
  ~ In k (keys d) -> keys (set k v d) = keys d ++ [k].
Proof.
  induction d as [|[k' v'] d IH]; simpl; [reflexivity|].
  intros H. destruct (String.eqb k k') eqn:E; simpl.
  - apply String.eqb_eq in E as ->. tauto.
  - rewrite IH; tauto.
Qed.

Lemma NoDup_keys_set {V} k (v : V) d :
  List.NoDup (keys d) -> List.NoDup (keys (set k v d)).
Proof.
  intros Hd. destruct (in_dec string_dec k (keys d)) as [Hin | Hout].
  - now rewrite keys_set_old.
  - rewrite keys_set_new by assumption.
    apply List.NoDup_app; [assumption | |].
    + constructor; [tauto | constructor].
    + intros x Hx [-> | []]. contradiction.
Qed.

Lemma NoDup_keys_remove {V} k (d : dict V) :
  List.NoDup (keys d) -> List.NoDup (keys (remove k d)).
Proof.
  induction d as [|[k' v'] d IH]; simpl; [auto|].
  intros H. apply NoDup_cons_iff in H as [Hk Hd].
  destruct (String.eqb k k'); simpl; [assumption|].
  constructor; [|now apply IH].
  intros Hx. apply Hk. eapply keys_remove; eauto.
Qed.

Lemma removed_key {V} k (d : dict V) :
  List.NoDup (keys d) -> ~ In k (keys (remove k d)).
Proof.
  induction d as [|[k' v'] d IH]; simpl; [tauto|].
  intros H. apply NoDup_cons_iff in H as [Hk Hd].
  destruct (String.eqb k k') eqn:E; simpl.
  - apply String.eqb_eq in E as ->. assumption.
  - apply String.eqb_neq in E. intros [Hx | Hx]; [congruence|].
    now apply (IH Hd).
Qed.

Lemma nth_error_key {V} (d : dict V) i k v :
  nth_error d i = Some (k, v) -> In k (keys d).
Proof.
  intros H. apply nth_error_In in H.
  unfold keys. apply in_map_iff. exists (k, v). auto.
Qed.

Lemma get_key {V} k (d : dict V) :
  In k (keys d) <-> exists v, get k d = Some v.
Proof.
  induction d as [|[k' v'] d IH]; simpl.
  - split; [tauto | intros [v H]; discriminate].
  - destruct (String.eqb k k') eqn:E.
    + apply String.eqb_eq in E as ->. split; eauto.
    + apply String.eqb_neq in E. rewrite <- IH. split; [|tauto].
      intros [H | H]; [congruence | assumption].
Qed.

(** [pop] returns for a key of the dictionary, and only for one. *)
Lemma pop_key {V} k (d : dict V) :
  In k (keys d) -> pop k d = Ret (remove k d).
Proof.
  intros H. apply get_key in H as [v H]. unfold pop. now rewrite H.
Qed.

Lemma pop_missing {V} k (d : dict V) :
  ~ In k (keys d) -> pop k d = Raise (KeyError k).
Proof.
  intros H. unfold pop. destruct (get k d) as [v|] eqn:E; [|reflexivity].
  exfalso. apply H. apply get_key. eauto.
Qed.

End DictFacts.

Module CloudWatchFacts.

Import Py CloudWatch Rounds.

Section Facts.

Context {W : Type}.
Variable aws : service W.
Variable env : GitLab.env.
Variable account_name : string.

Let clock := GitLab.clock env.

Local Abbreviation queued_for := (Rounds.queued_for env account_name).
Local Abbreviation later := (Rounds.later aws env account_name).

(** The dictionary that [transform_query_result] returns has the same
    four keys for every row. *)
Lemma transform_query_result_shape result log :
  Models.ErrorLog.transform_query_result clock result account_name = Ret log ->
  exists loggroup timestamp message,
    log = [("loggroup", VStr loggroup); ("account", VStr account_name);
           ("timestamp", VInt timestamp); ("message", VStr message)]
    /\ Models.ErrorLog.query_result_transform_timestamp clock result
       = Ret timestamp.
Proof.
  unfold Models.ErrorLog.transform_query_result.
  destruct (Models.ErrorLog.query_result_extract_group result); simpl;
    [|discriminate].
  destruct (Models.ErrorLog.query_result_transform_timestamp clock result)
    as [timestamp|]; simpl; [|discriminate].
  destruct (Models.ErrorLog.field_value result 2) as [message|]; simpl;
    [|discriminate].
  intros H. injection H as <-. eauto.
Qed.

Lemma handle_query_results_queue budget results log_group
    (st : state W) r st' :
  handle_query_results env account_name budget results log_group st
  = Some (r, st') ->
  exists sent,
    queue st' = queue st ++ sent
    /\ Forall2 (queued_for budget log_group)
         (firstn (length sent) results) sent
    /\ (forall u, r = Ret u -> length sent = length results).
Proof.
  revert st. induction results as [|result results IH]; intros st; simpl.
  - intros H. injection H as <- <-. exists []. rewrite app_nil_r.
    split; [reflexivity|]. split; [constructor | reflexivity].
  - destruct (Models.ErrorLog.transform_query_result (GitLab.clock env)
                result account_name) as [log|ex] eqn:T.
    + destruct (transform_query_result_shape _ _ T)
        as (loggroup & timestamp & message & -> & _).
      destruct (GitLab.blame budget env (gitlab st) _ log_group)
        as [[[author|ex] cache]|] eqn:B; [| |discriminate].
      * intros H. destruct (IH _ H) as (sent & Hq & Hs & Hlen).
        simpl in Hq. rewrite <- app_assoc in Hq. simpl in Hq.
        eexists. split; [exact Hq|]. split.
        -- simpl. constructor; [|exact Hs].
           exists loggroup, timestamp, message, author, (gitlab st), cache.
           repeat split; assumption.
        -- intros u Hu. simpl. f_equal. now apply (Hlen u).
      * intros H. injection H as <- <-. exists []. rewrite app_nil_r.
        split; [reflexivity|]. split; [constructor | discriminate].
    + intros H. injection H as <- <-. exists []. rewrite app_nil_r.
      split; [reflexivity|]. split; [constructor | discriminate].
Qed.

(** The handler works on the queue and on the memo table only. *)
Lemma handle_query_results_frame budget results log_group
    (st : state W) r st' :
  handle_query_results env account_name budget results log_group st
  = Some (r, st') ->
  log_groups st' = log_groups st /\ queries st' = queries st
  /\ world st' = world st.
Proof.
  revert st. induction results as [|result results IH]; intros st; simpl.
  - intros H. injection H as <- <-. auto.
  - destruct (Models.ErrorLog.transform_query_result (GitLab.clock env)
                result account_name) as [log|ex].
    + destruct (GitLab.blame budget env (gitlab st) log log_group)
        as [[[author|ex] cache]|]; [| |discriminate].
      * intros H. apply IH in H. exact H.
      * intros H. injection H as <- <-. auto.
    + intros H. injection H as <- <-. auto.
Qed.

(** When the handler returns, every row could be transformed. *)
Lemma handle_query_results_rows budget results log_group
    (st : state W) u st' :
  handle_query_results env account_name budget results log_group st
  = Some (Ret u, st') ->
  Forall (fun result =>
            exists timestamp,
              Models.ErrorLog.query_result_transform_timestamp clock result
              = Ret timestamp) results.
Proof.
  revert st. induction results as [|result results IH]; intros st; simpl.
  - constructor.
  - destruct (Models.ErrorLog.transform_query_result (GitLab.clock env)
                result account_name) as [log|ex] eqn:T; [|discriminate].
    destruct (transform_query_result_shape _ _ T)
      as (loggroup & timestamp & message & _ & Hts).
    destruct (GitLab.blame budget env (gitlab st) log log_group)
      as [[[author|ex] cache]|]; [| discriminate |discriminate].
    intros H. constructor; [eauto | eapply IH; exact H].
Qed.

(** ** Polling one query *)

Lemma last_row_nonempty (results : list Models.ErrorLog.row) :
  results <> [] -> exists row, last_row results = Ret row /\ In row results.
Proof.
  intros Hne. unfold last_row.
  destruct (nth_error results (length results - 1)) as [row|] eqn:E.
  - exists row. split; [reflexivity|]. eapply nth_error_In; eauto.
  - apply nth_error_None in E. destruct results; [congruence | simpl in E; lia].
Qed.

Lemma poll_query_complete budget log_group query (st : state W)
    results w' u st1 :
  In log_group (keys (queries st)) ->
  get_query_results aws (world st) query
  = (ResultsOk "Complete" results, w') ->
  handle_query_results env account_name budget results log_group
    (with_world st w') = Some (Ret u, st1) ->
  ((QUERY_LIMIT <= Z.of_nat (length results))%Z ->
   exists row timestamp,
     last_row results = Ret row
     /\ Models.ErrorLog.query_result_transform_timestamp clock row
        = Ret timestamp
     /\ poll_query aws env account_name budget log_group query st
        = Some (Ret tt,
                Build_state
                  (set log_group
                     (timestamp, Config.limit_timestamp (GitLab.config env))
                     (log_groups st))
                  (remove log_group (queries st))
                  (queue st1) (gitlab st1) w'))
  /\ ((Z.of_nat (length results) < QUERY_LIMIT)%Z ->
      poll_query aws env account_name budget log_group query st
      = Some (Ret tt,
              Build_state (log_groups st) (remove log_group (queries st))
                (queue st1) (gitlab st1) w')).
Proof.
  intros Hin Hget Hhandle.
  destruct (handle_query_results_frame _ _ _ _ _ _ Hhandle)
    as (Hlg & Hq & Hw). simpl in Hlg, Hq, Hw.
  unfold poll_query, get_results. rewrite Hget. simpl. rewrite Hhandle.
  split; intros Hlen.
  - assert (Hne : results <> []).
    { intros ->. unfold QUERY_LIMIT in Hlen. simpl in Hlen. lia. }
    destruct (last_row_nonempty results Hne) as (row & Hrow & Hlast).
    pose proof (handle_query_results_rows _ _ _ _ _ _ Hhandle) as Hrows.
    rewrite Forall_forall in Hrows.
    destruct (Hrows row) as [timestamp Hts]; [now apply list_elem_of_In|].
    exists row, timestamp. split; [exact Hrow|]. split; [exact Hts|].
    apply Z.leb_le in Hlen. rewrite Hlen, Hrow. simpl.
    fold clock. rewrite Hts.
    unfold pop_query, with_queries, with_log_groups. simpl.
    rewrite Hq, (DictFacts.pop_key _ _ Hin). now rewrite Hlg, Hw.
  - apply Z.leb_gt in Hlen. rewrite Hlen.
    unfold pop_query, with_queries.
    rewrite Hq, (DictFacts.pop_key _ _ Hin). now rewrite Hlg, Hw.
Qed.

(** The last statement of the body: for an entry of [queries] it
    returns. *)
Lemma pop_query_effect log_group (st : state W) :
  In log_group (keys (queries st)) ->
  pop_query log_group st
  = Some (Ret tt, with_queries st (remove log_group (queries st))).
Proof.
  intros Hin. unfold pop_query. now rewrite (DictFacts.pop_key _ _ Hin).
Qed.

(** What one poll can do to the two dictionaries: nothing; or take the
    log group out of the queries in flight; or that, and make the log group
    pending. *)
Lemma poll_query_effect budget log_group query (st : state W) r st' :
  In log_group (keys (queries st)) ->
  poll_query aws env account_name budget log_group query st = Some (r, st') ->
  (log_groups st' = log_groups st /\ queries st' = queries st)
  \/ (log_groups st' = log_groups st
      /\ queries st' = remove log_group (queries st))
  \/ (exists range,
         log_groups st' = set log_group range (log_groups st)
         /\ queries st' = remove log_group (queries st)).
Proof.
  intros Hin. unfold poll_query.
  destruct (get_results aws (world st) query) as [[polled|ex] w'].
  - destruct polled as [results| |].
    + destruct (handle_query_results env account_name budget results
                  log_group (with_world st w')) as [[[u|ex] st1]|] eqn:Hh;
        [| |discriminate].
      * destruct (handle_query_results_frame _ _ _ _ _ _ Hh)
          as (Hlg & Hq & _). simpl in Hlg, Hq.
        rewrite <- Hq in Hin.
        destruct (QUERY_LIMIT <=? Z.of_nat (length results))%Z.
        -- destruct (let* row := last_row results in
                     Models.ErrorLog.query_result_transform_timestamp
                       (GitLab.clock env) row) as [ts|ex].
           ++ rewrite pop_query_effect by exact Hin.
              intros H. injection H as <- <-. simpl. rewrite Hlg, Hq.
              right. right. eauto.
           ++ intros H. injection H as <- <-. auto.
        -- rewrite pop_query_effect by exact Hin.
           intros H. injection H as <- <-. simpl. rewrite Hlg, Hq. auto.
      * destruct (handle_query_results_frame _ _ _ _ _ _ Hh)
          as (Hlg & Hq & _). simpl in Hlg, Hq.
        intros H. injection H as <- <-. auto.
    + intros H. injection H as <- <-. auto.
    + intros H. injection H as <- <-. auto.
  - intros H. injection H as <- <-. auto.
Qed.

(** ** Invariants of the polling loop *)

Lemma poll_query_first_pending budget lg query log_group (st : state W) r st' :
  In lg (keys (queries st)) ->
  first_pending log_group st ->
  poll_query aws env account_name budget lg query st = Some (r, st') ->
  first_pending log_group st'.
Proof.
  intros Hin (range & rest & Hst) Hp. unfold first_pending.
  destruct (poll_query_effect _ _ _ _ _ _ Hin Hp)
    as [[Hlg _] | [[Hlg _] | (rg & Hlg & _)]]; rewrite Hlg, Hst.
  - now exists range, rest.
  - now exists range, rest.
  - destruct (DictFacts.set_keeps_first_key lg rg log_group range rest)
      as (v1 & d1 & ->). now exists v1, d1.
Qed.

Lemma poll_first_pending budget n log_group (st : state W) r st' :
  first_pending log_group st ->
  poll aws env account_name budget n st = Some (r, st') ->
  first_pending log_group st'.
Proof.
  revert st. induction n as [|i IH]; intros st Hfirst; simpl.
  - intros H. now injection H as <- <-.
  - destruct (nth_error (queries st) i) as [[lg query]|] eqn:E;
      [|intros H; now injection H as <- <-].
    apply DictFacts.nth_error_key in E.
    destruct (poll_query aws env account_name budget lg query st)
      as [[[u|ex] st1]|] eqn:Hp; [| |discriminate].
    + apply IH. eapply poll_query_first_pending; eauto.
    + intros H. injection H as <- <-. eapply poll_query_first_pending; eauto.
Qed.

Lemma poll_query_dropped budget lg query log_group (st : state W) r st' :
  In lg (keys (queries st)) ->
  dropped log_group st ->
  poll_query aws env account_name budget lg query st = Some (r, st') ->
  dropped log_group st'.
Proof.
  intros Hin [Hp Hq] Hpoll.
  destruct (poll_query_effect _ _ _ _ _ _ Hin Hpoll)
    as [[Hlg Hqs] | [[Hlg Hqs] | (range & Hlg & Hqs)]];
    unfold dropped; rewrite Hlg, Hqs; split; try assumption.
  - intros Hx. apply DictFacts.keys_remove in Hx. auto.
  - intros Hx. apply DictFacts.keys_set in Hx as [-> | Hx]; auto.
  - intros Hx. apply DictFacts.keys_remove in Hx. auto.
Qed.

Lemma poll_dropped budget n log_group (st : state W) r st' :
  dropped log_group st ->
  poll aws env account_name budget n st = Some (r, st') ->
  dropped log_group st'.
Proof.
  revert st. induction n as [|i IH]; intros st Hd; simpl.
  - intros H. now injection H as <- <-.
  - destruct (nth_error (queries st) i) as [[lg query]|] eqn:E;
      [|intros H; now injection H as <- <-].
    apply DictFacts.nth_error_key in E.
    destruct (poll_query aws env account_name budget lg query st)
      as [[[u|ex] st1]|] eqn:Hp; [| |discriminate].
    + apply IH. eapply poll_query_dropped; eauto.
    + intros H. injection H as <- <-. eapply poll_query_dropped; eauto.
Qed.

(** ** Submission *)

Lemma submit_limit_reached log_group start limit rest running w w' :
  start_query aws w log_group start limit
  = (StartFailed "LimitExceededException", w') ->
  submit aws ((log_group, (start, limit)) :: rest) running w
  = (Ret tt, ((log_group, (start, limit)) :: rest, running, w')).
Proof.
  intros H. simpl. unfold start_error_query. now rewrite H.
Qed.

Lemma submit_not_found log_group start limit rest running w w' :
  start_query aws w log_group start limit
  = (StartFailed "ResourceNotFoundException", w') ->
  submit aws ((log_group, (start, limit)) :: rest) running w
  = submit aws rest running w'.
Proof.
  intros H. simpl. unfold start_error_query. now rewrite H.
Qed.

Lemma submit_other_error log_group start limit rest running w w' code :
  start_query aws w log_group start limit = (StartFailed code, w') ->
  code <> "LimitExceededException" ->
  code <> "ResourceNotFoundException" ->
  submit aws ((log_group, (start, limit)) :: rest) running w
  = (Raise (ClientError code),
     ((log_group, (start, limit)) :: rest, running, w')).
Proof.
  intros H Hl Hn. simpl. unfold start_error_query. rewrite H.
  apply String.eqb_neq in Hl, Hn. now rewrite Hl, Hn.
Qed.

(** Submission takes log groups off the front of the pending ones, and
    what it adds to the running queries it takes from there. *)
Lemma submit_keys pending running w r pending' running' w' :
  submit aws pending running w = (r, (pending', running', w')) ->
  (forall x, In x (keys pending') -> In x (keys pending))
  /\ (forall x, In x (keys running') ->
                In x (keys running) \/ In x (keys pending)).
Proof.
  revert running w.
  induction pending as [|[lg [start limit]] rest IH]; intros running w; simpl.
  - intros H. injection H as <- <- <- <-. auto.
  - destruct (start_error_query aws w lg start limit) as [[started|ex] w1].
    + destruct started as [query| |].
      * intros H. apply IH in H as [Hp Hr]. split.
        -- intros x Hx. right. now apply Hp.
        -- intros x Hx. destruct (Hr x Hx) as [Hx' | Hx']; [|auto].
           simpl. apply DictFacts.keys_set in Hx' as [-> | Hx']; auto.
      * intros H. injection H as <- <- <- <-. auto.
      * intros H. apply IH in H as [Hp Hr]. split.
        -- intros x Hx. right. now apply Hp.
        -- intros x Hx. destruct (Hr x Hx); auto.
    + intros H. injection H as <- <- <- <-. auto.
Qed.

Lemma submit_all_dropped log_group (st : state W) r st' :
  dropped log_group st ->
  submit_all aws st = (r, st') ->
  dropped log_group st'.
Proof.
  intros [Hp Hq]. unfold submit_all.
  destruct (submit aws (log_groups st) (queries st) (world st))
    as [r0 [[pending running] w]] eqn:Hs.
  intros H. injection H as <- <-.
  destruct (submit_keys _ _ _ _ _ _ _ Hs) as [Hkp Hkr].
  split; simpl.
  - intros Hx. auto.
  - intros Hx. destruct (Hkr _ Hx); auto.
Qed.

Lemma cycle_dropped budget log_group (st : state W) r st' :
  dropped log_group st ->
  cycle aws env account_name budget st = Some (r, st') ->
  dropped log_group st'.
Proof.
  intros Hd. unfold cycle.
  destruct (submit_all aws st) as [[u|ex] st1] eqn:Hs.
  - intros H. eapply poll_dropped; [|exact H].
    eapply submit_all_dropped; eauto.
  - intros H. injection H as <- <-. eapply submit_all_dropped; eauto.
Qed.

Lemma later_dropped budget log_group st st' :
  later budget st st' -> dropped log_group st -> dropped log_group st'.
Proof.
  induction 1 as [st | st u st1 st' Hc _ IH]; intros Hd; [assumption|].
  apply IH. eapply cycle_dropped; eauto.
Qed.

(** A round whose first submission meets the limit keeps that log
    group first in line. *)
Lemma cycle_limit_reached budget log_group start limit rest
    (st : state W) w' r st' :
  log_groups st = (log_group, (start, limit)) :: rest ->
  start_query aws (world st) log_group start limit
  = (StartFailed "LimitExceededException", w') ->
  cycle aws env account_name budget st = Some (r, st') ->
  first_pending log_group st'.
Proof.
  intros Hlg Hs. unfold cycle, submit_all. rewrite Hlg.
  rewrite (submit_limit_reached _ _ _ _ _ _ _ Hs).
  apply poll_first_pending. now exists (start, limit), rest.
Qed.

Lemma first_pending_not_finished log_group (st : state W) :
  first_pending log_group st -> finished st = false.
Proof. intros (range & rest & H). unfold finished. now rewrite H. Qed.

(** While the service keeps answering that the limit is reached, the
    loop does not return, however many rounds it is given. *)
Lemma query_loop_limit_reached rounds budget log_group (st : state W) :
  (forall w start limit,
      fst (start_query aws w log_group start limit)
      = StartFailed "LimitExceededException") ->
  first_pending log_group st ->
  forall u st',
    query_loop aws env account_name rounds budget st <> Some (Ret u, st').
Proof.
  intros Hlimit. revert st.
  induction rounds as [|rounds IH]; intros st Hfirst u st'; simpl;
    [discriminate|].
  destruct (cycle aws env account_name budget st)
    as [[[u1|ex] st1]|] eqn:Hc; [| discriminate | discriminate].
  destruct Hfirst as ([start limit] & rest & Hlg).
  destruct (start_query aws (world st) log_group start limit)
    as [resp w'] eqn:Hs.
  pose proof (Hlimit (world st) start limit) as Hresp.
  rewrite Hs in Hresp. simpl in Hresp. subst resp.
  pose proof (cycle_limit_reached _ _ _ _ _ _ _ _ _ Hlg Hs Hc) as Hfirst1.
  rewrite (first_pending_not_finished _ _ Hfirst1).
  now apply IH.
Qed.

(** ** The end of the loop *)

Lemma finished_spec (st : state W) :
  finished st = true <-> log_groups st = [] /\ queries st = [].
Proof.
  unfold finished.
  destruct (log_groups st), (queries st); split;
    try discriminate; try intros [? ?]; try discriminate; auto.
Qed.

Lemma query_loop_returns_finished rounds budget (st : state W) u st' :
  query_loop aws env account_name rounds budget st = Some (Ret u, st') ->
  log_groups st' = [] /\ queries st' = [].
Proof.
  revert st. induction rounds as [|rounds IH]; intros st; simpl;
    [discriminate|].
  destruct (cycle aws env account_name budget st)
    as [[[u1|ex] st1]|]; [| discriminate | discriminate].
  destruct (finished st1) eqn:F.
  - intros H. injection H as <- <-. now apply finished_spec.
  - apply IH.
Qed.

(** ** Rows without a traceback *)

Lemma last_row_repeat (row : Models.ErrorLog.row) n :
  0 < n -> last_row (repeat row n) = Ret row.
Proof.
  intros Hn. unfold last_row. rewrite repeat_length.
  rewrite nth_error_repeat by lia. reflexivity.
Qed.

Lemma handle_query_results_repeat budget n result log_group (st : state W)
    log author :
  Models.ErrorLog.transform_query_result clock result account_name
  = Ret log ->
  GitLab.blame budget env (gitlab st) log log_group
  = Some (Ret author, gitlab st) ->
  exists st',
    handle_query_results env account_name budget (repeat result n)
      log_group st = Some (Ret tt, st')
    /\ queue st'
       = queue st
         ++ repeat (Some Models.ErrorLog.LABEL,
                    Some (without_message
                            (set "author_id" (author_value author) log))) n.
Proof.
  intros Ht Hb. revert st Hb.
  induction n as [|n IH]; intros st Hb.
  - exists st. split; [reflexivity|]. simpl. now rewrite app_nil_r.
  - change (repeat result (S n)) with (result :: repeat result n).
    cbn [handle_query_results]. fold clock. rewrite Ht, Hb.
    destruct (IH (put (with_gitlab st (gitlab st))
                    (Some Models.ErrorLog.LABEL,
                     Some (without_message
                             (set "author_id" (author_value author) log)))))
      as (st' & Hh & Hq); [exact Hb|].
    exists st'. split; [exact Hh|].
    rewrite Hq. cbn [queue put]. now rewrite <- app_assoc.
Qed.

(** ** The two dictionaries never share a log group *)

Lemma submit_well_formed pending running w r pending' running' w' :
  List.NoDup (keys pending) -> List.NoDup (keys running) ->
  (forall k, In k (keys pending) -> ~ In k (keys running)) ->
  submit aws pending running w = (r, (pending', running', w')) ->
  List.NoDup (keys pending') /\ List.NoDup (keys running')
  /\ forall k, In k (keys pending') -> ~ In k (keys running').
Proof.
  revert running w.
  induction pending as [|[lg [start limit]] rest IH];
    intros running w Hp Hr Hd; simpl.
  - intros H. injection H as <- <- <- <-. auto.
  - simpl in Hp. apply NoDup_cons_iff in Hp as [Hlg Hrest].
    destruct (start_error_query aws w lg start limit) as [[started|ex] w1].
    + destruct started as [query| |].
      * apply IH; [assumption | now apply DictFacts.NoDup_keys_set |].
        intros k Hk Hx. apply DictFacts.keys_set in Hx as [-> | Hx];
          [contradiction|].
        apply (Hd k); [simpl; auto | assumption].
      * intros H. injection H as <- <- <- <-.
        split; [simpl; now constructor|]. split; assumption.
      * apply IH; [assumption | assumption |].
        intros k Hk. apply Hd. simpl. auto.
    + intros H. injection H as <- <- <- <-.
      split; [simpl; now constructor|]. split; assumption.
Qed.

Lemma submit_all_well_formed (st : state W) r st' :
  well_formed st -> submit_all aws st = (r, st') -> well_formed st'.
Proof.
  intros (Hp & Hq & Hd). unfold submit_all.
  destruct (submit aws (log_groups st) (queries st) (world st))
    as [r0 [[pending running] w]] eqn:Hs.
  intros H. injection H as <- <-.
  exact (submit_well_formed _ _ _ _ _ _ _ Hp Hq Hd Hs).
Qed.

Lemma poll_query_well_formed budget lg query (st : state W) r st' :
  In lg (keys (queries st)) ->
  well_formed st ->
  poll_query aws env account_name budget lg query st = Some (r, st') ->
  well_formed st'.
Proof.
  intros Hin (Hp & Hq & Hd) Hpoll.
  destruct (poll_query_effect _ _ _ _ _ _ Hin Hpoll)
    as [[Hlg Hqs] | [[Hlg Hqs] | (range & Hlg & Hqs)]];
    unfold well_formed; rewrite Hlg, Hqs.
  - auto.
  - split; [assumption|]. split; [now apply DictFacts.NoDup_keys_remove|].
    intros k Hk Hx. apply DictFacts.keys_remove in Hx. now apply (Hd k).
  - split; [now apply DictFacts.NoDup_keys_set|].
    split; [now apply DictFacts.NoDup_keys_remove|].
    intros k Hk Hx. apply DictFacts.keys_set in Hk as [-> | Hk].
    + now apply (DictFacts.removed_key lg (queries st)).
    + apply DictFacts.keys_remove in Hx. now apply (Hd k).
Qed.

Lemma poll_well_formed budget n (st : state W) r st' :
  well_formed st ->
  poll aws env account_name budget n st = Some (r, st') ->
  well_formed st'.
Proof.
  revert st. induction n as [|i IH]; intros st Hwf; simpl.
  - intros H. now injection H as <- <-.
  - destruct (nth_error (queries st) i) as [[lg query]|] eqn:E;
      [|intros H; now injection H as <- <-].
    apply DictFacts.nth_error_key in E.
    destruct (poll_query aws env account_name budget lg query st)
      as [[[u|ex] st1]|] eqn:Hp; [| |discriminate].
    + apply IH. eapply poll_query_well_formed; eauto.
    + intros H. injection H as <- <-. eapply poll_query_well_formed; eauto.
Qed.

Lemma cycle_well_formed budget (st : state W) r st' :
  well_formed st ->
  cycle aws env account_name budget st = Some (r, st') ->
  well_formed st'.
Proof.
  intros Hwf. unfold cycle.
  destruct (submit_all aws st) as [[u|ex] st1] eqn:Hs.
  - intros H. eapply poll_well_formed; [|exact H].
    eapply submit_all_well_formed; eauto.
  - intros H. injection H as <- <-. eapply submit_all_well_formed; eauto.
Qed.

Lemma later_well_formed budget st st' :
  later budget st st' -> well_formed st -> well_formed st'.
Proof.
  induction 1 as [st | st u st1 st' Hc _ IH]; intros Hwf; [assumption|].
  apply IH. eapply cycle_well_formed; eauto.
Qed.

Lemma NoDup_initial_log_groups names :
  List.NoDup (keys (initial_log_groups env names)).
Proof.
  unfold initial_log_groups.
  assert (H : forall d : dict (Z * Z),
             List.NoDup (keys d) ->
             List.NoDup
               (keys (fold_left
                        (fun d log_group =>
                           set log_group
                             (Config.start_timestamp (GitLab.config env),
                              Config.limit_timestamp (GitLab.config env)) d)
                        names d))).
  { induction names as [|name names IH]; intros d Hd; simpl; [assumption|].
    apply IH. now apply DictFacts.NoDup_keys_set. }
  apply H. constructor.
Qed.

(** The loop starts in a well-formed state, and so it stays. *)
Lemma well_formed_start names (st : state W) :
  well_formed (with_queries (with_log_groups st (initial_log_groups env names)) []).
Proof.
  split; [apply NoDup_initial_log_groups|].
  split; [constructor | intros k _ []].
Qed.

End Facts.

End CloudWatchFacts.


(** C9.  Whatever [__handle_query_results] does on a list of rows, what it
    adds to the queue is, row by row and in the order of the rows, one
    message under the label of the error logs whose document has the four
    keys loggroup, account, timestamp and author_id: the first three with
    the values of the transformed row, the last with what the blame
    correlation returned for it.  No document has a message key.  When the
    handler returns, there is one message for every row. *)
Theorem message_stripping :
  forall (W : Type) (env : GitLab.env) (account_name : string) (budget : nat)
         (results : list Models.ErrorLog.row) (log_group : string)
         (st st' : CloudWatch.state W) (r : Py.res unit),
    CloudWatch.handle_query_results env account_name budget results log_group st
    = Some (r, st') ->
    exists sent,
      CloudWatch.queue st' = CloudWatch.queue st ++ sent
      /\ Forall2 (Rounds.queued_for env account_name budget log_group)
           (firstn (length sent) results) sent
      /\ Forall (fun m =>
                   exists doc,
                     m = (Some Models.ErrorLog.LABEL, Some doc)
                     /\ Py.keys doc
                        = ["loggroup"; "account"; "timestamp"; "author_id"]
                     /\ Py.get "message" doc = None) sent
      /\ (forall u, r = Py.Ret u -> length sent = length results).
Proof.
  intros W env account_name budget results log_group st st' r H.
  destruct (CloudWatchFacts.handle_query_results_queue
              env account_name budget results log_group st r st' H)
    as (sent & Hq & Hs & Hlen).
  exists sent. split; [exact Hq|]. split; [exact Hs|]. split; [|exact Hlen].
  clear Hq Hlen. induction Hs as [|result m results' sent' Hm _ IH].
  - constructor.
  - constructor; [|exact IH].
    destruct Hm as (lg & ts & msg & author & c & c' & _ & _ & ->).
    eexists. split; [reflexivity|]. split; reflexivity.
Qed.

(** The theorem on the row of a crash in [handle]: the message on the
    queue carries the hash of alice and no message text. *)
Lemma message_stripping_witness :
  exists r st',
    CloudWatch.handle_query_results Remote.env "production" 8
      [Service.crash_row] "/aws/lambda/orders" (Service.state_of [] [])
    = Some (r, st')
    /\ exists sent,
         CloudWatch.queue st' = [] ++ sent
         /\ Forall (fun m =>
                      exists doc,
                        m = (Some Models.ErrorLog.LABEL, Some doc)
                        /\ Py.keys doc
                           = ["loggroup"; "account"; "timestamp"; "author_id"]
                        /\ Py.get "message" doc = None) sent
         /\ (forall u, r = Py.Ret u -> length sent = 1).
Proof.
  destruct (CloudWatch.handle_query_results Remote.env "production" 8
              [Service.crash_row] "/aws/lambda/orders" (Service.state_of [] []))
    as [[r st']|] eqn:H; [|vm_compute in H; discriminate].
  exists r, st'. split; [reflexivity|].
  destruct (message_stripping nat Remote.env "production" 8
              [Service.crash_row] "/aws/lambda/orders" (Service.state_of [] [])
              st' r H) as (sent & Hq & _ & Hdocs & Hlen).
  exists sent. split; [exact Hq|]. split; [exact Hdocs | exact Hlen].
Defined.

Example queued_error_log :
  option_map (fun out => (fst out, CloudWatch.queue (snd out)))
    (CloudWatch.handle_query_results Remote.env "production" 8
       [Service.crash_row] "/aws/lambda/orders" (Service.state_of [] []))
  = Some (Py.Ret tt,
          [(Some "errorlog",
            Some [("loggroup", Py.VStr (Models.LogGroup.hash_name
                                          "/aws/lambda/orders"));
                  ("account", Py.VStr "production");
                  ("timestamp", Py.VInt 1680000000);
                  ("author_id", Py.VStr (Models.User.hash_id "alice"))])]).
Proof. vm_compute. reflexivity. Qed.

(** C3.  The polling loop is at the entry [(log_group, query)] of the
    queries in flight, finds the query complete, and the handler returns on
    its rows.  If there are [QUERY_LIMIT] rows or more, the log group is
    pending again after the poll, from the time stamp of the last row to the
    limit time stamp of the configuration, and its query is no longer in
    flight.  If there are fewer, the pending log groups are what they were
    before the poll, and the query is no longer in flight. *)
Theorem sliding_window_resubmission :
  forall (W : Type) (aws : CloudWatch.service W) (env : GitLab.env)
         (account_name : string) (budget : nat) (log_group query : string)
         (st : CloudWatch.state W) (i : nat)
         (results : list Models.ErrorLog.row)
         (w' : W) (u : unit) (st1 : CloudWatch.state W),
    nth_error (CloudWatch.queries st) i = Some (log_group, query) ->
    CloudWatch.get_query_results aws (CloudWatch.world st) query
    = (CloudWatch.ResultsOk "Complete" results, w') ->
    CloudWatch.handle_query_results env account_name budget results log_group
      (CloudWatch.with_world st w') = Some (Py.Ret u, st1) ->
    ((CloudWatch.QUERY_LIMIT <= Z.of_nat (length results))%Z ->
     exists row timestamp st2,
       CloudWatch.last_row results = Py.Ret row
       /\ Models.ErrorLog.query_result_transform_timestamp
            (GitLab.clock env) row = Py.Ret timestamp
       /\ CloudWatch.poll_query aws env account_name budget log_group query st
          = Some (Py.Ret tt, st2)
       /\ CloudWatch.log_groups st2
          = Py.set log_group
              (timestamp, Config.limit_timestamp (GitLab.config env))
              (CloudWatch.log_groups st)
       /\ Py.get log_group (CloudWatch.log_groups st2)
          = Some (timestamp, Config.limit_timestamp (GitLab.config env))
       /\ CloudWatch.queries st2
          = Py.remove log_group (CloudWatch.queries st))
    /\ ((Z.of_nat (length results) < CloudWatch.QUERY_LIMIT)%Z ->
        exists st2,
          CloudWatch.poll_query aws env account_name budget log_group query st
          = Some (Py.Ret tt, st2)
          /\ CloudWatch.log_groups st2 = CloudWatch.log_groups st
          /\ CloudWatch.queries st2
             = Py.remove log_group (CloudWatch.queries st)).
Proof.
  intros W aws env account_name budget log_group query st i results w' u st1
         Hentry Hget Hhandle.
  apply DictFacts.nth_error_key in Hentry.
  destruct (CloudWatchFacts.poll_query_complete aws env account_name budget
              log_group query st results w' u st1 Hentry Hget Hhandle)
    as [Hfull Hshort].
  split; intros Hlen.
  - destruct (Hfull Hlen) as (row & timestamp & Hrow & Hts & Hpoll).
    eexists row, timestamp, _.
    split; [exact Hrow|]. split; [exact Hts|]. split; [exact Hpoll|].
    split; [reflexivity|]. split; [apply DictFacts.get_set | reflexivity].
  - eexists. split; [exact (Hshort Hlen)|]. split; reflexivity.
Qed.

(** The theorem on a query that returned [QUERY_LIMIT] rows of
    2023-03-28 10:40:00: the log group is pending again from that
    instant. *)
Lemma sliding_window_resubmission_witness :
  exists st2,
    CloudWatch.poll_query Service.aws Remote.env "production" 8
      "/aws/lambda/orders" "full"
      (Service.state_of [] [("/aws/lambda/orders", "full")])
    = Some (Py.Ret tt, st2)
    /\ CloudWatch.log_groups st2
       = [("/aws/lambda/orders", (1680000000, 1703980800)%Z)]
    /\ CloudWatch.queries st2 = [].
Proof.
  destruct (CloudWatchFacts.handle_query_results_repeat Remote.env "production"
              8 (Z.to_nat CloudWatch.QUERY_LIMIT) Service.timeout_row
              "/aws/lambda/orders"
              (CloudWatch.with_world
                 (Service.state_of [] [("/aws/lambda/orders", "full")]) 1)
              [("loggroup", Py.VStr (Models.LogGroup.hash_name
                                       "/aws/lambda/orders"));
               ("account", Py.VStr "production");
               ("timestamp", Py.VInt 1680000000);
               ("message", Py.VStr "[ERROR] Task timed out after 3.00 seconds")]
              None)
    as (st1 & Hhandle & _);
    [vm_compute; reflexivity | vm_compute; reflexivity |].
  destruct (sliding_window_resubmission nat Service.aws Remote.env "production"
              8 "/aws/lambda/orders" "full"
              (Service.state_of [] [("/aws/lambda/orders", "full")]) 0
              (repeat Service.timeout_row (Z.to_nat CloudWatch.QUERY_LIMIT))
              1 tt st1 eq_refl eq_refl Hhandle) as [Hfull _].
  destruct Hfull as (row & timestamp & st2 & Hrow & Hts & Hpoll & Hlg & _ & Hq).
  - rewrite repeat_length. rewrite Z2Nat.id; [lia | discriminate].
  - rewrite CloudWatchFacts.last_row_repeat in Hrow
      by (unfold CloudWatch.QUERY_LIMIT; lia).
    injection Hrow as <-.
    vm_compute in Hts. injection Hts as <-.
    exists st2. split; [exact Hpoll|]. split; [exact Hlg | exact Hq].
Defined.

(** C4.  After a round of the loop that neither raised nor ran out of
    budget, the loop exits there exactly when no log group is pending and
    no query is in flight; otherwise it goes into the next round.  However
    many rounds it takes, when the loop returns both dictionaries are
    empty. *)
Theorem query_loop_exit_condition :
  forall (W : Type) (aws : CloudWatch.service W) (env : GitLab.env)
         (account_name : string) (budget : nat)
         (st st1 : CloudWatch.state W) (u : unit),
    CloudWatch.cycle aws env account_name budget st = Some (Py.Ret u, st1) ->
    (CloudWatch.query_loop aws env account_name 1 budget st
     = Some (Py.Ret tt, st1)
     <-> CloudWatch.log_groups st1 = [] /\ CloudWatch.queries st1 = [])
    /\ (CloudWatch.log_groups st1 = [] /\ CloudWatch.queries st1 = [] ->
        forall rounds,
          CloudWatch.query_loop aws env account_name (S rounds) budget st
          = Some (Py.Ret tt, st1))
    /\ (~ (CloudWatch.log_groups st1 = [] /\ CloudWatch.queries st1 = []) ->
        forall rounds,
          CloudWatch.query_loop aws env account_name (S rounds) budget st
          = CloudWatch.query_loop aws env account_name rounds budget st1)
    /\ (forall rounds u' st',
          CloudWatch.query_loop aws env account_name rounds budget st
          = Some (Py.Ret u', st') ->
          CloudWatch.log_groups st' = [] /\ CloudWatch.queries st' = []).
Proof.
  intros W aws env account_name budget st st1 u Hc.
  pose proof (CloudWatchFacts.finished_spec st1) as Hf.
  split; [|split; [|split]].
  - simpl. rewrite Hc. destruct (CloudWatch.finished st1).
    + split; [intros _; now apply Hf | reflexivity].
    + split; [discriminate | intros H; apply Hf in H; discriminate].
  - intros H rounds. simpl. rewrite Hc. apply Hf in H. now rewrite H.
  - intros H rounds. simpl. rewrite Hc.
    destruct (CloudWatch.finished st1); [|reflexivity].
    exfalso. apply H. now apply Hf.
  - intros rounds u' st'. apply CloudWatchFacts.query_loop_returns_finished.
Qed.

(** The theorem on a round that completes the only query: the loop exits
    after it. *)
Lemma query_loop_exit_condition_witness :
  exists st1,
    CloudWatch.cycle Service.aws Remote.env "production" 8
      (Service.state_of [] [("/aws/lambda/orders", "short")])
    = Some (Py.Ret tt, st1)
    /\ CloudWatch.query_loop Service.aws Remote.env "production" 1 8
         (Service.state_of [] [("/aws/lambda/orders", "short")])
       = Some (Py.Ret tt, st1).
Proof.
  destruct (CloudWatch.cycle Service.aws Remote.env "production" 8
              (Service.state_of [] [("/aws/lambda/orders", "short")]))
    as [[[[] | ex] st1]|] eqn:Hc;
    [| vm_compute in Hc; discriminate | vm_compute in Hc; discriminate].
  exists st1. split; [reflexivity|].
  destruct (query_loop_exit_condition nat Service.aws Remote.env "production" 8
              (Service.state_of [] [("/aws/lambda/orders", "short")]) st1 tt Hc)
    as (_ & Hexit & _ & _).
  apply Hexit.
  assert (Hst : (CloudWatch.log_groups st1, CloudWatch.queries st1) = ([], [])).
  { assert (H : option_map
                  (fun out => (CloudWatch.log_groups (snd out),
                               CloudWatch.queries (snd out)))
                  (CloudWatch.cycle Service.aws Remote.env "production" 8
                     (Service.state_of [] [("/aws/lambda/orders", "short")]))
                = Some ([], [])) by (vm_compute; reflexivity).
    rewrite Hc in H. simpl in H. injection H as -> ->. reflexivity. }
  injection Hst as -> ->. split; reflexivity.
Defined.

(** C6.  The first pending log group is submitted and the service answers
    with a client error.
    - Limit exceeded: nothing else is submitted in this round and the
      pending log groups stay as they are; after the polling of the round
      the log group is still first in line, so the next round submits it
      again; and as long as the service keeps answering so, the loop never
      returns, however many rounds it runs.
    - Resource not found, in a state where no log group is at once pending
      and in flight or listed twice (the loop starts in such a state and
      stays in such states): the round goes on with the other pending log
      groups; from the end of the round on, the log group is neither
      pending nor in flight, in every later round.
    - Any other code: the submission raises the client error, and so does
      the loop. *)
Theorem submission_error_classification :
  forall (W : Type) (aws : CloudWatch.service W) (env : GitLab.env)
         (account_name : string) (budget : nat) (st : CloudWatch.state W)
         (log_group : string) (start limit : Z) (rest : Py.dict (Z * Z))
         (code : string) (w' : W),
    CloudWatch.log_groups st = (log_group, (start, limit)) :: rest ->
    CloudWatch.start_query aws (CloudWatch.world st) log_group start limit
    = (CloudWatch.StartFailed code, w') ->
    (code = "LimitExceededException" ->
     CloudWatch.submit_all aws st = (Py.Ret tt, CloudWatch.with_world st w')
     /\ (forall r st',
            CloudWatch.cycle aws env account_name budget st = Some (r, st') ->
            Rounds.first_pending log_group st')
     /\ ((forall w s l,
             fst (CloudWatch.start_query aws w log_group s l)
             = CloudWatch.StartFailed "LimitExceededException") ->
         forall rounds u st',
           CloudWatch.query_loop aws env account_name rounds budget st
           <> Some (Py.Ret u, st')))
    /\ (code = "ResourceNotFoundException" ->
        Rounds.well_formed st ->
        CloudWatch.submit_all aws st
        = CloudWatch.submit_all aws
            (CloudWatch.Build_state rest (CloudWatch.queries st)
               (CloudWatch.queue st) (CloudWatch.gitlab st) w')
        /\ forall r st1,
             CloudWatch.cycle aws env account_name budget st = Some (r, st1) ->
             forall st',
               Rounds.later aws env account_name budget st1 st' ->
               Rounds.dropped log_group st')
    /\ (code <> "LimitExceededException" ->
        code <> "ResourceNotFoundException" ->
        CloudWatch.submit_all aws st
        = (Py.Raise (Py.ClientError code), CloudWatch.with_world st w')
        /\ forall rounds,
             CloudWatch.query_loop aws env account_name (S rounds) budget st
             = Some (Py.Raise (Py.ClientError code),
                     CloudWatch.with_world st w')).
Proof.
  intros W aws env account_name budget st log_group start limit rest code w'
         Hlg Hs.
  split; [|split].
  - intros ->.
    assert (Hsub : CloudWatch.submit_all aws st
                   = (Py.Ret tt, CloudWatch.with_world st w')).
    { unfold CloudWatch.submit_all, CloudWatch.with_world. rewrite Hlg.
      now rewrite (CloudWatchFacts.submit_limit_reached aws _ _ _ _ _ _ _ Hs). }
    split; [exact Hsub|]. split.
    + intros r st'. now apply (CloudWatchFacts.cycle_limit_reached
                                 aws env account_name budget log_group
                                 start limit rest st w').
    + intros Hlimit rounds.
      apply CloudWatchFacts.query_loop_limit_reached with (log_group := log_group);
        [exact Hlimit|]. now exists (start, limit), rest.
  - intros -> (Hnodup & _ & Hdisjoint).
    assert (Hq : ~ In log_group (Py.keys (CloudWatch.queries st))).
    { apply Hdisjoint. rewrite Hlg. simpl. auto. }
    assert (Hsub : CloudWatch.submit_all aws st
                   = CloudWatch.submit_all aws
                       (CloudWatch.Build_state rest (CloudWatch.queries st)
                          (CloudWatch.queue st) (CloudWatch.gitlab st) w')).
    { unfold CloudWatch.submit_all. rewrite Hlg.
      rewrite (CloudWatchFacts.submit_not_found aws _ _ _ _ _ _ _ Hs).
      reflexivity. }
    split; [exact Hsub|].
    intros r st1 Hc st' Hlater.
    apply (CloudWatchFacts.later_dropped aws env account_name budget
             log_group st1 st' Hlater).
    unfold CloudWatch.cycle in Hc. rewrite Hsub in Hc.
    apply (CloudWatchFacts.cycle_dropped aws env account_name budget log_group
             (CloudWatch.Build_state rest (CloudWatch.queries st)
                (CloudWatch.queue st) (CloudWatch.gitlab st) w') r st1);
      [|exact Hc].
    split; simpl; [|exact Hq].
    rewrite Hlg in Hnodup. simpl in Hnodup. apply NoDup_cons_iff in Hnodup.
    tauto.
  - intros Hl Hn.
    assert (Hsub : CloudWatch.submit_all aws st
                   = (Py.Raise (Py.ClientError code),
                      CloudWatch.with_world st w')).
    { unfold CloudWatch.submit_all, CloudWatch.with_world. rewrite Hlg.
      now rewrite (CloudWatchFacts.submit_other_error aws _ _ _ _ _ _ _ _
                     Hs Hl Hn). }
    split; [exact Hsub|].
    intros rounds. simpl. unfold CloudWatch.cycle. now rewrite Hsub.
Qed.

(** The theorem on a log group that meets the limit (it stays pending and
    nothing else is submitted) and on one whose submission is denied (the
    loop raises). *)
Lemma submission_error_classification_witness :
  (forall r st1,
      CloudWatch.cycle Service.aws Remote.env "production" 8
        (Service.state_of
           [("/aws/lambda/missing", Service.window);
            ("/aws/lambda/orders", Service.window)] [])
      = Some (r, st1) ->
      Rounds.dropped "/aws/lambda/missing" st1)
  /\ CloudWatch.submit_all Service.aws
    (Service.state_of
       [("/aws/lambda/limited", Service.window);
        ("/aws/lambda/orders", Service.window)] [])
  = (Py.Ret tt,
     CloudWatch.with_world
       (Service.state_of
          [("/aws/lambda/limited", Service.window);
           ("/aws/lambda/orders", Service.window)] []) 1)
  /\ CloudWatch.query_loop Service.aws Remote.env "production" 1 8
       (Service.state_of
          [("/aws/lambda/denied", Service.window);
           ("/aws/lambda/orders", Service.window)] [])
     = Some (Py.Raise (Py.ClientError "AccessDeniedException"),
             CloudWatch.with_world
               (Service.state_of
                  [("/aws/lambda/denied", Service.window);
                   ("/aws/lambda/orders", Service.window)] []) 1).
Proof.
  split; [|split].
  - intros r st1 Hc.
    destruct (submission_error_classification nat Service.aws Remote.env
                "production" 8
                (Service.state_of
                   [("/aws/lambda/missing", Service.window);
                    ("/aws/lambda/orders", Service.window)] [])
                "/aws/lambda/missing" 1672531200 1703980800
                [("/aws/lambda/orders", Service.window)]
                "ResourceNotFoundException" 1 eq_refl eq_refl)
      as (_ & Hmissing & _).
    destruct (Hmissing eq_refl) as [_ Hdropped].
    + split; [|split].
      * repeat constructor; simpl; intuition discriminate.
      * constructor.
      * intros k _ [].
    + apply (Hdropped r st1 Hc st1). apply Rounds.later_now.
  - apply (submission_error_classification nat Service.aws Remote.env
             "production" 8
             (Service.state_of
                [("/aws/lambda/limited", Service.window);
                 ("/aws/lambda/orders", Service.window)] [])
             "/aws/lambda/limited" 1672531200 1703980800
             [("/aws/lambda/orders", Service.window)]
             "LimitExceededException" 1 eq_refl eq_refl).
    reflexivity.
  - apply (submission_error_classification nat Service.aws Remote.env
             "production" 8
             (Service.state_of
                [("/aws/lambda/denied", Service.window);
                 ("/aws/lambda/orders", Service.window)] [])
             "/aws/lambda/denied" 1672531200 1703980800
             [("/aws/lambda/orders", Service.window)]
             "AccessDeniedException" 1 eq_refl eq_refl);
      discriminate.
Defined.

(** A log group that the service does not know is submitted once. *)
Example missing_log_group_is_dropped :
  option_map
    (fun out => (fst out, CloudWatch.log_groups (snd out),
                 CloudWatch.queries (snd out), CloudWatch.world (snd out)))
    (CloudWatch.cycle Service.aws Remote.env "production" 8
       (Service.state_of
          [("/aws/lambda/missing", Service.window);
           ("/aws/lambda/orders", Service.window)] []))
  = Some (Py.Ret tt, [],
          [("/aws/lambda/orders", "query of /aws/lambda/orders")], 3).
Proof. vm_compute. reflexivity. Qed.

(* ===================================================================== *)
(** * The extractor of one account, from start to end *)
(* ===================================================================== *)

Module ExtractorFacts.

Import Py CloudWatch Rounds Records Bounds.

Section Facts.

Context {W : Type}.
Variable aws : service W.
Variable env : GitLab.env.
Variable account_name : string.

Lemma queued_for_error_log budget log_group result m :
  queued_for env account_name budget log_group result m -> error_log m.
Proof.
  intros (lg & ts & msg & author & c & c' & _ & _ & ->).
  now exists lg, account_name, ts, (author_value author).
Qed.

(** ** What reaches the queue *)

Lemma handle_query_results_logs budget results log_group (st : state W) r st' :
  handle_query_results env account_name budget results log_group st
  = Some (r, st') ->
  exists sent, queue st' = queue st ++ sent /\ Forall error_log sent.
Proof.
  intros H.
  destruct (CloudWatchFacts.handle_query_results_queue
              env account_name _ _ _ _ _ _ H) as (sent & Hq & Hs & _).
  exists sent. split; [exact Hq|].
  remember (firstn (length sent) results) as rows eqn:E. clear E.
  clear Hq. induction Hs as [|row m rows sent' Hm _ IH]; [constructor|].
  constructor; [exact (queued_for_error_log _ _ _ _ Hm) | exact IH].
Qed.

Lemma pop_query_frame log_group (st : state W) r st' :
  pop_query log_group st = Some (r, st') ->
  queue st' = queue st /\ gitlab st' = gitlab st /\ world st' = world st
  /\ log_groups st' = log_groups st.
Proof.
  unfold pop_query. destruct (pop log_group (queries st));
    intros H; injection H as <- <-; auto.
Qed.

Lemma poll_query_logs budget log_group query (st : state W) r st' :
  poll_query aws env account_name budget log_group query st = Some (r, st') ->
  exists sent, queue st' = queue st ++ sent /\ Forall error_log sent.
Proof.
  assert (Hnone : forall st0 : state W,
             queue st0 = queue st ->
             exists sent, queue st0 = queue st ++ sent /\ Forall error_log sent).
  { intros st0 ->. exists []. now rewrite app_nil_r. }
  unfold poll_query.
  destruct (get_results aws (world st) query) as [[polled|ex] w'].
  - destruct polled as [results| |].
    + destruct (handle_query_results env account_name budget results
                  log_group (with_world st w')) as [[[u|ex] st1]|] eqn:Hh;
        [| |discriminate].
      * apply handle_query_results_logs in Hh. simpl in Hh.
        destruct (QUERY_LIMIT <=? Z.of_nat (length results))%Z.
        -- destruct (let* row := last_row results in
                     Models.ErrorLog.query_result_transform_timestamp
                       (GitLab.clock env) row) as [ts|ex].
           ++ intros H. apply pop_query_frame in H as (Hq & _).
              simpl in Hq. rewrite Hq. exact Hh.
           ++ intros H. injection H as <- <-. exact Hh.
        -- intros H. apply pop_query_frame in H as (Hq & _).
           rewrite Hq. exact Hh.
      * apply handle_query_results_logs in Hh. simpl in Hh.
        intros H. injection H as <- <-. exact Hh.
    + intros H. injection H as <- <-. now apply Hnone.
    + intros H. injection H as <- <-. now apply Hnone.
  - intros H. injection H as <- <-. now apply Hnone.
Qed.

Lemma logs_trans (q0 q1 q2 : list message) :
  (exists sent, q1 = q0 ++ sent /\ Forall error_log sent) ->
  (exists sent, q2 = q1 ++ sent /\ Forall error_log sent) ->
  exists sent, q2 = q0 ++ sent /\ Forall error_log sent.
Proof.
  intros (s1 & -> & H1) (s2 & -> & H2). exists (s1 ++ s2).
  rewrite app_assoc. split; [reflexivity|]. now apply Forall_app.
Qed.

Lemma logs_refl (q : list message) :
  exists sent, q = q ++ sent /\ Forall error_log sent.
Proof. exists []. now rewrite app_nil_r. Qed.

Lemma poll_logs budget n (st : state W) r st' :
  poll aws env account_name budget n st = Some (r, st') ->
  exists sent, queue st' = queue st ++ sent /\ Forall error_log sent.
Proof.
  revert st. induction n as [|i IH]; intros st; simpl.
  - intros H. injection H as <- <-. apply logs_refl.
  - destruct (nth_error (queries st) i) as [[lg query]|];
      [|intros H; injection H as <- <-; apply logs_refl].
    destruct (poll_query aws env account_name budget lg query st)
      as [[[u|ex] st1]|] eqn:Hp; [| |discriminate].
    + intros H. eapply logs_trans; [eapply poll_query_logs; eauto|].
      now apply IH.
    + intros H. injection H as <- <-. eapply poll_query_logs; eauto.
Qed.

Lemma submit_all_frame (st : state W) r st' :
  submit_all aws st = (r, st') ->
  queue st' = queue st /\ gitlab st' = gitlab st.
Proof.
  unfold submit_all.
  destruct (submit aws (log_groups st) (queries st) (world st))
    as [r0 [[pending running] w]].
  intros H. injection H as <- <-. auto.
Qed.

Lemma cycle_logs budget (st : state W) r st' :
  cycle aws env account_name budget st = Some (r, st') ->
  exists sent, queue st' = queue st ++ sent /\ Forall error_log sent.
Proof.
  unfold cycle. destruct (submit_all aws st) as [[u|ex] st1] eqn:Hs;
    apply submit_all_frame in Hs as [Hq _].
  - intros H. apply poll_logs in H. now rewrite Hq in H.
  - intros H. injection H as <- <-. rewrite Hq. apply logs_refl.
Qed.

Lemma query_loop_logs rounds budget (st : state W) r st' :
  query_loop aws env account_name rounds budget st = Some (r, st') ->
  exists sent, queue st' = queue st ++ sent /\ Forall error_log sent.
Proof.
  revert st. induction rounds as [|rounds IH]; intros st; simpl;
    [discriminate|].
  destruct (cycle aws env account_name budget st) as [[[u|ex] st1]|] eqn:Hc;
    [| |discriminate]; apply cycle_logs in Hc.
  - destruct (finished st1).
    + intros H. injection H as <- <-. exact Hc.
    + intros H. eapply logs_trans; [exact Hc | now apply IH].
  - intros H. injection H as <- <-. exact Hc.
Qed.

Lemma add_loggroups_effect (st : state W) :
  add_loggroups env account_name st
  = Build_state (log_groups st) (queries st)
      (queue st
       ++ map (fun mapping =>
                 (Some Models.LogGroup.LABEL,
                  Some (Models.LogGroup.transform_mapping
                          (fst mapping) (snd mapping) account_name)))
            (Config.log_group_mappings (GitLab.config env)))
      (gitlab st) (world st).
Proof.
  unfold add_loggroups, Config.get_log_group_mappings.
  generalize (Config.log_group_mappings (GitLab.config env)).
  intros mappings. revert st.
  induction mappings as [|mapping mappings IH]; intros st; simpl.
  - rewrite app_nil_r. now destruct st.
  - rewrite IH. unfold put. simpl. now rewrite <- app_assoc.
Qed.

(** ** The log groups of the configuration *)

Lemma existsb_eqb_In name (seen : list string) :
  existsb (String.eqb name) seen = true <-> In name seen.
Proof.
  rewrite existsb_exists. split.
  - intros (x & Hx & E). now apply String.eqb_eq in E as ->.
  - intros H. exists name. split; [assumption | apply String.eqb_refl].
Qed.

Lemma keys_fold_set (names : list string) (v : Z * Z) (d : dict (Z * Z)) :
  keys (fold_left (fun d log_group => set log_group v d) names d)
  = keys d ++ first_occurrences (keys d) names.
Proof.
  revert d. induction names as [|name names IH]; intros d; simpl.
  - now rewrite app_nil_r.
  - rewrite IH. destruct (existsb (String.eqb name) (keys d)) eqn:E.
    + apply existsb_eqb_In in E. now rewrite DictFacts.keys_set_old.
    + assert (Hout : ~ In name (keys d)).
      { intros H. apply existsb_eqb_In in H. congruence. }
      rewrite DictFacts.keys_set_new by assumption.
      now rewrite <- app_assoc.
Qed.

Lemma in_set {V} k (v : V) d k' v' :
  In (k', v') (set k v d) -> (k', v') = (k, v) \/ In (k', v') d.
Proof.
  induction d as [|[k0 v0] d IH]; simpl.
  - intros [H | []]. now left.
  - destruct (String.eqb k k0); simpl.
    + intros [H | H]; auto.
    + intros [H | H]; auto. destruct (IH H); auto.
Qed.

Lemma values_fold_set (names : list string) (v : Z * Z) (d : dict (Z * Z)) k x :
  In (k, x) (fold_left (fun d log_group => set log_group v d) names d) ->
  x = v \/ In (k, x) d.
Proof.
  revert d. induction names as [|name names IH]; intros d; simpl; [auto|].
  intros H. destruct (IH _ H) as [-> | H']; [now left|].
  apply in_set in H' as [E | H']; [left; congruence | now right].
Qed.

Lemma in_first_occurrences seen names x :
  In x (first_occurrences seen names) <-> In x names /\ ~ In x seen.
Proof.
  revert seen. induction names as [|name names IH]; intros seen; simpl.
  - tauto.
  - destruct (existsb (String.eqb name) seen) eqn:E.
    + apply existsb_eqb_In in E. rewrite IH. split.
      * intros [H1 H2]. auto.
      * intros [[-> | H1] H2]; [contradiction | auto].
    + assert (Hout : ~ In name seen).
      { intros H. apply existsb_eqb_In in H. congruence. }
      simpl. rewrite IH. rewrite in_app_iff. simpl. split.
      * intros [-> | [H1 H2]]; [auto | tauto].
      * intros [[-> | H1] H2]; [now left|].
        destruct (string_dec name x) as [-> | Hne]; [now left | right].
        split; [assumption | tauto].
Qed.

(** ** Bounds that the loop keeps *)

Lemma submit_pending pending running w r pending' running' w' :
  submit aws pending running w = (r, (pending', running', w')) ->
  forall entry, In entry pending' -> In entry pending.
Proof.
  revert running w.
  induction pending as [|[lg [start limit]] rest IH]; intros running w; simpl.
  - intros H. injection H as <- <- <- <-. auto.
  - destruct (start_error_query aws w lg start limit) as [[started|ex] w1].
    + destruct started as [query| |].
      * intros H entry Hin. right. eapply IH; eauto.
      * intros H. injection H as <- <- <- <-. auto.
      * intros H entry Hin. right. eapply IH; eauto.
    + intros H. injection H as <- <- <- <-. auto.
Qed.

Lemma submit_all_within names limit (st : state W) r st' :
  within names limit st -> submit_all aws st = (r, st') ->
  within names limit st'.
Proof.
  intros [Hk Hr]. unfold submit_all.
  destruct (submit aws (log_groups st) (queries st) (world st))
    as [r0 [[pending running] w]] eqn:Hs.
  intros H. injection H as <- <-.
  destruct (CloudWatchFacts.submit_keys aws _ _ _ _ _ _ _ Hs) as [Hp Hq].
  pose proof (submit_pending _ _ _ _ _ _ _ Hs) as Hsuffix.
  split; simpl.
  - intros k [H | H]; apply Hk; [left; now apply Hp|].
    destruct (Hq k H); auto.
  - intros k range H. apply (Hr k). now apply Hsuffix.
Qed.

Lemma poll_query_within names limit budget lg query (st : state W) r st' :
  limit = Config.limit_timestamp (GitLab.config env) ->
  In lg (keys (queries st)) ->
  within names limit st ->
  poll_query aws env account_name budget lg query st = Some (r, st') ->
  within names limit st'.
Proof.
  intros -> Hin [Hk Hr].
  assert (Hsame : forall st0 : state W,
             log_groups st0 = log_groups st -> queries st0 = queries st ->
             within names (Config.limit_timestamp (GitLab.config env)) st0).
  { intros st0 H1 H2. split; rewrite H1; [rewrite H2|]; assumption. }
  assert (Hpop : forall (st0 : state W) r0 st1,
             within names (Config.limit_timestamp (GitLab.config env)) st0 ->
             pop_query lg st0 = Some (r0, st1) ->
             within names (Config.limit_timestamp (GitLab.config env)) st1).
  { intros st0 r0 st1 [Hk0 Hr0]. unfold pop_query, pop.
    destruct (get lg (queries st0)); intros H; injection H as <- <-;
      split; simpl; auto.
    intros k [H | H]; apply Hk0; [now left | right].
    eapply DictFacts.keys_remove; eauto. }
  unfold poll_query.
  destruct (get_results aws (world st) query) as [[polled|ex] w'].
  - destruct polled as [results| |].
    + destruct (handle_query_results env account_name budget results
                  lg (with_world st w')) as [[[u|ex] st1]|] eqn:Hh;
        [| |discriminate];
        destruct (CloudWatchFacts.handle_query_results_frame
                    env account_name _ _ _ _ _ _ Hh) as (Hlg & Hq & _);
        simpl in Hlg, Hq.
      * destruct (QUERY_LIMIT <=? Z.of_nat (length results))%Z.
        -- destruct (let* row := last_row results in
                     Models.ErrorLog.query_result_transform_timestamp
                       (GitLab.clock env) row) as [ts|ex].
           ++ apply Hpop. split; simpl; rewrite Hlg; [rewrite Hq|].
              ** intros k [H | H]; [|apply Hk; now right].
                 apply DictFacts.keys_set in H as [-> | H]; apply Hk; auto.
              ** intros k range H. apply in_set in H as [E | H];
                   [injection E as _ ->; reflexivity | now apply (Hr k)].
           ++ intros H. injection H as <- <-. now apply Hsame.
        -- apply Hpop. now apply Hsame.
      * intros H. injection H as <- <-. now apply Hsame.
    + intros H. injection H as <- <-. now apply Hsame.
    + intros H. injection H as <- <-. now apply Hsame.
  - intros H. injection H as <- <-. now apply Hsame.
Qed.

Lemma poll_within names limit budget n (st : state W) r st' :
  limit = Config.limit_timestamp (GitLab.config env) ->
  within names limit st ->
  poll aws env account_name budget n st = Some (r, st') ->
  within names limit st'.
Proof.
  intros Hlimit. revert st. induction n as [|i IH]; intros st Hw; simpl.
  - intros H. now injection H as <- <-.
  - destruct (nth_error (queries st) i) as [[lg query]|] eqn:E;
      [|intros H; now injection H as <- <-].
    apply DictFacts.nth_error_key in E.
    destruct (poll_query aws env account_name budget lg query st)
      as [[[u|ex] st1]|] eqn:Hp; [| |discriminate].
    + apply IH. eapply poll_query_within; eauto.
    + intros H. injection H as <- <-. eapply poll_query_within; eauto.
Qed.

Lemma cycle_within names limit budget (st : state W) r st' :
  limit = Config.limit_timestamp (GitLab.config env) ->
  within names limit st ->
  cycle aws env account_name budget st = Some (r, st') ->
  within names limit st'.
Proof.
  intros Hlimit Hw. unfold cycle.
  destruct (submit_all aws st) as [[u|ex] st1] eqn:Hs.
  - intros H. eapply poll_within; [exact Hlimit | | exact H].
    eapply submit_all_within; eauto.
  - intros H. injection H as <- <-. eapply submit_all_within; eauto.
Qed.

Lemma later_within names limit budget st st' :
  limit = Config.limit_timestamp (GitLab.config env) ->
  Rounds.later aws env account_name budget st st' ->
  within names limit st -> within names limit st'.
Proof.
  intros Hlimit. induction 1 as [st | st u st1 st' Hc _ IH]; intros Hw;
    [assumption|].
  apply IH. eapply cycle_within; eauto.
Qed.

Lemma within_start names (st : state W) :
  within names (Config.limit_timestamp (GitLab.config env))
    (with_queries (with_log_groups st (initial_log_groups env names)) []).
Proof.
  split; simpl.
  - intros k [H | []]. unfold initial_log_groups in H.
    rewrite keys_fold_set in H. simpl in H.
    now apply in_first_occurrences in H as [H _].
  - intros k range H. unfold initial_log_groups in H.
    apply values_fold_set in H as [-> | []]. reflexivity.
Qed.

(** ** A service without errors on record *)

Lemma length_remove {V} k (d : dict V) :
  In k (keys d) -> S (length (remove k d)) = length d.
Proof.
  induction d as [|[k0 v0] d IH]; simpl; [tauto|].
  destruct (String.eqb k k0) eqn:E; [reflexivity|].
  apply String.eqb_neq in E. intros [H | H]; [congruence|].
  simpl. now rewrite (IH H).
Qed.

Lemma submit_accepting pending running w :
  (forall w log_group start limit,
      exists query w',
        start_query aws w log_group start limit = (StartOk query, w')) ->
  exists running' w',
    submit aws pending running w = (Ret tt, ([], running', w')).
Proof.
  intros Hok. revert running w.
  induction pending as [|[lg [start limit]] rest IH]; intros running w; simpl.
  - eauto.
  - unfold start_error_query.
    destruct (Hok w lg start limit) as (query & w1 & ->). apply IH.
Qed.

Lemma poll_quiet budget n (st : state W) :
  (forall w query,
      exists w', get_query_results aws w query = (ResultsOk "Complete" [], w')) ->
  length (queries st) = n ->
  exists st',
    poll aws env account_name budget n st = Some (Ret tt, st')
    /\ queries st' = [] /\ log_groups st' = log_groups st
    /\ queue st' = queue st /\ gitlab st' = gitlab st.
Proof.
  intros Hquiet. revert st. induction n as [|i IH]; intros st Hlen; simpl.
  - exists st. repeat split; auto. now apply length_zero_iff_nil.
  - destruct (nth_error (queries st) i) as [[lg query]|] eqn:E.
    + pose proof (DictFacts.nth_error_key _ _ _ _ E) as Hin.
      unfold poll_query, get_results.
      destruct (Hquiet (world st) query) as [w' ->]. simpl.
      rewrite CloudWatchFacts.pop_query_effect by exact Hin.
      destruct (IH (with_queries (with_world st w')
                      (remove lg (queries (with_world st w')))))
        as (st' & Hp & H1 & H2 & H3 & H4).
      { simpl. pose proof (length_remove lg (queries st) Hin). lia. }
      exists st'. split; [exact Hp|]. auto.
    + apply nth_error_None in E. lia.
Qed.

End Facts.

End ExtractorFacts.

(** X1.  Whatever way a run of the extractor of one account ends (it
    returns or it raises), what it has put on the queue is, in this order:
    the record of the account (name and region), one record for every
    mapping of the configuration (the hashed name of the log group, the
    project, the account), and then error logs only. *)
Theorem extract_queue_order :
  forall (W : Type) (aws : CloudWatch.service W) (env : GitLab.env)
         (account_name account_region : string) (rounds budget : nat)
         (st st' : CloudWatch.state W) (r : Py.res unit),
    CloudWatch.extract aws env account_name account_region rounds budget st
    = Some (r, st') ->
    exists logs,
      CloudWatch.queue st'
      = CloudWatch.queue st
        ++ (Some "account",
            Some [("name", Py.VStr account_name);
                  ("region", Py.VStr account_region)])
        :: map (fun mapping =>
                  (Some "loggroup",
                   Some [("name",
                          Py.VStr (Models.LogGroup.hash_name (fst mapping)));
                         ("project_id", Py.VInt (snd mapping));
                         ("account", Py.VStr account_name)]))
             (Config.log_group_mappings (GitLab.config env))
        ++ logs
      /\ Forall Records.error_log logs.
Proof.
  intros W aws env account_name account_region rounds budget st st' r.
  unfold CloudWatch.extract, CloudWatch.query_logs.
  rewrite ExtractorFacts.add_loggroups_effect.
  intros H. apply ExtractorFacts.query_loop_logs in H as (logs & Hq & Hlogs).
  simpl in Hq. exists logs. split; [|exact Hlogs].
  rewrite Hq. rewrite <- !app_assoc. reflexivity.
Qed.

(** The theorem on the account "production" with one log group, against a
    service that completes the query at the second poll. *)
Lemma extract_queue_order_witness :
  exists r st' logs,
    CloudWatch.extract Service.steady Remote.env "production" "eu-central-1"
      4 8 (Service.state_of [] [])
    = Some (r, st')
    /\ CloudWatch.queue st'
       = (Some "account",
          Some [("name", Py.VStr "production");
                ("region", Py.VStr "eu-central-1")])
         :: (Some "loggroup",
             Some [("name",
                    Py.VStr (Models.LogGroup.hash_name "/aws/lambda/orders"));
                   ("project_id", Py.VInt 7);
                   ("account", Py.VStr "production")])
         :: logs
    /\ Forall Records.error_log logs.
Proof.
  destruct (CloudWatch.extract Service.steady Remote.env "production"
              "eu-central-1" 4 8 (Service.state_of [] []))
    as [[r st']|] eqn:E; [|vm_compute in E; discriminate].
  destruct (extract_queue_order nat Service.steady Remote.env "production"
              "eu-central-1" 4 8 (Service.state_of [] []) st' r E)
    as (logs & Hq & Hlogs).
  exists r, st', logs. split; [reflexivity|]. split; [exact Hq | exact Hlogs].
Defined.

(** X2.  What a poll does with the answer of the service.  While the
    query is scheduled or running, and when the service throttles the call,
    the poll returns and leaves the two dictionaries, the queue and the memo
    table as they are: the query stays in flight.  A query in any other
    status than complete raises [CloudWatchError] with that status, and a
    client error other than throttling is raised again; when such a query
    is the last of the queries in flight and no log group is pending, the
    loop ends with that exception. *)
Theorem poll_status_classification :
  forall (W : Type) (aws : CloudWatch.service W) (env : GitLab.env)
         (account_name : string) (budget : nat) (log_group query : string)
         (st : CloudWatch.state W) (reply : CloudWatch.results_response)
         (w' : W),
    CloudWatch.get_query_results aws (CloudWatch.world st) query
    = (reply, w') ->
    let ends_with ex :=
      CloudWatch.poll_query aws env account_name budget log_group query st
      = Some (Py.Raise ex, CloudWatch.with_world st w')
      /\ (CloudWatch.log_groups st = [] ->
          nth_error (CloudWatch.queries st)
            (length (CloudWatch.queries st) - 1) = Some (log_group, query) ->
          forall rounds,
            CloudWatch.query_loop aws env account_name (S rounds) budget st
            = Some (Py.Raise ex, CloudWatch.with_world st w')) in
    (forall status rows,
        reply = CloudWatch.ResultsOk status rows ->
        status = "Scheduled" \/ status = "Running" ->
        CloudWatch.poll_query aws env account_name budget log_group query st
        = Some (Py.Ret tt, CloudWatch.with_world st w'))
    /\ (reply = CloudWatch.ResultsFailed "ThrottlingException" ->
        CloudWatch.poll_query aws env account_name budget log_group query st
        = Some (Py.Ret tt, CloudWatch.with_world st w'))
    /\ (forall status rows,
           reply = CloudWatch.ResultsOk status rows ->
           status <> "Complete" -> status <> "Scheduled" ->
           status <> "Running" ->
           ends_with (Py.CloudWatchError status))
    /\ (forall code,
           reply = CloudWatch.ResultsFailed code ->
           code <> "ThrottlingException" ->
           ends_with (Py.ClientError code)).
Proof.
  intros W aws env account_name budget log_group query st reply w' Hget.
  assert (Hloop : forall ex,
             CloudWatch.poll_query aws env account_name budget log_group
               query st
             = Some (Py.Raise ex, CloudWatch.with_world st w') ->
             CloudWatch.log_groups st = [] ->
             nth_error (CloudWatch.queries st)
               (length (CloudWatch.queries st) - 1) = Some (log_group, query) ->
             forall rounds,
               CloudWatch.query_loop aws env account_name (S rounds) budget st
               = Some (Py.Raise ex, CloudWatch.with_world st w')).
  { intros ex Hp Hlg Hlast rounds. simpl.
    unfold CloudWatch.cycle, CloudWatch.submit_all. rewrite Hlg. simpl.
    assert (Hst : CloudWatch.Build_state [] (CloudWatch.queries st)
                    (CloudWatch.queue st) (CloudWatch.gitlab st)
                    (CloudWatch.world st) = st).
    { destruct st; simpl in *; now subst. }
    rewrite Hst.
    destruct (length (CloudWatch.queries st)) as [|i] eqn:Hlen.
    - destruct (CloudWatch.queries st); discriminate.
    - simpl. replace (S i - 1) with i in Hlast by lia.
      rewrite Hlast, Hp. reflexivity. }
  cbv zeta.
  split; [|split; [|split]].
  - intros status rows -> Hs.
    unfold CloudWatch.poll_query, CloudWatch.get_results. rewrite Hget.
    destruct Hs as [-> | ->]; reflexivity.
  - intros ->.
    unfold CloudWatch.poll_query, CloudWatch.get_results. now rewrite Hget.
  - intros status rows -> Hc Hs Hr.
    assert (Hp : CloudWatch.poll_query aws env account_name budget log_group
                   query st
                 = Some (Py.Raise (Py.CloudWatchError status),
                         CloudWatch.with_world st w')).
    { unfold CloudWatch.poll_query, CloudWatch.get_results. rewrite Hget.
      apply String.eqb_neq in Hc, Hs, Hr. now rewrite Hc, Hs, Hr. }
    split; [exact Hp | now apply Hloop].
  - intros code -> Hc.
    assert (Hp : CloudWatch.poll_query aws env account_name budget log_group
                   query st
                 = Some (Py.Raise (Py.ClientError code),
                         CloudWatch.with_world st w')).
    { unfold CloudWatch.poll_query, CloudWatch.get_results. rewrite Hget.
      apply String.eqb_neq in Hc. now rewrite Hc. }
    split; [exact Hp | now apply Hloop].
Qed.

(** The theorem on a query that the service reports as cancelled: the
    poll raises, and so does the loop. *)
Lemma poll_status_classification_witness :
  CloudWatch.poll_query Service.flaky Remote.env "production" 8
    "/aws/lambda/orders" "cancelled"
    (Service.state_of [] [("/aws/lambda/orders", "cancelled")])
  = Some (Py.Raise (Py.CloudWatchError "Cancelled"),
          CloudWatch.with_world
            (Service.state_of [] [("/aws/lambda/orders", "cancelled")]) 1)
  /\ CloudWatch.query_loop Service.flaky Remote.env "production" 1 8
       (Service.state_of [] [("/aws/lambda/orders", "cancelled")])
     = Some (Py.Raise (Py.CloudWatchError "Cancelled"),
             CloudWatch.with_world
               (Service.state_of [] [("/aws/lambda/orders", "cancelled")]) 1).
Proof.
  destruct (poll_status_classification nat Service.flaky Remote.env
              "production" 8 "/aws/lambda/orders" "cancelled"
              (Service.state_of [] [("/aws/lambda/orders", "cancelled")])
              (CloudWatch.ResultsOk "Cancelled" []) 1 eq_refl)
    as (_ & _ & Hbad & _).
  destruct (Hbad "Cancelled" [] eq_refl) as [Hp Hloop];
    [discriminate | discriminate | discriminate |].
  split; [exact Hp | exact (Hloop eq_refl eq_refl 0)].
Defined.

(** X3.  The pending dictionary that [__query_logs] starts from has the
    log groups of its argument as keys, each once, in the order of their
    first occurrence, and gives every one of them the window from the start
    time stamp to the limit time stamp of the configuration. *)
Theorem initial_log_groups_once :
  forall (env : GitLab.env) (names : list string),
    Py.keys (CloudWatch.initial_log_groups env names)
    = Records.first_occurrences [] names
    /\ List.NoDup (Py.keys (CloudWatch.initial_log_groups env names))
    /\ (forall name,
           In name names <->
           Py.get name (CloudWatch.initial_log_groups env names)
           = Some (Config.start_timestamp (GitLab.config env),
                   Config.limit_timestamp (GitLab.config env))).
Proof.
  intros env names.
  assert (Hkeys : Py.keys (CloudWatch.initial_log_groups env names)
                  = Records.first_occurrences [] names).
  { unfold CloudWatch.initial_log_groups.
    now rewrite ExtractorFacts.keys_fold_set. }
  split; [exact Hkeys|].
  split; [apply CloudWatchFacts.NoDup_initial_log_groups|].
  intros name. split.
  - intros Hin.
    assert (Hk : In name (Py.keys (CloudWatch.initial_log_groups env names))).
    { rewrite Hkeys. apply ExtractorFacts.in_first_occurrences. auto. }
    apply DictFacts.get_key in Hk as [range Hget]. rewrite Hget. f_equal.
    assert (Hmem : In (name, range) (CloudWatch.initial_log_groups env names)).
    { clear -Hget.
      induction (CloudWatch.initial_log_groups env names) as [|[k v] d IH];
        [discriminate|].
      simpl in Hget. destruct (String.eqb name k) eqn:E.
      - apply String.eqb_eq in E as ->. injection Hget as ->. now left.
      - right. now apply IH. }
    unfold CloudWatch.initial_log_groups in Hmem.
    now apply ExtractorFacts.values_fold_set in Hmem as [-> | []].
  - intros Hget.
    assert (Hk : In name (Py.keys (CloudWatch.initial_log_groups env names))).
    { apply DictFacts.get_key. eauto. }
    rewrite Hkeys in Hk. now apply ExtractorFacts.in_first_occurrences in Hk.
Qed.

(** X4.  From the start of [__query_logs] on and after any number of
    rounds of its loop: no log group is listed twice or is at once pending
    and in flight, every log group that is pending or in flight is one of
    those the loop was started with, and every pending window ends at the
    limit time stamp of the configuration. *)
Theorem query_loop_bounds :
  forall (W : Type) (aws : CloudWatch.service W) (env : GitLab.env)
         (account_name : string) (budget : nat) (names : list string)
         (st st' : CloudWatch.state W),
    Rounds.later aws env account_name budget
      (CloudWatch.with_queries
         (CloudWatch.with_log_groups st
            (CloudWatch.initial_log_groups env names)) []) st' ->
    List.NoDup (Py.keys (CloudWatch.log_groups st'))
    /\ List.NoDup (Py.keys (CloudWatch.queries st'))
    /\ (forall k, In k (Py.keys (CloudWatch.log_groups st')) ->
                  ~ In k (Py.keys (CloudWatch.queries st')))
    /\ (forall k,
           In k (Py.keys (CloudWatch.log_groups st'))
           \/ In k (Py.keys (CloudWatch.queries st')) ->
           In k names)
    /\ (forall k range,
           In (k, range) (CloudWatch.log_groups st') ->
           snd range = Config.limit_timestamp (GitLab.config env)).
Proof.
  intros W aws env account_name budget names st st' Hlater.
  pose proof (CloudWatchFacts.later_well_formed aws env account_name budget
                _ _ Hlater (CloudWatchFacts.well_formed_start env names st))
    as (H1 & H2 & H3).
  pose proof (ExtractorFacts.later_within aws env account_name names _ budget
                _ _ eq_refl Hlater (ExtractorFacts.within_start env names st))
    as [H4 H5].
  auto.
Qed.

(** The theorem after the first round against the service that keeps the
    query running: the log group is in flight, nothing is pending. *)
Lemma query_loop_bounds_witness :
  exists st',
    Rounds.later Service.steady Remote.env "production" 8
      (CloudWatch.with_queries
         (CloudWatch.with_log_groups (Service.state_of [] [])
            (CloudWatch.initial_log_groups Remote.env
               ["/aws/lambda/orders"; "/aws/lambda/orders"])) []) st'
    /\ CloudWatch.log_groups st' = []
    /\ Py.keys (CloudWatch.queries st') = ["/aws/lambda/orders"]
    /\ (forall k,
           In k (Py.keys (CloudWatch.log_groups st'))
           \/ In k (Py.keys (CloudWatch.queries st')) ->
           In k ["/aws/lambda/orders"; "/aws/lambda/orders"]).
Proof.
  eexists. split; [|split; [|split]].
  - eapply Rounds.later_round; [|apply Rounds.later_now].
    vm_compute. reflexivity.
  - reflexivity.
  - reflexivity.
  - intros k Hk.
    refine (proj1 (proj2 (proj2 (proj2
              (query_loop_bounds nat Service.steady Remote.env "production" 8
                 ["/aws/lambda/orders"; "/aws/lambda/orders"]
                 (Service.state_of [] []) _ _)))) k Hk).
    eapply Rounds.later_round; [|apply Rounds.later_now].
    vm_compute. reflexivity.
Defined.

(** X5.  Against a service that accepts every query and has every query
    complete without a row, the extractor of an account returns after the
    first round of its loop: every configured log group has been queried,
    nothing is pending or in flight any more, and what it has put on the
    queue is the record of the account and the records of the log
    groups. *)
Theorem extract_without_errors :
  forall (W : Type) (aws : CloudWatch.service W) (env : GitLab.env)
         (account_name account_region : string) (rounds budget : nat)
         (st : CloudWatch.state W),
    (forall w log_group start limit,
        exists query w',
          CloudWatch.start_query aws w log_group start limit
          = (CloudWatch.StartOk query, w')) ->
    (forall w query,
        exists w',
          CloudWatch.get_query_results aws w query
          = (CloudWatch.ResultsOk "Complete" [], w')) ->
    exists st',
      CloudWatch.extract aws env account_name account_region (S rounds)
        budget st
      = Some (Py.Ret tt, st')
      /\ CloudWatch.log_groups st' = [] /\ CloudWatch.queries st' = []
      /\ CloudWatch.gitlab st' = CloudWatch.gitlab st
      /\ CloudWatch.queue st'
         = CloudWatch.queue st
           ++ (Some "account",
               Some [("name", Py.VStr account_name);
                     ("region", Py.VStr account_region)])
           :: map (fun mapping =>
                     (Some "loggroup",
                      Some [("name",
                             Py.VStr (Models.LogGroup.hash_name (fst mapping)));
                            ("project_id", Py.VInt (snd mapping));
                            ("account", Py.VStr account_name)]))
                (Config.log_group_mappings (GitLab.config env)).
Proof.
  intros W aws env account_name account_region rounds budget st Hstart Hpoll.
  unfold CloudWatch.extract, CloudWatch.query_logs.
  rewrite ExtractorFacts.add_loggroups_effect.
  cbn [CloudWatch.query_loop]. unfold CloudWatch.cycle, CloudWatch.submit_all.
  cbn [CloudWatch.log_groups CloudWatch.queries CloudWatch.world
       CloudWatch.with_queries CloudWatch.with_log_groups
       CloudWatch.queue CloudWatch.gitlab CloudWatch.add_account
       CloudWatch.put].
  destruct (ExtractorFacts.submit_accepting aws
              (CloudWatch.initial_log_groups env
                 (Config.log_groups (GitLab.config env)))
              [] (CloudWatch.world st) Hstart) as (running & w1 & ->).
  match goal with
  | |- context [CloudWatch.poll _ _ _ _ _ ?s] =>
      destruct (ExtractorFacts.poll_quiet aws env account_name budget
                  (length running) s Hpoll eq_refl)
        as (st' & Hp & Hq & Hlg & Hqueue & Hg)
  end.
  cbn [CloudWatch.queries] in Hp |- *. rewrite Hp.
  cbn in Hlg, Hqueue, Hg.
  unfold CloudWatch.finished. rewrite Hlg, Hq.
  exists st'. split; [reflexivity|]. repeat split; try assumption.
  rewrite Hqueue. now rewrite <- app_assoc.
Qed.

(** The theorem on the account "production" against a service without
    errors on record. *)
Lemma extract_without_errors_witness :
  exists st',
    CloudWatch.extract Service.quiet Remote.env "production" "eu-central-1"
      1 8 (Service.state_of [] [])
    = Some (Py.Ret tt, st')
    /\ CloudWatch.queue st'
       = [(Some "account",
           Some [("name", Py.VStr "production");
                 ("region", Py.VStr "eu-central-1")]);
          (Some "loggroup",
           Some [("name",
                  Py.VStr (Models.LogGroup.hash_name "/aws/lambda/orders"));
                 ("project_id", Py.VInt 7);
                 ("account", Py.VStr "production")])].
Proof.
  destruct (extract_without_errors nat Service.quiet Remote.env "production"
              "eu-central-1" 0 8 (Service.state_of [] []))
    as (st' & He & _ & _ & _ & Hq).
  - intros w log_group start limit. eexists _, _. reflexivity.
  - intros w query. eexists. reflexivity.
  - exists st'. split; [exact He | exact Hq].
Defined.

(* ===================================================================== *)
(** * More of database/database.py *)
(* ===================================================================== *)

Module StoreFacts.

Import Py Database Writer.

#[local] Arguments Nat.leb : simpl never.
#[local] Arguments Database.insert : simpl never.

Lemma documents_for_app label a b :
  documents_for label (a ++ b) = documents_for label a ++ documents_for label b.
Proof.
  induction a as [|[[l|] [d|]] a IH]; simpl; try assumption; [reflexivity|].
  destruct (String.eqb l label); simpl; now rewrite IH.
Qed.

Lemma listen_loop_app db a b db' :
  listen_loop db a = Waiting db' ->
  listen_loop db (a ++ b) = listen_loop db' b.
Proof.
  revert db. induction a as [|[[l|] d] a IH]; intros db; simpl.
  - intros H. now injection H as ->.
  - destruct (insert db l d) as [[id|ex] db1]; [apply IH | discriminate].
  - discriminate.
Qed.

(** One insertion behind the middleware: the write stays in the cache
    until it is the thousandth since the last flush. *)
Lemma insert_cached db label doc :
  cached db = true -> consistent db ->
  In label Models.TYPE_LABELS ->
  cache_modified_count db < WRITE_CACHE_SIZE ->
  exists id db',
    insert db label (Some doc) = (Ret id, db')
    /\ cached db' = true /\ consistent db'
    /\ (forall label',
           table (read db') label'
           = table (read db) label'
             ++ (if String.eqb label label' then [doc] else []))
    /\ (S (cache_modified_count db) < WRITE_CACHE_SIZE ->
        cache_modified_count db' = S (cache_modified_count db)
        /\ file db' = file db)
    /\ (S (cache_modified_count db) = WRITE_CACHE_SIZE ->
        cache_modified_count db' = 0 /\ file db' = read db').
Proof.
  intros Hcached Hc Hl Hcount.
  unfold insert. rewrite (DatabaseFacts.known_label label Hl).
  eexists _, _. split; [reflexivity|].
  assert (Htable : forall label',
             table (<[label := table (read db) label ++ [doc]]> (read db))
               label'
             = table (read db) label'
               ++ (if String.eqb label label' then [doc] else [])).
  { intros label'. rewrite DatabaseFacts.table_insert.
    destruct (String.eqb label label') eqn:E.
    - apply String.eqb_eq in E as ->. reflexivity.
    - now rewrite app_nil_r. }
  unfold write. rewrite Hcached. cbn [cache_modified_count].
  destruct (Nat.leb_spec WRITE_CACHE_SIZE (S (cache_modified_count db)))
    as [Hfull | Hroom].
  - unfold flush. cbn. unfold consistent, read. cbn.
    repeat split; try assumption; try reflexivity; try lia.
  - unfold consistent, read. cbn.
    repeat split; try assumption; try reflexivity; try lia; try discriminate.
Qed.

(** The writer behind the middleware, on record messages only. *)
Lemma listen_loop_cached file msgs :
  Forall record_message msgs ->
  exists db',
    listen_loop (open true file) msgs = Waiting db'
    /\ cached db' = true /\ consistent db'
    /\ (forall label,
           table (read db') label
           = table file label ++ documents_for label msgs)
    /\ forall k r,
         length msgs = k * WRITE_CACHE_SIZE + r -> r < WRITE_CACHE_SIZE ->
         cache_modified_count db' = r
         /\ forall label,
              table (Database.file db') label
              = table file label
                ++ documents_for label (firstn (k * WRITE_CACHE_SIZE) msgs).
Proof.
  induction msgs as [|m msgs IH] using rev_ind; intros Hmsgs.
  - exists (open true file). split; [reflexivity|].
    split; [reflexivity|]. split; [reflexivity|].
    split; [intros label; now rewrite app_nil_r|].
    intros k r Hlen Hr. simpl in Hlen. split; [simpl; lia|].
    intros label. rewrite firstn_nil. simpl. now rewrite app_nil_r.
  - apply Forall_app in Hmsgs as [Hmsgs Hm].
    apply Forall_inv in Hm. destruct Hm as (label & d & -> & Hl).
    destruct (IH Hmsgs) as (db1 & Hrun & Hcached & Hc & Hread & Hfile).
    pose proof (Nat.div_mod_eq (length msgs) WRITE_CACHE_SIZE) as Hdiv.
    pose proof (Nat.mod_upper_bound (length msgs) WRITE_CACHE_SIZE) as Hmod.
    set (k0 := length msgs / WRITE_CACHE_SIZE) in *.
    set (r0 := length msgs mod WRITE_CACHE_SIZE) in *.
    assert (Hr0 : r0 < WRITE_CACHE_SIZE) by (apply Hmod; discriminate).
    assert (Hn : length msgs = k0 * WRITE_CACHE_SIZE + r0)
      by (rewrite Nat.mul_comm; exact Hdiv).
    clearbody k0 r0. clear Hdiv Hmod.
    destruct (Hfile k0 r0 Hn Hr0) as [Hcount Hfile0].
    destruct (insert_cached db1 label d Hcached Hc Hl)
      as (id & db2 & Hi & Hcached2 & Hc2 & Hread2 & Hroom & Hfull);
      [rewrite Hcount; exact Hr0|].
    exists db2. split.
    { rewrite (listen_loop_app _ _ _ _ Hrun). simpl. now rewrite Hi. }
    split; [exact Hcached2|]. split; [exact Hc2|]. split.
    { intros label'. rewrite Hread2, Hread, documents_for_app, <- app_assoc.
      simpl. destruct (String.eqb label label'); reflexivity. }
    intros k r Hlen Hr. rewrite length_app in Hlen. simpl in Hlen.
    rewrite Hcount in Hroom, Hfull.
    destruct (Nat.lt_ge_cases (S r0) WRITE_CACHE_SIZE) as [Hlt | Hge].
    + destruct (Hroom Hlt) as [Hc2' Hf2].
      assert (k = k0 /\ r = S r0) as [-> ->]
        by (unfold WRITE_CACHE_SIZE in *; lia).
      split; [exact Hc2'|]. intros label'. rewrite Hf2, Hfile0.
      rewrite firstn_app.
      replace (k0 * WRITE_CACHE_SIZE - length msgs) with 0
        by (unfold WRITE_CACHE_SIZE in *; lia).
      now rewrite firstn_0, app_nil_r.
    + assert (Heq : S r0 = WRITE_CACHE_SIZE)
        by (unfold WRITE_CACHE_SIZE in *; lia).
      destruct (Hfull Heq) as [Hc2' Hf2].
      assert (k = S k0 /\ r = 0) as [-> ->]
        by (unfold WRITE_CACHE_SIZE in *; lia).
      split; [exact Hc2'|]. intros label'. rewrite Hf2, Hread2, Hread.
      rewrite firstn_all2
        by (rewrite length_app; simpl; unfold WRITE_CACHE_SIZE in *; lia).
      rewrite documents_for_app, <- app_assoc. simpl.
      destruct (String.eqb label label'); reflexivity.
Qed.

(** Without the middleware every write is a write to the file. *)
Lemma listen_loop_uncached db msgs :
  cached db = false -> cache db = None ->
  Forall record_message msgs ->
  exists db',
    listen_loop db msgs = Waiting db'
    /\ cached db' = false /\ cache db' = None
    /\ forall label,
         table (Database.file db') label
         = table (Database.file db) label ++ documents_for label msgs.
Proof.
  intros Hcached Hcache Hmsgs. revert db Hcached Hcache.
  induction Hmsgs as [|m msgs Hm _ IH]; intros db Hcached Hcache.
  - exists db. repeat split; auto. intros label. now rewrite app_nil_r.
  - destruct Hm as (label & d & -> & Hl). simpl.
    unfold insert. rewrite (DatabaseFacts.known_label label Hl).
    unfold write, read. rewrite Hcached, Hcache.
    match goal with
    | |- context [listen_loop ?d msgs] =>
        destruct (IH d eq_refl eq_refl) as (db' & Hrun & H1 & H2 & H3)
    end.
    exists db'. split; [exact Hrun|]. split; [exact H1|]. split; [exact H2|].
    intros label'. rewrite H3. cbn [Database.file].
    rewrite DatabaseFacts.table_insert.
    destruct (String.eqb label label') eqn:E.
    + apply String.eqb_eq in E as ->. now rewrite <- app_assoc.
    + reflexivity.
Qed.

(** The loop on a run of record messages, whatever follows them. *)
Lemma listen_loop_prefix db pre rest :
  consistent db -> Forall record_message pre ->
  exists db',
    listen_loop db (pre ++ rest) = listen_loop db' rest
    /\ consistent db'
    /\ forall label,
         table (read db') label
         = table (read db) label ++ documents_for label pre.
Proof.
  intros Hc Hpre. revert db Hc.
  induction Hpre as [|m pre Hm _ IH]; intros db Hc.
  - exists db. simpl. split; [reflexivity|]. split; [assumption|].
    intros label. now rewrite app_nil_r.
  - destruct Hm as (label & d & -> & Hl).
    destruct (DatabaseFacts.insert_known db label d Hc Hl)
      as (id & db1 & Hi & Hc1 & Ht).
    destruct (IH db1 Hc1) as (db' & Hrun & Hc' & Ht').
    exists db'. simpl. rewrite Hi. split; [exact Hrun|].
    split; [assumption|].
    intros label'. rewrite Ht', Ht, <- app_assoc.
    destruct (String.eqb label label'); reflexivity.
Qed.

(** ** Truncating tables *)

Lemma truncate_effect db label :
  consistent db ->
  consistent (truncate db label)
  /\ forall label',
       table (read (truncate db label)) label'
       = if String.eqb label label' then [] else table (read db) label'.
Proof.
  intros Hc. unfold truncate. split.
  - now apply DatabaseFacts.consistent_write.
  - intros label'. rewrite DatabaseFacts.read_write by assumption.
    apply DatabaseFacts.table_insert.
Qed.

Lemma truncate_all db labels :
  consistent db ->
  consistent (fold_left truncate labels db)
  /\ forall label,
       table (read (fold_left truncate labels db)) label
       = if existsb (String.eqb label) labels then []
         else table (read db) label.
Proof.
  revert db. induction labels as [|l labels IH]; intros db Hc; simpl.
  - auto.
  - destruct (truncate_effect db l Hc) as [Hc1 Ht].
    destruct (IH _ Hc1) as [Hc2 Ht2]. split; [exact Hc2|].
    intros label. rewrite Ht2, Ht. rewrite (String.eqb_sym label l).
    destruct (existsb (String.eqb label) labels);
      [now rewrite orb_true_r|].
    rewrite orb_false_r. reflexivity.
Qed.

Lemma truncate_uncached db labels :
  cached db = false -> cache db = None ->
  cached (fold_left truncate labels db) = false
  /\ cache (fold_left truncate labels db) = None.
Proof.
  revert db. induction labels as [|l labels IH]; intros db H1 H2; simpl.
  - auto.
  - apply IH; unfold truncate, write; rewrite H1; simpl; auto.
Qed.

(** ** Loading instances *)

Lemma instances_app cls docs doc :
  instances cls (docs ++ [doc])
  = let* earlier := instances cls docs in
    let* last := Models.construct cls doc in
    Ret (earlier ++ [last]).
Proof.
  induction docs as [|d docs IH]; simpl.
  - destruct (Models.construct cls doc); reflexivity.
  - destruct (Models.construct cls d) as [i|ex]; simpl; [|reflexivity].
    rewrite IH. destruct (instances cls docs) as [loaded|ex]; simpl;
      [|reflexivity].
    destruct (Models.construct cls doc); reflexivity.
Qed.

Lemma class_label label cls :
  get label Models.TYPE_MAP = Some cls -> In label Models.TYPE_LABELS.
Proof.
  intros H. change Models.TYPE_LABELS with (keys Models.TYPE_MAP).
  apply DictFacts.get_key. eauto.
Qed.

End StoreFacts.

(** X6.  Behind the caching middleware the file lags behind the writer:
    after [k] times [WRITE_CACHE_SIZE] record messages and [r] more, with
    [r] below [WRITE_CACHE_SIZE], the writer waits for the next message,
    [r] writes are in the buffer, a read sees the documents of all
    messages, and the file holds those of the first [k] times
    [WRITE_CACHE_SIZE] messages only.  Without the middleware the file
    holds the documents of all messages. *)
Theorem writer_cache_cadence :
  forall (file : Database.content) (msgs : list Py.message) (k r : nat),
    Forall Writer.record_message msgs ->
    length msgs = k * Database.WRITE_CACHE_SIZE + r ->
    r < Database.WRITE_CACHE_SIZE ->
    (exists db',
        Database.initiate_process file msgs true = Database.Waiting db'
        /\ Database.cache_modified_count db' = r
        /\ (forall label,
               Database.table (Database.read db') label
               = Database.table file label
                 ++ Writer.documents_for label msgs)
        /\ (forall label,
               Database.table (Database.file db') label
               = Database.table file label
                 ++ Writer.documents_for label
                      (firstn (k * Database.WRITE_CACHE_SIZE) msgs)))
    /\ (exists db',
           Database.initiate_process file msgs false = Database.Waiting db'
           /\ forall label,
                Database.table (Database.file db') label
                = Database.table file label
                  ++ Writer.documents_for label msgs).
Proof.
  intros file msgs k r Hmsgs Hlen Hr. split.
  - destruct (StoreFacts.listen_loop_cached file msgs Hmsgs)
      as (db' & Hrun & _ & _ & Hread & Hfile).
    destruct (Hfile k r Hlen Hr) as [Hcount Hfile'].
    exists db'. unfold Database.initiate_process, Database.listen.
    rewrite Hrun. auto.
  - destruct (StoreFacts.listen_loop_uncached (Database.open false file) msgs
                eq_refl eq_refl Hmsgs) as (db' & Hrun & _ & _ & Hfile).
    exists db'. unfold Database.initiate_process, Database.listen.
    rewrite Hrun. auto.
Qed.

(** The theorem on a thousand and one users written into an empty store
    behind the middleware: the file has the first thousand, the last one is
    in the buffer. *)
Lemma writer_cache_cadence_witness :
  exists db',
    Database.initiate_process Database.blank
      (repeat (Some "user", Some [("id", Py.VStr "1cb2cf62")]) 1001) true
    = Database.Waiting db'
    /\ Database.cache_modified_count db' = 1
    /\ length (Database.table (Database.read db') "user") = 1001
    /\ length (Database.table (Database.file db') "user") = 1000.
Proof.
  destruct (writer_cache_cadence Database.blank
              (repeat (Some "user", Some [("id", Py.VStr "1cb2cf62")]) 1001)
              1 1) as [(db' & Hrun & Hcount & Hread & Hfile) _].
  - apply Forall_forall. intros m Hm.
    apply list_elem_of_In, repeat_spec in Hm as ->.
    eexists _, _. split; [reflexivity|]. simpl. tauto.
  - rewrite repeat_length. reflexivity.
  - unfold Database.WRITE_CACHE_SIZE. lia.
  - exists db'. split; [exact Hrun|]. split; [exact Hcount|].
    rewrite Hread, Hfile. split; vm_compute; reflexivity.
Defined.

(** X7.  A message that the writer cannot insert ends it with an
    exception: [KeyError] when its label has no table, [ValueError] when
    the label has a table and the document is none.  The messages after it
    stay on the queue.  Leaving the loop this way closes the store as
    well: the documents of the record messages received before are in the
    file and no write is left in the buffer. *)
Theorem writer_crash_flushes :
  forall (cached : bool) (file : Database.content)
         (pre rest : list Py.message) (label : string)
         (doc : option Database.document),
    Forall Writer.record_message pre ->
    ~ In label Models.TYPE_LABELS \/ doc = None ->
    exists db',
      Database.initiate_process file (pre ++ (Some label, doc) :: rest) cached
      = Database.Crashed
          (if existsb (String.eqb label) Models.TYPE_LABELS
           then Py.ValueError "Document is not a Mapping"
           else Py.KeyError label)
          db' rest
      /\ (forall label',
             Database.table (Database.file db') label'
             = Database.table file label'
               ++ Writer.documents_for label' pre)
      /\ Database.closed db' = true
      /\ Database.cache_modified_count db' = 0.
Proof.
  intros cached file pre rest label doc Hpre Hbad.
  destruct (StoreFacts.listen_loop_prefix (Database.open cached file) pre
              ((Some label, doc) :: rest)
              (DatabaseFacts.consistent_open cached file) Hpre)
    as (db1 & Hrun & Hc & Ht).
  destruct (DatabaseFacts.close_flushes db1 Hc) as (Hfile & Hclosed & Hcount).
  exists (Database.close db1).
  unfold Database.initiate_process, Database.listen. rewrite Hrun.
  assert (Hinsert : Database.insert db1 label doc
                    = (Py.Raise
                         (if existsb (String.eqb label) Models.TYPE_LABELS
                          then Py.ValueError "Document is not a Mapping"
                          else Py.KeyError label), db1)).
  { unfold Database.insert.
    destruct (existsb (String.eqb label) Models.TYPE_LABELS) eqn:E;
      [|reflexivity].
    destruct Hbad as [Hbad | ->]; [|reflexivity].
    exfalso. apply Hbad. apply existsb_exists in E as (l & Hl & E).
    now apply String.eqb_eq in E as ->. }
  cbn [Database.listen_loop]. rewrite Hinsert.
  split; [reflexivity|]. split; [|split; assumption].
  intros label'. rewrite Hfile. apply Ht.
Qed.

(** The theorem on a message for a table that does not exist, after one
    user and before another. *)
Lemma writer_crash_flushes_witness :
  exists db',
    Database.initiate_process Database.blank
      ([(Some "user", Some [("id", Py.VStr "1cb2cf62")])]
       ++ (Some "sprint", Some [("id", Py.VInt 3)])
       :: [(Some "user", Some [("id", Py.VStr "bf5ba0ab")])]) true
    = Database.Crashed (Py.KeyError "sprint") db'
        [(Some "user", Some [("id", Py.VStr "bf5ba0ab")])]
    /\ Database.table (Database.file db') "user"
       = [[("id", Py.VStr "1cb2cf62")]]
    /\ Database.closed db' = true.
Proof.
  destruct (writer_crash_flushes true Database.blank
              [(Some "user", Some [("id", Py.VStr "1cb2cf62")])]
              [(Some "user", Some [("id", Py.VStr "bf5ba0ab")])]
              "sprint" (Some [("id", Py.VInt 3)]))
    as (db' & Hrun & Ht & Hclosed & _).
  - repeat constructor; eexists _, _; (split; [reflexivity|]); simpl; tauto.
  - left. simpl. intros H.
    repeat (destruct H as [H | H]; [discriminate|]). exact H.
  - exists db'. split; [exact Hrun|]. split; [|exact Hclosed].
    rewrite (Ht "user"). reflexivity.
Defined.

(** X8.  [clear] of a source that [SOURCE_MAP] has empties the tables of
    that source and leaves every other table as it is; without the
    middleware this is so in the file at once.  A source that
    [SOURCE_MAP] does not have raises [KeyError] and changes nothing.
    Clearing the three sources one after the other leaves every table of
    [TYPE_MAP] empty. *)
Theorem clear_source :
  forall (db : Database.t) (source : string),
    Writer.consistent db ->
    (forall labels,
        Py.get source Models.SOURCE_MAP = Some labels ->
        exists db',
          Database.clear db source = (Py.Ret tt, db')
          /\ Writer.consistent db'
          /\ (forall label,
                 Database.table (Database.read db') label
                 = if existsb (String.eqb label) labels then []
                   else Database.table (Database.read db) label)
          /\ (Database.cached db = false -> Database.cache db = None ->
              Database.read db' = Database.file db'))
    /\ (Py.get source Models.SOURCE_MAP = None ->
        Database.clear db source = (Py.Raise (Py.KeyError source), db))
    /\ (forall label,
           In label Models.TYPE_LABELS ->
           Database.table
             (Database.read
                (snd (Database.clear
                        (snd (Database.clear
                                (snd (Database.clear db "cloudwatch"))
                                "gitlab"))
                        "jira")))
             label = []).
Proof.
  intros db source Hc. split; [|split].
  - intros labels Hs. unfold Database.clear. rewrite Hs.
    destruct (StoreFacts.truncate_all db labels Hc) as [Hc' Ht].
    eexists. split; [reflexivity|]. split; [exact Hc'|]. split; [exact Ht|].
    intros H1 H2.
    destruct (StoreFacts.truncate_uncached db labels H1 H2) as [_ Hcache].
    unfold Database.read. now rewrite Hcache.
  - intros Hs. unfold Database.clear. now rewrite Hs.
  - intros label Hl.
    change (Database.clear db "cloudwatch")
      with (Py.Ret tt,
            fold_left Database.truncate ["account"; "loggroup"; "errorlog"] db).
    cbn [snd].
    set (db1 := fold_left Database.truncate _ db).
    change (Database.clear db1 "gitlab")
      with (Py.Ret tt,
            fold_left Database.truncate
              ["user"; "commit"; "merge"; "project"; "group"] db1).
    cbn [snd].
    set (db2 := fold_left Database.truncate _ db1).
    change (Database.clear db2 "jira")
      with (Py.Ret tt, fold_left Database.truncate ["story"] db2).
    cbn [snd].
    destruct (StoreFacts.truncate_all db
                ["account"; "loggroup"; "errorlog"] Hc) as [Hc1 Ht1].
    fold db1 in Hc1, Ht1.
    destruct (StoreFacts.truncate_all db1
                ["user"; "commit"; "merge"; "project"; "group"] Hc1)
      as [Hc2 Ht2].
    fold db2 in Hc2, Ht2.
    destruct (StoreFacts.truncate_all db2 ["story"] Hc2) as [_ Ht3].
    rewrite Ht3, Ht2, Ht1.
    simpl in Hl.
    repeat (destruct Hl as [<- | Hl]; [reflexivity|]). destruct Hl.
Qed.

(** The theorem on a store with a user and a story, without the
    middleware: clearing the source "gitlab" removes the user and keeps the
    story. *)
Lemma clear_source_witness :
  exists db',
    Database.clear
      (Database.open false
         (<["user" := [[("id", Py.VStr "1cb2cf62")]]]>
            (<["story" := [[("id", Py.VInt 12); ("sprints", Py.VList [])]]]>
               Database.blank)))
      "gitlab"
    = (Py.Ret tt, db')
    /\ Database.table (Database.file db') "user" = []
    /\ Database.table (Database.file db') "story"
       = [[("id", Py.VInt 12); ("sprints", Py.VList [])]].
Proof.
  destruct (clear_source
              (Database.open false
                 (<["user" := [[("id", Py.VStr "1cb2cf62")]]]>
                    (<["story" := [[("id", Py.VInt 12);
                                    ("sprints", Py.VList [])]]]>
                       Database.blank)))
              "gitlab" eq_refl) as [Hclear _].
  destruct (Hclear _ eq_refl) as (db' & Hrun & _ & Ht & Hfile).
  exists db'. split; [exact Hrun|].
  rewrite <- (Hfile eq_refl eq_refl), !Ht. split; reflexivity.
Defined.

(** X9.  Insert, then [all]: after a document went into the table of a
    label, [all] for that label loads what it loaded before and the new
    document as an instance of the class of the label, in this order; it
    raises if an earlier document or the new one cannot be loaded, since
    [insert] stores any document.  For every other label [all] is as
    before.  A label without a table is a [KeyError]. *)
Theorem insert_then_all :
  forall (db : Database.t) (label : string) (doc : Database.document)
         (cls : Models.dataclass),
    Writer.consistent db ->
    Py.get label Models.TYPE_MAP = Some cls ->
    exists id db',
      Database.insert db label (Some doc) = (Py.Ret id, db')
      /\ Database.all db' label
         = (let* earlier := Database.all db label in
            let* last := Models.construct cls doc in
            Py.Ret (earlier ++ [last]))
      /\ (forall label', label' <> label ->
                         Database.all db' label' = Database.all db label')
      /\ (forall label', Py.get label' Models.TYPE_MAP = None ->
                         Database.all db' label' = Py.Raise (Py.KeyError label')).
Proof.
  intros db label doc cls Hc Hcls.
  destruct (DatabaseFacts.insert_known db label doc Hc
              (StoreFacts.class_label label cls Hcls))
    as (id & db' & Hi & _ & Ht).
  exists id, db'. split; [exact Hi|]. split; [|split].
  - unfold Database.all, Database.table_class, Py.item. rewrite Hcls. simpl.
    rewrite Ht, String.eqb_refl. apply StoreFacts.instances_app.
  - intros label' Hne. unfold Database.all. rewrite Ht.
    apply not_eq_sym, String.eqb_neq in Hne. rewrite Hne.
    now rewrite app_nil_r.
  - intros label' Hnone. unfold Database.all, Database.table_class, Py.item.
    now rewrite Hnone.
Qed.

(** The theorem on an error log without author that goes into an empty
    store: [all] gives it back with the two fields it was stored without,
    at their defaults. *)
Lemma insert_then_all_witness :
  exists id db',
    Database.insert (Database.open true Database.blank) "errorlog"
      (Some [("loggroup", Py.VStr "7f9c2ba4e88f827d");
             ("account", Py.VStr "production");
             ("timestamp", Py.VInt 1680000000)])
    = (Py.Ret id, db')
    /\ Database.all db' "errorlog"
       = Py.Ret [[("loggroup", Py.VStr "7f9c2ba4e88f827d");
                  ("account", Py.VStr "production");
                  ("timestamp", Py.VInt 1680000000);
                  ("message", Py.VNone); ("author_id", Py.VNone)]].
Proof.
  destruct (insert_then_all (Database.open true Database.blank) "errorlog"
              [("loggroup", Py.VStr "7f9c2ba4e88f827d");
               ("account", Py.VStr "production");
               ("timestamp", Py.VInt 1680000000)]
              Models.ERRORLOG eq_refl eq_refl)
    as (id & db' & Hi & Hall & _).
  exists id, db'. split; [exact Hi|]. rewrite Hall. reflexivity.
Defined.

(** X10.  What the producers put on the queue can be loaded again: the
    class of each label accepts the documents queued under it.  An error
    log is queued without its message and comes back with the message at
    its default, none; the record of an account comes back with the id at
    its default; the records of log groups, users and stories come back as
    they are; a transformed merge request becomes an instance without
    contributors, and the attributes of that instance, which is what is
    queued, load as they are. *)
Theorem queued_documents_load :
  (forall (clk : Clock) (row : Models.ErrorLog.row) (account : string)
          (log : Py.dict Py.value) (author : option string),
      Models.ErrorLog.transform_query_result clk row account = Py.Ret log ->
      exists loggroup timestamp,
        Models.construct Models.ERRORLOG
          (CloudWatch.without_message
             (Py.set "author_id" (CloudWatch.author_value author) log))
        = Py.Ret [("loggroup", Py.VStr loggroup);
                  ("account", Py.VStr account);
                  ("timestamp", Py.VInt timestamp);
                  ("message", Py.VNone);
                  ("author_id", CloudWatch.author_value author)])
  /\ (forall name region : string,
         Models.construct Models.ACCOUNT
           [("name", Py.VStr name); ("region", Py.VStr region)]
         = Py.Ret [("name", Py.VStr name); ("region", Py.VStr region);
                   ("id", Py.VNone)])
  /\ (forall (name : string) (project_id : Z) (account : string),
         Models.construct Models.LOGGROUP
           (Models.LogGroup.transform_mapping name project_id account)
         = Py.Ret (Models.LogGroup.transform_mapping name project_id account))
  /\ (forall user_id : string,
         Models.construct Models.USER (Models.User.transform_user_id user_id)
         = Py.Ret (Models.User.transform_user_id user_id))
  /\ (forall (data : list string) (doc : Py.dict Py.value),
         Models.Story.transform_input data = Py.Ret doc ->
         Models.construct Models.STORY doc = Py.Ret doc)
  /\ (forall (clk : Clock) (data : Models.Merge.payload) (acronym : string)
             (doc : Py.dict Py.value),
         Models.Merge.transform_input clk data acronym = Py.Ret doc ->
         exists merge,
           Models.construct Models.MERGE doc = Py.Ret merge
           /\ Py.get "contributor_ids" merge = Some (Py.VList [])
           /\ Py.get "story_id" merge = Py.get "story_id" doc
           /\ Models.construct Models.MERGE merge = Py.Ret merge).
Proof.
  split; [|split; [|split; [|split; [|split]]]].
  - intros clk row account log author H.
    unfold Models.ErrorLog.transform_query_result in H.
    destruct (Models.ErrorLog.query_result_extract_group row) as [g|];
      [|discriminate].
    destruct (Models.ErrorLog.query_result_transform_timestamp clk row)
      as [t|]; [|discriminate].
    destruct (Models.ErrorLog.field_value row 2) as [m|]; [|discriminate].
    simpl in H. injection H as <-. eexists _, _. reflexivity.
  - reflexivity.
  - reflexivity.
  - reflexivity.
  - intros data doc H. destruct data as [|first rest].
    + discriminate.
    + rewrite StoryFacts.transform_input_eq in H.
      destruct (Py.int first); [|discriminate].
      destruct (Models.Story.sprint_numbers rest); [|discriminate].
      simpl in H. injection H as <-. reflexivity.
  - intros clk data acronym doc H.
    unfold Models.Merge.transform_input in H.
    destruct (Models.Merge.mr_description data); [|discriminate].
    simpl in H.
    destruct (Re.search (Models.Merge.story_re acronym) _) as [[caps rest]|].
    + destruct (Py.int (Re.group 2 caps)); [|discriminate]. simpl in H.
      destruct (fromisoformat_epoch clk _); [|discriminate]. simpl in H.
      injection H as <-. eexists. repeat split.
    + simpl in H.
      destruct (fromisoformat_epoch clk _); [|discriminate]. simpl in H.
      injection H as <-. eexists. repeat split.
Qed.

(* ===================================================================== *)
(** * More of extract/jira.py *)
(* ===================================================================== *)

Module JiraFacts.

Import Py.

Lemma extract_from_all n rows docs queue :
  Forall2 (fun row doc => Models.Story.transform_input row = Ret doc)
    rows docs ->
  Jira.extract_from (S n) rows queue
  = (Ret tt,
     queue ++ map (fun doc => (Some Models.Story.LABEL, Some doc)) docs).
Proof.
  intros H. revert n queue.
  induction H as [|row doc rows docs Hrow _ IH]; intros n queue; simpl.
  - now rewrite app_nil_r.
  - rewrite Hrow, IH. now rewrite <- app_assoc.
Qed.

End JiraFacts.

(** X11.  The Jira extractor never parses the first row of the export.
    When every later row can be transformed, it returns with one story on
    the queue for every such row, in the order of the rows; an export
    without any row queues nothing.  It stops with [IndexError] at a row
    without columns and with [ValueError] at a row whose first column [int]
    does not accept; the stories of the rows before are on the queue, the
    rows after are not read. *)
Theorem jira_extract_rows :
  forall (header : list string) (rows : list (list string))
         (docs : list (Py.dict Py.value)) (queue : list Py.message),
    Forall2 (fun row doc => Models.Story.transform_input row = Py.Ret doc)
      rows docs ->
    Jira.extract (header :: rows) queue
    = (Py.Ret tt,
       queue ++ map (fun doc => (Some "story", Some doc)) docs)
    /\ Jira.extract [] queue = (Py.Ret tt, queue)
    /\ (forall after,
           Jira.extract (header :: rows ++ [] :: after) queue
           = (Py.Raise Py.IndexError,
              queue ++ map (fun doc => (Some "story", Some doc)) docs))
    /\ (forall first rest after,
           Py.int first = None ->
           Jira.extract (header :: rows ++ (first :: rest) :: after) queue
           = (Py.Raise (Py.ValueError "int"),
              queue ++ map (fun doc => (Some "story", Some doc)) docs)).
Proof.
  intros header rows docs queue Hrows. unfold Jira.extract.
  split; [|split; [|split]].
  - simpl. now apply JiraFacts.extract_from_all.
  - reflexivity.
  - intros after. simpl.
    now apply StoryFacts.extract_from_aborts.
  - intros first rest after Hint. simpl.
    apply StoryFacts.extract_from_aborts; [exact Hrows|].
    rewrite StoryFacts.transform_input_eq. now rewrite Hint.
Qed.

(** The theorem on an export with a header, two stories and a blank
    line between them. *)
Lemma jira_extract_rows_witness :
  Jira.extract [["Key"; "Sprint"]; ["12"; "Sprint 3"]] []
  = (Py.Ret tt,
     [(Some "story",
       Some [("id", Py.VInt 12); ("sprints", Py.VList [Py.VInt 3])])])
  /\ Jira.extract [["Key"; "Sprint"]; ["12"; "Sprint 3"]; []; ["13"]] []
     = (Py.Raise Py.IndexError,
        [(Some "story",
          Some [("id", Py.VInt 12); ("sprints", Py.VList [Py.VInt 3])])]).
Proof.
  destruct (jira_extract_rows ["Key"; "Sprint"] [["12"; "Sprint 3"]]
              [[("id", Py.VInt 12); ("sprints", Py.VList [Py.VInt 3])]] [])
    as (Hall & _ & Hblank & _).
  - repeat constructor.
  - split; [exact Hall | exact (Hblank [["13"]])].
Defined.

(* ===================================================================== *)
(** * More of extract/gitlab.py *)
(* ===================================================================== *)

Module WalkFacts.

Import Py GitLab Pages.

Lemma fetch_raises e uri params ex :
  fetch e uri params = Raise ex -> ex = GitLabError uri.
Proof.
  unfold fetch, get. simpl.
  destruct (ok (server e {| uri := uri; params := params |}));
    [discriminate|].
  intros H. now injection H as <-.
Qed.

Lemma broken_walk_length_pos uri params pages ex :
  1 <= length (broken_walk uri params pages ex).
Proof. destruct pages; simpl; lia. Qed.

(** Draining the generator of a chain that breaks performs the walk up
    to the failure. *)
Lemma drain_broken e uri ex params pages :
  broken_chain e uri ex params pages ->
  drain (length (broken_walk uri params pages ex)) e (fetch_all uri params)
  = Some (broken_walk uri params pages ex, GDone).
Proof.
  unfold fetch_all.
  induction 1 as [params Hr | params r page rs Hr Hn _ IH].
  - simpl. now rewrite Hr.
  - simpl. rewrite Hr, Hn. rewrite length_app, length_map.
    rewrite (GitLabFacts.drain_items e uri params (json r) (x_next_page r) _
               (broken_walk uri (set "page" page params) rs ex) GDone);
      [reflexivity|].
    destruct (length (broken_walk uri (set "page" page params) rs ex))
      as [|n] eqn:L;
      [pose proof (broken_walk_length_pos uri (set "page" page params) rs ex);
       lia|].
    simpl in IH |- *. rewrite Hn. exact IH.
Qed.

Lemma yielded_broken_walk e uri ex params pages :
  broken_chain e uri ex params pages ->
  yielded (broken_walk uri params pages ex) = concat (map json pages).
Proof.
  induction 1 as [params Hr | params r page rs Hr Hn _ IH]; simpl.
  - reflexivity.
  - rewrite Hn, GitLabFacts.yielded_app, GitLabFacts.yielded_items, IH.
    reflexivity.
Qed.

Lemma broken_walk_ends e uri ex params pages :
  broken_chain e uri ex params pages ->
  exists served, broken_walk uri params pages ex = served ++ [Failed ex].
Proof.
  induction 1 as [params Hr | params r page rs Hr Hn _ [served IH]]; simpl.
  - now exists [].
  - rewrite Hn, IH.
    exists (Requested {| uri := uri; params := params |}
            :: map Yielded (json r) ++ served).
    simpl. now rewrite <- app_assoc.
Qed.

End WalkFacts.

(* ===================================================================== *)
(** * The candidates of an error message *)
(* ===================================================================== *)

Module CandidateFacts.

Import Py Text.

Lemma strip_prefix_sound t s rest :
  Re.strip_prefix t s = Some rest -> s = t +:+ rest.
Proof.
  revert s. induction t as [|a t IH]; intros s; simpl.
  - intros H. now injection H as ->.
  - destruct s as [|b s]; [discriminate|].
    destruct (Ascii.eqb a b) eqn:E; [|discriminate].
    apply Ascii.eqb_eq in E as ->. intros H. now rewrite (IH _ H).
Qed.

(** Whatever a pattern matches, it matches a prefix of the text and hands
    the rest to what follows. *)
Lemma run_suffix {A} r s caps (k : string -> Re.captures -> option A) x :
  Re.run r s caps k = Some x ->
  exists m rest caps', s = m +:+ rest /\ k rest caps' = Some x.
Proof.
  revert s caps k x. induction r as [t|p|p lo| |a IHa b IHb|a IHa b IHb|i a IHa];
    intros s caps k x; simpl.
  - destruct (Re.strip_prefix t s) as [rest|] eqn:E; [|discriminate].
    intros H. apply strip_prefix_sound in E. eauto.
  - destruct s as [|c s]; [discriminate|].
    destruct (p c); [|discriminate].
    intros H. exists (String c EmptyString), s, caps. auto.
  - intros H. apply ReFacts.many_sound in H as (a & b & -> & _ & _ & H). eauto.
  - destruct (Re.at_end s); [|discriminate].
    intros H. exists EmptyString, s, caps. auto.
  - intros H. apply IHa in H as (m1 & s1 & c1 & -> & H).
    apply IHb in H as (m2 & s2 & c2 & -> & H).
    exists (m1 +:+ m2), s2, c2. now rewrite PyFacts.append_assoc.
  - destruct (Re.run a s caps k) eqn:E.
    + intros H. injection H as ->. eauto.
    + apply IHb.
  - intros H. apply IHa in H as (m & rest & c1 & -> & H). eauto.
Qed.

Lemma match_at_suffix r s caps rest :
  Re.match_at r s = Some (caps, rest) -> exists m, s = m +:+ rest.
Proof.
  unfold Re.match_at. intros H.
  apply run_suffix in H as (m & rest' & caps' & -> & H).
  injection H as _ <-. eauto.
Qed.

(** Every match that [re.findall] reports is a match at some place of
    the text. *)
Lemma findall_fuel_sound fuel r s caps :
  In caps (Re.findall_fuel fuel r s) ->
  exists before u rest,
    s = before +:+ u /\ Re.match_at r u = Some (caps, rest).
Proof.
  revert s. induction fuel as [|fuel IH]; intros s; simpl; [tauto|].
  destruct (Re.search r s) as [[caps0 rest0]|] eqn:E; [|intros []].
  apply ReFacts.search_inv in E as (pre & u & -> & M).
  intros [<- | Hin].
  - eauto.
  - destruct rest0 as [|c rest0]; [destruct Hin|].
    apply IH in Hin as (before & u' & rest' & Hs & M').
    apply match_at_suffix in M as (m & ->).
    exists (pre +:+ m +:+ before), u', rest'. split; [|exact M'].
    rewrite Hs. now rewrite !PyFacts.append_assoc.
Qed.

(** A pattern without groups leaves the captures as they are. *)
Lemma run_groupless {A} r s caps (k : string -> Re.captures -> option A) x :
  Patterns.groupless r = true ->
  Re.run r s caps k = Some x ->
  exists m rest, s = m +:+ rest /\ k rest caps = Some x.
Proof.
  revert s caps k x.
  induction r as [t|p|p lo| |a IHa b IHb|a IHa b IHb|i a IHa];
    intros s caps k x Hg; simpl in Hg |- *.
  - destruct (Re.strip_prefix t s) as [rest|] eqn:E; [|discriminate].
    intros H. apply strip_prefix_sound in E. eauto.
  - destruct s as [|c s]; [discriminate|].
    destruct (p c); [|discriminate].
    intros H. exists (String c EmptyString), s. auto.
  - intros H. apply ReFacts.many_sound in H as (a & b & -> & _ & _ & H). eauto.
  - destruct (Re.at_end s); [|discriminate].
    intros H. exists EmptyString, s. auto.
  - apply andb_prop in Hg as [Ha Hb].
    intros H. apply (IHa _ _ _ _ Ha) in H as (m1 & s1 & -> & H).
    apply (IHb _ _ _ _ Hb) in H as (m2 & s2 & -> & H).
    exists (m1 +:+ m2), s2. now rewrite PyFacts.append_assoc.
  - apply andb_prop in Hg as [Ha Hb].
    destruct (Re.run a s caps k) eqn:E.
    + intros H. injection H as ->. eapply IHa; eauto.
    + now apply IHb.
  - discriminate.
Qed.

(** What the pattern of the error messages matches: the directory, a
    path, and on the next line a statement. *)
Lemma errormsg_match_sound s caps rest :
  Re.match_at Models.ERRORMSG_RE s = Some (caps, rest) ->
  exists after,
    s = "/var/task/" +:+ Re.group 2 caps +:+ after
    /\ Re.group 2 caps <> EmptyString
    /\ all_chars Models.path_char (Re.group 2 caps) = true
    /\ Re.group 4 caps <> EmptyString
    /\ all_chars Models.not_newline (Re.group 4 caps) = true.
Proof.
  unfold Re.match_at, Models.ERRORMSG_RE.
  remember (Re.Cat (Re.Many Models.not_newline 0) _) as g3 eqn:Eg3.
  remember (Re.Alt _ Re.Eos) as g5 eqn:Eg5.
  assert (H3 : Patterns.groupless g3 = true) by (subst g3; reflexivity).
  assert (H5 : Patterns.groupless g5 = true) by (subst g5; reflexivity).
  clear Eg3 Eg5. cbn [Re.run].
  destruct (Re.strip_prefix "/var/task/" s) as [s1|] eqn:E1; [|discriminate].
  apply strip_prefix_sound in E1 as ->.
  intros H.
  apply ReFacts.many_sound in H as (file & s2 & -> & Hfile & Hlen & H).
  apply (run_groupless _ _ _ _ _ H3) in H as (line & s3 & -> & H).
  apply ReFacts.many_sound in H as (stmt & s4 & -> & Hstmt & Hlen4 & H).
  apply (run_groupless _ _ _ _ _ H5) in H as (tail & s5 & -> & H).
  injection H as <- _. simpl. rewrite !ReFacts.consumed_app.
  eexists. split; [reflexivity|].
  split; [destruct file; [simpl in Hlen; lia | discriminate]|].
  split; [exact Hfile|].
  split; [destruct stmt; [simpl in Hlen4; lia | discriminate] | exact Hstmt].
Qed.

Lemma fold_left_cons {A B} (f : A -> B) l acc :
  fold_left (fun acc x => f x :: acc) l acc = rev (map f l) ++ acc.
Proof.
  revert acc. induction l as [|x l IH]; intros acc; simpl; [reflexivity|].
  rewrite IH. now rewrite <- app_assoc.
Qed.

Lemma get_error_info_rev message :
  Models.ErrorLog.get_error_info message
  = rev (map (fun caps => (Re.group 2 caps, Re.group 4 caps))
           (Re.findall Models.ERRORMSG_RE message)).
Proof.
  unfold Models.ErrorLog.get_error_info.
  rewrite (fold_left_cons (fun caps => (Re.group 2 caps, Re.group 4 caps))).
  apply app_nil_r.
Qed.

Lemma candidates_sound message file statement :
  In (file, statement) (Models.ErrorLog.get_error_info message) ->
  file <> EmptyString
  /\ all_chars Models.path_char file = true
  /\ statement <> EmptyString
  /\ all_chars Models.not_newline statement = true
  /\ exists before after,
       message = before +:+ "/var/task/" +:+ file +:+ after.
Proof.
  intros Hin. rewrite get_error_info_rev in Hin.
  apply in_rev, in_map_iff in Hin as (caps & E & Hin).
  injection E as <- <-. unfold Re.findall in Hin.
  apply findall_fuel_sound in Hin as (before & u & rest & -> & M).
  apply errormsg_match_sound in M as (after & -> & H1 & H2 & H3 & H4).
  repeat split; try assumption. now exists before, after.
Qed.

Lemma no_directory_no_candidate message :
  (forall before after, message <> before +:+ "/var/task/" +:+ after) ->
  Models.ErrorLog.get_error_info message = [].
Proof.
  intros Hnone.
  destruct (Models.ErrorLog.get_error_info message)
    as [|[file statement] l] eqn:E; [reflexivity|].
  exfalso.
  destruct (candidates_sound message file statement)
    as (_ & _ & _ & _ & before & after & E'); [rewrite E; now left|].
  exact (Hnone before (file +:+ after) E').
Qed.

End CandidateFacts.

(** X12.  When a request of a paginated walk fails, what the iteration
    of [__fetch_all] has done by then is: one request for every page that
    was served, and the items of these pages, page after page; then the
    iteration ends with the [GitLabError] of the failed request.  The
    generator is finished after that: asked again, it stops without a
    request and without raising again. *)
Theorem fetch_all_failure :
  forall (e : GitLab.env) (uri : string) (params : Py.dict string)
         (pages : list GitLab.response) (ex : Py.exn),
    Pages.broken_chain e uri ex params pages ->
    ex = Py.GitLabError uri
    /\ exists served,
         (exists fuel0, forall fuel, fuel0 <= fuel ->
             GitLab.drain fuel e (GitLab.fetch_all uri params)
             = Some (served ++ [GitLab.Failed ex], GitLab.GDone))
         /\ served ++ [GitLab.Failed ex] = Pages.broken_walk uri params pages ex
         /\ GitLab.yielded served = concat (map GitLab.json pages)
         /\ length (GitLab.requested served) = length pages
         /\ GitLab.step e GitLab.GDone = (GitLab.Stopped, GitLab.GDone).
Proof.
  intros e uri params pages ex Hchain. split.
  - induction Hchain as [params Hr | params r page rs Hr Hn _ IH];
      [now apply WalkFacts.fetch_raises in Hr | exact IH].
  - destruct (WalkFacts.broken_walk_ends e uri ex params pages Hchain)
      as [served Hserved].
    exists served. split; [|split; [|split; [|split]]].
    + exists (length (Pages.broken_walk uri params pages ex)).
      intros fuel Hle. rewrite <- Hserved.
      eapply GitLabFacts.drain_more; [|exact Hle].
      now apply WalkFacts.drain_broken.
    + now rewrite Hserved.
    + pose proof (WalkFacts.yielded_broken_walk e uri ex params pages Hchain)
        as Hy.
      rewrite Hserved, GitLabFacts.yielded_app in Hy. simpl in Hy.
      now rewrite app_nil_r in Hy.
    + assert (Hreq : length (GitLab.requested
                               (Pages.broken_walk uri params pages ex))
                     = length pages).
      { clear Hserved. induction Hchain
          as [params Hr | params r page rs Hr Hn _ IH]; simpl;
          [reflexivity|].
        rewrite Hn, GitLabFacts.requested_app, GitLabFacts.requested_items.
        simpl. now rewrite IH. }
      rewrite Hserved, GitLabFacts.requested_app in Hreq. simpl in Hreq.
      now rewrite app_nil_r in Hreq.
    + reflexivity.
Qed.

(** The theorem on a list of groups whose second page the remote does
    not serve: the two groups of the first page come out, then the
    error. *)
Lemma fetch_all_failure_witness :
  exists served,
    GitLab.drain 8 Remote.truncated (GitLab.fetch_all "/groups" [])
    = Some (served ++ [GitLab.Failed (Py.GitLabError "/groups")],
            GitLab.GDone)
    /\ GitLab.yielded served
       = [Py.VDict [("id", Py.VInt 1)]; Py.VDict [("id", Py.VInt 2)]].
Proof.
  destruct (fetch_all_failure Remote.truncated "/groups" []
              [Remote.answer [Py.VDict [("id", Py.VInt 1)];
                              Py.VDict [("id", Py.VInt 2)]] (Some "2")]
              (Py.GitLabError "/groups"))
    as (_ & served & [fuel0 Hdrain] & Hwalk & Hy & _).
  - eapply Pages.broken_next; [reflexivity | reflexivity |].
    apply Pages.broken_here. reflexivity.
  - exists served. split; [|exact Hy].
    rewrite Hwalk. vm_compute. reflexivity.
Defined.

(** X13.  The candidates that [get_error_info] reads from an error
    message are the matches of the pattern in the reverse of their order in
    the message.  Every candidate has a file name that is not empty, is
    made of letters, digits, underscores, slashes and dots, and stands in
    the message right after the directory [/var/task/]; its statement is
    not empty and has no line break in it.  A message in which
    [/var/task/] does not occur has no candidate. *)
Theorem error_candidates :
  forall message : string,
    Models.ErrorLog.get_error_info message
    = rev (map (fun caps => (Re.group 2 caps, Re.group 4 caps))
             (Re.findall Models.ERRORMSG_RE message))
    /\ (forall file statement,
           In (file, statement) (Models.ErrorLog.get_error_info message) ->
           file <> EmptyString
           /\ Py.all_chars Models.path_char file = true
           /\ statement <> EmptyString
           /\ Py.all_chars Models.not_newline statement = true
           /\ exists before after,
                message = before +:+ "/var/task/" +:+ file +:+ after)
    /\ ((forall before after, message <> before +:+ "/var/task/" +:+ after) ->
        Models.ErrorLog.get_error_info message = []).
Proof.
  intros message.
  split; [apply CandidateFacts.get_error_info_rev|].
  split; [apply CandidateFacts.candidates_sound|].
  apply CandidateFacts.no_directory_no_candidate.
Qed.

Module BlameFacts.

Import Py GitLab.

Lemma try_candidate_unreachable fuel e cache loggroup file time statement
    project_id :
  Py.get loggroup (Config.log_group_mappings (config e)) = Some project_id ->
  cache !! (project_id, file, time) = None ->
  ok (server e {| uri := commits_uri project_id;
                  params := [("with_stats", "true"); ("until", time)] |})
  = false ->
  try_candidate fuel e cache loggroup file time statement
  = Some (Raised (GitLabError (commits_uri project_id)), cache).
Proof.
  intros Hmap Hcache Hok.
  unfold try_candidate, Config.get_project_for_log_group, item.
  rewrite Hmap. simpl. unfold fetch_blame. rewrite Hcache.
  unfold fetch_most_recent_commit, fetch_single, fetch, get.
  now rewrite Hok.
Qed.

Lemma blame_candidates_unreachable fuel e cache loggroup time candidates
    project_id :
  Py.get loggroup (Config.log_group_mappings (config e)) = Some project_id ->
  (forall file, cache !! (project_id, file, time) = None) ->
  ok (server e {| uri := commits_uri project_id;
                  params := [("with_stats", "true"); ("until", time)] |})
  = false ->
  blame_candidates fuel e cache loggroup time candidates
  = Some (Ret None, cache).
Proof.
  intros Hmap Hcache Hok.
  induction candidates as [|[file statement] rest IH]; simpl; [reflexivity|].
  rewrite (try_candidate_unreachable fuel e cache loggroup file time
             statement project_id Hmap (Hcache file) Hok).
  exact IH.
Qed.

Lemma try_candidate_no_commit fuel e cache loggroup file time statement
    project_id :
  Py.get loggroup (Config.log_group_mappings (config e)) = Some project_id ->
  cache !! (project_id, file, time) = None ->
  ok (server e {| uri := commits_uri project_id;
                  params := [("with_stats", "true"); ("until", time)] |})
  = true ->
  json (server e {| uri := commits_uri project_id;
                    params := [("with_stats", "true"); ("until", time)] |})
  = [] ->
  try_candidate fuel e cache loggroup file time statement
  = Some (Raised IndexError, cache).
Proof.
  intros Hmap Hcache Hok Hjson.
  unfold try_candidate, Config.get_project_for_log_group, item.
  rewrite Hmap. simpl. unfold fetch_blame. rewrite Hcache.
  unfold fetch_most_recent_commit, fetch_single, fetch, get.
  rewrite Hok. simpl. now rewrite Hjson.
Qed.

End BlameFacts.

(** X14.  [blame] reads the time stamp and the message of the log first.
    A message without candidates gives no author, and then nothing else
    is looked up: not the project of the log group, not the remote; the
    memo table stays as it is.  With a candidate, a log group that the
    configuration maps to no project makes [blame] raise [KeyError]. *)
Theorem blame_before_any_request :
  forall (fuel : nat) (e : GitLab.env) (cache : GitLab.blame_cache)
         (log : Py.dict Py.value) (loggroup : string) (timestamp : Z)
         (message : string),
    Py.get "timestamp" log = Some (Py.VInt timestamp) ->
    Py.get "message" log = Some (Py.VStr message) ->
    (Models.ErrorLog.get_error_info message = [] ->
     GitLab.blame fuel e cache log loggroup = Some (Py.Ret None, cache))
    /\ ((forall before after, message <> before +:+ "/var/task/" +:+ after) ->
        GitLab.blame fuel e cache log loggroup = Some (Py.Ret None, cache))
    /\ (Models.ErrorLog.get_error_info message <> [] ->
        Py.get loggroup (Config.log_group_mappings (GitLab.config e)) = None ->
        GitLab.blame fuel e cache log loggroup
        = Some (Py.Raise (Py.KeyError loggroup), cache)).
Proof.
  intros fuel e cache log loggroup timestamp message Hts Hmsg.
  assert (Hblame : GitLab.blame fuel e cache log loggroup
                   = GitLab.blame_candidates fuel e cache loggroup
                       (Models.ErrorLog.timestamp_to_zulustr
                          (GitLab.clock e) timestamp)
                       (Models.ErrorLog.get_error_info message)).
  { unfold GitLab.blame, Py.item. now rewrite Hts, Hmsg. }
  rewrite Hblame. split; [|split].
  - intros ->. reflexivity.
  - intros Hnone.
    now rewrite (CandidateFacts.no_directory_no_candidate message Hnone).
  - intros Hne Hmap.
    destruct (Models.ErrorLog.get_error_info message)
      as [|[file statement] rest]; [congruence|].
    simpl. unfold GitLab.try_candidate, Config.get_project_for_log_group,
             Py.item.
    now rewrite Hmap.
Qed.

(** The theorem on a time-out, whose message names no file (no author),
    and on a traceback from a log group that the configuration does not
    map (the lookup raises). *)
Lemma blame_before_any_request_witness :
  GitLab.blame 8 Remote.env GitLab.fresh
    (Remote.error_log "[ERROR] Task timed out after 3.00 seconds")
    "/aws/lambda/orders"
  = Some (Py.Ret None, GitLab.fresh)
  /\ GitLab.blame 8 Remote.env GitLab.fresh
       (Remote.error_log Remote.outer_frame) "/aws/lambda/payments"
     = Some (Py.Raise (Py.KeyError "/aws/lambda/payments"), GitLab.fresh).
Proof.
  split.
  - apply (proj1 (blame_before_any_request 8 Remote.env GitLab.fresh
                    (Remote.error_log
                       "[ERROR] Task timed out after 3.00 seconds")
                    "/aws/lambda/orders" 1680000000
                    "[ERROR] Task timed out after 3.00 seconds"
                    eq_refl eq_refl)).
    vm_compute. reflexivity.
  - apply (proj2 (proj2 (blame_before_any_request 8 Remote.env GitLab.fresh
                           (Remote.error_log Remote.outer_frame)
                           "/aws/lambda/payments" 1680000000
                           Remote.outer_frame eq_refl eq_refl))).
    + vm_compute. discriminate.
    + reflexivity.
Defined.

(** X15.  The first thing [blame] asks the remote for, when the memo
    table has nothing for the project at the time of the log, is the most
    recent commit of the project.  When that request fails, every
    candidate is skipped: [blame] gives no author and leaves the memo table
    as it is.  When the request succeeds with an empty list of commits and
    the message has a candidate, [blame] raises [IndexError]. *)
Theorem blame_commit_lookup :
  forall (fuel : nat) (e : GitLab.env) (cache : GitLab.blame_cache)
         (log : Py.dict Py.value) (loggroup : string) (timestamp : Z)
         (message : string) (project_id : Z),
    Py.get "timestamp" log = Some (Py.VInt timestamp) ->
    Py.get "message" log = Some (Py.VStr message) ->
    Py.get loggroup (Config.log_group_mappings (GitLab.config e))
    = Some project_id ->
    (forall file,
        cache !! (project_id, file,
                  Models.ErrorLog.timestamp_to_zulustr (GitLab.clock e)
                    timestamp)
        = None) ->
    let commits :=
      GitLab.server e
        {| GitLab.uri := GitLab.commits_uri project_id;
           GitLab.params :=
             [("with_stats", "true");
              ("until",
               Models.ErrorLog.timestamp_to_zulustr (GitLab.clock e)
                 timestamp)] |} in
    (GitLab.ok commits = false ->
     GitLab.blame fuel e cache log loggroup = Some (Py.Ret None, cache))
    /\ (GitLab.ok commits = true -> GitLab.json commits = [] ->
        Models.ErrorLog.get_error_info message <> [] ->
        GitLab.blame fuel e cache log loggroup
        = Some (Py.Raise Py.IndexError, cache)).
Proof.
  intros fuel e cache log loggroup timestamp message project_id
         Hts Hmsg Hmap Hcache commits.
  assert (Hblame : GitLab.blame fuel e cache log loggroup
                   = GitLab.blame_candidates fuel e cache loggroup
                       (Models.ErrorLog.timestamp_to_zulustr
                          (GitLab.clock e) timestamp)
                       (Models.ErrorLog.get_error_info message)).
  { unfold GitLab.blame, Py.item. now rewrite Hts, Hmsg. }
  rewrite Hblame. split.
  - intros Hok.
    now apply (BlameFacts.blame_candidates_unreachable fuel e cache loggroup
                 _ _ project_id).
  - intros Hok Hjson Hne.
    destruct (Models.ErrorLog.get_error_info message)
      as [|[file statement] rest]; [congruence|].
    simpl.
    now rewrite (BlameFacts.try_candidate_no_commit fuel e cache loggroup
                   file _ statement project_id Hmap (Hcache file) Hok Hjson).
Qed.

(** The theorem on a traceback with two frames: against a remote that
    does not know the project there is no author; against a remote on
    which the project has no commit yet the lookup raises. *)
Lemma blame_commit_lookup_witness :
  GitLab.blame 8 Remote.stale GitLab.fresh
    (Remote.error_log Remote.both_frames) "/aws/lambda/orders"
  = Some (Py.Ret None, GitLab.fresh)
  /\ GitLab.blame 8 Remote.young GitLab.fresh
       (Remote.error_log Remote.both_frames) "/aws/lambda/orders"
     = Some (Py.Raise Py.IndexError, GitLab.fresh).
Proof.
  split.
  - refine (proj1 (blame_commit_lookup 8 Remote.stale GitLab.fresh
                     (Remote.error_log Remote.both_frames)
                     "/aws/lambda/orders" 1680000000 Remote.both_frames 9
                     eq_refl eq_refl eq_refl _) _).
    + intros file. apply lookup_empty.
    + reflexivity.
  - refine (proj2 (blame_commit_lookup 8 Remote.young GitLab.fresh
                     (Remote.error_log Remote.both_frames)
                     "/aws/lambda/orders" 1680000000 Remote.both_frames 7
                     eq_refl eq_refl eq_refl _) _ _ _).
    + intros file. apply lookup_empty.
    + reflexivity.
    + reflexivity.
    + vm_compute. discriminate.
Defined.

(* ===================================================================== *)
(** * More of database/models.py *)
(* ===================================================================== *)

Module HashFacts.

Import Py Text.

Lemma hex_digit_is_hex n : (n < 16)%N -> is_hex (Shake.hex_digit n) = true.
Proof.
  intros H. destruct n as [|p]; [reflexivity|].
  do 4 (destruct p as [p|p|]; try reflexivity); lia.
Qed.

Lemma hex_byte_is_hex b :
  (b < 256)%N -> all_chars is_hex (Shake.hex_byte b) = true.
Proof.
  intros H. unfold Shake.hex_byte. simpl.
  rewrite !hex_digit_is_hex; [reflexivity | idtac | idtac].
  - apply N.mod_upper_bound. discriminate.
  - apply N.Div0.div_lt_upper_bound. exact H.
Qed.

Lemma bytes_of_lane_bound n w :
  Forall (fun b => (b < 256)%N) (Shake.bytes_of_lane n w).
Proof.
  revert w. induction n as [|n IH]; intros w; simpl; constructor; [|apply IH].
  change 255%N with (N.ones 8). rewrite N.land_ones.
  apply N.mod_upper_bound. discriminate.
Qed.

Lemma shake_128_bound msg n :
  Forall (fun b => (b < 256)%N) (Shake.shake_128 msg n).
Proof.
  unfold Shake.shake_128. apply Forall_take.
  generalize (firstn 21 (Shake.absorb (S (length msg)) (repeat 0%N 25) msg)).
  intros ws. induction ws as [|w ws IH]; [constructor|].
  change (flat_map (Shake.bytes_of_lane 8) (w :: ws))
    with (Shake.bytes_of_lane 8 w ++ flat_map (Shake.bytes_of_lane 8) ws).
  apply Forall_app. split; [apply bytes_of_lane_bound | exact IH].
Qed.

Lemma hex_app (a b : list N) :
  fold_right (fun b acc => Shake.hex_byte b +:+ acc) EmptyString (a ++ b)
  = fold_right (fun b acc => Shake.hex_byte b +:+ acc) EmptyString a
    +:+ fold_right (fun b acc => Shake.hex_byte b +:+ acc) EmptyString b.
Proof.
  induction a as [|x a IH]; [reflexivity|].
  change (fold_right (fun b acc => Shake.hex_byte b +:+ acc) EmptyString
            ((x :: a) ++ b))
    with (Shake.hex_byte x
          +:+ fold_right (fun b acc => Shake.hex_byte b +:+ acc) EmptyString
                (a ++ b)).
  rewrite IH. symmetry. apply PyFacts.append_assoc.
Qed.

Lemma hex_is_hex bs :
  Forall (fun b => (b < 256)%N) bs ->
  all_chars is_hex
    (fold_right (fun b acc => Shake.hex_byte b +:+ acc) EmptyString bs)
  = true.
Proof.
  induction 1 as [|b bs Hb _ IH]; [reflexivity|].
  change (fold_right (fun b acc => Shake.hex_byte b +:+ acc) EmptyString
            (b :: bs))
    with (Shake.hex_byte b
          +:+ fold_right (fun b acc => Shake.hex_byte b +:+ acc) EmptyString bs).
  rewrite PyFacts.all_chars_app, IH, hex_byte_is_hex by assumption.
  reflexivity.
Qed.

(** A shorter digest is the beginning of a longer one. *)
Lemma hexdigest_prefix msg n m :
  n <= m ->
  exists tail, Shake.hexdigest msg m = Shake.hexdigest msg n +:+ tail.
Proof.
  intros Hle. unfold Shake.hexdigest, Shake.shake_128.
  set (out := flat_map (Shake.bytes_of_lane 8) _).
  replace m with (n + (m - n)) by lia.
  rewrite <- (firstn_skipn n (firstn (n + (m - n)) out)).
  rewrite hex_app. rewrite firstn_firstn.
  replace (Nat.min n (n + (m - n))) with n by lia.
  eauto.
Qed.

Lemma split_on_plain sep cur a :
  any_char (Ascii.eqb sep) a = false ->
  split_on sep cur a = [cur +:+ a].
Proof.
  revert cur. induction a as [|c a IH]; intros cur; simpl.
  - now rewrite PyFacts.append_nil_r.
  - rewrite (Ascii.eqb_sym c sep).
    destruct (Ascii.eqb sep c); [discriminate|]. simpl. intros H.
    rewrite IH by assumption. now rewrite PyFacts.append_assoc.
Qed.

Lemma split_on_sep sep cur a rest :
  any_char (Ascii.eqb sep) a = false ->
  split_on sep cur (a +:+ String sep rest)
  = (cur +:+ a) :: split_on sep EmptyString rest.
Proof.
  revert cur. induction a as [|c a IH]; intros cur; simpl.
  - rewrite Ascii.eqb_refl. now rewrite PyFacts.append_nil_r.
  - rewrite (Ascii.eqb_sym c sep).
    destruct (Ascii.eqb sep c); [discriminate|]. simpl. intros H.
    rewrite IH by assumption. now rewrite PyFacts.append_assoc.
Qed.

End HashFacts.

(** X16.  The hash of a user and the hash of a log group are made of
    lower-case hexadecimal digits, eight for a user and sixteen for a log
    group, and the hash of a text as a user is the beginning of its hash
    as a log group. *)
Theorem hash_format :
  forall text : string,
    Py.all_chars Text.is_hex (Models.User.hash_id text) = true
    /\ Py.all_chars Text.is_hex (Models.LogGroup.hash_name text) = true
    /\ String.length (Models.User.hash_id text) = 8
    /\ String.length (Models.LogGroup.hash_name text) = 16
    /\ exists tail,
         Models.LogGroup.hash_name text = Models.User.hash_id text +:+ tail.
Proof.
  intros text. unfold Models.User.hash_id, Models.LogGroup.hash_name.
  split; [|split; [|split; [|split]]].
  - apply HashFacts.hex_is_hex, HashFacts.shake_128_bound.
  - apply HashFacts.hex_is_hex, HashFacts.shake_128_bound.
  - now rewrite ShakeFacts.length_hexdigest by lia.
  - now rewrite ShakeFacts.length_hexdigest by lia.
  - apply HashFacts.hexdigest_prefix. lia.
Qed.

(** X17.  The log group of an error log is read from the [@log] field of
    the row, [account id:log group]: it is the text between the first
    colon and the second one, or the end.  So a row of a log group whose
    name has no colon is queued under the hash that the record of that log
    group carries as its name; a name with a colon in it is cut at that
    colon; and a field without any colon makes the transformation raise
    [IndexError]. *)
Theorem error_log_joins_log_group :
  forall (clk : Clock) (row : Models.ErrorLog.row)
         (account_id name tail account : string) (project_id : Z),
    Py.any_char (Ascii.eqb ":") account_id = false ->
    Py.any_char (Ascii.eqb ":") name = false ->
    tail = EmptyString \/ (exists more, tail = String ":" more) ->
    (Models.ErrorLog.field_value row 0
     = Py.Ret (account_id +:+ String ":" (name +:+ tail)) ->
     Models.ErrorLog.query_result_extract_group row = Py.Ret name
     /\ forall log,
          Models.ErrorLog.transform_query_result clk row account
          = Py.Ret log ->
          Py.get "loggroup" log
          = Py.get "name"
              (Models.LogGroup.transform_mapping name project_id account))
    /\ (Models.ErrorLog.field_value row 0 = Py.Ret account_id ->
        Models.ErrorLog.transform_query_result clk row account
        = Py.Raise Py.IndexError).
Proof.
  intros clk row account_id name tail account project_id Hacc Hname Htail.
  split.
  - intros Hlog.
    assert (Hgroup : Models.ErrorLog.query_result_extract_group row
                     = Py.Ret name).
    { unfold Models.ErrorLog.query_result_extract_group. rewrite Hlog.
      simpl. unfold Py.split.
      rewrite (HashFacts.split_on_sep ":" EmptyString account_id _ Hacc).
      destruct Htail as [-> | [more ->]].
      - rewrite PyFacts.append_nil_r.
        now rewrite (HashFacts.split_on_plain ":" EmptyString name Hname).
      - now rewrite (HashFacts.split_on_sep ":" EmptyString name more Hname). }
    split; [exact Hgroup|].
    intros log. unfold Models.ErrorLog.transform_query_result.
    rewrite Hgroup. simpl.
    destruct (Models.ErrorLog.query_result_transform_timestamp clk row);
      simpl; [|discriminate].
    destruct (Models.ErrorLog.field_value row 2); simpl; [|discriminate].
    intros H. injection H as <-. reflexivity.
  - intros Hlog. unfold Models.ErrorLog.transform_query_result,
                   Models.ErrorLog.query_result_extract_group.
    rewrite Hlog. simpl. unfold Py.split.
    now rewrite (HashFacts.split_on_plain ":" EmptyString account_id Hacc).
Qed.

(** The theorem on a row of the log group [/aws/lambda/orders]. *)
Lemma error_log_joins_log_group_witness :
  Models.ErrorLog.query_result_extract_group Service.timeout_row
  = Py.Ret "/aws/lambda/orders"
  /\ Models.ErrorLog.transform_query_result Fixtures.clock
       (Service.result_row "no colon" "2023-03-28 10:40:00.000" "[ERROR]")
       "production"
     = Py.Raise Py.IndexError.
Proof.
  split.
  - refine (proj1 (proj1 (error_log_joins_log_group Fixtures.clock
                            Service.timeout_row "123456789012"
                            "/aws/lambda/orders" EmptyString "production" 7
                            eq_refl eq_refl (or_introl eq_refl)) eq_refl)).
  - refine (proj2 (error_log_joins_log_group Fixtures.clock
                     (Service.result_row "no colon" "2023-03-28 10:40:00.000"
                        "[ERROR]")
                     "no colon" EmptyString EmptyString "production" 7
                     eq_refl eq_refl (or_introl eq_refl)) eq_refl).
Defined.

(* ===================================================================== *)
(** * The blame of the first candidate *)
(* ===================================================================== *)

Module ScanFacts.

Import Py GitLab Blames.

Section Scan.

Variable e : env.
Variable base : blame_cache.
Variable key : Z * string * string.
Variable statement : string.

(** The memo table with the generator [g] under the key. *)
Let at_key (g : generator) : blame_cache := <[key := g]> base.

Lemma at_key_again g g' : <[key := g']> (at_key g) = at_key g'.
Proof. unfold at_key. apply insert_insert_eq. Qed.

Lemma scan_unfold fuel g :
  scan (S fuel) e (at_key g) key statement
  = match step e g with
    | (Requested _, g') => scan fuel e (at_key g') key statement
    | (Stopped, g') => Some (Exhausted, at_key g')
    | (Failed ex, g') => Some (Raised ex, at_key g')
    | (Yielded item, g') =>
        match blamed statement item with
        | Raise ex => Some (Raised ex, at_key g')
        | Ret false => scan fuel e (at_key g') key statement
        | Ret true =>
            match committer e item with
            | Ret author => Some (Found author, at_key g')
            | Raise ex => Some (Raised ex, at_key g')
            end
        end
    end.
Proof.
  simpl. unfold at_key at 1. rewrite lookup_insert_eq.
  destruct (step e g) as [ev g']. rewrite at_key_again.
  destruct ev; reflexivity.
Qed.

Lemma scan_more fuel cache r :
  scan fuel e cache key statement = Some r ->
  forall fuel', fuel <= fuel' -> scan fuel' e cache key statement = Some r.
Proof.
  revert cache r. induction fuel as [|fuel IH]; intros cache r;
    [discriminate|].
  intros H fuel' Hle. destruct fuel' as [|fuel']; [lia|].
  simpl in *. destruct (cache !! key) as [g|]; [|exact H].
  destruct (step e g) as [ev g'].
  destruct ev as [u|item| |ex]; try exact H.
  - apply IH with (fuel' := fuel') in H; [exact H | lia].
  - destruct (blamed statement item) as [[|]|]; try exact H.
    apply IH with (fuel' := fuel') in H; [exact H | lia].
Qed.

(** Items without the statement are passed over, one per step. *)
Lemma scan_pass uri params items rest cursor fuel :
  Forall (fun i => blamed statement i = Ret false) items ->
  scan (length items + fuel) e
    (at_key (GItems uri params (items ++ rest) cursor)) key statement
  = scan fuel e (at_key (GItems uri params rest cursor)) key statement.
Proof.
  induction 1 as [|i items Hi _ IH]; [reflexivity|].
  change (length (i :: items) + fuel) with (S (length items + fuel)).
  rewrite scan_unfold. simpl. rewrite Hi. exact IH.
Qed.

(** From the top of the loop: the walk to the first item that has the
    statement. *)
Lemma scan_first_match uri item params author :
  first_match e uri statement item params ->
  committer e item = Ret author ->
  exists fuel g',
    scan fuel e (at_key (GFetch uri params)) key statement
    = Some (Found author, at_key g').
Proof.
  intros Hmatch Hauthor.
  induction Hmatch
    as [params r before after Hr Hjson Hbefore Hitem
       | params r page Hr Hnone Hn _ [fuel [g' IH]]].
  - exists (S (length before + 1)), (GItems uri params after (x_next_page r)).
    rewrite scan_unfold. simpl. rewrite Hr, Hjson.
    rewrite scan_pass by assumption.
    rewrite scan_unfold. simpl. now rewrite Hitem, Hauthor.
  - exists (S (length (json r) + fuel)), g'.
    rewrite scan_unfold. simpl. rewrite Hr.
    rewrite <- (app_nil_r (json r)) at 2.
    rewrite scan_pass by assumption.
    destruct fuel as [|fuel]; [discriminate|].
    rewrite scan_unfold in IH |- *. simpl in IH |- *. rewrite Hn.
    exact IH.
Qed.

(** From the top of the loop: the walk to the end without such an
    item. *)
Lemma scan_no_match uri params :
  no_match e uri statement params ->
  exists fuel,
    scan fuel e (at_key (GFetch uri params)) key statement
    = Some (Exhausted, at_key GDone).
Proof.
  induction 1
    as [params r Hr Hnone Hn | params r page Hr Hnone Hn _ [fuel IH]].
  - exists (S (length (json r) + 1)).
    rewrite scan_unfold. simpl. rewrite Hr.
    rewrite <- (app_nil_r (json r)) at 2.
    rewrite scan_pass by assumption.
    rewrite scan_unfold. simpl. now rewrite Hn.
  - exists (S (length (json r) + fuel)).
    rewrite scan_unfold. simpl. rewrite Hr.
    rewrite <- (app_nil_r (json r)) at 2.
    rewrite scan_pass by assumption.
    destruct fuel as [|fuel]; [discriminate|].
    rewrite scan_unfold in IH |- *. simpl in IH |- *. rewrite Hn.
    exact IH.
Qed.

End Scan.

(** The first candidate, when the memo table has nothing for its file:
    the most recent commit is looked up and the blame of the file at that
    commit is scanned from its first page. *)
Lemma try_candidate_fresh fuel e cache loggroup file time statement
    project_id last_commit :
  Py.get loggroup (Config.log_group_mappings (config e)) = Some project_id ->
  cache !! (project_id, file, time) = None ->
  fetch_most_recent_commit e project_id time = Ret last_commit ->
  try_candidate fuel e cache loggroup file time statement
  = scan fuel e
      (<[(project_id, file, time) :=
           GFetch (blame_uri project_id file) [("ref", last_commit)]]> cache)
      (project_id, file, time) statement.
Proof.
  intros Hmap Hcache Hcommit.
  unfold try_candidate, Config.get_project_for_log_group, item.
  rewrite Hmap. simpl. unfold fetch_blame. rewrite Hcache, Hcommit.
  reflexivity.
Qed.

End ScanFacts.

(** X18.  The first candidate of a log, when the memo table has nothing
    for its file at the time of the log.  [blame] looks up the project of
    the log group and its most recent commit, and walks the blame of the
    file at that commit, page after page.
    - When the walk comes to a first item that has the statement among its
      trimmed lines, [blame] returns what [committer] gives for that item:
      the hash of the user name that [__get_user_identifiers] finds for the
      mail address of the author of the item's commit.  The items and the
      candidates after it are not looked at.
    - When the walk comes to its end without such an item and there is no
      other candidate, [blame] returns no author, and the generator that
      the memo table keeps for the file is finished. *)
Theorem blame_first_candidate :
  forall (e : GitLab.env) (cache : GitLab.blame_cache)
         (log : Py.dict Py.value) (loggroup : string) (timestamp : Z)
         (message file statement : string) (rest : list (string * string))
         (project_id : Z) (last_commit : string),
    Py.get "timestamp" log = Some (Py.VInt timestamp) ->
    Py.get "message" log = Some (Py.VStr message) ->
    Models.ErrorLog.get_error_info message = (file, statement) :: rest ->
    Py.get loggroup (Config.log_group_mappings (GitLab.config e))
    = Some project_id ->
    let time :=
      Models.ErrorLog.timestamp_to_zulustr (GitLab.clock e) timestamp in
    cache !! (project_id, file, time) = None ->
    GitLab.fetch_most_recent_commit e project_id time = Py.Ret last_commit ->
    (forall item mail userid,
        Blames.first_match e (GitLab.blame_uri project_id file) statement
          item [("ref", last_commit)] ->
        (let* commit := Py.vitem "commit" item in
         Py.vitem "author_email" commit) = Py.Ret (Py.VStr mail) ->
        GitLab.get_user_identifiers e mail = Py.Ret userid ->
        exists fuel0, forall fuel, fuel0 <= fuel ->
          exists cache',
            GitLab.blame fuel e cache log loggroup
            = Some (Py.Ret (Some (Models.User.hash_id userid)), cache'))
    /\ (Blames.no_match e (GitLab.blame_uri project_id file) statement
          [("ref", last_commit)] ->
        rest = [] ->
        exists fuel0, forall fuel, fuel0 <= fuel ->
          exists cache',
            GitLab.blame fuel e cache log loggroup = Some (Py.Ret None, cache')
            /\ cache' !! (project_id, file, time) = Some GitLab.GDone).
Proof.
  intros e cache log loggroup timestamp message file statement rest
         project_id last_commit Hts Hmsg Hinfo Hmap time Hcache Hcommit.
  assert (Hblame : forall fuel,
             GitLab.blame fuel e cache log loggroup
             = GitLab.blame_candidates fuel e cache loggroup time
                 ((file, statement) :: rest)).
  { intros fuel. unfold GitLab.blame, Py.item.
    rewrite Hts, Hmsg. cbn [Py.of_option Py.bind Py.as_int Py.as_str].
    now rewrite Hinfo. }
  split.
  - intros item mail userid Hmatch Hmail Huser.
    assert (Hauthor : GitLab.committer e item
                      = Py.Ret (Models.User.hash_id userid)).
    { unfold GitLab.committer.
      destruct (Py.vitem "commit" item) as [commit|]; [|discriminate].
      simpl in Hmail |- *. rewrite Hmail. simpl. now rewrite Huser. }
    destruct (ScanFacts.scan_first_match e cache (project_id, file, time)
                statement _ item _ _ Hmatch Hauthor) as (fuel0 & g' & Hscan).
    exists fuel0. intros fuel Hle.
    exists (<[(project_id, file, time) := g']> cache).
    rewrite Hblame. cbn [GitLab.blame_candidates].
    rewrite (ScanFacts.try_candidate_fresh fuel e cache loggroup file time
               statement project_id last_commit Hmap Hcache Hcommit).
    now rewrite (ScanFacts.scan_more e _ statement _ _ _ Hscan fuel Hle).
  - intros Hnone ->.
    destruct (ScanFacts.scan_no_match e cache (project_id, file, time)
                statement _ _ Hnone) as (fuel0 & Hscan).
    exists fuel0. intros fuel Hle.
    exists (<[(project_id, file, time) := GitLab.GDone]> cache).
    rewrite Hblame. cbn [GitLab.blame_candidates].
    rewrite (ScanFacts.try_candidate_fresh fuel e cache loggroup file time
               statement project_id last_commit Hmap Hcache Hcommit).
    rewrite (ScanFacts.scan_more e _ statement _ _ _ Hscan fuel Hle).
    split; [reflexivity | apply lookup_insert_eq].
Qed.

(** The theorem on the traceback with the frame of [handle]: the line is
    on the first page of the blame, in the item committed by alice. *)
Lemma blame_first_candidate_witness :
  exists fuel0, forall fuel, fuel0 <= fuel ->
    exists cache',
      GitLab.blame fuel Remote.env GitLab.fresh
        (Remote.error_log Remote.outer_frame) "/aws/lambda/orders"
      = Some (Py.Ret (Some (Models.User.hash_id "alice")), cache').
Proof.
  refine (proj1 (blame_first_candidate Remote.env GitLab.fresh
                   (Remote.error_log Remote.outer_frame) "/aws/lambda/orders"
                   1680000000 Remote.outer_frame "app/handler.py"
                   "return load(event)" [] 7 "c0ffee"
                   eq_refl eq_refl _ eq_refl _ eq_refl)
            Remote.alice_lines "alice@example.org" "alice" _ eq_refl eq_refl).
  - vm_compute. reflexivity.
  - apply lookup_empty.
  - eapply (Blames.match_here Remote.env _ _ _ [("ref", "c0ffee")]
              (Remote.answer [Remote.alice_lines] (Some "2")) [] []).
    + reflexivity.
    + reflexivity.
    + constructor.
    + vm_compute. reflexivity.
Defined.

(* ===================================================================== *)
(** * Facts about the GitLab extraction *)
(* ===================================================================== *)

Module ExtractionFacts.

Import Py Extraction.

Lemma value_eqb_refl v : hashable v = true -> value_eqb v v = true.
Proof.
  destruct v; simpl; try discriminate; intros _.
  - reflexivity.
  - apply Z.eqb_refl.
  - apply String.eqb_refl.
Qed.

Lemma value_eqb_text s v : value_eqb (VStr s) v = true -> v = VStr s.
Proof.
  destruct v; simpl; try discriminate. intros E.
  apply String.eqb_eq in E. now subst.
Qed.

Lemma existsb_value_eqb id ids :
  hashable id = true ->
  existsb (value_eqb id) ids = false -> ~ In id ids.
Proof.
  intros Hh Hex Hin.
  assert (existsb (value_eqb id) ids = true) as Hc.
  { apply existsb_exists. exists id. split; [exact Hin|].
    now apply value_eqb_refl. }
  congruence.
Qed.

(** ** What a step of the extraction keeps and sends *)

Lemma sends_refl P st : sends P st st.
Proof. exists []. split; [now rewrite app_nil_r | constructor]. Qed.

Lemma sends_trans P a b c : sends P a b -> sends P b c -> sends P a c.
Proof.
  intros (s1 & Hq1 & Hs1) (s2 & Hq2 & Hs2). exists (s1 ++ s2). split.
  - now rewrite Hq2, Hq1, <- app_assoc.
  - apply Forall_app. now split.
Qed.

Lemma keeps_refl st : keeps st st.
Proof. split; [auto | apply incl_refl]. Qed.

Lemma keeps_trans a b c : keeps a b -> keeps b c -> keeps a c.
Proof.
  intros [Hab Iab] [Hbc Ibc]. split; [auto|].
  eapply incl_tran; eassumption.
Qed.

Lemma put_keeps label doc st :
  String.eqb label Models.User.LABEL = false ->
  keeps st (GitLab.put label doc st).
Proof.
  intros Hne. split; [|apply incl_refl].
  intros [Hids Hnd]. split; [|exact Hnd].
  unfold user_ids in *. simpl. rewrite StoreFacts.documents_for_app.
  simpl. rewrite Hne. now rewrite app_nil_r.
Qed.

Lemma put_sends (P : message -> Prop) label doc st :
  P (Some label, Some doc) -> sends P st (GitLab.put label doc st).
Proof.
  intros HP. exists [(Some label, Some doc)]. split; [reflexivity|].
  constructor; [exact HP | constructor].
Qed.

(** [__add_user] on a user: there is always an id, and a text has a
    hash. *)
Lemma add_user_text id st :
  GitLab.add_user [("id", VStr id)] st
  = Ret (if existsb (value_eqb (VStr id)) (GitLab.added_users st) then st
         else {| GitLab.queue :=
                   GitLab.queue st
                   ++ [(Some Models.User.LABEL, Some [("id", VStr id)])];
                 GitLab.added_users := GitLab.added_users st ++ [VStr id] |}).
Proof.
  unfold GitLab.add_user. simpl.
  destruct (existsb _ (GitLab.added_users st)); reflexivity.
Qed.

Lemma add_user_keeps user st st' :
  GitLab.add_user user st = Ret st' -> keeps st st'.
Proof.
  unfold GitLab.add_user, item.
  destruct (get "id" user) as [id|] eqn:Hid; [|discriminate]. simpl.
  destruct (hashable id) eqn:Hh; [|discriminate].
  destruct (existsb (value_eqb id) (GitLab.added_users st)) eqn:Hex;
    intros E; injection E as <-.
  - apply keeps_refl.
  - split; [|simpl; now apply incl_appl, incl_refl].
    intros [Hids Hnd]. split.
    + unfold user_ids in *. simpl.
      rewrite StoreFacts.documents_for_app, !map_app, Hids. simpl.
      now rewrite Hid.
    + simpl. apply List.NoDup_app; [exact Hnd| |].
      * constructor; [intros []|constructor].
      * intros x Hx [E|[]]. subst x.
        now apply (existsb_value_eqb id (GitLab.added_users st)).
Qed.

Lemma add_user_sends (P : message -> Prop) user st st' :
  P (Some Models.User.LABEL, Some user) ->
  GitLab.add_user user st = Ret st' -> sends P st st'.
Proof.
  intros HP. unfold GitLab.add_user, item.
  destruct (get "id" user) as [id|]; [|discriminate]. simpl.
  destruct (hashable id); [|discriminate].
  destruct (existsb (value_eqb id) (GitLab.added_users st));
    intros E; injection E as <-.
  - apply sends_refl.
  - exists [(Some Models.User.LABEL, Some user)]. split; [reflexivity|].
    constructor; [exact HP | constructor].
Qed.

(** After [__add_user] the id of the user is a key of the memo table. *)
Lemma add_user_added id st st' :
  GitLab.add_user [("id", VStr id)] st = Ret st' ->
  In (VStr id) (GitLab.added_users st').
Proof.
  rewrite add_user_text.
  destruct (existsb (value_eqb (VStr id)) (GitLab.added_users st)) eqn:Hex;
    intros E; injection E as <-.
  - apply existsb_exists in Hex. destruct Hex as (x & Hin & Hx).
    apply value_eqb_text in Hx. now subst.
  - simpl. apply in_or_app. right. now left.
Qed.

Lemma record_message_label label doc :
  In label Models.TYPE_LABELS ->
  Writer.record_message (Some label, Some doc).
Proof. intros Hin. exists label, doc. now split. Qed.

(** ** The loop over the pages *)

Lemma in_turn_app body a b st :
  in_turn body (a ++ b) st
  = match in_turn body a st with
    | (Ret _, st') => in_turn body b st'
    | (Raise ex, st') => (Raise ex, st')
    end.
Proof.
  revert st. induction a as [|x a IH]; intros st; simpl; [reflexivity|].
  destruct (body x st) as [[u|ex] st1]; [apply IH | reflexivity].
Qed.

Section Loop.

Variable e : GitLab.env.
Variable body : value -> GitLab.extractor -> res unit * GitLab.extractor.

Lemma for_each_more fuel :
  forall g st r,
    GitLab.for_each fuel e body g st = Some r ->
    forall fuel', fuel <= fuel' -> GitLab.for_each fuel' e body g st = Some r.
Proof.
  induction fuel as [|fuel IH]; intros g st r H fuel' Hle; [discriminate|].
  destruct fuel' as [|fuel']; [lia|]. simpl in H |- *.
  destruct (GitLab.step e g) as [[u|item| |ex] g']; try exact H.
  - apply (IH _ _ _ H). lia.
  - destruct (body item st) as [[u|ex] st1]; [|exact H].
    apply (IH _ _ _ H). lia.
Qed.

Lemma for_each_items uri params cursor items :
  forall st fuel,
    GitLab.for_each (length items + fuel) e body
      (GitLab.GItems uri params items cursor) st
    = match in_turn body items st with
      | (Ret _, st') =>
          GitLab.for_each fuel e body (GitLab.GItems uri params [] cursor) st'
      | (Raise ex, st') => Some (Raise ex, st')
      end.
Proof.
  induction items as [|x items IH]; intros st fuel; [reflexivity|].
  simpl. destruct (body x st) as [[u|ex] st1]; [apply IH | reflexivity].
Qed.

Lemma for_each_turn uri params cursor page fuel st :
  GitLab.next_page cursor = Some page ->
  GitLab.for_each fuel e body (GitLab.GItems uri params [] cursor) st
  = GitLab.for_each fuel e body
      (GitLab.GFetch uri (set "page" page params)) st.
Proof.
  intros Hpage. destruct fuel as [|fuel]; [reflexivity|]. simpl.
  rewrite Hpage. now destruct (GitLab.fetch e uri (set "page" page params)).
Qed.

Lemma for_each_page uri params r fuel st :
  GitLab.fetch e uri params = Ret r ->
  GitLab.for_each (S (length (GitLab.json r) + fuel)) e body
    (GitLab.GFetch uri params) st
  = match in_turn body (GitLab.json r) st with
    | (Ret _, st') =>
        GitLab.for_each fuel e body
          (GitLab.GItems uri params [] (GitLab.x_next_page r)) st'
    | (Raise ex, st') => Some (Raise ex, st')
    end.
Proof.
  intros Hr. cbn [GitLab.for_each GitLab.step]. rewrite Hr.
  apply for_each_items.
Qed.

Lemma for_each_chain uri params pages :
  Pages.page_chain e uri params pages ->
  exists fuel0, forall st,
    GitLab.for_each fuel0 e body (GitLab.GFetch uri params) st
    = Some (in_turn body (concat (map GitLab.json pages)) st).
Proof.
  induction 1 as [params r Hr Hlast | params r page rs Hr Hpage _ IH].
  - exists (S (length (GitLab.json r) + 1)). intros st.
    rewrite (for_each_page _ _ _ _ _ Hr). simpl. rewrite app_nil_r.
    destruct (in_turn body (GitLab.json r) st) as [[[]|ex] st1];
      [|reflexivity].
    now rewrite Hlast.
  - destruct IH as (fuel1 & IH).
    exists (S (length (GitLab.json r) + fuel1)). intros st.
    rewrite (for_each_page _ _ _ _ _ Hr). simpl. rewrite in_turn_app.
    destruct (in_turn body (GitLab.json r) st) as [[u|ex] st1];
      [|reflexivity].
    rewrite (for_each_turn _ _ _ _ _ _ Hpage). apply IH.
Qed.

Lemma for_each_broken uri ex params pages :
  Pages.broken_chain e uri ex params pages ->
  exists fuel0, forall st,
    GitLab.for_each fuel0 e body (GitLab.GFetch uri params) st
    = Some (match in_turn body (concat (map GitLab.json pages)) st with
            | (Ret _, st') => (Raise ex, st')
            | (Raise ex', st') => (Raise ex', st')
            end).
Proof.
  induction 1 as [params Hr | params r page rs Hr Hpage _ IH].
  - exists 1. intros st. simpl. now rewrite Hr.
  - destruct IH as (fuel1 & IH).
    exists (S (length (GitLab.json r) + fuel1)). intros st.
    rewrite (for_each_page _ _ _ _ _ Hr). simpl. rewrite in_turn_app.
    destruct (in_turn body (GitLab.json r) st) as [[u|ex'] st1];
      [|reflexivity].
    rewrite (for_each_turn _ _ _ _ _ _ Hpage). apply IH.
Qed.

Lemma for_each_reaches uri item params before :
  Pages.reaches e uri item params before ->
  exists fuel0, forall st st1 ex st2,
    in_turn body before st = (Ret tt, st1) ->
    body item st1 = (Raise ex, st2) ->
    GitLab.for_each fuel0 e body (GitLab.GFetch uri params) st
    = Some (Raise ex, st2).
Proof.
  induction 1 as [params r before after Hr Hjson
                 | params r page before Hr Hpage _ IH].
  - exists (S (length (GitLab.json r) + 0)). intros st st1 ex st2 Hb Hi.
    rewrite (for_each_page _ _ _ _ _ Hr), Hjson, in_turn_app, Hb.
    simpl. now rewrite Hi.
  - destruct IH as (fuel1 & IH).
    exists (S (length (GitLab.json r) + fuel1)).
    intros st st1 ex st2 Hb Hi. rewrite in_turn_app in Hb.
    rewrite (for_each_page _ _ _ _ _ Hr).
    destruct (in_turn body (GitLab.json r) st) as [[u|ex'] st0];
      [|discriminate].
    rewrite (for_each_turn _ _ _ _ _ _ Hpage). now apply (IH st0 st1).
Qed.

(** Whatever the body keeps and sends, the loop does. *)
Lemma for_each_keeps :
  (forall item st r st', body item st = (r, st') -> keeps st st') ->
  forall fuel g st r st',
    GitLab.for_each fuel e body g st = Some (r, st') -> keeps st st'.
Proof.
  intros Hbody. induction fuel as [|fuel IH]; intros g st r st'; simpl;
    [discriminate|].
  destruct (GitLab.step e g) as [[u|item| |ex] g'].
  - apply IH.
  - destruct (body item st) as [[u|ex] st1] eqn:Hb; apply Hbody in Hb.
    + intros H. apply IH in H. eapply keeps_trans; eassumption.
    + intros E; injection E as _ <-. exact Hb.
  - intros E; injection E as _ <-. apply keeps_refl.
  - intros E; injection E as _ <-. apply keeps_refl.
Qed.

Lemma for_each_sends (P : message -> Prop) :
  (forall item st r st', body item st = (r, st') -> sends P st st') ->
  forall fuel g st r st',
    GitLab.for_each fuel e body g st = Some (r, st') -> sends P st st'.
Proof.
  intros Hbody. induction fuel as [|fuel IH]; intros g st r st'; simpl;
    [discriminate|].
  destruct (GitLab.step e g) as [[u|item| |ex] g'].
  - apply IH.
  - destruct (body item st) as [[u|ex] st1] eqn:Hb; apply Hbody in Hb.
    + intros H. apply IH in H. eapply sends_trans; eassumption.
    + intros E; injection E as _ <-. exact Hb.
  - intros E; injection E as _ <-. apply sends_refl.
  - intros E; injection E as _ <-. apply sends_refl.
Qed.

End Loop.

(** ** Commits *)

Lemma handle_commit_keeps e project_id commit st r st' :
  GitLab.handle_commit e project_id commit st = (r, st') -> keeps st st'.
Proof.
  unfold GitLab.handle_commit.
  destruct (let* mail := vitem "author_email" commit in _) as [user|ex];
    [|intros E; injection E as _ <-; apply keeps_refl].
  destruct (GitLab.add_user user st) as [st1|ex] eqn:Hadd;
    [|intros E; injection E as _ <-; apply keeps_refl].
  apply add_user_keeps in Hadd.
  destruct (let* author_id := item "id" user in _) as [doc|ex];
    intros E; injection E as _ <-; [|exact Hadd].
  eapply keeps_trans; [exact Hadd|]. now apply put_keeps.
Qed.

Lemma handle_commit_sends e project_id commit st r st' :
  GitLab.handle_commit e project_id commit st = (r, st') ->
  sends Writer.record_message st st'.
Proof.
  unfold GitLab.handle_commit.
  destruct (let* mail := vitem "author_email" commit in _) as [user|ex];
    [|intros E; injection E as _ <-; apply sends_refl].
  destruct (GitLab.add_user user st) as [st1|ex] eqn:Hadd;
    [|intros E; injection E as _ <-; apply sends_refl].
  apply (add_user_sends Writer.record_message) in Hadd;
    [|apply record_message_label; unfold Models.TYPE_LABELS; simpl; tauto].
  destruct (let* author_id := item "id" user in _) as [doc|ex];
    intros E; injection E as _ <-; [|exact Hadd].
  eapply sends_trans; [exact Hadd|]. apply put_sends.
  apply record_message_label. unfold Models.TYPE_LABELS. simpl. tauto.
Qed.

(** ** Merge requests *)

Lemma handle_contributor_keeps merge contributor st r st' :
  GitLab.handle_contributor merge contributor st = (r, st') -> keeps st st'.
Proof.
  unfold GitLab.handle_contributor.
  destruct (Models.User.transform_merge_participants_input contributor)
    as [user|ex]; [|intros E; injection E as _ <-; apply keeps_refl].
  destruct (GitLab.add_user user st) as [st1|ex] eqn:Hadd;
    [|intros E; injection E as _ <-; apply keeps_refl].
  intros E; injection E as _ <-. now apply add_user_keeps in Hadd.
Qed.

Lemma handle_contributor_sends (P : message -> Prop) merge contributor
    st r st' :
  (forall user, P (Some Models.User.LABEL, Some user)) ->
  GitLab.handle_contributor merge contributor st = (r, st') ->
  sends P st st'.
Proof.
  intros HP. unfold GitLab.handle_contributor.
  destruct (Models.User.transform_merge_participants_input contributor)
    as [user|ex]; [|intros E; injection E as _ <-; apply sends_refl].
  destruct (GitLab.add_user user st) as [st1|ex] eqn:Hadd;
    [|intros E; injection E as _ <-; apply sends_refl].
  intros E; injection E as _ <-.
  now apply (add_user_sends P) in Hadd.
Qed.

Lemma handle_contributors_keeps participants merge st r st' :
  GitLab.handle_contributors merge participants st = (r, st') -> keeps st st'.
Proof.
  revert merge st. induction participants as [|p rest IH]; intros merge st.
  - simpl. intros E; injection E as _ <-. apply keeps_refl.
  - simpl.
    destruct (GitLab.handle_contributor merge p st) as [[m1|ex] st1] eqn:H1;
      apply handle_contributor_keeps in H1.
    + intros H2. apply IH in H2. eapply keeps_trans; eassumption.
    + intros E; injection E as _ <-. exact H1.
Qed.

Lemma handle_contributors_sends (P : message -> Prop) participants merge
    st r st' :
  (forall user, P (Some Models.User.LABEL, Some user)) ->
  GitLab.handle_contributors merge participants st = (r, st') ->
  sends P st st'.
Proof.
  intros HP. revert merge st.
  induction participants as [|p rest IH]; intros merge st.
  - simpl. intros E; injection E as _ <-. apply sends_refl.
  - simpl.
    destruct (GitLab.handle_contributor merge p st) as [[m1|ex] st1] eqn:H1;
      apply (handle_contributor_sends P) in H1; try exact HP.
    + intros H2. apply IH in H2. eapply sends_trans; eassumption.
    + intros E; injection E as _ <-. exact H1.
Qed.

Lemma handle_merge_keeps e project_id dataset st r st' :
  GitLab.handle_merge e project_id dataset st = (r, st') -> keeps st st'.
Proof.
  unfold GitLab.handle_merge.
  destruct (let* merge := Models.Merge.from_input _ _ _ in _)
    as [[merge participants]|ex];
    [|intros E; injection E as _ <-; apply keeps_refl].
  destruct (GitLab.handle_contributors merge participants st)
    as [[m1|ex] st1] eqn:H1; apply handle_contributors_keeps in H1;
    intros E; injection E as _ <-; [|exact H1].
  eapply keeps_trans; [exact H1|]. now apply put_keeps.
Qed.

Lemma handle_merge_sends e project_id dataset st r st' :
  GitLab.handle_merge e project_id dataset st = (r, st') ->
  sends Writer.record_message st st'.
Proof.
  assert (forall user,
             Writer.record_message (Some Models.User.LABEL, Some user)) as HP.
  { intros user. apply record_message_label.
    unfold Models.TYPE_LABELS. simpl. tauto. }
  unfold GitLab.handle_merge.
  destruct (let* merge := Models.Merge.from_input _ _ _ in _)
    as [[merge participants]|ex];
    [|intros E; injection E as _ <-; apply sends_refl].
  destruct (GitLab.handle_contributors merge participants st)
    as [[m1|ex] st1] eqn:H1;
    apply (handle_contributors_sends Writer.record_message) in H1;
    try exact HP; intros E; injection E as _ <-; [|exact H1].
  eapply sends_trans; [exact H1|]. apply put_sends.
  apply record_message_label. unfold Models.TYPE_LABELS. simpl. tauto.
Qed.

(** ** The records of the commits *)

Lemma transform_input_author clk data project_id author_id doc :
  Models.Commit.transform_input clk data project_id author_id = Ret doc ->
  get "author_id" doc = Some author_id.
Proof.
  unfold Models.Commit.transform_input.
  destruct (vitem "id" data); [|discriminate]. simpl.
  destruct (vitem "short_id" data); [|discriminate]. simpl.
  destruct (vitem "authored_date" data) as [date|]; [|discriminate]. simpl.
  destruct (Models.isoformat_epoch clk date); [|discriminate]. simpl.
  destruct (vitem "stats" data) as [stats|]; [|discriminate]. simpl.
  destruct (vitem "total" stats); [|discriminate]. simpl.
  intros E; injection E as <-. reflexivity.
Qed.

Lemma documents_for_put label doc st :
  Writer.documents_for label (GitLab.queue (GitLab.put label doc st))
  = Writer.documents_for label (GitLab.queue st) ++ [doc].
Proof.
  simpl. rewrite StoreFacts.documents_for_app. simpl.
  now rewrite String.eqb_refl.
Qed.

(** What [__add_user] puts on the queue is a user. *)
Lemma add_user_documents label user st st' :
  String.eqb Models.User.LABEL label = false ->
  GitLab.add_user user st = Ret st' ->
  Writer.documents_for label (GitLab.queue st')
  = Writer.documents_for label (GitLab.queue st).
Proof.
  intros Hne. unfold GitLab.add_user, item.
  destruct (get "id" user) as [id|]; [|discriminate]. simpl.
  destruct (hashable id); [|discriminate].
  destruct (existsb (value_eqb id) (GitLab.added_users st));
    intros E; injection E as <-; [reflexivity|].
  cbn [GitLab.queue]. rewrite StoreFacts.documents_for_app.
  cbn [Writer.documents_for]. rewrite Hne. apply app_nil_r.
Qed.

(** The body of the loop on a commit that has a record: the author is
    added, the record is put on the queue. *)
Lemma handle_commit_record e project_id commit doc st :
  commit_record e project_id commit doc ->
  exists st1,
    GitLab.handle_commit e project_id commit st
    = (Ret tt, GitLab.put Models.Commit.LABEL doc st1)
    /\ keeps st st1
    /\ Writer.documents_for Models.Commit.LABEL (GitLab.queue st1)
       = Writer.documents_for Models.Commit.LABEL (GitLab.queue st)
    /\ exists author,
         get "author_id" doc = Some author
         /\ In author (GitLab.added_users st1).
Proof.
  intros (mail & userid & Hmail & Huser & Hdoc).
  destruct (GitLab.add_user (Models.User.transform_user_id userid) st)
    as [st1|ex] eqn:Hadd;
    [|unfold Models.User.transform_user_id in Hadd;
      rewrite add_user_text in Hadd; discriminate].
  exists st1. split; [|split; [|split]].
  - unfold GitLab.handle_commit. rewrite Hmail. simpl. rewrite Huser.
    simpl. rewrite Hadd. simpl. now rewrite Hdoc.
  - now apply add_user_keeps in Hadd.
  - now apply (add_user_documents Models.Commit.LABEL) in Hadd.
  - exists (VStr (Models.User.hash_id userid)). split.
    + now apply transform_input_author in Hdoc.
    + now apply add_user_added in Hadd.
Qed.

Lemma in_turn_commits e project_id commits docs :
  Forall2 (commit_record e project_id) commits docs ->
  forall st, exists st',
    in_turn (GitLab.handle_commit e project_id) commits st = (Ret tt, st')
    /\ keeps st st'
    /\ Writer.documents_for Models.Commit.LABEL (GitLab.queue st')
       = Writer.documents_for Models.Commit.LABEL (GitLab.queue st) ++ docs
    /\ Forall (fun doc => exists author,
                 get "author_id" doc = Some author
                 /\ In author (GitLab.added_users st'))
         docs.
Proof.
  induction 1 as [|commit doc commits docs Hrec _ IH]; intros st.
  - exists st. split; [reflexivity|]. split; [apply keeps_refl|].
    split; [now rewrite app_nil_r | constructor].
  - destruct (handle_commit_record e project_id commit doc st Hrec)
      as (st1 & Hrun & Hkeep & Hdocs & author & Hauthor & Hin).
    destruct (IH (GitLab.put Models.Commit.LABEL doc st1))
      as (st' & Hrest & Hkeep' & Hdocs' & Hauthors).
    exists st'. simpl. rewrite Hrun. split; [exact Hrest|].
    split; [|split].
    + eapply keeps_trans; [exact Hkeep|].
      eapply keeps_trans; [|exact Hkeep']. now apply put_keeps.
    + rewrite Hdocs', documents_for_put, Hdocs, <- app_assoc. reflexivity.
    + constructor; [|exact Hauthors].
      exists author. split; [exact Hauthor|].
      now apply (proj2 Hkeep').
Qed.

Lemma registered_user_ids st id :
  registered st -> In id (GitLab.added_users st) ->
  In (Some id) (user_ids (GitLab.queue st)).
Proof. intros [Hids _] Hin. rewrite <- Hids. now apply in_map. Qed.

(** ** The records of the merge requests *)

(** What [Merge.from_input] returns is a merge request without
    contributors, whose author is a text. *)
Lemma from_input_shape clk data acr merge :
  Models.Merge.from_input clk data acr = Ret merge ->
  exists id internal_id project author timestamp story_id,
    merge = merge_of id internal_id project author timestamp [] story_id.
Proof.
  unfold Models.Merge.from_input, Models.Merge.transform_dataset.
  destruct (vitem "title" data) as [title|]; [|discriminate]. simpl.
  destruct (vitem "description" data) as [description|]; [|discriminate].
  simpl.
  destruct (match title with VStr t => _ | _ => _ end) as [text|];
    [|discriminate]. simpl.
  destruct (match Re.search _ text with Some _ => _ | None => _ end)
    as [story|]; [|discriminate]. simpl.
  destruct (vitem "id" data) as [id|]; [|discriminate]. simpl.
  destruct (vitem "iid" data) as [iid|]; [|discriminate]. simpl.
  destruct (vitem "project_id" data) as [project|]; [|discriminate]. simpl.
  destruct (vitem "author" data) as [author|]; [|discriminate]. simpl.
  destruct (vitem "username" author) as [name|]; [|discriminate]. simpl.
  destruct (encodable name) as [username|]; [|discriminate]. simpl.
  destruct (vitem "merged_at" data) as [merged_at|]; [|discriminate]. simpl.
  destruct (Models.isoformat_epoch clk merged_at) as [timestamp|];
    [|discriminate]. simpl.
  generalize (Models.User.hash_id username) as hashed.
  generalize (Models.Merge.accept_story_id story) as story_id.
  intros story_id hashed E. vm_compute in E. injection E as <-.
  now exists id, iid, project, hashed, timestamp, story_id.
Qed.

Lemma participant_user contributor user :
  Models.User.transform_merge_participants_input contributor = Ret user ->
  exists username,
    vitem "username" contributor = Ret (VStr username)
    /\ user = [("id", VStr (Models.User.hash_id username))].
Proof.
  unfold Models.User.transform_merge_participants_input.
  destruct (vitem "username" contributor) as [[| |username| |]|];
    try discriminate.
  simpl. intros E; injection E as <-. now exists username.
Qed.

Lemma participant_username contributor username :
  vitem "username" contributor = Ret (VStr username) ->
  Models.User.transform_merge_participants_input contributor
  = Ret [("id", VStr (Models.User.hash_id username))].
Proof.
  intros H. unfold Models.User.transform_merge_participants_input.
  now rewrite H.
Qed.

Lemma joined_apart author ids id :
  ~ In (VStr author) ids -> ~ In (VStr author) (joined author ids id).
Proof.
  intros Hnot. unfold joined. destruct (String.eqb id author) eqn:E;
    [exact Hnot|].
  intros Hin. apply in_app_or in Hin. destruct Hin as [Hin|[Hin|[]]];
    [contradiction|].
  injection Hin as ->. now rewrite String.eqb_refl in E.
Qed.

(** The third component of the pair that the body of the inner loop
    returns on a participant that has a name. *)
Lemma handle_contributor_named id iid project author ts ids story
    contributor username st :
  vitem "username" contributor = Ret (VStr username) ->
  exists st',
    GitLab.handle_contributor
      (merge_of id iid project author ts ids story) contributor st
    = (Ret (merge_of id iid project author ts
              (joined author ids (Models.User.hash_id username)) story),
       st')
    /\ GitLab.add_user [("id", VStr (Models.User.hash_id username))] st
       = Ret st'.
Proof.
  intros Hname. unfold GitLab.handle_contributor.
  rewrite (participant_username _ _ Hname).
  generalize (Models.User.hash_id username) as hashed. intros hashed.
  destruct (GitLab.add_user [("id", VStr hashed)] st) as [st'|ex] eqn:Hadd;
    [|rewrite add_user_text in Hadd; discriminate].
  exists st'. split; [|reflexivity]. f_equal. unfold joined.
  simpl. destruct (String.eqb hashed author); reflexivity.
Qed.

(** Whatever the participants are, what comes out of the inner loop is
    the merge request with more contributors, none of them the author. *)
Lemma handle_contributors_shape id iid project author ts story participants :
  forall ids st merge st',
    GitLab.handle_contributors
      (merge_of id iid project author ts ids story) participants st
    = (Ret merge, st') ->
    ~ In (VStr author) ids ->
    exists ids',
      merge = merge_of id iid project author ts ids' story
      /\ ~ In (VStr author) ids'.
Proof.
  induction participants as [|p rest IH]; intros ids st merge st'.
  - simpl. intros E Hnot; injection E as <- _. now exists ids.
  - simpl.
    destruct (GitLab.handle_contributor _ p st) as [[m1|ex] st1] eqn:Hp;
      [|discriminate].
    assert (exists username, vitem "username" p = Ret (VStr username))
      as (username & Hname).
    { unfold GitLab.handle_contributor in Hp.
      destruct (Models.User.transform_merge_participants_input p)
        as [user|] eqn:Huser; [|discriminate].
      apply participant_user in Huser.
      destruct Huser as (u & Hu & _). now exists u. }
    destruct (handle_contributor_named id iid project author ts ids story
                p username st Hname) as (st1' & Hp' & _).
    rewrite Hp' in Hp. injection Hp as <- _.
    intros Hrest Hnot. apply (IH _ _ _ _ Hrest).
    now apply joined_apart.
Qed.

Lemma filter_joined author usernames :
  forall ids,
    fold_left (fun ids u => joined author ids (Models.User.hash_id u))
      usernames ids
    = ids ++ map VStr
               (List.filter (fun id => negb (String.eqb id author))
                  (map Models.User.hash_id usernames)).
Proof.
  induction usernames as [|u us IH]; intros ids; simpl;
    [now rewrite app_nil_r|].
  rewrite IH. unfold joined.
  destruct (String.eqb (Models.User.hash_id u) author); simpl;
    [reflexivity|]. now rewrite <- app_assoc.
Qed.

(** The inner loop on participants that all have a name. *)
Lemma handle_contributors_named id iid project author ts story
    participants usernames :
  Forall2 (fun participant username =>
             vitem "username" participant = Ret (VStr username))
    participants usernames ->
  forall ids st, exists st',
    GitLab.handle_contributors
      (merge_of id iid project author ts ids story) participants st
    = (Ret (merge_of id iid project author ts
              (fold_left
                 (fun ids u => joined author ids (Models.User.hash_id u))
                 usernames ids) story),
       st')
    /\ keeps st st'
    /\ Writer.documents_for Models.Merge.LABEL (GitLab.queue st')
       = Writer.documents_for Models.Merge.LABEL (GitLab.queue st)
    /\ Forall (fun u => In (VStr (Models.User.hash_id u))
                          (GitLab.added_users st'))
         usernames.
Proof.
  induction 1 as [|p u ps us Hname _ IH]; intros ids st.
  - exists st. split; [reflexivity|]. split; [apply keeps_refl|].
    split; [reflexivity | constructor].
  - destruct (handle_contributor_named id iid project author ts ids story
                p u st Hname) as (st1 & Hp & Hadd).
    destruct (IH (joined author ids (Models.User.hash_id u)) st1)
      as (st' & Hrest & Hkeep & Hdocs & Hin).
    exists st'. simpl. rewrite Hp. split; [exact Hrest|].
    split; [|split].
    + eapply keeps_trans; [|exact Hkeep]. now apply add_user_keeps in Hadd.
    + rewrite Hdocs.
      now apply (add_user_documents Models.Merge.LABEL) in Hadd.
    + constructor; [|exact Hin].
      apply (proj2 Hkeep). now apply add_user_added in Hadd.
Qed.

Lemma handle_contributors_app participants rest merge st merge' st' :
  GitLab.handle_contributors merge participants st = (Ret merge', st') ->
  GitLab.handle_contributors merge (participants ++ rest) st
  = GitLab.handle_contributors merge' rest st'.
Proof.
  revert merge st. induction participants as [|p ps IH]; intros merge st.
  - simpl. intros E; now injection E as <- <-.
  - simpl. destruct (GitLab.handle_contributor merge p st) as [[m1|ex] st1];
      [apply IH | discriminate].
Qed.

(** On a merge request of the documented types the two readings of
    [Merge.transform_input] agree. *)
Lemma transform_dataset_typed clk data acr :
  Models.Merge.transform_dataset clk (dataset_of data) acr
  = Models.Merge.transform_input clk data acr.
Proof.
  destruct data as [id iid project title [description|] username merged_at];
    unfold Models.Merge.transform_dataset, Models.Merge.transform_input,
      dataset_of;
    cbn [vitem item get of_option bind String.eqb Ascii.eqb Bool.eqb
         Models.Merge.mr_id Models.Merge.mr_iid Models.Merge.mr_project_id
         Models.Merge.mr_title Models.Merge.mr_description
         Models.Merge.mr_author_username Models.Merge.mr_merged_at
         encodable Models.isoformat_epoch];
    reflexivity.
Qed.

Lemma contributors_added author usernames added :
  Forall (fun u => In (VStr (Models.User.hash_id u)) added) usernames ->
  Forall (fun id => In id added)
    (map VStr
       (List.filter (fun id => negb (String.eqb id author))
          (map Models.User.hash_id usernames))).
Proof.
  induction 1 as [|u us Hu _ IH]; simpl; [constructor|].
  destruct (negb (String.eqb (Models.User.hash_id u) author)); [|exact IH].
  simpl. now constructor.
Qed.

(** The body of the outer loop on a merge request that has a record. *)
Lemma handle_merge_record e project_id dataset doc st :
  merge_record e project_id dataset doc ->
  exists st1,
    GitLab.handle_merge e project_id dataset st
    = (Ret tt, GitLab.put Models.Merge.LABEL doc st1)
    /\ keeps st st1
    /\ Writer.documents_for Models.Merge.LABEL (GitLab.queue st1)
       = Writer.documents_for Models.Merge.LABEL (GitLab.queue st)
    /\ exists ids,
         get "contributor_ids" doc = Some (VList ids)
         /\ Forall (fun id => In id (GitLab.added_users st1)) ids.
Proof.
  intros (id & iid & project & author & ts & story & participants
          & usernames & Hmerge & Hfetch & Hnames & ->).
  destruct (handle_contributors_named id iid project author ts story
              participants usernames Hnames [] st)
    as (st1 & Hrun & Hkeep & Hdocs & Hadded).
  exists st1. split; [|split; [exact Hkeep | split; [exact Hdocs|]]].
  - unfold GitLab.handle_merge. rewrite Hmerge.
    cbn [bind GitLab.attribute of_option get String.eqb Ascii.eqb Bool.eqb
         merge_of].
    rewrite Hfetch. cbn [bind]. rewrite Hrun.
    now rewrite filter_joined.
  - eexists. split; [reflexivity|]. now apply contributors_added.
Qed.

Lemma in_turn_merges e project_id datasets docs :
  Forall2 (merge_record e project_id) datasets docs ->
  forall st, exists st',
    in_turn (GitLab.handle_merge e project_id) datasets st = (Ret tt, st')
    /\ keeps st st'
    /\ Writer.documents_for Models.Merge.LABEL (GitLab.queue st')
       = Writer.documents_for Models.Merge.LABEL (GitLab.queue st) ++ docs
    /\ Forall (fun doc => exists ids,
                 get "contributor_ids" doc = Some (VList ids)
                 /\ Forall (fun id => In id (GitLab.added_users st')) ids)
         docs.
Proof.
  induction 1 as [|dataset doc datasets docs Hrec _ IH]; intros st.
  - exists st. split; [reflexivity|]. split; [apply keeps_refl|].
    split; [now rewrite app_nil_r | constructor].
  - destruct (handle_merge_record e project_id dataset doc st Hrec)
      as (st1 & Hrun & Hkeep & Hdocs & ids & Hids & Hin).
    destruct (IH (GitLab.put Models.Merge.LABEL doc st1))
      as (st' & Hrest & Hkeep' & Hdocs' & Hall).
    exists st'. simpl. rewrite Hrun. split; [exact Hrest|].
    split; [|split].
    + eapply keeps_trans; [exact Hkeep|].
      eapply keeps_trans; [|exact Hkeep']. now apply put_keeps.
    + rewrite Hdocs', documents_for_put, Hdocs, <- app_assoc. reflexivity.
    + constructor; [|exact Hall]. exists ids. split; [exact Hids|].
      eapply Forall_impl; [exact Hin|]. intros id0 H0.
      now apply (proj2 Hkeep').
Qed.

(** Every merge request that the body of the outer loop puts on the
    queue has its author apart from its contributors. *)
Lemma handle_merge_apart e project_id dataset st r st' :
  GitLab.handle_merge e project_id dataset st = (r, st') ->
  sends (fun m => forall doc,
           m = (Some Models.Merge.LABEL, Some doc) -> author_apart doc)
    st st'.
Proof.
  set (P := fun m : message => forall doc,
              m = (Some Models.Merge.LABEL, Some doc) -> author_apart doc).
  assert (forall user, P (Some Models.User.LABEL, Some user)) as HP.
  { intros user doc E. discriminate. }
  unfold GitLab.handle_merge.
  destruct (Models.Merge.from_input _ dataset _) as [merge|ex] eqn:Hmerge;
    [|intros E; injection E as _ <-; apply sends_refl].
  apply from_input_shape in Hmerge.
  destruct Hmerge as (id & iid & project & author & ts & story & ->).
  cbn [bind GitLab.attribute of_option get String.eqb Ascii.eqb Bool.eqb
       merge_of].
  destruct (GitLab.fetch_single e _ []) as [participants|ex];
    [|intros E; injection E as _ <-; apply sends_refl].
  cbn [bind].
  destruct (GitLab.handle_contributors _ participants st)
    as [[m1|ex] st1] eqn:H1.
  - intros E; injection E as _ <-.
    eapply sends_trans;
      [apply (handle_contributors_sends P _ _ _ _ _ HP H1)|].
    apply put_sends. intros doc E. injection E as <-.
    apply handle_contributors_shape in H1; [|intros []].
    destruct H1 as (ids' & -> & Hnot).
    exists (VStr author), ids'. now split.
  - intros E; injection E as _ <-.
    apply (handle_contributors_sends P _ _ _ _ _ HP H1).
Qed.

Lemma documents_for_all (P : message -> Prop) (Q : dict value -> Prop)
    label msgs :
  (forall m, P m -> forall doc, m = (Some label, Some doc) -> Q doc) ->
  Forall P msgs -> Forall Q (Writer.documents_for label msgs).
Proof.
  intros HPQ. induction 1 as [|[[l|] [d|]] msgs Hm _ IH]; simpl;
    try exact IH; [constructor|].
  destruct (String.eqb l label) eqn:E; [|exact IH].
  apply String.eqb_eq in E. subst l. constructor; [|exact IH].
  now apply (HPQ _ Hm).
Qed.

Lemma NoDup_map_Some {A} (l : list A) :
  List.NoDup l -> List.NoDup (map Some l).
Proof.
  induction 1 as [|x l Hx _ IH]; simpl; constructor; [|exact IH].
  intros Hin. apply in_map_iff in Hin. destruct Hin as (y & E & Hy).
  injection E as ->. contradiction.
Qed.

Lemma registered_once st :
  registered st ->
  List.NoDup (Writer.documents_for Models.User.LABEL (GitLab.queue st)).
Proof.
  intros [Hids Hnd]. unfold user_ids in Hids.
  apply (List.NoDup_map_inv (get "id")). rewrite <- Hids.
  now apply NoDup_map_Some.
Qed.

Lemma registered_started : registered GitLab.started.
Proof. split; [reflexivity | constructor]. Qed.

End ExtractionFacts.

(** X19.  The memo table of [__add_user] at work.  When the table is in
    line with the queue (it has the ids of the users on the queue, none
    twice), then after [__fetch_commits_and_authors] and after
    [__fetch_merges_and_contributors], however they end, it is so again:
    no user is on the queue twice, the author of several commits and the
    participant of several merge requests included.  What the two put on
    the queue goes to its end, and every message of it has a label that
    the writer has a table for. *)
Theorem users_queued_once :
  forall (fuel : nat) (e : GitLab.env) (project_id : Z)
         (st st' : GitLab.extractor) (r : Py.res unit),
    Extraction.registered st ->
    GitLab.fetch_commits_and_authors fuel e project_id st = Some (r, st')
    \/ GitLab.fetch_merges_and_contributors fuel e project_id st
       = Some (r, st') ->
    Extraction.registered st'
    /\ List.NoDup
         (Writer.documents_for Models.User.LABEL (GitLab.queue st'))
    /\ exists sent,
         GitLab.queue st' = GitLab.queue st ++ sent
         /\ Forall Writer.record_message sent.
Proof.
  intros fuel e project_id st st' r Hreg Hrun.
  assert (Extraction.keeps st st'
          /\ Extraction.sends Writer.record_message st st')
    as [[Hkeep _] Hsent].
  { destruct Hrun as [Hrun|Hrun]; split.
    - eapply ExtractionFacts.for_each_keeps; [|exact Hrun].
      intros item s r0 s'. apply ExtractionFacts.handle_commit_keeps.
    - eapply ExtractionFacts.for_each_sends; [|exact Hrun].
      intros item s r0 s'. apply ExtractionFacts.handle_commit_sends.
    - eapply ExtractionFacts.for_each_keeps; [|exact Hrun].
      intros item s r0 s'. apply ExtractionFacts.handle_merge_keeps.
    - eapply ExtractionFacts.for_each_sends; [|exact Hrun].
      intros item s r0 s'. apply ExtractionFacts.handle_merge_sends. }
  split; [auto|]. split; [|exact Hsent].
  apply ExtractionFacts.registered_once. auto.
Qed.

(** The theorem on the commits of project 7, fetched by an extractor that
    has just been started: alice is the author of two of the three commits
    and is on the queue once. *)
Lemma users_queued_once_witness :
  List.NoDup
    (Writer.documents_for Models.User.LABEL
       (GitLab.queue Remote.after_commits)).
Proof.
  refine (proj1 (proj2 (users_queued_once 10 Remote.history 7 GitLab.started
                          Remote.after_commits (Py.Ret tt)
                          ExtractionFacts.registered_started
                          (or_introl _)))).
  vm_compute. reflexivity.
Defined.

(** X20.  The commits of a project, when every commit of the walk has a
    record (its author is found, its fields are there and its date is
    read).  When the walk through the pages comes to its end,
    [__fetch_commits_and_authors] returns; when a request of the walk
    fails, it ends with the exception of the request.  In both cases the
    queue has one more commit for every commit of the pages that were
    served, in their order, each with the hashed name of the user found for
    the mail of its author, and that user is on the queue. *)
Theorem commits_extracted :
  forall (e : GitLab.env) (project_id : Z) (pages : list GitLab.response)
         (documents : list (Py.dict Py.value)) (st : GitLab.extractor),
    Extraction.registered st ->
    Forall2 (Extraction.commit_record e project_id)
      (concat (map GitLab.json pages)) documents ->
    let extracted (r : Py.res unit) :=
      exists fuel0, forall fuel, fuel0 <= fuel ->
        exists st',
          GitLab.fetch_commits_and_authors fuel e project_id st
          = Some (r, st')
          /\ Writer.documents_for Models.Commit.LABEL (GitLab.queue st')
             = Writer.documents_for Models.Commit.LABEL (GitLab.queue st)
               ++ documents
          /\ Forall (fun document => exists author,
                       Py.get "author_id" document = Some author
                       /\ In (Some author)
                            (Extraction.user_ids (GitLab.queue st')))
               documents in
    (Pages.page_chain e (GitLab.commits_uri project_id)
       (GitLab.commits_params (GitLab.config e)) pages ->
     extracted (Py.Ret tt))
    /\ (forall ex,
          Pages.broken_chain e (GitLab.commits_uri project_id) ex
            (GitLab.commits_params (GitLab.config e)) pages ->
          extracted (Py.Raise ex)).
Proof.
  intros e project_id pages documents st Hreg Hrecords extracted.
  destruct (ExtractionFacts.in_turn_commits e project_id _ _ Hrecords st)
    as (st' & Hturn & [Hkeep _] & Hdocs & Hauthors).
  assert (Forall (fun document => exists author,
                    Py.get "author_id" document = Some author
                    /\ In (Some author)
                         (Extraction.user_ids (GitLab.queue st')))
            documents) as Husers.
  { eapply Forall_impl; [exact Hauthors|].
    intros doc (author & Hauthor & Hin). exists author.
    split; [exact Hauthor|].
    apply ExtractionFacts.registered_user_ids; auto. }
  split.
  - intros Hchain.
    destruct (ExtractionFacts.for_each_chain e
                (GitLab.handle_commit e project_id) _ _ _ Hchain)
      as (fuel0 & Hrun).
    exists fuel0. intros fuel Hle. exists st'. split; [|now split].
    unfold GitLab.fetch_commits_and_authors, GitLab.fetch_all.
    apply (ExtractionFacts.for_each_more _ _ fuel0); [|exact Hle].
    now rewrite Hrun, Hturn.
  - intros ex Hchain.
    destruct (ExtractionFacts.for_each_broken e
                (GitLab.handle_commit e project_id) _ _ _ _ Hchain)
      as (fuel0 & Hrun).
    exists fuel0. intros fuel Hle. exists st'. split; [|now split].
    unfold GitLab.fetch_commits_and_authors, GitLab.fetch_all.
    apply (ExtractionFacts.for_each_more _ _ fuel0); [|exact Hle].
    now rewrite Hrun, Hturn.
Qed.

(** X21.  The first commit of the walk at which the loop of
    [__fetch_commits_and_authors] fails, the commits before it having
    their records.  The extraction ends there with the exception; the
    commits before are on the queue, no commit after them is.
    - When the search has no user for the mail of the author and
      [user_alias] has no entry for it, the exception is the [KeyError] of
      the mail, and nothing is put on the queue for the commit.
    - When the request of the search fails, the exception is that of the
      request, and nothing is put on the queue for the commit.
    - When the author is found and the commit cannot be transformed (a
      field is missing, the date is not read), the exception is that of
      [Commit.transform_input]; the author has been added before, and is
      on the queue without the commit. *)
Theorem commit_failure :
  forall (e : GitLab.env) (project_id : Z) (before : list Py.value)
         (commit : Py.value) (documents : list (Py.dict Py.value))
         (mail : string) (st : GitLab.extractor),
    Extraction.registered st ->
    Pages.reaches e (GitLab.commits_uri project_id) commit
      (GitLab.commits_params (GitLab.config e)) before ->
    Forall2 (Extraction.commit_record e project_id) before documents ->
    Py.vitem "author_email" commit = Py.Ret (Py.VStr mail) ->
    exists fuel0 st1,
      Extraction.in_turn (GitLab.handle_commit e project_id) before st
      = (Py.Ret tt, st1)
      /\ Writer.documents_for Models.Commit.LABEL (GitLab.queue st1)
         = Writer.documents_for Models.Commit.LABEL (GitLab.queue st)
           ++ documents
      /\ (GitLab.fetch_single e "/search"
            [("scope", "users"); ("search", mail)] = Py.Ret [] ->
          Py.get mail (Config.user_alias (GitLab.config e)) = None ->
          forall fuel, fuel0 <= fuel ->
            GitLab.fetch_commits_and_authors fuel e project_id st
            = Some (Py.Raise (Py.KeyError mail), st1))
      /\ (forall ex,
            GitLab.fetch_single e "/search"
              [("scope", "users"); ("search", mail)] = Py.Raise ex ->
            forall fuel, fuel0 <= fuel ->
              GitLab.fetch_commits_and_authors fuel e project_id st
              = Some (Py.Raise ex, st1))
      /\ (forall userid ex,
            GitLab.find_user_identifiers e (Py.VStr mail)
            = Py.Ret (Py.VStr userid) ->
            Models.Commit.transform_input (GitLab.clock e) commit
              (Py.VInt project_id) (Py.VStr (Models.User.hash_id userid))
            = Py.Raise ex ->
            forall fuel, fuel0 <= fuel ->
              exists st2,
                GitLab.fetch_commits_and_authors fuel e project_id st
                = Some (Py.Raise ex, st2)
                /\ Writer.documents_for Models.Commit.LABEL (GitLab.queue st2)
                   = Writer.documents_for Models.Commit.LABEL (GitLab.queue st)
                     ++ documents
                /\ In (Some (Py.VStr (Models.User.hash_id userid)))
                     (Extraction.user_ids (GitLab.queue st2))).
Proof.
  intros e project_id before commit documents mail st Hreg Hreach Hrecords
         Hmail.
  destruct (ExtractionFacts.in_turn_commits e project_id _ _ Hrecords st)
    as (st1 & Hturn & [Hkeep _] & Hdocs & _).
  destruct (ExtractionFacts.for_each_reaches e
              (GitLab.handle_commit e project_id) _ _ _ _ Hreach)
    as (fuel0 & Hrun).
  exists fuel0, st1. split; [exact Hturn|]. split; [exact Hdocs|].
  assert (forall ex st2,
             GitLab.handle_commit e project_id commit st1 = (Py.Raise ex, st2) ->
             forall fuel, fuel0 <= fuel ->
               GitLab.fetch_commits_and_authors fuel e project_id st
               = Some (Py.Raise ex, st2)) as Hstop.
  { intros ex st2 Hbody fuel Hle.
    unfold GitLab.fetch_commits_and_authors, GitLab.fetch_all.
    apply (ExtractionFacts.for_each_more _ _ fuel0); [|exact Hle].
    now apply (Hrun st st1). }
  split; [|split].
  - intros Hsearch Halias. apply Hstop.
    unfold GitLab.handle_commit, GitLab.find_user_identifiers.
    rewrite Hmail. simpl. rewrite Hsearch. simpl.
    unfold Config.get_user_id, Py.item. now rewrite Halias.
  - intros ex Hsearch. apply Hstop.
    unfold GitLab.handle_commit, GitLab.find_user_identifiers.
    rewrite Hmail. simpl. now rewrite Hsearch.
  - intros userid ex Huser Hdoc fuel Hle.
    destruct (GitLab.add_user (Models.User.transform_user_id userid) st1)
      as [st2|ex'] eqn:Hadd;
      [|unfold Models.User.transform_user_id in Hadd;
        rewrite ExtractionFacts.add_user_text in Hadd; discriminate].
    exists st2. split; [|split].
    + apply Hstop; [|exact Hle].
      unfold GitLab.handle_commit. rewrite Hmail. simpl. rewrite Huser.
      simpl. rewrite Hadd. simpl. now rewrite Hdoc.
    + rewrite <- Hdocs.
      now apply (ExtractionFacts.add_user_documents Models.Commit.LABEL)
        in Hadd.
    + apply ExtractionFacts.registered_user_ids.
      * apply (ExtractionFacts.add_user_keeps _ _ _ Hadd). auto.
      * now apply ExtractionFacts.add_user_added in Hadd.
Qed.

(** X22.  The author of a merge request is never among its
    contributors.  Whatever the remote answers and however
    [__fetch_merges_and_contributors] ends, every merge request it has put
    on the queue has a list of contributors in which the id of its author
    does not occur: a participant whose hashed name is the author id is
    added as a user, not as a contributor. *)
Theorem merge_author_apart :
  forall (fuel : nat) (e : GitLab.env) (project_id : Z)
         (st st' : GitLab.extractor) (r : Py.res unit),
    GitLab.fetch_merges_and_contributors fuel e project_id st
    = Some (r, st') ->
    exists sent,
      GitLab.queue st' = GitLab.queue st ++ sent
      /\ Forall Extraction.author_apart
           (Writer.documents_for Models.Merge.LABEL sent).
Proof.
  intros fuel e project_id st st' r Hrun.
  destruct (ExtractionFacts.for_each_sends e
              (GitLab.handle_merge e project_id)
              (fun m => forall doc,
                 m = (Some Models.Merge.LABEL, Some doc) ->
                 Extraction.author_apart doc)
              (fun item s r0 s' =>
                 ExtractionFacts.handle_merge_apart e project_id item s r0 s')
              fuel _ st r st' Hrun) as (sent & Hqueue & Hsent).
  exists sent. split; [exact Hqueue|].
  eapply ExtractionFacts.documents_for_all; [|exact Hsent].
  intros m Hm doc E. now apply Hm.
Qed.

(** The theorem on the merge request of project 7, of which alice is the
    author and a participant. *)
Lemma merge_author_apart_witness :
  exists sent,
    GitLab.queue Remote.after_merges
    = GitLab.queue Remote.after_commits ++ sent
    /\ Forall Extraction.author_apart
         (Writer.documents_for Models.Merge.LABEL sent).
Proof.
  apply (merge_author_apart 10 Remote.history 7 Remote.after_commits
           Remote.after_merges (Py.Ret tt)).
  vm_compute. reflexivity.
Defined.

(** X23.  The merge requests of a project, when every merge request of
    the walk has a record: it is transformed, the request for its
    participants is answered, and every participant has a name.  When the
    walk comes to its end [__fetch_merges_and_contributors] returns, when a
    request of the walk fails it ends with the exception of the request.
    In both cases the queue has one more merge request for every merge
    request of the pages that were served, in their order; its
    contributors are the hashed names of its participants, in the order of
    the API, without the author, and each of them is on the queue as a
    user. *)
Theorem merges_extracted :
  forall (e : GitLab.env) (project_id : Z) (pages : list GitLab.response)
         (documents : list (Py.dict Py.value)) (st : GitLab.extractor),
    Extraction.registered st ->
    Forall2 (Extraction.merge_record e project_id)
      (concat (map GitLab.json pages)) documents ->
    let extracted (r : Py.res unit) :=
      exists fuel0, forall fuel, fuel0 <= fuel ->
        exists st',
          GitLab.fetch_merges_and_contributors fuel e project_id st
          = Some (r, st')
          /\ Writer.documents_for Models.Merge.LABEL (GitLab.queue st')
             = Writer.documents_for Models.Merge.LABEL (GitLab.queue st)
               ++ documents
          /\ Forall (fun document => exists ids,
                       Py.get "contributor_ids" document
                       = Some (Py.VList ids)
                       /\ Forall (fun id =>
                                    In (Some id)
                                      (Extraction.user_ids (GitLab.queue st')))
                            ids)
               documents in
    (Pages.page_chain e (GitLab.merges_uri project_id)
       (GitLab.merges_params (GitLab.config e)) pages ->
     extracted (Py.Ret tt))
    /\ (forall ex,
          Pages.broken_chain e (GitLab.merges_uri project_id) ex
            (GitLab.merges_params (GitLab.config e)) pages ->
          extracted (Py.Raise ex)).
Proof.
  intros e project_id pages documents st Hreg Hrecords extracted.
  destruct (ExtractionFacts.in_turn_merges e project_id _ _ Hrecords st)
    as (st' & Hturn & [Hkeep _] & Hdocs & Hadded).
  assert (Forall (fun document => exists ids,
                    Py.get "contributor_ids" document = Some (Py.VList ids)
                    /\ Forall (fun id =>
                                 In (Some id)
                                   (Extraction.user_ids (GitLab.queue st')))
                         ids)
            documents) as Husers.
  { eapply Forall_impl; [exact Hadded|].
    intros doc (ids & Hids & Hin). exists ids. split; [exact Hids|].
    eapply Forall_impl; [exact Hin|]. intros id Hid.
    apply ExtractionFacts.registered_user_ids; auto. }
  split.
  - intros Hchain.
    destruct (ExtractionFacts.for_each_chain e
                (GitLab.handle_merge e project_id) _ _ _ Hchain)
      as (fuel0 & Hrun).
    exists fuel0. intros fuel Hle. exists st'. split; [|now split].
    unfold GitLab.fetch_merges_and_contributors, GitLab.fetch_all.
    apply (ExtractionFacts.for_each_more _ _ fuel0); [|exact Hle].
    now rewrite Hrun, Hturn.
  - intros ex Hchain.
    destruct (ExtractionFacts.for_each_broken e
                (GitLab.handle_merge e project_id) _ _ _ _ Hchain)
      as (fuel0 & Hrun).
    exists fuel0. intros fuel Hle. exists st'. split; [|now split].
    unfold GitLab.fetch_merges_and_contributors, GitLab.fetch_all.
    apply (ExtractionFacts.for_each_more _ _ fuel0); [|exact Hle].
    now rewrite Hrun, Hturn.
Qed.

(** X24.  The first merge request of the walk at which the loop of
    [__fetch_merges_and_contributors] fails, the merge requests before it
    having their records and the merge request itself being
    transformed.
    - When the request for its participants fails, the extraction ends
      with the exception of the request; nothing is put on the queue for
      the merge request.
    - When a participant cannot be transformed (it has no name, or its
      name is not a text), the extraction ends with the exception of
      [User.transform_merge_participants_input]; the participants before it
      have been added as users, and the merge request is not put on the
      queue: it is lost with the contributors found so far. *)
Theorem merge_failure :
  forall (e : GitLab.env) (project_id : Z) (before : list Py.value)
         (dataset : Py.value) (documents : list (Py.dict Py.value))
         (id internal_id project story_id : Py.value) (author : string)
         (timestamp : Z) (st : GitLab.extractor),
    Pages.reaches e (GitLab.merges_uri project_id) dataset
      (GitLab.merges_params (GitLab.config e)) before ->
    Forall2 (Extraction.merge_record e project_id) before documents ->
    Models.Merge.from_input (GitLab.clock e) dataset
      (Config.project_acronym (GitLab.config e))
    = Py.Ret (Extraction.merge_of id internal_id project author timestamp []
                story_id) ->
    exists fuel0 st1,
      Extraction.in_turn (GitLab.handle_merge e project_id) before st
      = (Py.Ret tt, st1)
      /\ Writer.documents_for Models.Merge.LABEL (GitLab.queue st1)
         = Writer.documents_for Models.Merge.LABEL (GitLab.queue st)
           ++ documents
      /\ (forall ex,
            GitLab.fetch_single e
              (GitLab.participants_uri project_id internal_id) []
            = Py.Raise ex ->
            forall fuel, fuel0 <= fuel ->
              GitLab.fetch_merges_and_contributors fuel e project_id st
              = Some (Py.Raise ex, st1))
      /\ (forall participants usernames bad rest ex,
            GitLab.fetch_single e
              (GitLab.participants_uri project_id internal_id) []
            = Py.Ret (participants ++ bad :: rest) ->
            Forall2 (fun participant username =>
                       Py.vitem "username" participant
                       = Py.Ret (Py.VStr username))
              participants usernames ->
            Models.User.transform_merge_participants_input bad
            = Py.Raise ex ->
            forall fuel, fuel0 <= fuel ->
              exists st2,
                GitLab.fetch_merges_and_contributors fuel e project_id st
                = Some (Py.Raise ex, st2)
                /\ Writer.documents_for Models.Merge.LABEL (GitLab.queue st2)
                   = Writer.documents_for Models.Merge.LABEL (GitLab.queue st)
                     ++ documents
                /\ Forall (fun username =>
                             In (Py.VStr (Models.User.hash_id username))
                               (GitLab.added_users st2))
                     usernames).
Proof.
  intros e project_id before dataset documents id internal_id project
         story_id author timestamp st Hreach Hrecords Hmerge.
  destruct (ExtractionFacts.in_turn_merges e project_id _ _ Hrecords st)
    as (st1 & Hturn & _ & Hdocs & _).
  destruct (ExtractionFacts.for_each_reaches e
              (GitLab.handle_merge e project_id) _ _ _ _ Hreach)
    as (fuel0 & Hrun).
  exists fuel0, st1. split; [exact Hturn|]. split; [exact Hdocs|].
  assert (forall ex st2,
             GitLab.handle_merge e project_id dataset st1 = (Py.Raise ex, st2) ->
             forall fuel, fuel0 <= fuel ->
               GitLab.fetch_merges_and_contributors fuel e project_id st
               = Some (Py.Raise ex, st2)) as Hstop.
  { intros ex st2 Hbody fuel Hle.
    unfold GitLab.fetch_merges_and_contributors, GitLab.fetch_all.
    apply (ExtractionFacts.for_each_more _ _ fuel0); [|exact Hle].
    now apply (Hrun st st1). }
  split.
  - intros ex Hfetch. apply Hstop.
    unfold GitLab.handle_merge. rewrite Hmerge.
    cbn [Py.bind GitLab.attribute Py.of_option Py.get String.eqb Ascii.eqb
         Bool.eqb Extraction.merge_of].
    now rewrite Hfetch.
  - intros participants usernames bad rest ex Hfetch Hnames Hbad fuel Hle.
    destruct (ExtractionFacts.handle_contributors_named id internal_id
                project author timestamp story_id participants usernames
                Hnames [] st1)
      as (st2 & Hpart & _ & Hdocs2 & Hadded).
    exists st2. split; [|split; [now rewrite Hdocs2 | exact Hadded]].
    apply Hstop; [|exact Hle].
    unfold GitLab.handle_merge. rewrite Hmerge.
    cbn [Py.bind GitLab.attribute Py.of_option Py.get String.eqb Ascii.eqb
         Bool.eqb Extraction.merge_of].
    rewrite Hfetch. cbn [Py.bind].
    rewrite (ExtractionFacts.handle_contributors_app _ _ _ _ _ _ Hpart).
    cbn [GitLab.handle_contributors]. unfold GitLab.handle_contributor.
    now rewrite Hbad.
Qed.

(** The theorem on the commits of project 7, on two pages. *)
Lemma commits_extracted_witness :
  exists fuel0, forall fuel, fuel0 <= fuel ->
    exists st',
      GitLab.fetch_commits_and_authors fuel Remote.history 7 GitLab.started
      = Some (Py.Ret tt, st')
      /\ Writer.documents_for Models.Commit.LABEL (GitLab.queue st')
         = Writer.documents_for Models.Commit.LABEL
             (GitLab.queue GitLab.started)
           ++ Remote.commit_documents
      /\ Forall (fun document => exists author,
                   Py.get "author_id" document = Some author
                   /\ In (Some author)
                        (Extraction.user_ids (GitLab.queue st')))
           Remote.commit_documents.
Proof.
  refine (proj1 (commits_extracted Remote.history 7 Remote.commit_pages
                   Remote.commit_documents GitLab.started
                   ExtractionFacts.registered_started _) _).
  - unfold Remote.commit_pages, Remote.commit_documents.
    cbn [concat map GitLab.json Remote.answer app].
    constructor;
      [exists (Py.VStr "alice@example.org"), "alice"; repeat split;
       vm_compute; reflexivity|].
    constructor;
      [exists (Py.VStr "bob@example.org"), "bob"; repeat split;
       vm_compute; reflexivity|].
    constructor;
      [exists (Py.VStr "alice@example.org"), "alice"; repeat split;
       vm_compute; reflexivity|].
    constructor.
  - unfold Remote.commit_pages.
    eapply Pages.chain_next with (page := "2");
      [vm_compute; reflexivity | vm_compute; reflexivity |].
    eapply Pages.chain_last; vm_compute; reflexivity.
Defined.

(** The theorem on the commits of project 8: the search does not know
    the author of the second commit. *)
Lemma commit_failure_witness :
  exists fuel0, forall fuel, fuel0 <= fuel ->
    GitLab.fetch_commits_and_authors fuel Remote.history 8 GitLab.started
    = Some (Py.Raise (Py.KeyError "dave@example.org"), Remote.before_dave).
Proof.
  destruct (commit_failure Remote.history 8
              [Remote.commit_of "d1" "bob@example.org" 2]
              (Remote.commit_of "d2" "dave@example.org" 3)
              [Remote.commit_document 8 "d1" "bob" 2]
              "dave@example.org" GitLab.started
              ExtractionFacts.registered_started)
    as (fuel0 & st1 & Hturn & _ & Hunknown & _).
  - eapply (Pages.reaches_here Remote.history _ _ _ _ _
              [Remote.commit_of "d3" "alice@example.org" 4]);
      vm_compute; reflexivity.
  - constructor; [|constructor].
    exists (Py.VStr "bob@example.org"), "bob". repeat split;
      vm_compute; reflexivity.
  - reflexivity.
  - exists fuel0. intros fuel Hle.
    assert ((Py.Ret tt, st1) = (Py.Ret tt, Remote.before_dave)) as E.
    { rewrite <- Hturn. vm_compute. reflexivity. }
    injection E as ->.
    apply Hunknown; [vm_compute; reflexivity | reflexivity | exact Hle].
Defined.

(** The theorem on the merge request of project 7. *)
Lemma merges_extracted_witness :
  exists fuel0, forall fuel, fuel0 <= fuel ->
    exists st',
      GitLab.fetch_merges_and_contributors fuel Remote.history 7
        GitLab.started
      = Some (Py.Ret tt, st')
      /\ Writer.documents_for Models.Merge.LABEL (GitLab.queue st')
         = Writer.documents_for Models.Merge.LABEL
             (GitLab.queue GitLab.started)
           ++ [Remote.merge_document]
      /\ Forall (fun document => exists ids,
                   Py.get "contributor_ids" document = Some (Py.VList ids)
                   /\ Forall (fun id =>
                                In (Some id)
                                  (Extraction.user_ids (GitLab.queue st')))
                        ids)
           [Remote.merge_document].
Proof.
  refine (proj1 (merges_extracted Remote.history 7
                   [Remote.answer
                      [Remote.merge_request 3 "PROJP-12 fix the handler"
                         "alice"] None]
                   [Remote.merge_document] GitLab.started
                   ExtractionFacts.registered_started _) _).
  - cbn [concat map GitLab.json Remote.answer app].
    constructor; [|constructor].
    exists (Py.VInt 103), (Py.VInt 3), (Py.VInt 7),
      (Models.User.hash_id "alice"), 0%Z, (Py.VInt 12),
      [Remote.participant "alice"; Remote.participant "bob";
       Remote.participant "carol"],
      ["alice"; "bob"; "carol"].
    split; [vm_compute; reflexivity|].
    split; [vm_compute; reflexivity|].
    split; [repeat constructor | vm_compute; reflexivity].
  - eapply Pages.chain_last; vm_compute; reflexivity.
Defined.

(** The theorem on the merge request of project 8, whose participants
    the remote does not list. *)
Lemma merge_failure_witness :
  exists fuel0, forall fuel, fuel0 <= fuel ->
    GitLab.fetch_merges_and_contributors fuel Remote.history 8 GitLab.started
    = Some (Py.Raise
              (Py.GitLabError "/projects/8/merge_requests/4/participants"),
            GitLab.started).
Proof.
  destruct (merge_failure Remote.history 8 []
              (Remote.merge_request 4 "no story" "bob") []
              (Py.VInt 104) (Py.VInt 4) (Py.VInt 7) Py.VNone
              (Models.User.hash_id "bob") 0%Z GitLab.started)
    as (fuel0 & st1 & Hturn & _ & Hfails & _).
  - eapply (Pages.reaches_here Remote.history _ _ _ _ _ []);
      vm_compute; reflexivity.
  - constructor.
  - vm_compute. reflexivity.
  - exists fuel0. intros fuel Hle.
    injection Hturn as <-.
    apply Hfails; [vm_compute; reflexivity | exact Hle].
Defined.

(* ===================================================================== *)
(** * Facts about the calculation of the code ownership *)
(* ===================================================================== *)

Module ShareFacts.

Import Py Calculation Shares.

Lemma get_set_other {V} k k' (v : V) d :
  k <> k' -> get k' (set k v d) = get k' d.
Proof.
  intros Hne. induction d as [|[k0 v0] d IH]; simpl.
  - destruct (String.eqb k' k) eqn:E; [|reflexivity].
    apply String.eqb_eq in E. congruence.
  - destruct (String.eqb k k0) eqn:E; simpl.
    + apply String.eqb_eq in E. subst k0.
      destruct (String.eqb k' k) eqn:E'; [|reflexivity].
      apply String.eqb_eq in E'. congruence.
    + destruct (String.eqb k' k0); [reflexivity | exact IH].
Qed.

Lemma set_twice {V} k (v v0 : V) d : set k v (set k v0 d) = set k v d.
Proof.
  induction d as [|[k0 v1] d IH]; simpl.
  - now rewrite String.eqb_refl.
  - destruct (String.eqb k k0) eqn:E; simpl.
    + now rewrite String.eqb_refl.
    + now rewrite E, IH.
Qed.

(** The body of the loop in one step: the entry of the author, a new one
    if there is none, counts one commit and its lines more. *)
Lemma tally_eq d c :
  tally d c
  = set (author_id c)
      (fst (default (0, 0)%Z (get (author_id c) d)) + 1,
       snd (default (0, 0)%Z (get (author_id c) d)) + changed_loc c)%Z d.
Proof.
  unfold tally. destruct (get (author_id c) d) as [[n l]|] eqn:E.
  - rewrite E. reflexivity.
  - rewrite DictFacts.get_set. simpl. apply set_twice.
Qed.

Lemma keys_tally commits :
  forall d,
    keys (fold_left tally commits d)
    = keys d ++ Records.first_occurrences (keys d) (map author_id commits).
Proof.
  induction commits as [|c commits IH]; intros d; simpl.
  - now rewrite app_nil_r.
  - rewrite IH, tally_eq.
    destruct (existsb (String.eqb (author_id c)) (keys d)) eqn:E.
    + apply ExtractorFacts.existsb_eqb_In in E.
      now rewrite DictFacts.keys_set_old.
    + assert (~ In (author_id c) (keys d)) as Hout.
      { intros H. apply ExtractorFacts.existsb_eqb_In in H. congruence. }
      rewrite DictFacts.keys_set_new by assumption.
      now rewrite <- app_assoc.
Qed.

Lemma NoDup_keys_tally commits :
  forall d, List.NoDup (keys d) ->
            List.NoDup (keys (fold_left tally commits d)).
Proof.
  induction commits as [|c commits IH]; intros d Hd; simpl; [exact Hd|].
  apply IH. rewrite tally_eq. now apply DictFacts.NoDup_keys_set.
Qed.

Lemma count_cons a c commits :
  count a (c :: commits)
  = ((if String.eqb (author_id c) a then 1 else 0) + count a commits)%Z.
Proof.
  unfold count, by_author. simpl.
  destruct (String.eqb (author_id c) a); simpl length; lia.
Qed.

Lemma locc_cons a c commits :
  locc a (c :: commits)
  = ((if String.eqb (author_id c) a then changed_loc c else 0)
     + locc a commits)%Z.
Proof.
  unfold locc, by_author. simpl.
  destruct (String.eqb (author_id c) a); simpl; lia.
Qed.

(** What the loop leaves under a name: the entry it found there and the
    commits of the name on top of it. *)
Lemma get_tally commits :
  forall d a,
    get a (fold_left tally commits d)
    = match get a d with
      | Some (n, l) => Some (n + count a commits, l + locc a commits)%Z
      | None =>
          if existsb (String.eqb a) (map author_id commits)
          then Some (count a commits, locc a commits)
          else None
      end.
Proof.
  induction commits as [|c commits IH]; intros d a.
  - simpl. destruct (get a d) as [[n l]|]; [|reflexivity].
    unfold count, locc. simpl. now rewrite !Z.add_0_r.
  - cbn [fold_left map existsb]. rewrite IH, tally_eq, count_cons, locc_cons.
    destruct (String.eqb (author_id c) a) eqn:E.
    + apply String.eqb_eq in E. subst a.
      rewrite DictFacts.get_set, String.eqb_refl. simpl.
      destruct (get (author_id c) d) as [[n l]|]; simpl;
        apply f_equal, f_equal2; lia.
    + assert (author_id c <> a) as Hne by now apply String.eqb_neq.
      rewrite (get_set_other _ _ _ _ Hne).
      rewrite String.eqb_sym, E. simpl.
      destruct (get a d) as [[n l]|]; [|reflexivity].
      apply f_equal, f_equal2; lia.
Qed.

Lemma dict_by_keys {V} (f : string -> V) (d : dict V) :
  List.NoDup (keys d) ->
  (forall k, In k (keys d) -> get k d = Some (f k)) ->
  d = map (fun k => (k, f k)) (keys d).
Proof.
  induction d as [|[k v] d IH]; intros Hnd Hget; [reflexivity|].
  simpl in Hnd. apply NoDup_cons_iff in Hnd as [Hk Hnd]. simpl. f_equal.
  - specialize (Hget k (or_introl eq_refl)). simpl in Hget.
    rewrite String.eqb_refl in Hget. now injection Hget as ->.
  - apply IH; [exact Hnd|]. intros k' Hk'.
    specialize (Hget k' (or_intror Hk')). simpl in Hget.
    destruct (String.eqb k' k) eqn:E; [|exact Hget].
    apply String.eqb_eq in E. subst k'. contradiction.
Qed.

(** The table of the contributors after the loop. *)
Lemma contributors_table commits :
  fold_left tally commits []
  = map (fun a => (a, (count a commits, locc a commits))) (authors commits).
Proof.
  assert (keys (fold_left tally commits ([] : dict (Z * Z)))
          = authors commits) as Hkeys.
  { now rewrite keys_tally. }
  rewrite <- Hkeys. apply dict_by_keys.
  - apply NoDup_keys_tally. constructor.
  - intros a Ha. rewrite get_tally. simpl.
    rewrite Hkeys in Ha. apply ExtractorFacts.in_first_occurrences in Ha.
    destruct Ha as [Ha _].
    apply ExtractorFacts.existsb_eqb_In in Ha. now rewrite Ha.
Qed.

Lemma in_authors a commits :
  In a (authors commits) <-> In a (map author_id commits).
Proof.
  unfold authors. rewrite ExtractorFacts.in_first_occurrences. tauto.
Qed.

Lemma fold_left_add values :
  forall acc, fold_left Z.add values acc
              = (acc + fold_right Z.add 0 values)%Z.
Proof.
  induction values as [|v values IH]; intros acc; simpl; [lia|].
  rewrite IH. lia.
Qed.

Lemma sum_total commits : sum (map changed_loc commits) = total commits.
Proof. unfold sum, total. now rewrite fold_left_add. Qed.

Lemma ownership_shares_table {F} (ar : arithmetic F) commits names :
  ownership_shares ar
    (map (fun a => (a, (count a commits, locc a commits))) names)
    (Z.of_nat (length commits)) (total commits)
  = shares ar commits names.
Proof.
  induction names as [|name names IH]; simpl; [reflexivity|].
  unfold share at 1.
  destruct (ownership ar _ _ _ _); [|reflexivity]. now rewrite IH.
Qed.

(** The calculation in terms of the shares. *)
Lemma calculate_author {F} (ar : arithmetic F) c commits author a :
  given author = Some a ->
  calculate_ownership ar (c :: commits) author
  = if existsb (String.eqb a) (map author_id (c :: commits))
    then share ar (c :: commits) a
    else Failed (KeyError a).
Proof.
  intros Hgiven. unfold calculate_ownership. rewrite Hgiven.
  rewrite get_tally, sum_total.
  cbn [get]. destruct (existsb _ _); reflexivity.
Qed.

Lemma calculate_project {F} (ar : arithmetic F) c commits author :
  given author = None ->
  calculate_ownership ar (c :: commits) author
  = match shares ar (c :: commits) (authors (c :: commits)) with
    | Returned (x :: xs) => Returned (largest ar x xs)
    | Returned [] => Failed ValueError
    | Failed f => Failed f
    end.
Proof.
  intros Hgiven. unfold calculate_ownership. rewrite Hgiven.
  now rewrite contributors_table, sum_total, ownership_shares_table.
Qed.

Lemma authors_cons c commits :
  exists rest, authors (c :: commits) = author_id c :: rest.
Proof. unfold authors. simpl. eauto. Qed.

(** The first division of a share is by the number of the commits. *)
Lemma count_bounds a commits :
  (0 <= count a commits <= Z.of_nat (length commits))%Z.
Proof.
  unfold count, by_author. split; [lia|].
  apply Nat2Z.inj_le. induction commits as [|c commits IH]; simpl; [lia|].
  destruct (String.eqb (author_id c) a); simpl; lia.
Qed.

Lemma share_zero {F} (ar : arithmetic F) c commits a :
  fractions ar ->
  total (c :: commits) = 0%Z ->
  share ar (c :: commits) a = Failed ZeroDivisionError.
Proof.
  intros Hno Hzero. unfold share, ownership, truediv. rewrite Hzero.
  destruct (Z.of_nat (length (c :: commits)) =? 0)%Z eqn:E;
    [apply Z.eqb_eq in E; simpl in E; lia|].
  destruct (quotient ar _ _) eqn:Hq; [reflexivity|].
  apply Hno in Hq; [contradiction | apply count_bounds|].
  now apply Z.eqb_neq.
Qed.

Lemma share_divides {F} (ar : arithmetic F) c commits a :
  share ar (c :: commits) a = Failed ZeroDivisionError ->
  total (c :: commits) = 0%Z.
Proof.
  unfold share, ownership, truediv.
  destruct (Z.of_nat (length (c :: commits)) =? 0)%Z eqn:E;
    [apply Z.eqb_eq in E; simpl in E; lia|].
  destruct (quotient ar _ (Z.of_nat _)); [|discriminate].
  destruct (total (c :: commits) =? 0)%Z eqn:E'.
  - intros _. now apply Z.eqb_eq.
  - destruct (quotient ar _ _); discriminate.
Qed.

Lemma shares_divide {F} (ar : arithmetic F) c commits names :
  shares ar (c :: commits) names = Failed ZeroDivisionError ->
  total (c :: commits) = 0%Z.
Proof.
  induction names as [|name names IH]; simpl; [discriminate|].
  destruct (share ar (c :: commits) name) as [x|f] eqn:Hs.
  - destruct (shares ar (c :: commits) names) as [xs|f']; [discriminate|].
    intros E. injection E as ->. now apply IH.
  - intros E. injection E as ->. now apply share_divides in Hs.
Qed.

Lemma shares_length {F} (ar : arithmetic F) commits names xs :
  shares ar commits names = Returned xs -> length xs = length names.
Proof.
  revert xs. induction names as [|name names IH]; intros xs; simpl.
  - intros E. now injection E as <-.
  - destruct (share ar commits name); [|discriminate].
    destruct (shares ar commits names) as [ys|]; [|discriminate].
    intros E. injection E as <-. simpl. now rewrite (IH ys).
Qed.

End ShareFacts.

(** X25.  How [calculate_ownership] fails.
    - Without commits it returns [1.0], also for an author, who then has
      no commit.
    - With commits, for an author who has none of them, it raises the
      [KeyError] of the author.
    - With commits, for the project or for an author who has one of them,
      it raises [ZeroDivisionError] exactly when the commits have changed
      no line in total (the number of the commits is never the divisor that
      is zero), the quotient of two numbers of commits being a number
      between zero and one and never too large.
    - [max] is never called on an empty list. *)
Theorem ownership_failures :
  forall (F : Type) (ar : Calculation.arithmetic F)
         (commits : list Calculation.commit) (author : option string),
    (commits = [] ->
     Calculation.calculate_ownership ar commits author
     = Calculation.Returned (Calculation.one ar))
    /\ (forall a,
          commits <> [] ->
          Calculation.given author = Some a ->
          ~ In a (map Calculation.author_id commits) ->
          Calculation.calculate_ownership ar commits author
          = Calculation.Failed (Calculation.KeyError a))
    /\ (commits <> [] ->
        Shares.fractions ar ->
        (forall a, Calculation.given author = Some a ->
                   In a (map Calculation.author_id commits)) ->
        (Calculation.calculate_ownership ar commits author
         = Calculation.Failed Calculation.ZeroDivisionError
         <-> Shares.total commits = 0%Z))
    /\ Calculation.calculate_ownership ar commits author
       <> Calculation.Failed Calculation.ValueError.
Proof.
  intros F ar commits author. split; [|split; [|split]].
  - intros ->. reflexivity.
  - intros a Hne Hgiven Hout. destruct commits as [|c commits]; [congruence|].
    rewrite (ShareFacts.calculate_author ar c commits author a Hgiven).
    destruct (existsb _ _) eqn:E; [|reflexivity].
    apply ExtractorFacts.existsb_eqb_In in E. contradiction.
  - intros Hne Hno Hknown. destruct commits as [|c commits]; [congruence|].
    destruct (Calculation.given author) as [a|] eqn:Hgiven.
    + rewrite (ShareFacts.calculate_author ar c commits author a Hgiven).
      specialize (Hknown a eq_refl).
      apply ExtractorFacts.existsb_eqb_In in Hknown. rewrite Hknown.
      split; [apply ShareFacts.share_divides|].
      now apply ShareFacts.share_zero.
    + rewrite (ShareFacts.calculate_project ar c commits author Hgiven).
      split.
      * destruct (Shares.shares ar (c :: commits) _) as [[|x xs]|f] eqn:Hs;
          try discriminate.
        intros E. injection E as ->.
        now apply ShareFacts.shares_divide in Hs.
      * intros Hzero.
        destruct (ShareFacts.authors_cons c commits) as (rest & ->).
        simpl. now rewrite (ShareFacts.share_zero ar c commits _ Hno Hzero).
  - destruct commits as [|c commits]; [discriminate|].
    destruct (Calculation.given author) as [a|] eqn:Hgiven.
    + rewrite (ShareFacts.calculate_author ar c commits author a Hgiven).
      destruct (existsb _ _); [|discriminate].
      unfold Shares.share, Calculation.ownership, Calculation.truediv.
      destruct (_ =? 0)%Z; [discriminate|].
      destruct (Calculation.quotient ar _ _); [|discriminate].
      destruct (_ =? 0)%Z; [discriminate|].
      destruct (Calculation.quotient ar _ _); discriminate.
    + rewrite (ShareFacts.calculate_project ar c commits author Hgiven).
      destruct (Shares.shares ar (c :: commits) _) as [[|x xs]|f] eqn:Hs;
        try discriminate; [|intros E; injection E as ->].
      * apply ShareFacts.shares_length in Hs.
        destruct (ShareFacts.authors_cons c commits) as (rest & Hrest).
        rewrite Hrest in Hs. discriminate.
      * exfalso. revert Hs. generalize (Shares.authors (c :: commits)).
        intros names. induction names as [|name names IH]; simpl;
          [discriminate|].
        destruct (Shares.share ar (c :: commits) name) as [x|f] eqn:Hx.
        -- destruct (Shares.shares ar (c :: commits) names); [discriminate|].
           intros E. injection E as ->. now apply IH.
        -- intros E. injection E as ->. revert Hx.
           unfold Shares.share, Calculation.ownership, Calculation.truediv.
           destruct (_ =? 0)%Z; [discriminate|].
           destruct (Calculation.quotient ar _ _); [|discriminate].
           destruct (_ =? 0)%Z; [discriminate|].
           destruct (Calculation.quotient ar _ _); discriminate.
Qed.

(** The theorem on two commits that changed no line: the calculation for
    the project divides by zero. *)
Lemma ownership_failures_witness :
  Calculation.calculate_ownership Ledger.terms Ledger.idle None
  = Calculation.Failed Calculation.ZeroDivisionError.
Proof.
  apply (proj1 (proj2 (proj2 (ownership_failures Ledger.term Ledger.terms
                                Ledger.idle None)))).
  - discriminate.
  - intros a b _ _. discriminate.
  - intros a. discriminate.
  - reflexivity.
Defined.

(** X26.  What [calculate_ownership] returns for a list of commits that
    is not empty.  For an author who has one of the commits it is the
    share of the author: [ownership] of the number of the author's commits
    and of the lines they changed, over the number of all commits and the
    lines that all of them changed.  For the project (no author, or the
    empty text) it is the largest of the shares of the authors, taken in
    the order of their first commit; the first share that fails, if one
    does, is how the calculation fails. *)
Theorem ownership_by_shares :
  forall (F : Type) (ar : Calculation.arithmetic F)
         (commits : list Calculation.commit) (author : option string),
    commits <> [] ->
    (forall a,
        Calculation.given author = Some a ->
        In a (map Calculation.author_id commits) ->
        Calculation.calculate_ownership ar commits author
        = Shares.share ar commits a)
    /\ (Calculation.given author = None ->
        match Shares.shares ar commits (Shares.authors commits) with
        | Calculation.Returned xs =>
            exists x rest,
              xs = x :: rest
              /\ Calculation.calculate_ownership ar commits author
                 = Calculation.Returned (Calculation.largest ar x rest)
        | Calculation.Failed f =>
            Calculation.calculate_ownership ar commits author
            = Calculation.Failed f
        end).
Proof.
  intros F ar commits author Hne.
  destruct commits as [|c commits]; [congruence|]. split.
  - intros a Hgiven Hin.
    rewrite (ShareFacts.calculate_author ar c commits author a Hgiven).
    apply ExtractorFacts.existsb_eqb_In in Hin. now rewrite Hin.
  - intros Hgiven.
    rewrite (ShareFacts.calculate_project ar c commits author Hgiven).
    destruct (Shares.shares ar (c :: commits) _) as [[|x xs]|f] eqn:Hs;
      [|eauto|reflexivity].
    apply ShareFacts.shares_length in Hs.
    destruct (ShareFacts.authors_cons c commits) as (rest & Hrest).
    rewrite Hrest in Hs. discriminate.
Qed.

(** The theorem on four commits, three of them of one author: the share
    of that author is half of 3/4 + 15/20. *)
Lemma ownership_by_shares_witness :
  Calculation.calculate_ownership Ledger.terms Ledger.history
    (Some "1cb2cf62")
  = Calculation.Returned
      (Ledger.Half (Ledger.Sum (Ledger.Quotient 3 4)
                               (Ledger.Quotient 15 20))).
Proof.
  rewrite (proj1 (ownership_by_shares Ledger.term Ledger.terms
                    Ledger.history (Some "1cb2cf62") ltac:(discriminate))
             "1cb2cf62" eq_refl).
  - reflexivity.
  - simpl. tauto.
Defined.
